(** * galaplate CLI: the archive-based scaffolding pipeline

    A shallow embedding of [cmd/galaplate/main.go] and the properties of
    its natural-language specification.

    Go strings are byte sequences and are modelled by [string]; the
    functions of the Go standard library that the program calls
    ([strings], [path/filepath], [regexp], [os], [io], [archive/tar],
    [net/http], [os/exec]) are modelled after their documented behaviour
    on a Unix system and keep their Go names, prefixed by the name of
    their package.

    The file system is a tree of directories and regular files with
    permission bits; a run of the program is a computation that changes
    a world made of the file system, the working directory, the umask
    and the trace of the calls made.  What the environment decides (the
    name of the scratch directory, the answer of the server with the
    archive it sends, the effect of the external tools) is a parameter
    of the program.  Outside the model are: what the program prints,
    access rights, symbolic links and other special files, and changes
    of the file system by other processes during a run.

    The file has two parts: the definitions (the library functions, the
    program, the notions the properties are stated with, the worlds of
    the examples), then the lemmas and the properties C1 to C10. *)

From Stdlib Require Import Ascii String List ZArith Lia Bool Arith.
Import ListNotations.

Set Warnings "-register-all".

Local Open Scope string_scope.
Local Open Scope list_scope.

Notation "a +++ b" := (String.append a b) (at level 60, right associativity).

(* ===================================================================== *)
(** ** Package [strings] *)
(* ===================================================================== *)

(** Whether [s] starts with [pre]. *)
Fixpoint has_prefix (pre s : string) : bool :=
  match pre with
  | EmptyString => true
  | String a pre' =>
      match s with
      | EmptyString => false
      | String b s' => Ascii.eqb a b && has_prefix pre' s'
      end
  end.

(** [strings.HasPrefix(s, prefix)] *)
Definition strings_HasPrefix (s pre : string) : bool := has_prefix pre s.

(** [s[n:]] *)
Fixpoint string_drop (n : nat) (s : string) : string :=
  match n, s with
  | O, _ => s
  | S _, EmptyString => EmptyString
  | S k, String _ s' => string_drop k s'
  end.

(** [s[:n]] *)
Fixpoint string_take (n : nat) (s : string) : string :=
  match n, s with
  | O, _ => EmptyString
  | S _, EmptyString => EmptyString
  | S k, String c s' => String c (string_take k s')
  end.

(** [strings.HasSuffix(s, suffix)]:
    [len(s) >= len(suffix) && s[len(s)-len(suffix):] == suffix] *)
Definition strings_HasSuffix (s suf : string) : bool :=
  (String.length suf <=? String.length s)%nat
  && String.eqb (string_drop (String.length s - String.length suf) s) suf.

(** [strings.TrimPrefix(s, prefix)] *)
Definition strings_TrimPrefix (s pre : string) : string :=
  if strings_HasPrefix s pre then string_drop (String.length pre) s else s.

(** [strings.TrimSuffix(s, suffix)] *)
Definition strings_TrimSuffix (s suf : string) : string :=
  if strings_HasSuffix s suf
  then string_take (String.length s - String.length suf) s
  else s.

(** [strings.Split(s, sep)] for a separator of one byte, the only kind
    the program uses.  The result is never empty: a string without the
    separator is returned as its single element. *)
Fixpoint strings_Split (s : string) (sep : ascii) : list string :=
  match s with
  | EmptyString => [EmptyString]
  | String c s' =>
      if Ascii.eqb c sep then EmptyString :: strings_Split s' sep
      else match strings_Split s' sep with
           | [] => [String c EmptyString]
           | h :: t => String c h :: t
           end
  end.

(** [strings.Join(elems, sep)] *)
Definition strings_Join (elems : list string) (sep : string) : string :=
  String.concat sep elems.

(** [strings.Contains(s, substr)] *)
Fixpoint strings_Contains (s sub : string) : bool :=
  has_prefix sub s
  || match s with
     | EmptyString => false
     | String _ s' => strings_Contains s' sub
     end.

(** The scan of [strings.ReplaceAll]: left to right, at every position
    where [old] starts the output receives [new] and the scan resumes
    after the occurrence ([skip] counts the bytes of the occurrence still
    to be passed over), so the occurrences replaced do not overlap. *)
Fixpoint replace_scan (old new : string) (skip : nat) (s : string) : string :=
  match s with
  | EmptyString => EmptyString
  | String c s' =>
      match skip with
      | S k => replace_scan old new k s'
      | O =>
          if has_prefix old s
          then new +++ replace_scan old new (String.length old - 1) s'
          else String c (replace_scan old new 0 s')
      end
  end.

(** [strings.ReplaceAll(s, old, new)].  Every pattern the program passes
    is a non-empty constant; the special treatment Go gives to the empty
    pattern (an insertion at every rune boundary) is outside the model,
    which leaves [s] as it is there. *)
Definition strings_ReplaceAll (s old new : string) : string :=
  match old with
  | EmptyString => s
  | String _ _ => replace_scan old new 0 s
  end.

(** [slices.Contains(l, x)] on strings *)
Definition slices_Contains (l : list string) (x : string) : bool :=
  existsb (String.eqb x) l.

(* ===================================================================== *)
(** ** Package [path/filepath] (Unix) *)
(* ===================================================================== *)

Definition Separator : ascii := "/"%char.

(** An absolute path starts with the separator. *)
Definition rooted (p : string) : bool :=
  match p with
  | String c _ => Ascii.eqb c Separator
  | EmptyString => false
  end.

(** The elements of a path kept by [Clean], processed from the left with
    the elements kept so far in [out] (innermost last): empty elements and
    [.] are dropped; [..] removes the element before it when that is a
    proper name, is dropped at the root of an absolute path, and is kept
    at the front of a relative path. *)
Fixpoint clean_elems (abs : bool) (out : list string) (elems : list string)
  : list string :=
  match elems with
  | [] => out
  | e :: rest =>
      if String.eqb e EmptyString || String.eqb e "." then clean_elems abs out rest
      else if String.eqb e ".." then
        match rev out with
        | [] => clean_elems abs (if abs then [] else [".."]) rest
        | l :: _ =>
            if String.eqb l ".." then clean_elems abs (out ++ [".."]) rest
            else clean_elems abs (removelast out) rest
        end
      else clean_elems abs (out ++ [e]) rest
  end.

(** A path from its elements. *)
Definition render (abs : bool) (elems : list string) : string :=
  match abs, elems with
  | true, _ => "/" +++ strings_Join elems "/"
  | false, [] => "."
  | false, _ => strings_Join elems "/"
  end.

(** [filepath.Clean(path)]: the shortest path name equivalent to [path]
    by purely lexical processing. *)
Definition filepath_Clean (path : string) : string :=
  match path with
  | EmptyString => "."
  | _ => render (rooted path) (clean_elems (rooted path) [] (strings_Split path Separator))
  end.

(** [filepath.Join(elem...)]: the elements from the first non-empty one
    on, joined by the separator, then cleaned; the empty string when all
    elements are empty. *)
Fixpoint filepath_Join (elem : list string) : string :=
  match elem with
  | [] => EmptyString
  | e :: rest =>
      if String.eqb e EmptyString then filepath_Join rest
      else filepath_Clean (strings_Join elem "/")
  end.

(** The last non-empty element of a list of path elements. *)
Fixpoint last_elem (elems : list string) : option string :=
  match elems with
  | [] => None
  | e :: rest =>
      match last_elem rest with
      | Some l => Some l
      | None => if String.eqb e EmptyString then None else Some e
      end
  end.

(** [filepath.Base(path)]: the last element of the path, after removing
    trailing separators; [.] for the empty path and the separator for a
    path of separators only. *)
Definition filepath_Base (path : string) : string :=
  match path with
  | EmptyString => "."
  | _ => match last_elem (strings_Split path Separator) with
         | Some e => e
         | None => "/"
         end
  end.

(** [filepath.Dir(path)]: all but the last element of the path (the text
    up to and including the last separator), cleaned. *)
Definition filepath_Dir (path : string) : string :=
  match removelast (strings_Split path Separator) with
  | [] => filepath_Clean EmptyString
  | front => filepath_Clean (strings_Join front "/" +++ "/")
  end.

(* ===================================================================== *)
(** ** Package [regexp], for the one pattern of the program *)
(* ===================================================================== *)

(** The double quote (byte 34). *)
Definition dq : ascii := "034"%char.

Definition quoted (s : string) : string := String dq (s +++ String dq EmptyString).

(** The module path of the template repository. *)
Definition old_module : string := "github.com/galaplate/galaplate".

(** The longest run of bytes other than the double quote at the front of
    [s], and the rest of [s]. *)
Fixpoint span_unquoted (s : string) : string * string :=
  match s with
  | EmptyString => (EmptyString, EmptyString)
  | String c s' =>
      if Ascii.eqb c dq then (EmptyString, s)
      else let (g, r) := span_unquoted s' in (String c g, r)
  end.

(** The pattern of the program is: a double quote, the literal text
    github.com/galaplate/galaplate, a group 1 of any number of bytes other
    than the double quote, and a double quote.  A match starting
    at the first byte of [s] is given by the text of its group 1: after
    the opening quote and the module path, group 1 can only be the whole
    run of bytes up to the next double quote, which must be there to
    close the match. *)
Definition import_re_match (s : string) : option string :=
  if has_prefix (String dq old_module) s then
    let (g, r) := span_unquoted (string_drop (String.length (String dq old_module)) s) in
    match r with
    | String _ _ => Some g
    | EmptyString => None
    end
  else None.

(** A byte that may be part of a group name in a replacement template:
    a letter, a digit or the underscore.  (Go also accepts letters and
    digits outside ASCII; the model takes every byte from 128 on as
    ending the name.) *)
Definition is_word (c : ascii) : bool :=
  let n := nat_of_ascii c in
  ((65 <=? n) && (n <=? 90) || (97 <=? n) && (n <=? 122)
   || (48 <=? n) && (n <=? 57) || (n =? 95))%nat.

Fixpoint take_word (s : string) : string :=
  match s with
  | EmptyString => EmptyString
  | String c s' => if is_word c then String c (take_word s') else EmptyString
  end.

(** [extract] of package [regexp]: the group name at the front of the
    text that follows a [$], plain or in braces, and the number of bytes
    it takes; [None] when there is no well-formed name. *)
Definition regexp_extract (str : string) : option (string * nat) :=
  match str with
  | EmptyString => None
  | String c str' =>
      if Ascii.eqb c "{" then
        let name := take_word str' in
        match name, string_drop (String.length name) str' with
        | EmptyString, _ => None
        | _, String c' _ =>
            if Ascii.eqb c' "}" then Some (name, 2 + String.length name)%nat else None
        | _, EmptyString => None
        end
      else
        let name := take_word str in
        match name with
        | EmptyString => None
        | _ => Some (name, String.length name)
        end
  end.

(** The text a group reference stands for.  The pattern has the groups 0
    (the whole match) and 1 and no named group: any other reference
    expands to the empty text. *)
Definition group_value (g0 g1 name : string) : string :=
  if String.eqb name "0" then g0
  else if String.eqb name "1" then g1
  else EmptyString.

(** [Regexp.expand]: the replacement template with [$$] read as a dollar
    sign, [$name] and [${name}] replaced by the text of the group, and a
    [$] that starts no name left as it is. *)
Fixpoint expand_scan (g0 g1 : string) (skip : nat) (t : string) : string :=
  match t with
  | EmptyString => EmptyString
  | String c t' =>
      match skip with
      | S k => expand_scan g0 g1 k t'
      | O =>
          if Ascii.eqb c "$" then
            match t' with
            | String c' _ =>
                if Ascii.eqb c' "$" then String "$" (expand_scan g0 g1 1 t')
                else match regexp_extract t' with
                     | Some (name, used) =>
                         group_value g0 g1 name +++ expand_scan g0 g1 used t'
                     | None => String "$" (expand_scan g0 g1 0 t')
                     end
            | EmptyString => String "$" EmptyString
            end
          else String c (expand_scan g0 g1 0 t')
      end
  end.

Definition regexp_expand (template g0 g1 : string) : string :=
  expand_scan g0 g1 0 template.

(** The scan of [ReplaceAllString]: the leftmost match is replaced by the
    expanded template and the scan resumes after it. *)
Fixpoint import_re_scan (repl : string) (skip : nat) (s : string) : string :=
  match s with
  | EmptyString => EmptyString
  | String c s' =>
      match skip with
      | S k => import_re_scan repl k s'
      | O =>
          match import_re_match s with
          | Some g =>
              let whole := quoted (old_module +++ g) in
              regexp_expand repl whole g
                +++ import_re_scan repl (String.length whole - 1) s'
          | None => String c (import_re_scan repl 0 s')
          end
      end
  end.

(** [re.ReplaceAllString(src, repl)] for the compiled pattern [re] of
    [replaceModuleReferences]. *)
Definition import_re_ReplaceAllString (src repl : string) : string :=
  import_re_scan repl 0 src.

(* ===================================================================== *)
(** ** [replaceModuleReferences] *)
(* ===================================================================== *)

Definition replaceModuleReferences (content newModule : string) : string :=
  (* Replace import paths that reference github.com/galaplate/galaplate *)
  let content :=
    import_re_ReplaceAllString content
      (String dq (newModule +++ "$1" +++ String dq EmptyString)) in
  (* Replace any other references to the old module *)
  strings_ReplaceAll content old_module newModule.

(* ===================================================================== *)
(** ** The file system *)
(* ===================================================================== *)

(** A file system is the tree of its root directory.  Only regular files
    and directories exist (the extractor creates nothing else), a node
    carries its nine permission bits, and the entries of a directory are
    kept in the byte-wise order of their names, the order in which
    [filepath.Walk] visits them.  Access rights are not enforced. *)
Inductive node : Type :=
| File (perm : Z) (data : string)
| Dir (perm : Z) (entries : list (string * node)).

Definition is_dir (n : node) : bool :=
  match n with Dir _ _ => true | File _ _ => false end.

Definition node_perm (n : node) : Z :=
  match n with Dir p _ => p | File p _ => p end.

Fixpoint get_entry (name : string) (es : list (string * node)) : option node :=
  match es with
  | [] => None
  | (k, n) :: es' => if String.eqb name k then Some n else get_entry name es'
  end.

Fixpoint put_entry (name : string) (n : node) (es : list (string * node))
  : list (string * node) :=
  match es with
  | [] => [(name, n)]
  | (k, v) :: es' =>
      match String.compare name k with
      | Lt => (name, n) :: es
      | Eq => (name, n) :: es'
      | Gt => (k, v) :: put_entry name n es'
      end
  end.

Fixpoint del_entry (name : string) (es : list (string * node))
  : list (string * node) :=
  match es with
  | [] => []
  | (k, v) :: es' =>
      if String.eqb name k then del_entry name es' else (k, v) :: del_entry name es'
  end.

(** The node at a location, given by the names leading to it from the
    root. *)
Fixpoint lookup (p : list string) (n : node) : option node :=
  match p with
  | [] => Some n
  | c :: p' =>
      match n with
      | Dir _ es =>
          match get_entry c es with
          | Some ch => lookup p' ch
          | None => None
          end
      | File _ _ => None
      end
  end.

(** The tree with every missing directory on the way to [p], and [p]
    itself, created with permissions [perm]; [None] when a file is on
    the way. *)
Fixpoint mkdir_all (p : list string) (perm : Z) (n : node) : option node :=
  match p with
  | [] => if is_dir n then Some n else None
  | c :: p' =>
      match n with
      | File _ _ => None
      | Dir m es =>
          let ch := match get_entry c es with
                    | Some ch => ch
                    | None => Dir perm []
                    end in
          match mkdir_all p' perm ch with
          | Some ch' => Some (Dir m (put_entry c ch' es))
          | None => None
          end
      end
  end.

(** The tree with the entry at [p] replaced by what [f] makes of it
    ([f] receives [None] when the entry does not exist and answers
    [None] to refuse); the directory holding the entry must exist. *)
Fixpoint modify (p : list string) (f : option node -> option node) (n : node)
  : option node :=
  match p with
  | [] => None
  | c :: p' =>
      match n with
      | File _ _ => None
      | Dir m es =>
          match p' with
          | [] =>
              match f (get_entry c es) with
              | Some ch' => Some (Dir m (put_entry c ch' es))
              | None => None
              end
          | _ :: _ =>
              match get_entry c es with
              | Some ch =>
                  match modify p' f ch with
                  | Some ch' => Some (Dir m (put_entry c ch' es))
                  | None => None
                  end
              | None => None
              end
          end
      end
  end.

(** The tree without the entry at [p] and all that is below it. *)
Fixpoint remove_all (p : list string) (n : node) : node :=
  match p with
  | [] => n
  | c :: p' =>
      match n with
      | File _ _ => n
      | Dir m es =>
          match p' with
          | [] => Dir m (del_entry c es)
          | _ :: _ =>
              match get_entry c es with
              | Some ch => Dir m (put_entry c (remove_all p' ch) es)
              | None => n
              end
          end
      end
  end.

(** The location a path names when its elements are followed from the
    directory [from]: an empty element and [.] stay, [..] goes up (and
    stays at the root).  There are no symbolic links, so that [..] after
    a name leads back to where the name stands.  Whether the kernel
    follows the path at all depends on the tree: that is [passable]. *)
Fixpoint follow (from : list string) (elems : list string) : list string :=
  match elems with
  | [] => from
  | e :: rest =>
      if String.eqb e EmptyString || String.eqb e "." then follow from rest
      else if String.eqb e ".." then follow (removelast from) rest
      else follow (from ++ [e]) rest
  end.

(** The location named by [path] for a process whose working directory is
    [cwd]; the empty path names nothing. *)
Definition resolve (cwd : list string) (path : string) : option (list string) :=
  match path with
  | EmptyString => None
  | _ => Some (follow (if rooted path then [] else cwd) (strings_Split path Separator))
  end.

(** Whether a directory is at the location [p]. *)
Definition is_dir_at (p : list string) (n : node) : bool :=
  match lookup p n with
  | Some (Dir _ _) => true
  | _ => false
  end.

(** Whether the kernel can follow the elements of a path from [from] in
    the tree [root]: where an empty element, [.] or [..] stands there
    must be a directory, so that a path through a missing directory and
    back by [..] names nothing, and neither does the name of a file with
    a separator after it.  [sure] tells that [from] is known to be a
    directory: it is where the path starts (the root or the working
    directory of the process), or where [.] or [..] led to.  A name needs
    no test: a name looked up in what is no directory gives a location
    that holds nothing and where nothing can be created. *)
Fixpoint passable (root : node) (sure : bool) (from : list string) (elems : list string)
  : bool :=
  match elems with
  | [] => true
  | e :: rest =>
      if String.eqb e EmptyString || String.eqb e "." then
        (sure || is_dir_at from root) && passable root true from rest
      else if String.eqb e ".." then
        (sure || is_dir_at from root) && passable root true (removelast from) rest
      else passable root false (from ++ [e]) rest
  end.

(** The path [os.MkdirAll] names in its error: the path up to the
    element that is in the way, with the separators after it. *)
Fixpoint blocked_at (passed rest : list string) : string :=
  match rest with
  | [] => strings_Join passed "/"
  | e :: rest' =>
      if String.eqb e EmptyString then blocked_at (passed ++ [e]) rest'
      else strings_Join passed "/" +++ "/"
  end.

(** The walk of [os.MkdirAll] along the elements of a path, from the
    directory [from]: a name that is a directory there is entered, a
    name that is missing becomes a directory with permissions [perm],
    and a name that is a file ends the walk with an error, the
    directories made before it staying where they are.  At the end the
    place reached is a directory ([mkdir_all] finds it so, unless the
    walk started where no directory is).  [passed] holds the elements
    followed so far, for the path the error names. *)
Fixpoint mkdir_path (perm : Z) (from passed elems : list string) (n : node)
  : option string * node :=
  match elems with
  | [] =>
      match mkdir_all from perm n with
      | Some n' => (None, n')
      | None => (Some (strings_Join passed "/"), n)
      end
  | e :: rest =>
      if String.eqb e EmptyString || String.eqb e "." then
        mkdir_path perm from (passed ++ [e]) rest n
      else if String.eqb e ".." then
        mkdir_path perm (removelast from) (passed ++ [e]) rest n
      else
        match lookup (from ++ [e]) n with
        | Some (Dir _ _) => mkdir_path perm (from ++ [e]) (passed ++ [e]) rest n
        | Some (File _ _) => (Some (blocked_at (passed ++ [e]) rest), n)
        | None =>
            match mkdir_all (from ++ [e]) perm n with
            | Some n' => mkdir_path perm (from ++ [e]) (passed ++ [e]) rest n'
            | None => (Some (blocked_at (passed ++ [e]) rest), n)
            end
        end
  end.

Definition perm_0644 : Z := 420.
Definition perm_0666 : Z := 438.
Definition perm_0700 : Z := 448.
Definition perm_0755 : Z := 493.
Definition perm_0777 : Z := 511.

(** [os.FileMode(m)] of a 64-bit integer: a conversion to 32 bits. *)
Definition os_FileMode (m : Z) : Z := m mod 2 ^ 32.

(** The permission bits of a mode. *)
Definition perm_bits (mode : Z) : Z := Z.land mode perm_0777.

(* ===================================================================== *)
(** ** The process and its calls to the operating system *)
(* ===================================================================== *)

Inductive error : Type :=
| ErrFS (op path : string)            (* a failed file-system call *)
| ErrTransport                        (* http.Get could not reach the host *)
| ErrGzip                             (* gzip.NewReader refused the body *)
| ErrTar                              (* tar.Reader failed *)
| ErrRel                              (* filepath.Rel failed *)
| SkipDir                             (* filepath.SkipDir *)
| ErrProjectNameRequired              (* "project name is required" *)
| ErrDirectoryExists (name : string)  (* "directory '%s' already exists. Use --force to overwrite" *)
| ErrDownloadStatus (code : Z)        (* "failed to download: HTTP %d" *)
| ErrFailedTo (what : string) (e : error).   (* "failed to ...: %v" *)

Definition is_SkipDir (e : error) : bool :=
  match e with SkipDir => true | _ => false end.

Inductive result (A : Type) : Type :=
| Ok (a : A)
| Err (e : error).
Arguments Ok {A} a.
Arguments Err {A} e.

(** The calls a run makes, in order. *)
Inductive Call : Type :=
| CallStat (path : string)
| CallMkdirTemp (dir pattern : string)
| CallMkdirAll (path : string) (perm : Z)
| CallCreate (path : string)
| CallCopy (dst src : string)
| CallCopyEntry (dst : string) (data : string)
| CallChmod (path : string) (perm : Z)
| CallOpen (path : string)
| CallReadAll (path : string)
| CallWriteFile (path : string) (data : string) (perm : Z)
| CallRemoveAll (path : string)
| CallWalk (root : string)
| CallGetwd
| CallChdir (path : string)
| CallHttpGet (url : string)
| CallRun (name : string) (args : list string).

Record World : Type := mkWorld {
  w_root : node;              (* the file system *)
  w_cwd : list string;        (* the working directory *)
  w_umask : Z;                (* the file-creation mask *)
  w_calls : list Call         (* the calls made so far *)
}.

Definition set_root (w : World) (r : node) : World :=
  mkWorld r (w_cwd w) (w_umask w) (w_calls w).

Definition set_cwd (w : World) (d : list string) : World :=
  mkWorld (w_root w) d (w_umask w) (w_calls w).

(** Computations that change the world. *)
Definition M (A : Type) : Type := World -> A * World.

Definition ret {A} (a : A) : M A := fun w => (a, w).

Definition bind {A B} (m : M A) (k : A -> M B) : M B :=
  fun w => let (a, w') := m w in k a w'.

Notation "x <- c1 ;; c2" := (bind c1 (fun x => c2))
  (at level 61, c1 at next level, right associativity).
Notation "c1 ;;; c2" := (bind c1 (fun _ => c2))
  (at level 61, right associativity).

Definition record_call (c : Call) (w : World) : World :=
  mkWorld (w_root w) (w_cwd w) (w_umask w) (w_calls w ++ [c]).

Definition call (c : Call) : M unit := fun w => (tt, record_call c w).

(** The location the kernel finds for a path: the location the path
    names, when the path can be followed. *)
Definition locate (w : World) (path : string) : option (list string) :=
  if passable (w_root w) true (if rooted path then [] else w_cwd w)
              (strings_Split path Separator)
  then resolve (w_cwd w) path
  else None.

(** The node a path names. *)
Definition node_at (w : World) (path : string) : option node :=
  match locate w path with
  | Some p => lookup p (w_root w)
  | None => None
  end.

(** A change of the file system at the location a path names. *)
Definition change (op path : string) (f : list string -> node -> option node)
  : M (option error) :=
  fun w =>
    match locate w path with
    | Some p =>
        match f p (w_root w) with
        | Some r => (None, set_root w r)
        | None => (Some (ErrFS op path), w)
        end
    | None => (Some (ErrFS op path), w)
    end.

(** The permissions of a file or directory created with mode [perm]. *)
Definition created_perm (umask perm : Z) : Z := Z.ldiff (perm_bits perm) umask.

Record FileInfo : Type := mkInfo {
  fi_Name : string;
  fi_IsDir : bool;
  fi_Mode : Z
}.

Definition info_of (path : string) (n : node) : FileInfo :=
  mkInfo (filepath_Base path) (is_dir n) (node_perm n).

(** [os.Stat(path)] *)
Definition os_Stat (path : string) : M (result FileInfo) :=
  call (CallStat path) ;;;
  fun w =>
    match node_at w path with
    | Some n => (Ok (info_of path n), w)
    | None => (Err (ErrFS "stat" path), w)
    end.

(** [os.MkdirAll(path, perm)]: creates the directory and the missing
    parents, one after the other along the path; no error if the
    directory exists. *)
Definition os_MkdirAll (path : string) (perm : Z) : M (option error) :=
  call (CallMkdirAll path perm) ;;;
  fun w =>
    match path with
    | EmptyString => (Some (ErrFS "mkdir" path), w)
    | _ =>
        let (blocked, r) :=
          mkdir_path (created_perm (w_umask w) perm) (if rooted path then [] else w_cwd w) []
                     (strings_Split path Separator) (w_root w) in
        (option_map (ErrFS "mkdir") blocked, set_root w r)
    end.

(** [os.Create(path)]: creates the file with mode 0666 (before umask) or
    truncates it when it exists. *)
Definition create_entry (umask : Z) (o : option node) : option node :=
  match o with
  | Some (File m _) => Some (File m EmptyString)
  | Some (Dir _ _) => None
  | None => Some (File (created_perm umask perm_0666) EmptyString)
  end.

Definition os_Create (path : string) : M (option error) :=
  call (CallCreate path) ;;;
  fun w => change "open" path (fun p => modify p (create_entry (w_umask w))) w.

(** The bytes [data] written at the end of the file at [path]. *)
Definition append_entry (data : string) (o : option node) : option node :=
  match o with
  | Some (File m d) => Some (File m (d +++ data))
  | _ => None
  end.

Definition write_to (path : string) (data : string) : M (option error) :=
  change "write" path (fun p => modify p (append_entry data)).

(** [io.Copy(dst, src)] from the file opened at [src] to the file
    created at [dst]. *)
Definition io_Copy (dst src : string) : M (option error) :=
  call (CallCopy dst src) ;;;
  fun w =>
    match node_at w src with
    | Some (File _ d) => write_to dst d w
    | _ => (Some (ErrFS "read" src), w)
    end.

(** [os.Chmod(path, mode)] *)
Definition chmod_entry (mode : Z) (o : option node) : option node :=
  match o with
  | Some (File _ d) => Some (File (perm_bits mode) d)
  | Some (Dir _ es) => Some (Dir (perm_bits mode) es)
  | None => None
  end.

Definition os_Chmod (path : string) (mode : Z) : M (option error) :=
  call (CallChmod path mode) ;;;
  change "chmod" path (fun p => modify p (chmod_entry mode)).

(** [os.WriteFile(path, data, perm)]: creates the file with permissions
    [perm] (before umask) if it does not exist; otherwise truncates it
    before writing, without changing permissions. *)
Definition write_entry (umask : Z) (data : string) (perm : Z) (o : option node)
  : option node :=
  match o with
  | Some (File m _) => Some (File m data)
  | Some (Dir _ _) => None
  | None => Some (File (created_perm umask perm) data)
  end.

Definition os_WriteFile (path : string) (data : string) (perm : Z) : M (option error) :=
  call (CallWriteFile path data perm) ;;;
  fun w => change "open" path (fun p => modify p (write_entry (w_umask w) data perm)) w.

(** [os.RemoveAll(path)]: removes the path and what it contains; no error
    if the path does not exist.  (The program does not look at the
    result; the model answers without an error also where the kernel
    cannot follow the path, and removes nothing then.) *)
Definition os_RemoveAll (path : string) : M (option error) :=
  call (CallRemoveAll path) ;;;
  fun w =>
    match locate w path with
    | Some p => (None, set_root w (remove_all p (w_root w)))
    | None => (None, w)
    end.

(** [os.Open(path)] *)
Definition os_Open (path : string) : M (option error) :=
  call (CallOpen path) ;;;
  fun w =>
    match node_at w path with
    | Some _ => (None, w)
    | None => (Some (ErrFS "open" path), w)
    end.

(** [io.ReadAll(file)] for the file opened at [path] *)
Definition io_ReadAll (path : string) : M (result string) :=
  call (CallReadAll path) ;;;
  fun w =>
    match node_at w path with
    | Some (File _ d) => (Ok d, w)
    | _ => (Err (ErrFS "read" path), w)
    end.

(** [os.Getwd()] *)
Definition os_Getwd : M (result string) :=
  call CallGetwd ;;; fun w => (Ok (render true (w_cwd w)), w).

(** [os.Chdir(path)] *)
Definition os_Chdir (path : string) : M (option error) :=
  call (CallChdir path) ;;;
  fun w =>
    match locate w path with
    | Some p =>
        match lookup p (w_root w) with
        | Some (Dir _ _) => (None, set_cwd w p)
        | _ => (Some (ErrFS "chdir" path), w)
        end
    | None => (Some (ErrFS "chdir" path), w)
    end.

(* ===================================================================== *)
(** ** The archive *)
(* ===================================================================== *)

(** [tar.TypeReg] and [tar.TypeDir] *)
Definition tar_TypeReg : ascii := "0"%char.
Definition tar_TypeDir : ascii := "5"%char.

(** A [tar.Header], with the fields the program reads. *)
Record Header : Type := mkHeader {
  Name : string;
  Typeflag : ascii;
  Mode : Z
}.

(** An entry of the stream: its header, the bytes of its payload that
    can be read, and whether reading them ends without an error. *)
Record TarEntry : Type := mkEntry {
  header : Header;
  payload : string;
  readable : bool
}.

(** What [tr.Next()] delivers, call after call: the entries, then
    [io.EOF] when [intact], an error otherwise. *)
Record TarStream : Type := mkStream {
  entries : list TarEntry;
  intact : bool
}.

(** The outcome of [http.Get]: no response, or a status code and a body,
    which [gzip.NewReader] accepts or not. *)
Inductive HttpResult : Type :=
| NoResponse
| Response (StatusCode : Z) (body : option TarStream).

Definition http_StatusOK : Z := 200.

(* ===================================================================== *)
(** ** [filepath.Walk] *)
(* ===================================================================== *)

(** [filepath.Rel(basepath, targpath)] for a target that is the base or
    lies below it, which is all [filepath.Walk] gives rise to: the rest of
    the cleaned target after the cleaned base.  For any other target Go
    answers with a path through [..] or with an error; the model answers
    with an error. *)
Definition filepath_Rel (basepath targpath : string) : result string :=
  let base := filepath_Clean basepath in
  let targ := filepath_Clean targpath in
  if String.eqb targ base then Ok "."
  else if String.eqb base "." then
    if rooted targ || String.eqb targ ".." || strings_HasPrefix targ "../"
    then Err ErrRel else Ok targ
  else if String.eqb base "/" then
    if rooted targ then Ok (string_drop 1 targ) else Err ErrRel
  else if strings_HasPrefix targ (base +++ "/")
    then Ok (string_drop (String.length base + 1) targ)
    else Err ErrRel.

(** The function [filepath.Walk] calls for every file and directory:
    [fn path info err]. *)
Definition WalkFunc : Type := string -> option FileInfo -> option error -> M (option error).

(** [walk] of package [filepath], over the tree found at [path] when the
    walk starts: the function is called for the node; for a directory the
    entries follow in the order of their names, unless the function
    returned an error; [SkipDir] returned for a directory only ends the
    visit of that directory. *)
Fixpoint walk (fn : WalkFunc) (path : string) (n : node) {struct n} : M (option error) :=
  match n with
  | File _ _ => fn path (Some (info_of path n)) None
  | Dir _ es =>
      err1 <- fn path (Some (info_of path n)) None ;;
      match err1 with
      | Some e => ret (Some e)
      | None =>
          (fix names (es : list (string * node)) : M (option error) :=
             match es with
             | [] => ret None
             | (name, ch) :: es' =>
                 err <- walk fn (filepath_Join [path; name]) ch ;;
                 match err with
                 | Some e =>
                     if negb (is_dir ch) || negb (is_SkipDir e) then ret (Some e)
                     else names es'
                 | None => names es'
                 end
             end) es
      end
  end.

(** The loop of [walk] over the entries of the directory at [path]. *)
Fixpoint walk_names (fn : WalkFunc) (path : string) (es : list (string * node))
  : M (option error) :=
  match es with
  | [] => ret None
  | (name, ch) :: es' =>
      err <- walk fn (filepath_Join [path; name]) ch ;;
      match err with
      | Some e =>
          if negb (is_dir ch) || negb (is_SkipDir e) then ret (Some e)
          else walk_names fn path es'
      | None => walk_names fn path es'
      end
  end.

(** [filepath.Walk(root, fn)].  The tree is read when the walk starts:
    the function must not write below [root] (the program writes to the
    destination, and walks the scratch directory). *)
Definition filepath_Walk (root : string) (fn : WalkFunc) : M (option error) :=
  call (CallWalk root) ;;;
  fun w =>
    let (err, w') :=
      match node_at w root with
      | None => fn root None (Some (ErrFS "lstat" root)) w
      | Some n => walk fn root n w
      end in
    match err with
    | Some SkipDir => (None, w')
    | _ => (err, w')
    end.

(* ===================================================================== *)
(** ** The program *)
(* ===================================================================== *)

Record ProjectOptions : Type := mkOptions {
  opt_Name : string;
  opt_Template : string;
  opt_DbType : string;
  opt_Module : string;
  opt_NoGit : bool;
  opt_Force : bool
}.

(** The loop of [parseProjectArgs] over [args[1:]]. *)
Fixpoint parse_flags (opts : ProjectOptions) (args : list string) : ProjectOptions :=
  match args with
  | [] => opts
  | arg :: rest =>
      let opts' :=
        if strings_HasPrefix arg "--template=" then
          mkOptions (opt_Name opts) (strings_TrimPrefix arg "--template=") (opt_DbType opts)
                    (opt_Module opts) (opt_NoGit opts) (opt_Force opts)
        else if strings_HasPrefix arg "--db=" then
          mkOptions (opt_Name opts) (opt_Template opts) (strings_TrimPrefix arg "--db=")
                    (opt_Module opts) (opt_NoGit opts) (opt_Force opts)
        else if strings_HasPrefix arg "--module=" then
          mkOptions (opt_Name opts) (opt_Template opts) (opt_DbType opts)
                    (strings_TrimPrefix arg "--module=") (opt_NoGit opts) (opt_Force opts)
        else if String.eqb arg "--no-git" then
          mkOptions (opt_Name opts) (opt_Template opts) (opt_DbType opts)
                    (opt_Module opts) true (opt_Force opts)
        else if String.eqb arg "--force" then
          mkOptions (opt_Name opts) (opt_Template opts) (opt_DbType opts)
                    (opt_Module opts) (opt_NoGit opts) true
        else opts in
      parse_flags opts' rest
  end.

(** [parseProjectArgs(args)], for [args] with at least one element. *)
Definition parseProjectArgs (args : list string) : ProjectOptions :=
  let name := hd EmptyString args in
  parse_flags (mkOptions name "api" "postgres" name false false) (tl args).

(** *** [copyFile] *)

Definition copyFile (src dest : string) (opts : ProjectOptions) : M (option error) :=
  err <- os_Open src ;;
  match err with Some e => ret (Some e) | None =>
  (* Create destination directory if it doesn't exist *)
  err <- os_MkdirAll (filepath_Dir dest) perm_0755 ;;
  match err with Some e => ret (Some e) | None =>
  err <- os_Create dest ;;
  match err with Some e => ret (Some e) | None =>
  (* For template files, apply replacements *)
  if strings_HasSuffix src ".template" then
    (* Remove .template extension from destination *)
    let dest := strings_TrimSuffix dest ".template" in
    (* Read template content *)
    content <- io_ReadAll src ;;
    match content with Err e => ret (Some e) | Ok content =>
    (* Apply template replacements *)
    let contentStr := content in
    let contentStr := strings_ReplaceAll contentStr "{{PROJECT_NAME}}" (opt_Name opts) in
    let contentStr := strings_ReplaceAll contentStr "{{MODULE_NAME}}" (opt_Module opts) in
    let contentStr := strings_ReplaceAll contentStr "{{DB_TYPE}}" (opt_DbType opts) in
    let contentStr := strings_ReplaceAll contentStr "{{GALAPLATE_CORE_VERSION}}" "v0.0.0" in
    (* Write processed content *)
    os_WriteFile dest contentStr perm_0644
    end
  (* Special handling for go.mod and Go files *)
  else if String.eqb (filepath_Base src) "go.mod" || strings_HasSuffix src ".go" then
    content <- io_ReadAll src ;;
    match content with Err e => ret (Some e) | Ok content =>
    let contentStr := content in
    let contentStr :=
      if String.eqb (filepath_Base src) "go.mod" then
        (* Update module name in go.mod *)
        strings_ReplaceAll contentStr "module github.com/galaplate/galaplate"
                           ("module " +++ opt_Module opts)
      else
        (* Replace galaplate module references in Go files with the new module name *)
        replaceModuleReferences contentStr (opt_Module opts) in
    os_WriteFile dest contentStr perm_0644
    end
  else
    (* For regular files, just copy *)
    io_Copy dest src
  end end end.

(** *** [copyProjectFiles] *)

Definition excludeDirs : list string :=
  ["cli"; ".git"; "node_modules"; "tmp"; "storage";
   "cmd"; "test-api";  (* Exclude any test directories *)
   ".opencode"].       (* Exclude opencode metadata *)

Definition excludeFiles : list string :=
  ["main";      (* Exclude compiled binary *)
   "server";    (* Exclude compiled server binary *)
   "galaplate"; (* Exclude compiled CLI binary *)
   "AGENTS.md"; "CORE_EXTRACTION_PLAN.md"; "IMPLEMENTATION_ROADMAP.md";
   "PHASE1_PROGRESS_REPORT.md"; "WORKFLOW_EXAMPLE.md"]. (* Exclude development docs *)

(** The loop over [excludeDirs]: what the function returns from inside
    the loop, if it does. *)
Fixpoint exclude_check (dirs : list string) (pathParts : list string) (info : FileInfo)
  : option (option error) :=
  match dirs with
  | [] => None
  | excludeDir :: rest =>
      if String.eqb (nth 0 pathParts EmptyString) excludeDir then
        if fi_IsDir info then Some (Some SkipDir) else Some None
      else exclude_check rest pathParts info
  end.

(** The function [copyProjectFiles] passes to [filepath.Walk]. *)
Definition copy_visit (srcRoot destDir : string) (opts : ProjectOptions) : WalkFunc :=
  fun path info err =>
    match err, info with
    | Some e, _ => ret (Some e)
    | None, None => ret None
    | None, Some info =>
    (* Get relative path from source root *)
    match filepath_Rel srcRoot path with Err e => ret (Some e) | Ok relPath =>
    (* Skip if it's the root directory *)
    if String.eqb relPath "." then ret None else
    (* Check if we should exclude this path *)
    let pathParts := strings_Split relPath Separator in
    match exclude_check excludeDirs pathParts info with
    | Some r => ret r
    | None =>
    (* Check if we should exclude this file *)
    if slices_Contains excludeFiles (fi_Name info) then ret None else
    let destPath := filepath_Join [destDir; relPath] in
    if fi_IsDir info then os_MkdirAll destPath (fi_Mode info)
    else
    (* Copy file *)
    copyFile path destPath opts
    end end end.

Definition copyProjectFiles (srcRoot destDir : string) (opts : ProjectOptions)
  : M (option error) :=
  filepath_Walk srcRoot (copy_visit srcRoot destDir opts).

(** *** [downloadGitHubRepo] *)

(** [io.Copy(file, tr)] from the current entry of the archive to the
    file created at [dst]. *)
Definition io_Copy_entry (dst : string) (e : TarEntry) : M (option error) :=
  call (CallCopyEntry dst (payload e)) ;;;
  err <- write_to dst (payload e) ;;
  match err with
  | Some er => ret (Some er)
  | None => if readable e then ret None else ret (Some ErrTar)
  end.

(** The body of the loop over the entries, for the entry [tr.Next()]
    delivered: the error with which the function returns, or [None] when
    the loop goes on.  (The [os.RemoveAll(tempDir)] that precedes every
    such return is in [extract_loop].) *)
Definition extract_entry (tempDir : string) (e : TarEntry) : M (option error) :=
  let header := header e in
  (* Skip the top-level directory (e.g., "galaplate-main/") *)
  let parts := strings_Split (Name header) Separator in
  if (length parts <=? 1)%nat then ret None else
  (* Reconstruct path without the top-level directory *)
  let path := filepath_Join [tempDir; filepath_Join (tl parts)] in
  if Ascii.eqb (Typeflag header) tar_TypeDir then
    os_MkdirAll path (os_FileMode (Mode header))
  else if Ascii.eqb (Typeflag header) tar_TypeReg then
    (* Create directory if it doesn't exist *)
    err <- os_MkdirAll (filepath_Dir path) perm_0755 ;;
    match err with Some er => ret (Some er) | None =>
    (* Create file *)
    err <- os_Create path ;;
    match err with Some er => ret (Some er) | None =>
    err <- io_Copy_entry path e ;;
    match err with Some er => ret (Some er) | None =>
    (* Set file permissions *)
    os_Chmod path (os_FileMode (Mode header))
    end end end
  else ret None.

Fixpoint extract_loop (tempDir : string) (es : list TarEntry) (intact : bool)
  : M (result string) :=
  match es with
  | [] =>
      if intact then ret (Ok tempDir)
      else os_RemoveAll tempDir ;;; ret (Err ErrTar)
  | e :: rest =>
      err <- extract_entry tempDir e ;;
      match err with
      | Some er => os_RemoveAll tempDir ;;; ret (Err er)
      | None => extract_loop tempDir rest intact
      end
  end.

Section Pipeline.

(** What the environment decides: the name of the directory
    [os.MkdirTemp] creates, the outcome of the download, and what the
    external tools ([git], [go]), run with given arguments in a given
    working directory, make of the file system and whether they
    succeed. *)
Variable temp_name : string.
Variable response : HttpResult.
Variable run_tool : string -> list string -> list string -> node -> bool * node.

(** [os.MkdirTemp(dir, pattern)]: a new directory, with mode 0700. *)
Definition os_MkdirTemp (dir pattern : string) : M (result string) :=
  call (CallMkdirTemp dir pattern) ;;;
  fun w =>
    let (err, w') :=
      change "mkdirtemp" temp_name
        (fun p => modify p (fun o =>
           match o with
           | None => Some (Dir (created_perm (w_umask w) perm_0700) [])
           | Some _ => None
           end)) w in
    match err with
    | Some e => (Err e, w')
    | None => (Ok temp_name, w')
    end.

(** [http.Get(url)] *)
Definition http_Get (url : string) : M HttpResult :=
  call (CallHttpGet url) ;;; ret response.

(** [exec.Command(name, args...).Run()]: whether it succeeded. *)
Definition exec_Run (name : string) (args : list string) : M bool :=
  call (CallRun name args) ;;;
  fun w => let (ok, r) := run_tool name args (w_cwd w) (w_root w) in (ok, set_root w r).

Definition downloadGitHubRepo (owner repo branch : string) : M (result string) :=
  (* Create temporary directory *)
  r <- os_MkdirTemp EmptyString "galaplate-" ;;
  match r with Err e => ret (Err e) | Ok tempDir =>
  (* Download the repository archive *)
  let url := "https://github.com/" +++ owner +++ "/" +++ repo
             +++ "/archive/refs/heads/" +++ branch +++ ".tar.gz" in
  resp <- http_Get url ;;
  match resp with
  | NoResponse => os_RemoveAll tempDir ;;; ret (Err ErrTransport)
  | Response StatusCode body =>
      if negb (StatusCode =? http_StatusOK)%Z then
        os_RemoveAll tempDir ;;; ret (Err (ErrDownloadStatus StatusCode))
      else
        (* Extract the tar.gz file *)
        match body with
        | None => os_RemoveAll tempDir ;;; ret (Err ErrGzip)
        | Some tr => extract_loop tempDir (entries tr) (intact tr)
        end
  end
  end.

(** *** [setupProject] *)

Definition setupProject (opts : ProjectOptions) : M (option error) :=
  let projectDir := opt_Name opts in
  (* Change to project directory *)
  r <- os_Getwd ;;
  match r with Err e => ret (Some e) | Ok originalDir =>
  err <- os_Chdir projectDir ;;
  match err with
  | Some e => os_Chdir originalDir ;;; ret (Some e)
  | None =>
      (* Initialize git repository (unless disabled) *)
      (if negb (opt_NoGit opts) then
         ok <- exec_Run "git" ["init"] ;;
         if ok then
           (* Create initial commit *)
           exec_Run "git" ["add"; "."] ;;;
           exec_Run "git" ["commit"; "-m"; "Initial commit from Galaplate"] ;;;
           ret tt
         else ret tt
       else ret tt) ;;;
      (* Run go mod tidy to download dependencies *)
      exec_Run "go" ["mod"; "tidy"] ;;;
      os_Chdir originalDir ;;;
      ret None
  end
  end.

(** *** [createProjectFromGitHub] *)

Definition createProjectFromGitHub (opts : ProjectOptions) : M (option error) :=
  (* Download the latest release from GitHub *)
  r <- downloadGitHubRepo "galaplate" "galaplate" "main" ;;
  match r with
  | Err e => ret (Some (ErrFailedTo "download template" e))
  | Ok tempDir =>
      res <-
        ((* Create project directory *)
         err <- os_MkdirAll (opt_Name opts) perm_0755 ;;
         match err with
         | Some e => ret (Some (ErrFailedTo "create project directory" e))
         | None =>
             (* Copy files from downloaded template *)
             err <- copyProjectFiles tempDir (opt_Name opts) opts ;;
             match err with
             | Some e => ret (Some (ErrFailedTo "copy project files" e))
             | None =>
                 (* Setup project *)
                 err <- setupProject opts ;;
                 match err with
                 | Some e => ret (Some (ErrFailedTo "setup project" e))
                 | None => ret None
                 end
             end
         end) ;;
      (* defer os.RemoveAll(tempDir) *)
      os_RemoveAll tempDir ;;;
      ret res
  end.

(** *** [handleNewProject] *)

Definition handleNewProject (args : list string) : M (option error) :=
  if (length args =? 0)%nat then ret (Some ErrProjectNameRequired) else
  let opts := parseProjectArgs args in
  (* Check if directory exists *)
  st <- os_Stat (opt_Name opts) ;;
  match st with
  | Ok _ =>
      if negb (opt_Force opts) then ret (Some (ErrDirectoryExists (opt_Name opts)))
      else
        (* Download from GitHub and create project *)
        createProjectFromGitHub opts
  | Err _ => createProjectFromGitHub opts
  end.

End Pipeline.

(* ===================================================================== *)
(** * The notions the properties are stated with *)
(* ===================================================================== *)

(** ** Bytes that do not occur, and elements of paths *)

(** Whether the byte [c] does not occur in [s]. *)
Fixpoint lacks (c : ascii) (s : string) : bool :=
  match s with
  | EmptyString => true
  | String x s' => negb (Ascii.eqb x c) && lacks c s'
  end.

(** A proper name of a directory entry: not empty, not [.] or [..], and
    without the separator. *)
Definition is_name (e : string) : bool :=
  negb (String.eqb e EmptyString) && negb (String.eqb e ".") && negb (String.eqb e "..")
  && lacks Separator e.

(** An element [Clean] keeps: a proper name or [..]. *)
Definition is_kept (e : string) : bool :=
  negb (String.eqb e EmptyString) && negb (String.eqb e ".") && lacks Separator e.

(** An element that is no name: the empty element, [.] or [..]. *)
Definition is_special (e : string) : bool :=
  String.eqb e EmptyString || String.eqb e "." || String.eqb e "..".

(** Elements in which the empty element, [.] and [..] only stand before
    the first name.  The kernel follows such a path in every tree, to
    the location the elements name; the paths [filepath.Clean] makes are
    of this kind. *)
Fixpoint tidy (elems : list string) : bool :=
  match elems with
  | [] => true
  | e :: rest =>
      if is_special e then tidy rest
      else forallb (fun x => negb (is_special x)) rest
  end.

(** ** What a location holds *)

(** What [stat] reports of a node: its kind, its permission bits, and
    the content of a file. *)
Inductive Stat : Type :=
| SFile (perm : Z) (data : string)
| SDir (perm : Z).

Definition stat_of (n : node) : Stat :=
  match n with
  | File p d => SFile p d
  | Dir p _ => SDir p
  end.

Definition stat (q : list string) (n : node) : option Stat :=
  option_map stat_of (lookup q n).

(** The location [p] is [q] or above [q]. *)
Fixpoint is_prefix (p q : list string) : bool :=
  match p, q with
  | [], _ => true
  | _ :: _, [] => false
  | a :: p', b :: q' => String.eqb a b && is_prefix p' q'
  end.

Definition children (n : node) : list (string * node) :=
  match n with
  | Dir _ es => es
  | File _ _ => []
  end.

Definition children_opt (o : option node) : list (string * node) :=
  match o with
  | Some n => children n
  | None => []
  end.

(** A change of one entry that keeps what is below it. *)
Definition shallow (f : option node -> option node) : Prop :=
  forall o x, f o = Some x -> children x = children_opt o.

(** What a call leaves of the process state, and of the file system
    when it fails. *)
Definition same_process (c : Call) (w w' : World) : Prop :=
  w_cwd w' = w_cwd w /\ w_umask w' = w_umask w /\ w_calls w' = w_calls w ++ [c].

(** ** The four rewrite rules, as the specification words them *)

Inductive Rule : Type :=
| TemplateSuffix
| Manifest
| SourceReference
| Passthrough.

(** The file-name pattern of each rule. *)
Definition rule_matches (r : Rule) (src : string) : bool :=
  match r with
  | TemplateSuffix => strings_HasSuffix src ".template"
  | Manifest => String.eqb (filepath_Base src) "go.mod"
  | SourceReference => strings_HasSuffix src ".go"
  | Passthrough => true
  end.

(** The rules in their order of priority. *)
Definition rule_priority : list Rule :=
  [TemplateSuffix; Manifest; SourceReference; Passthrough].

(** The rule of a file: the first rule, in the order of priority, whose
    pattern the name of the file matches. *)
Definition rule_of (src : string) : Rule :=
  match find (fun r => rule_matches r src) rule_priority with
  | Some r => r
  | None => Passthrough
  end.

(** The placeholder markers and their values. *)
Definition token_map (opts : ProjectOptions) : list (string * string) :=
  [("{{PROJECT_NAME}}", opt_Name opts);
   ("{{MODULE_NAME}}", opt_Module opts);
   ("{{DB_TYPE}}", opt_DbType opts);
   ("{{GALAPLATE_CORE_VERSION}}", "v0.0.0")].

(** One replacement pass for each marker, in the order of the map, each
    over the result of the pass before. *)
Definition render_template (opts : ProjectOptions) (content : string) : string :=
  fold_left (fun text kv => strings_ReplaceAll text (fst kv) (snd kv))
            (token_map opts) content.

(** The line that declares the module of the template, and the
    declaration that takes its place. *)
Definition module_line : string := "module github.com/galaplate/galaplate".

Definition rewrite_manifest (opts : ProjectOptions) (content : string) : string :=
  strings_ReplaceAll content module_line ("module " +++ opt_Module opts).

(** The content a rule makes of the content of the source file. *)
Definition rule_output (r : Rule) (opts : ProjectOptions) (content : string) : string :=
  match r with
  | TemplateSuffix => render_template opts content
  | Manifest => rewrite_manifest opts content
  | SourceReference => replaceModuleReferences content (opt_Module opts)
  | Passthrough => content
  end.

(** The path a rule writes to. *)
Definition rule_target (r : Rule) (dest : string) : string :=
  match r with
  | TemplateSuffix => strings_TrimSuffix dest ".template"
  | _ => dest
  end.

(** The calls by which a rule reads the source and writes its output. *)
Definition rule_calls (r : Rule) (src dest : string) (opts : ProjectOptions)
    (content : string) : list Call :=
  match r with
  | Passthrough => [CallCopy dest src]
  | _ => [CallReadAll src;
          CallWriteFile (rule_target r dest) (rule_output r opts content) perm_0644]
  end.

(** The permission bits of a file after it was opened for writing with
    creation mode [perm]: those it had, or the creation mode less the
    umask when it did not exist. *)
Definition perm_after_open (umask perm : Z) (before : option Stat) : Z :=
  match before with
  | Some (SFile m _) => m
  | _ => created_perm umask perm
  end.

(** The place of a rule in the order of priority. *)
Definition rule_rank (r : Rule) : nat :=
  match r with
  | TemplateSuffix => 0
  | Manifest => 1
  | SourceReference => 2
  | Passthrough => 3
  end.

(** A rule fires for a file when its pattern matches the name and the
    pattern of no rule of higher priority does. *)
Definition rule_fires (r : Rule) (src : string) : Prop :=
  rule_matches r src = true
  /\ forall r', (rule_rank r' < rule_rank r)%nat -> rule_matches r' src = false.

(** The permission bits of the file a rule wrote at [pt], when the
    destination created first is at [pd]. *)
Definition result_perm (umask : Z) (pt pd : list string) (before : node) : Z :=
  if list_eq_dec string_dec pt pd
  then perm_after_open umask perm_0666 (stat pd before)
  else perm_after_open umask perm_0644 (stat pt before).

(** ** Texts made of plain text and placeholder markers *)

Inductive Token : Type := ProjectName | ModuleName | DbType | CoreVersion.

Definition token_text (k : Token) : string :=
  match k with
  | ProjectName => "{{PROJECT_NAME}}"
  | ModuleName => "{{MODULE_NAME}}"
  | DbType => "{{DB_TYPE}}"
  | CoreVersion => "{{GALAPLATE_CORE_VERSION}}"
  end.

Definition token_value (opts : ProjectOptions) (k : Token) : string :=
  match k with
  | ProjectName => opt_Name opts
  | ModuleName => opt_Module opts
  | DbType => opt_DbType opts
  | CoreVersion => "v0.0.0"
  end.

Definition token_eqb (a b : Token) : bool :=
  match a, b with
  | ProjectName, ProjectName | ModuleName, ModuleName
  | DbType, DbType | CoreVersion, CoreVersion => true
  | _, _ => false
  end.

Inductive Piece : Type :=
| Plain (t : string)
| Mark (k : Token).

Definition brace : ascii := "{"%char.

(** Plain text is text without an opening brace. *)
Definition piece_ok (p : Piece) : bool :=
  match p with
  | Plain t => lacks brace t
  | Mark _ => true
  end.

Definition piece_text (p : Piece) : string :=
  match p with
  | Plain t => t
  | Mark k => token_text k
  end.

Fixpoint pieces_text (ps : list Piece) : string :=
  match ps with
  | [] => EmptyString
  | p :: ps' => piece_text p +++ pieces_text ps'
  end.

(** A piece with the marker [K] replaced by [v]. *)
Definition fill_one (K : Token) (v : string) (p : Piece) : Piece :=
  match p with
  | Mark k => if token_eqb k K then Plain v else p
  | Plain _ => p
  end.

(** A piece with its marker replaced by the value of the marker. *)
Definition fill (opts : ProjectOptions) (p : Piece) : Piece :=
  match p with
  | Mark k => Plain (token_value opts k)
  | Plain _ => p
  end.

(** The line feed, and the lines of a text. *)
Definition line_feed : ascii := "010"%char.
Definition nl : string := String line_feed EmptyString.

(** Whether a line begins with the declaration of the module of the
    template. *)
Definition declares_old_module (line : string) : bool := has_prefix module_line line.

(** ** What a run leaves of the file system it found *)

(** The location of the file a call writes or whose permission bits it
    sets. *)
Definition call_target (cwd : list string) (c : Call) : option (list string) :=
  match c with
  | CallCreate p => resolve cwd p
  | CallWriteFile p _ _ => resolve cwd p
  | CallCopy p _ => resolve cwd p
  | CallCopyEntry p _ => resolve cwd p
  | CallChmod p _ => resolve cwd p
  | _ => None
  end.

(** No call of [cs] writes a file at [q]. *)
Definition untouched (cwd : list string) (cs : list Call) (q : list string) : Prop :=
  forall c, In c cs -> call_target cwd c <> Some q.

(** [w'] is [w] with directories and files merged into it: the process
    is in the same directory with the same umask, the calls of [w] were
    followed by further calls, every directory of [w] is a directory with
    the same permission bits, every file of [w] is a file with the same
    permission bits, and it has the same content when none of the further
    calls writes a file there. *)
Definition merged (w w' : World) : Prop :=
  w_cwd w' = w_cwd w /\ w_umask w' = w_umask w /\
  exists cs, w_calls w' = w_calls w ++ cs /\
    forall q,
      match stat q (w_root w) with
      | Some (SDir m) => stat q (w_root w') = Some (SDir m)
      | Some (SFile m d) =>
          (exists d', stat q (w_root w') = Some (SFile m d'))
          /\ (untouched (w_cwd w) cs q -> stat q (w_root w') = Some (SFile m d))
      | None => True
      end.

Definition is_sdir (s : Stat) : bool :=
  match s with SDir _ => true | SFile _ _ => false end.

(** Every file and directory of [n] is a file, respectively a
    directory, in [n']. *)
Definition keeps (n n' : node) : Prop :=
  forall q s, stat q n = Some s ->
              exists s', stat q n' = Some s' /\ is_sdir s' = is_sdir s.

(** Every file and directory of [n] outside [T] is a file, respectively
    a directory, in [n']. *)
Definition survives (T : list string) (n n' : node) : Prop :=
  forall q s, is_prefix T q = false -> stat q n = Some s ->
              exists s', stat q n' = Some s' /\ is_sdir s' = is_sdir s.

(** [w'] is [w] after further calls of a process that stays in its
    directory: whatever existed outside [T] and is not the target of one
    of these calls is as it was. *)
Definition quiet (T : list string) (w w' : World) : Prop :=
  w_cwd w' = w_cwd w /\ w_umask w' = w_umask w /\
  exists cs, w_calls w' = w_calls w ++ cs /\
    forall q s, is_prefix T q = false -> stat q (w_root w) = Some s ->
                untouched (w_cwd w) cs q -> stat q (w_root w') = Some s.

(** [w'] is [w] after further calls that leave the locations [P] as they
    are. *)
Definition calm (P : list string -> Prop) (w w' : World) : Prop :=
  (exists cs, w_calls w' = w_calls w ++ cs)
  /\ forall q, P q -> stat q (w_root w') = stat q (w_root w).

(** The external tools leave the location [q], outside [T], as it is. *)
Definition left_alone
    (run_tool : string -> list string -> list string -> node -> bool * node)
    (T q : list string) : Prop :=
  is_prefix T q = false
  /\ forall name args cwd r, stat q (snd (run_tool name args cwd r)) = stat q r.

(** A computation all of whose runs relate the world before to the world
    after. *)
Definition preserves {A} (R : World -> World -> Prop) (m : M A) : Prop :=
  forall w a w', m w = (a, w') -> R w w'.

(** An entry function that writes files only, and keeps their
    permission bits. *)
Definition writes_files (f : option node -> option node) : Prop :=
  (forall m es, f (Some (Dir m es)) = None)
  /\ (forall m d x, f (Some (File m d)) = Some x -> exists d', x = File m d').

(** An entry function that keeps the kind of an entry. *)
Definition keeps_kind (f : option node -> option node) : Prop :=
  forall n x, f (Some n) = Some x -> is_dir x = is_dir n.

Definition lives (T : list string) (w w' : World) : Prop :=
  survives T (w_root w) (w_root w').

(** ** Where a run writes *)

(** [w'] is [w] after further calls, each of which satisfies [P]. *)
Definition calls_are (P : Call -> bool) (w w' : World) : Prop :=
  exists cs, w_calls w' = w_calls w ++ cs /\ forallb P cs = true.

(** The path of the file a call writes or whose permission bits it
    sets, as the call names it. *)
Definition written_path (c : Call) : option string :=
  match c with
  | CallCreate p => Some p
  | CallWriteFile p _ _ => Some p
  | CallCopy p _ => Some p
  | CallCopyEntry p _ => Some p
  | CallChmod p _ => Some p
  | _ => None
  end.

(** A call that writes no file, or one at a path of [paths]. *)
Definition writes_within (paths : list string) (c : Call) : bool :=
  match written_path c with
  | Some p => existsb (String.eqb p) paths
  | None => true
  end.

(** The path at which the extraction materializes an entry. *)
Definition entry_path (tempDir : string) (e : TarEntry) : string :=
  filepath_Join [tempDir; filepath_Join (tl (strings_Split (Name (header e)) Separator))].

(** The entries of the archive the server sent, if it sent one. *)
Definition archive (response : HttpResult) : list TarEntry :=
  match response with
  | Response _ (Some tr) => entries tr
  | _ => []
  end.

(** The files of a tree, by the paths [filepath.Walk] passes for them
    when it walks the tree from [path]. *)
Fixpoint walked_files (path : string) (n : node) {struct n} : list string :=
  match n with
  | File _ _ => [path]
  | Dir _ es =>
      (fix names (es : list (string * node)) : list string :=
         match es with
         | [] => []
         | (name, ch) :: es' => walked_files (filepath_Join [path; name]) ch ++ names es'
         end) es
  end.

Fixpoint walked_names (path : string) (es : list (string * node)) : list string :=
  match es with
  | [] => []
  | (name, ch) :: es' => walked_files (filepath_Join [path; name]) ch ++ walked_names path es'
  end.

(** The paths that mirror the file at [path] of the tree walked from
    [srcRoot] in the destination: the destination joined with the path
    of the file relative to [srcRoot], and that path without the
    template suffix; none for a file the copier leaves out, because
    its relative path begins with the name of an excluded directory or
    its own name is that of an excluded file. *)
Definition mirror_of (srcRoot destDir path : string) : list string :=
  match filepath_Rel srcRoot path with
  | Ok relPath =>
      if String.eqb relPath "."
         || slices_Contains excludeDirs (nth 0 (strings_Split relPath Separator) EmptyString)
         || slices_Contains excludeFiles (filepath_Base path)
      then []
      else
        let destPath := filepath_Join [destDir; relPath] in
        [destPath; strings_TrimSuffix destPath ".template"]
  | Err _ => []
  end.

(** The paths that mirror the files of the tree at [srcRoot]. *)
Definition mirror_paths (srcRoot destDir : string) (tree : node) : list string :=
  flat_map (mirror_of srcRoot destDir) (walked_files srcRoot tree).

(** ** Induction over trees *)

(** Induction over a tree and the trees of its entries. *)
Fixpoint node_rect' (P : node -> Prop)
    (Hf : forall m d, P (File m d))
    (Hd : forall m es, Forall (fun e => P (snd e)) es -> P (Dir m es))
    (n : node) : P n :=
  match n with
  | File m d => Hf m d
  | Dir m es =>
      Hd m es
         ((fix go (es : list (string * node)) : Forall (fun e => P (snd e)) es :=
             match es with
             | [] => Forall_nil _
             | (k, ch) :: es' =>
                 Forall_cons (k, ch) (node_rect' P Hf Hd ch) (go es')
             end) es)
  end.

(* ===================================================================== *)
(** * Worlds and archives for the examples *)
(* ===================================================================== *)

(** A machine with the home directory of a user, where the project
    [demo] exists already with a file of the user in it; the process
    runs in the home directory with umask 022. *)
Definition demo_world : World :=
  mkWorld (Dir perm_0755
             [("home", Dir perm_0755
                 [("u", Dir perm_0755
                     [("demo", Dir perm_0755 [("notes.txt", File perm_0644 "keep me")])])]);
              ("tmp", Dir perm_0777 [])])
          ["home"; "u"] 18 [].

(** Tools that succeed and leave the file system as it is. *)
Definition no_tool (name : string) (args : list string) (cwd : list string) (r : node)
  : bool * node := (true, r).

(** The same machine with an empty scratch directory in [/tmp]. *)
Definition scratch_world : World :=
  mkWorld (Dir perm_0755
             [("home", Dir perm_0755
                 [("u", Dir perm_0755
                     [("demo", Dir perm_0755 [("notes.txt", File perm_0644 "keep me")])])]);
              ("tmp", Dir perm_0777 [("galaplate-1", Dir perm_0700 [])])])
          ["home"; "u"] 18 [].

Definition scratch_root : list string := ["tmp"; "galaplate-1"].

Definition reg_entry (name : string) (mode : Z) (data : string) : TarEntry :=
  mkEntry (mkHeader name tar_TypeReg mode) data true.

Definition dir_entry (name : string) (mode : Z) : TarEntry :=
  mkEntry (mkHeader name tar_TypeDir mode) EmptyString true.

(** [tar.TypeSymlink] *)
Definition tar_TypeSymlink : ascii := "2"%char.

Definition symlink_entry (name : string) : TarEntry :=
  mkEntry (mkHeader name tar_TypeSymlink perm_0777) EmptyString true.

(** The options of a project [demo], and the manifest of the template. *)
Definition demo_opts : ProjectOptions :=
  mkOptions "demo" "api" "postgres" "example.com/demo" false false.

Definition go_mod_text : string :=
  strings_Join ["module github.com/galaplate/galaplate"; EmptyString; "go 1.22"; EmptyString] nl.

Definition template_tree : node :=
  Dir perm_0700
    [(".env.template", File perm_0644 "APP={{PROJECT_NAME}} DB={{DB_TYPE}}");
     ("cmd", Dir perm_0755 [("x.go", File perm_0644 "package main")]);
     ("go.mod", File perm_0644 go_mod_text);
     ("main.go.template",
      File perm_0644 "package main // {{MODULE_NAME}} github.com/galaplate/galaplate");
     ("pkg", Dir perm_0755
        [("a.go", File perm_0644 ("import " +++ quoted "github.com/galaplate/galaplate/pkg/db"))]);
     ("run.sh", File perm_0755 "#!/bin/sh")].

(** The scratch directory holds the template; the destination [demo]
    exists, with a file of the user in it; the umask is 002. *)
Definition template_world : World :=
  mkWorld (Dir perm_0755
             [("home", Dir perm_0755
                 [("u", Dir perm_0755
                     [("demo", Dir perm_0755 [("notes.txt", File perm_0644 "keep me")])])]);
              ("tmp", Dir perm_0777 [("galaplate-1", template_tree)])])
          ["home"; "u"] 2 [].

(** The archive of a small template: a manifest, a source file, an
    excluded directory and a script. *)
Definition demo_archive : TarStream :=
  mkStream
    [mkEntry (mkHeader "pax_global_header" "g"%char perm_0666) EmptyString true;
     dir_entry "galaplate-main/" perm_0755;
     reg_entry "galaplate-main/go.mod" perm_0644 go_mod_text;
     dir_entry "galaplate-main/cmd/" perm_0755;
     reg_entry "galaplate-main/cmd/x.go" perm_0644 "package main";
     dir_entry "galaplate-main/pkg/" perm_0755;
     reg_entry "galaplate-main/pkg/a.go" perm_0644
               ("import " +++ quoted "github.com/galaplate/galaplate/pkg/db");
     reg_entry "galaplate-main/run.sh" perm_0755 "#!/bin/sh"]
    true.

(** An archive with an entry that leads out of the scratch directory,
    to a file of the user in the destination. *)
Definition hostile_archive : TarStream :=
  mkStream
    [dir_entry "galaplate-main/" perm_0755;
     reg_entry "galaplate-main/go.mod" perm_0644 go_mod_text;
     reg_entry "galaplate-main/../../home/u/demo/notes.txt" perm_0644 "overwritten"]
    true.

(* ===================================================================== *)
(** * Further notions, for the properties beyond C1 to C10 *)
(* ===================================================================== *)

(** An argument that [parseProjectArgs] gives a meaning to. *)
Definition is_flag (arg : string) : bool :=
  strings_HasPrefix arg "--template=" || strings_HasPrefix arg "--db="
  || strings_HasPrefix arg "--module=" || String.eqb arg "--no-git"
  || String.eqb arg "--force".

(** The value given by the last argument of [args] that starts with
    [pre], and [def] when there is none. *)
Fixpoint last_value (pre def : string) (args : list string) : string :=
  match args with
  | [] => def
  | a :: rest =>
      last_value pre (if strings_HasPrefix a pre then strings_TrimPrefix a pre else def) rest
  end.

(** A run of [git]. *)
Definition is_git_run (c : Call) : bool :=
  match c with
  | CallRun name _ => String.eqb name "git"
  | _ => false
  end.

(** A removal of anything but [tempDir]. *)
Definition removes_other_than (tempDir : string) (c : Call) : bool :=
  match c with
  | CallRemoveAll p => negb (String.eqb p tempDir)
  | _ => false
  end.

(** The four stages of [createProjectFromGitHub], as its errors name
    them. *)
Definition stages : list string :=
  ["download template"; "create project directory"; "copy project files"; "setup project"].

(** Whether an entry of the scratch directory has the name of an
    excluded directory. *)
Definition excluded_entry (e : string * node) : bool :=
  existsb (String.eqb (fst e)) excludeDirs.

(** *** [main] *)

(** [listTemplates] prints the list of the templates and returns no
    error. *)
Definition listTemplates : M (option error) := ret None.

(** The commands that only print. *)
Definition help_commands : list string := ["help"; "--help"; "-h"].

(** [main], for the arguments [os.Args] of the process (the name of the
    program first): the exit status.  What is printed is outside the
    model, so that [showHelp] and [showVersion] leave nothing here; a
    return from [main] is the status 0, [os.Exit(1)] the status 1. *)
Definition main
    (temp_name : string) (response : HttpResult)
    (run_tool : string -> list string -> list string -> node -> bool * node)
    (os_Args : list string) : M Z :=
  if (length os_Args <? 2)%nat then ret 0%Z
  else
    let cmd := nth 1 os_Args EmptyString in
    let args := skipn 2 os_Args in
    if String.eqb cmd "new" then
      err <- handleNewProject temp_name response run_tool args ;;
      match err with Some _ => ret 1%Z | None => ret 0%Z end
    else if String.eqb cmd "version" then ret 0%Z
    else if String.eqb cmd "templates" then
      err <- listTemplates ;;
      match err with Some _ => ret 1%Z | None => ret 0%Z end
    else if slices_Contains help_commands cmd then ret 0%Z
    else ret 1%Z.

(* ===================================================================== *)
(** * Sanity checks of the model *)
(* ===================================================================== *)

Example Clean_ex1 : filepath_Clean "/tmp/g-1/../../etc/x" = "/etc/x".
Proof. reflexivity. Qed.
Example Clean_ex2 : filepath_Clean "a//b/./c/.." = "a/b".
Proof. reflexivity. Qed.
Example Clean_ex3 : filepath_Clean "../../a/../../b/" = "../../../b".
Proof. reflexivity. Qed.
Example Clean_ex4 : filepath_Clean "/../a" = "/a".
Proof. reflexivity. Qed.
Example Clean_ex5 : filepath_Clean "//" = "/".
Proof. reflexivity. Qed.
Example Join_ex1 : filepath_Join [EmptyString; EmptyString] = EmptyString.
Proof. reflexivity. Qed.
Example Join_ex2 : filepath_Join ["/tmp/g"; EmptyString] = "/tmp/g".
Proof. reflexivity. Qed.
Example Join_ex3 : filepath_Join ["a"; "../../b"] = "../b".
Proof. reflexivity. Qed.
Example Dir_ex1 : filepath_Dir "/tmp/g/a.txt" = "/tmp/g".
Proof. reflexivity. Qed.
Example Dir_ex2 : filepath_Dir "a.txt" = ".".
Proof. reflexivity. Qed.
Example Dir_ex3 : filepath_Dir "/a" = "/".
Proof. reflexivity. Qed.
Example Base_ex1 : filepath_Base "/tmp/g/go.mod" = "go.mod".
Proof. reflexivity. Qed.
Example Base_ex2 : filepath_Base "a/b/" = "b".
Proof. reflexivity. Qed.
Example Base_ex3 : filepath_Base "///" = "/".
Proof. reflexivity. Qed.
Example Split_ex1 : strings_Split "galaplate-main/" Separator = ["galaplate-main"; EmptyString].
Proof. reflexivity. Qed.
Example Split_ex2 : strings_Split EmptyString Separator = [EmptyString].
Proof. reflexivity. Qed.
Example Replace_ex1 : strings_ReplaceAll "aaa" "aa" "b" = "ba".
Proof. reflexivity. Qed.
Example Replace_ex2 : strings_ReplaceAll "x{{A}}y{{A}}" "{{A}}" EmptyString = "xy".
Proof. reflexivity. Qed.
Example Suffix_ex1 : strings_TrimSuffix "p/.env.template" ".template" = "p/.env".
Proof. reflexivity. Qed.
Example Suffix_ex2 : strings_HasSuffix "go" ".go" = false.
Proof. reflexivity. Qed.
Example rmr_ex1 :
  replaceModuleReferences ("import " +++ quoted "github.com/galaplate/galaplate/sub/pkg") "github.com/new/new"
  = "import " +++ quoted "github.com/new/new/sub/pkg".
Proof. reflexivity. Qed.
Example rmr_ex2 :
  replaceModuleReferences ("import " +++ quoted "github.com/galaplate/galaplate/sub/pkg") "github.com/galaplate/galaplate-api"
  = "import " +++ quoted "github.com/galaplate/galaplate-api-api/sub/pkg".
Proof. reflexivity. Qed.
Example rmr_ex3 :
  replaceModuleReferences ("import " +++ quoted "github.com/galaplate/galaplate/sub/pkg") "a$b"
  = "import " +++ quoted "a/sub/pkg".
Proof. reflexivity. Qed.
Example rmr_ex4 :
  replaceModuleReferences ("x " +++ quoted "github.com/galaplate/galaplate" +++ " // github.com/galaplate/galaplate/y") "m"
  = "x " +++ quoted "m" +++ " // m/y".
Proof. reflexivity. Qed.

(** Paths as the kernel follows them, in the home directory of the
    examples: a path through a directory that does not exist names
    nothing, though [..] leads back; neither does the name of a file
    with a separator after it. *)
Example node_at_ex1 :
  node_at demo_world "demo/../demo/./notes.txt" = Some (File perm_0644 "keep me").
Proof. reflexivity. Qed.
Example node_at_ex2 : node_at demo_world "missing/../demo" = None.
Proof. reflexivity. Qed.
Example node_at_ex3 : node_at demo_world "demo/notes.txt/" = None.
Proof. reflexivity. Qed.
Example node_at_ex4 : node_at demo_world "demo/notes.txt/.." = None.
Proof. reflexivity. Qed.
Example node_at_ex5 : option_map is_dir (node_at demo_world "../u/demo/") = Some true.
Proof. reflexivity. Qed.

(** [os.MkdirAll] makes the directories one after the other: the
    directory [missing] before it comes back by [..], and the
    directories before a file that is in the way. *)
Example MkdirAll_ex1 :
  let run := os_MkdirAll "missing/../demo" perm_0755 demo_world in
  fst run = None
  /\ stat ["home"; "u"; "missing"] (w_root (snd run)) = Some (SDir perm_0755).
Proof. vm_compute. split; reflexivity. Qed.
Example MkdirAll_ex2 :
  let run := os_MkdirAll "a/b/../../demo/notes.txt/x" perm_0755 demo_world in
  fst run = Some (ErrFS "mkdir" "a/b/../../demo/notes.txt/")
  /\ stat ["home"; "u"; "a"; "b"] (w_root (snd run)) = Some (SDir perm_0755).
Proof. vm_compute. split; reflexivity. Qed.
Example MkdirAll_ex3 :
  os_MkdirAll "demo/notes.txt" perm_0755 demo_world
  = (Some (ErrFS "mkdir" "demo/notes.txt"),
     record_call (CallMkdirAll "demo/notes.txt" perm_0755) demo_world).
Proof. reflexivity. Qed.

(* ===================================================================== *)
(** * Strings *)
(* ===================================================================== *)

Section StringFacts.

Lemma append_nil_r (s : string) : s +++ EmptyString = s.
Proof. induction s as [|c s IH]; simpl; [reflexivity | now rewrite IH]. Qed.

Lemma append_assoc (a b c : string) : (a +++ b) +++ c = a +++ b +++ c.
Proof. induction a as [|x a IH]; simpl; [reflexivity | now rewrite IH]. Qed.

Lemma length_append (a b : string) :
  String.length (a +++ b) = (String.length a + String.length b)%nat.
Proof. induction a as [|x a IH]; simpl; [reflexivity | now rewrite IH]. Qed.

Lemma has_prefix_append (p s : string) : has_prefix p (p +++ s) = true.
Proof.
  induction p as [|c p IH]; simpl; [reflexivity|].
  now rewrite Ascii.eqb_refl, IH.
Qed.

Lemma has_prefix_inv (p s : string) :
  has_prefix p s = true -> exists r, s = p +++ r.
Proof.
  revert s; induction p as [|c p IH]; intros s H; simpl in *.
  - now exists s.
  - destruct s as [|d s]; [discriminate|].
    apply andb_true_iff in H as [Hc Hp].
    apply Ascii.eqb_eq in Hc; subst d.
    destruct (IH _ Hp) as [r ->]. now exists r.
Qed.

Lemma has_prefix_extend (p a b : string) :
  has_prefix p a = true -> has_prefix p (a +++ b) = true.
Proof.
  intros H. apply has_prefix_inv in H as [r ->].
  rewrite append_assoc. apply has_prefix_append.
Qed.

Lemma has_prefix_length (p s : string) :
  has_prefix p s = true -> (String.length p <= String.length s)%nat.
Proof.
  intros H. apply has_prefix_inv in H as [r ->]. rewrite length_append. lia.
Qed.

Lemma string_drop_append (p s : string) : string_drop (String.length p) (p +++ s) = s.
Proof. induction p as [|c p IH]; simpl; auto. Qed.

Lemma string_take_append (p s : string) : string_take (String.length p) (p +++ s) = p.
Proof. induction p as [|c p IH]; simpl; [now destruct s | now rewrite IH]. Qed.

Lemma HasSuffix_append (p suf : string) : strings_HasSuffix (p +++ suf) suf = true.
Proof.
  unfold strings_HasSuffix. rewrite length_append.
  replace (String.length p + String.length suf - String.length suf)%nat
    with (String.length p) by lia.
  rewrite string_drop_append, String.eqb_refl, andb_true_r.
  apply Nat.leb_le. lia.
Qed.

Lemma TrimSuffix_append (p suf : string) : strings_TrimSuffix (p +++ suf) suf = p.
Proof.
  unfold strings_TrimSuffix. rewrite HasSuffix_append, length_append.
  replace (String.length p + String.length suf - String.length suf)%nat
    with (String.length p) by lia.
  apply string_take_append.
Qed.

Lemma take_drop (n : nat) (s : string) : string_take n s +++ string_drop n s = s.
Proof.
  revert s; induction n as [|n IH]; intros [|c s]; simpl; auto. now rewrite IH.
Qed.

Lemma HasSuffix_inv (s suf : string) :
  strings_HasSuffix s suf = true -> exists p, s = p +++ suf.
Proof.
  unfold strings_HasSuffix. intros H.
  apply andb_true_iff in H as [_ H]. apply String.eqb_eq in H.
  exists (string_take (String.length s - String.length suf) s).
  pose proof (take_drop (String.length s - String.length suf) s) as E.
  rewrite H in E. now symmetry.
Qed.

End StringFacts.

(** ** Splitting and joining *)

Section SplitJoin.

Lemma lacks_append c a b : lacks c (a +++ b) = lacks c a && lacks c b.
Proof.
  induction a as [|x a IH]; simpl; [reflexivity|].
  now rewrite IH, andb_assoc.
Qed.

Lemma Split_not_nil s sep : strings_Split s sep <> [].
Proof.
  destruct s as [|c s]; simpl; [discriminate|].
  destruct (Ascii.eqb c sep); [discriminate|].
  destruct (strings_Split s sep); discriminate.
Qed.

Lemma Split_lacks s sep : lacks sep s = true -> strings_Split s sep = [s].
Proof.
  induction s as [|c s IH]; simpl; [reflexivity|].
  intros H. apply andb_true_iff in H as [Hc Hs].
  apply negb_true_iff in Hc. rewrite Hc, (IH Hs). reflexivity.
Qed.

Lemma Split_append a b sep :
  strings_Split (a +++ String sep b) sep = strings_Split a sep ++ strings_Split b sep.
Proof.
  induction a as [|c a IH]; simpl.
  - now rewrite Ascii.eqb_refl.
  - destruct (Ascii.eqb c sep); [now rewrite IH|].
    rewrite IH.
    destruct (strings_Split a sep) as [|h t] eqn:E; [now apply Split_not_nil in E|].
    reflexivity.
Qed.

Lemma Split_elements s sep : Forall (fun e => lacks sep e = true) (strings_Split s sep).
Proof.
  induction s as [|c s IH]; simpl.
  - now constructor.
  - destruct (Ascii.eqb c sep) eqn:Ec; [now constructor|].
    destruct (strings_Split s sep) as [|h t]; [constructor; simpl; [now rewrite Ec|constructor]|].
    inversion IH; subst. constructor; [|assumption].
    simpl. now rewrite Ec.
Qed.

Lemma Join_cons2 a b l sep :
  strings_Join (a :: b :: l) sep = a +++ sep +++ strings_Join (b :: l) sep.
Proof. reflexivity. Qed.

Lemma Split_Join l :
  l <> [] -> Forall (fun e => lacks Separator e = true) l ->
  strings_Split (strings_Join l "/") Separator = l.
Proof.
  induction l as [|a l IH]; [congruence|]. intros _ H.
  inversion H as [|? ? Ha Hl]; subst.
  destruct l as [|b l].
  - simpl. now apply Split_lacks.
  - rewrite Join_cons2. change ("/" +++ ?x) with (String Separator x).
    rewrite Split_append, (Split_lacks a) by assumption.
    rewrite IH by (assumption || discriminate). reflexivity.
Qed.

Lemma Join_snoc l e :
  l <> [] -> strings_Join (l ++ [e]) "/" = strings_Join l "/" +++ "/" +++ e.
Proof.
  induction l as [|a l IH]; [congruence|]. intros _.
  destruct l as [|b l]; [reflexivity|].
  change ((a :: b :: l) ++ [e]) with (a :: (b :: l) ++ [e]).
  change ((b :: l) ++ [e]) with (b :: (l ++ [e])) at 1.
  rewrite Join_cons2. change (b :: l ++ [e]) with ((b :: l) ++ [e]).
  rewrite IH by discriminate. rewrite Join_cons2.
  now rewrite !append_assoc.
Qed.

Lemma is_name_kept e : is_name e = true -> is_kept e = true.
Proof.
  unfold is_name, is_kept.
  destruct (String.eqb e EmptyString), (String.eqb e "."), (String.eqb e ".."),
    (lacks Separator e); simpl; intros H; congruence.
Qed.

Lemma is_kept_cases e :
  is_kept e = true -> e = ".." \/ is_name e = true.
Proof.
  unfold is_name, is_kept.
  destruct (String.eqb_spec e ".."); [now left|right].
  destruct (String.eqb e EmptyString), (String.eqb e "."), (lacks Separator e);
    simpl in *; congruence.
Qed.

Lemma is_name_inv e :
  is_name e = true ->
  String.eqb e EmptyString = false /\ String.eqb e "." = false /\ String.eqb e ".." = false
  /\ lacks Separator e = true.
Proof.
  unfold is_name.
  destruct (String.eqb e EmptyString), (String.eqb e "."), (String.eqb e ".."),
    (lacks Separator e); simpl; intros H; repeat split; congruence.
Qed.

Lemma lacks_not_rooted e : e <> EmptyString -> lacks Separator e = true -> rooted e = false.
Proof.
  destruct e as [|c e]; [congruence|]. simpl. intros _ H.
  apply andb_true_iff in H as [H _]. now apply negb_true_iff in H.
Qed.

End SplitJoin.

(* ===================================================================== *)
(** * Paths: cleaning and resolution *)
(* ===================================================================== *)

Section PathFacts.

Lemma follow_app from a b : follow from (a ++ b) = follow (follow from a) b.
Proof.
  revert from; induction a as [|e a IH]; intros from; simpl; [reflexivity|].
  destruct (String.eqb e EmptyString || String.eqb e "."); [apply IH|].
  destruct (String.eqb e ".."); apply IH.
Qed.

Lemma clean_elems_app abs out a b :
  clean_elems abs out (a ++ b) = clean_elems abs (clean_elems abs out a) b.
Proof.
  revert out; induction a as [|e a IH]; intros out; simpl; [reflexivity|].
  destruct (String.eqb e EmptyString || String.eqb e "."); [apply IH|].
  destruct (String.eqb e ".."); [|apply IH].
  destruct (rev out) as [|l ?]; [apply IH|].
  destruct (String.eqb l ".."); apply IH.
Qed.

Lemma Forall_removelast {A} (P : A -> Prop) l : Forall P l -> Forall P (removelast l).
Proof.
  induction 1 as [|x l Hx Hl IH]; simpl; [constructor|].
  destruct l; [constructor|]. constructor; assumption.
Qed.

Lemma Forall_snoc {A} (P : A -> Prop) l x : Forall P l -> P x -> Forall P (l ++ [x]).
Proof. intros. apply Forall_app. split; [assumption|]. now constructor. Qed.

Lemma is_kept_intro e :
  (String.eqb e EmptyString || String.eqb e ".") = false -> lacks Separator e = true ->
  is_kept e = true.
Proof.
  unfold is_kept. intros H L. apply orb_false_iff in H as [-> ->]. now rewrite L.
Qed.

(** [Clean] keeps proper names and [..] only. *)
Lemma clean_elems_kept abs out elems :
  Forall (fun e => lacks Separator e = true) elems ->
  Forall (fun e => is_kept e = true) out ->
  Forall (fun e => is_kept e = true) (clean_elems abs out elems).
Proof.
  intros He; revert out; induction He as [|e elems Le He IH]; intros out Ho; simpl.
  - assumption.
  - destruct (String.eqb e EmptyString || String.eqb e ".") eqn:E1; [now apply IH|].
    destruct (String.eqb e "..") eqn:E2.
    + destruct (rev out) as [|l ?].
      * apply IH. destruct abs; repeat constructor.
      * destruct (String.eqb l "..").
        -- apply IH, Forall_snoc; [assumption | reflexivity].
        -- apply IH, Forall_removelast, Ho.
    + apply IH, Forall_snoc; [assumption|]. now apply is_kept_intro.
Qed.

Lemma follow_snoc_kept from out l :
  is_kept l = true -> String.eqb l ".." = false ->
  follow from (out ++ [l]) = follow from out ++ [l].
Proof.
  intros K D. rewrite follow_app. simpl.
  unfold is_kept in K.
  destruct (String.eqb l EmptyString), (String.eqb l "."); simpl in *; try discriminate.
  now rewrite D.
Qed.

Lemma rev_eq_cons {A} (l : list A) x r : rev l = x :: r -> l = rev r ++ [x].
Proof.
  intros H. rewrite <- (rev_involutive l), H. reflexivity.
Qed.

(** Cleaning does not change the location a path names. *)
Lemma follow_clean_elems abs from es : forall out,
  Forall (fun e => is_kept e = true) out ->
  (abs = true -> from = []) ->
  Forall (fun e => lacks Separator e = true) es ->
  follow from (clean_elems abs out es) = follow (follow from out) es.
Proof.
  induction es as [|e es IH]; intros out Ho Habs Hes; simpl; [reflexivity|].
  inversion Hes as [|? ? Le Hes']; subst.
  destruct (String.eqb e EmptyString || String.eqb e ".") eqn:E1; [now apply IH|].
  destruct (String.eqb e "..") eqn:E2.
  - destruct (rev out) as [|l r] eqn:Er.
    + assert (out = []) by (destruct out; [reflexivity|]; simpl in Er;
                            now destruct (rev out)).
      subst out. simpl. destruct abs.
      * rewrite IH by (auto; constructor). simpl. now rewrite (Habs eq_refl).
      * rewrite IH by (auto; repeat constructor). reflexivity.
    + apply rev_eq_cons in Er. subst out.
      destruct (String.eqb l "..") eqn:El.
      * rewrite IH by (auto; apply Forall_snoc; auto).
        now rewrite (follow_app _ _ [".."]).
      * rewrite removelast_last.
        apply Forall_app in Ho as [Hr Hl]. inversion Hl; subst.
        rewrite IH by auto.
        rewrite follow_snoc_kept by assumption.
        now rewrite removelast_last.
  - rewrite IH; auto.
    + rewrite follow_snoc_kept; auto. now apply is_kept_intro.
    + apply Forall_snoc; auto. now apply is_kept_intro.
Qed.

Lemma kept_lacks cs :
  Forall (fun e => is_kept e = true) cs -> Forall (fun e => lacks Separator e = true) cs.
Proof.
  apply Forall_impl. intros e. unfold is_kept.
  destruct (String.eqb e EmptyString), (String.eqb e "."), (lacks Separator e); simpl; congruence.
Qed.

Lemma follow_skip_empty from es : follow from (EmptyString :: es) = follow from es.
Proof. reflexivity. Qed.

Lemma Split_slash x :
  strings_Split (String Separator x) Separator = EmptyString :: strings_Split x Separator.
Proof. simpl. reflexivity. Qed.

Lemma follow_Split_render abs from cs :
  Forall (fun e => is_kept e = true) cs ->
  follow from (strings_Split (render abs cs) Separator) = follow from cs.
Proof.
  intros K. pose proof (kept_lacks _ K) as L.
  destruct abs; unfold render.
  - change ("/" +++ ?x) with (String Separator x). rewrite Split_slash.
    rewrite follow_skip_empty.
    destruct cs as [|c cs]; [reflexivity|].
    now rewrite Split_Join by (assumption || discriminate).
  - destruct cs as [|c cs]; [reflexivity|].
    now rewrite Split_Join by (assumption || discriminate).
Qed.

Lemma kept_not_empty e : is_kept e = true -> e <> EmptyString.
Proof. intros H ->. discriminate. Qed.

Lemma rooted_render abs cs :
  Forall (fun e => is_kept e = true) cs -> rooted (render abs cs) = abs.
Proof.
  intros K. destruct abs; [reflexivity|].
  destruct cs as [|c cs]; [reflexivity|].
  inversion K as [|? ? Kc Kcs]; subst.
  assert (rooted c = false) as R.
  { apply lacks_not_rooted; [now apply kept_not_empty|].
    unfold is_kept in Kc. now apply andb_true_iff in Kc as [_ ?]. }
  pose proof (kept_not_empty _ Kc) as Nc.
  simpl. destruct cs; simpl; destruct c; simpl in *; congruence.
Qed.

Lemma render_not_empty abs cs :
  Forall (fun e => is_kept e = true) cs -> render abs cs <> EmptyString.
Proof.
  intros K. destruct abs; [discriminate|].
  destruct cs as [|c cs]; [discriminate|].
  inversion K as [|? ? Kc Kcs]; subst. apply kept_not_empty in Kc.
  simpl. destruct cs; destruct c; simpl; congruence.
Qed.

Lemma Clean_kept path :
  Forall (fun e => is_kept e = true)
         (clean_elems (rooted path) [] (strings_Split path Separator)).
Proof. apply clean_elems_kept; [apply Split_elements | constructor]. Qed.

Lemma Clean_not_empty path : filepath_Clean path <> EmptyString.
Proof.
  destruct path as [|c s]; [discriminate|].
  unfold filepath_Clean. apply render_not_empty, Clean_kept.
Qed.

Lemma rooted_Clean path : rooted (filepath_Clean path) = rooted path.
Proof.
  destruct path as [|c s]; [reflexivity|].
  unfold filepath_Clean. apply rooted_render, Clean_kept.
Qed.

(** [filepath.Clean] preserves the location named. *)
Lemma resolve_Clean cwd path :
  path <> EmptyString -> resolve cwd (filepath_Clean path) = resolve cwd path.
Proof.
  intros Hp. unfold resolve.
  pose proof (Clean_not_empty path) as Hn. pose proof (rooted_Clean path) as Hr.
  destruct (filepath_Clean path) as [|c0 s0] eqn:Ec; [congruence|].
  rewrite <- Ec in *. clear Ec c0 s0.
  destruct path as [|c s]; [congruence|].
  rewrite Hr. f_equal.
  unfold filepath_Clean.
  rewrite follow_Split_render by apply Clean_kept.
  rewrite follow_clean_elems.
  - reflexivity.
  - constructor.
  - intros H. now rewrite H.
  - apply Split_elements.
Qed.

Lemma rooted_append a b : a <> EmptyString -> rooted (a +++ b) = rooted a.
Proof. destruct a; [congruence | reflexivity]. Qed.

(** The location of [filepath.Join(a, b)]: the elements of [b]
    followed from the location of [a]. *)
Lemma resolve_Join2 cwd a b :
  a <> EmptyString ->
  resolve cwd (filepath_Join [a; b]) =
  option_map (fun l => follow l (strings_Split b Separator)) (resolve cwd a).
Proof.
  intros Ha. unfold filepath_Join.
  destruct (String.eqb_spec a EmptyString); [congruence|].
  assert (strings_Join [a; b] "/" = a +++ String Separator b) as -> by reflexivity.
  rewrite resolve_Clean by (destruct a; [congruence | discriminate]).
  unfold resolve.
  destruct (a +++ String Separator b) as [|c0 s0] eqn:E;
    [destruct a; [congruence|discriminate]|].
  rewrite <- E. clear E c0 s0. rewrite rooted_append by assumption.
  destruct a as [|c a']; [congruence|]. simpl option_map.
  now rewrite Split_append, follow_app.
Qed.

Lemma follow_Split_Clean from s :
  s <> EmptyString -> rooted s = false ->
  follow from (strings_Split (filepath_Clean s) Separator)
  = follow from (strings_Split s Separator).
Proof.
  intros Hs Hr. destruct s as [|c s']; [congruence|].
  unfold filepath_Clean. rewrite Hr.
  rewrite follow_Split_render by (rewrite <- Hr; apply Clean_kept).
  rewrite follow_clean_elems.
  - reflexivity.
  - constructor.
  - discriminate.
  - apply Split_elements.
Qed.

Lemma Join_head_not_rooted e rest :
  e <> EmptyString -> lacks Separator e = true ->
  strings_Join (e :: rest) "/" <> EmptyString /\ rooted (strings_Join (e :: rest) "/") = false.
Proof.
  intros He Le. pose proof (lacks_not_rooted e He Le) as R.
  destruct e as [|c e]; [congruence|].
  destruct rest; simpl in *; split; congruence.
Qed.

Lemma Join_cons e rest :
  filepath_Join (e :: rest) =
  if String.eqb e EmptyString then filepath_Join rest
  else filepath_Clean (strings_Join (e :: rest) "/").
Proof. reflexivity. Qed.

(** Following the elements of [filepath.Join(es...)] is following
    [es]. *)
Lemma follow_Split_Join from es :
  Forall (fun e => lacks Separator e = true) es ->
  follow from (strings_Split (filepath_Join es) Separator) = follow from es.
Proof.
  induction 1 as [|e es Le Les IH]; [reflexivity|].
  rewrite Join_cons. destruct (String.eqb_spec e EmptyString) as [->|Ne].
  - now rewrite IH.
  - destruct (Join_head_not_rooted e es Ne Le) as [N R].
    rewrite follow_Split_Clean by assumption.
    rewrite Split_Join; [reflexivity | discriminate | now constructor].
Qed.

Lemma follow_names from names :
  Forall (fun e => is_name e = true) names -> follow from names = from ++ names.
Proof.
  intros H; revert from; induction H as [|e names He _ IH]; intros from; simpl.
  - now rewrite app_nil_r.
  - apply is_name_inv in He as (E1 & E2 & E3 & _).
    rewrite E1, E2, E3. simpl. rewrite IH, <- app_assoc. reflexivity.
Qed.

(** Without [..], following elements never leaves the directory it
    starts from. *)
Lemma follow_below from es :
  Forall (fun e => e <> "..") es -> exists rest, follow from es = from ++ rest.
Proof.
  intros H; revert from; induction H as [|e es He _ IH]; intros from; simpl.
  - exists []. now rewrite app_nil_r.
  - destruct (String.eqb e EmptyString || String.eqb e "."); [apply IH|].
    destruct (String.eqb_spec e ".."); [congruence|].
    destruct (IH (from ++ [e])) as [rest ->]. exists (e :: rest).
    now rewrite <- app_assoc.
Qed.

End PathFacts.

(* ===================================================================== *)
(** * The file system: what a location holds *)
(* ===================================================================== *)

Section FileSystemFacts.

Lemma get_put_eq name n es : get_entry name (put_entry name n es) = Some n.
Proof.
  induction es as [|[k v] es IH]; simpl.
  - now rewrite String.eqb_refl.
  - destruct (String.compare name k) eqn:C; simpl.
    + now rewrite String.eqb_refl.
    + now rewrite String.eqb_refl.
    + destruct (String.eqb_spec name k) as [->|_]; [|assumption].
      assert (String.compare k k = Eq) as E
          by (destruct (String.compare k k) eqn:E'; auto;
              pose proof (String.compare_antisym k k) as A; rewrite E' in A;
              simpl in A; congruence).
      congruence.
Qed.

Lemma get_put_ne name name' n es :
  name <> name' -> get_entry name' (put_entry name n es) = get_entry name' es.
Proof.
  intros Hne. induction es as [|[k v] es IH]; simpl.
  - destruct (String.eqb_spec name' name); [congruence | reflexivity].
  - destruct (String.compare name k) eqn:C; simpl.
    + apply String.compare_eq_iff in C. subst k.
      destruct (String.eqb_spec name' name); [congruence | reflexivity].
    + destruct (String.eqb_spec name' name); [congruence | reflexivity].
    + destruct (String.eqb name' k); [reflexivity | assumption].
Qed.

Lemma get_del_eq name es : get_entry name (del_entry name es) = None.
Proof.
  induction es as [|[k v] es IH]; simpl; [reflexivity|].
  destruct (String.eqb name k) eqn:E; [assumption|]. simpl. now rewrite E.
Qed.

Lemma get_del_ne name name' es :
  name <> name' -> get_entry name' (del_entry name es) = get_entry name' es.
Proof.
  intros Hne. induction es as [|[k v] es IH]; simpl; [reflexivity|].
  destruct (String.eqb_spec name k) as [->|N]; simpl.
  - destruct (String.eqb_spec name' k); [congruence | assumption].
  - destruct (String.eqb name' k); [reflexivity | assumption].
Qed.

Lemma stat_nil n : stat [] n = Some (stat_of n).
Proof. reflexivity. Qed.

Lemma stat_cons c q m es :
  stat (c :: q) (Dir m es) =
  match get_entry c es with Some ch => stat q ch | None => None end.
Proof. unfold stat; simpl. now destruct (get_entry c es). Qed.

Lemma stat_cons_file c q m d : stat (c :: q) (File m d) = None.
Proof. reflexivity. Qed.

Lemma is_prefix_refl p : is_prefix p p = true.
Proof. induction p; simpl; [reflexivity|]. now rewrite String.eqb_refl. Qed.

Lemma is_prefix_app p r : is_prefix p (p ++ r) = true.
Proof. induction p; simpl; [reflexivity|]. now rewrite String.eqb_refl. Qed.

Lemma is_prefix_inv p q : is_prefix p q = true -> exists r, q = p ++ r.
Proof.
  revert q; induction p as [|a p IH]; intros q H; simpl in *.
  - now exists q.
  - destruct q as [|b q]; [discriminate|].
    apply andb_true_iff in H as [E H]. apply String.eqb_eq in E. subst b.
    destruct (IH _ H) as [r ->]. now exists r.
Qed.

Lemma is_prefix_trans p q r :
  is_prefix p q = true -> is_prefix q r = true -> is_prefix p r = true.
Proof.
  intros H1 H2. apply is_prefix_inv in H1 as [a ->]. apply is_prefix_inv in H2 as [b ->].
  rewrite <- app_assoc. apply is_prefix_app.
Qed.

(** Below a missing entry or a file there is nothing. *)
Lemma stat_below_children x y q c :
  children x = children y -> stat (c :: q) x = stat (c :: q) y.
Proof.
  destruct x as [pm d|pm es], y as [pm' d'|pm' es']; simpl; intros E; subst;
    try reflexivity; unfold stat; simpl; reflexivity.
Qed.

Lemma stat_prefix_exists p r n s :
  stat (p ++ r) n = Some s -> exists s', stat p n = Some s'.
Proof.
  revert n; induction p as [|c p IH]; intros n H; simpl in *.
  - eexists. apply stat_nil.
  - destruct n as [m d|m es]; [discriminate|].
    rewrite stat_cons in *. destruct (get_entry c es); [eauto | discriminate].
Qed.

(** [mkdir_all]: what exists stays as it is; the missing directories on
    the way to [p] are created. *)
Lemma stat_mkdir_all p perm : forall n n' q,
  mkdir_all p perm n = Some n' ->
  stat q n' = match stat q n with
              | Some s => Some s
              | None => if is_prefix q p then Some (SDir perm) else None
              end.
Proof.
  induction p as [|c p IH]; intros n n' q H; simpl in H.
  - destruct (is_dir n); [|discriminate]. injection H as <-.
    destruct (stat q n) eqn:E; [reflexivity|].
    destruct q; [discriminate | reflexivity].
  - destruct n as [m d|m es]; [discriminate|].
    destruct (mkdir_all p perm _) as [ch'|] eqn:E; [|discriminate].
    injection H as <-.
    destruct q as [|d q]; [reflexivity|].
    rewrite !stat_cons. simpl is_prefix.
    destruct (String.eqb_spec d c) as [->|N].
    + rewrite get_put_eq, (IH _ _ q E). simpl.
      destruct (get_entry c es) as [ch|]; [reflexivity|].
      destruct q; reflexivity.
    + rewrite get_put_ne by congruence.
      destruct (get_entry d es) as [ch|]; [|reflexivity].
      now destruct (stat q ch).
Qed.

Lemma mkdir_all_is_dir p perm : forall n n',
  mkdir_all p perm n = Some n' -> exists m, stat p n' = Some (SDir m).
Proof.
  induction p as [|c p IH]; intros n n' H; simpl in H.
  - destruct n as [m d|m es]; simpl in H; [discriminate|]. injection H as <-.
    now exists m.
  - destruct n as [m d|m es]; [discriminate|].
    destruct (mkdir_all p perm _) as [ch'|] eqn:E; [|discriminate].
    injection H as <-. rewrite stat_cons, get_put_eq. eauto.
Qed.

(** [modify] at [p]: the entry becomes what [f] makes of it... *)
Lemma lookup_modify_eq p f : forall n n',
  modify p f n = Some n' -> lookup p n' = f (lookup p n) /\ f (lookup p n) <> None.
Proof.
  induction p as [|c p IH]; intros n n' H; simpl in H; [discriminate|].
  destruct n as [m d|m es]; [discriminate|].
  destruct p as [|c2 p].
  - destruct (f (get_entry c es)) as [ch'|] eqn:E; [|discriminate].
    injection H as <-. simpl. rewrite get_put_eq.
    destruct (get_entry c es); rewrite E; split; congruence.
  - destruct (get_entry c es) as [ch|] eqn:G; [|discriminate].
    destruct (modify (c2 :: p) f ch) as [ch'|] eqn:E; [|discriminate].
    injection H as <-.
    change (lookup (c :: c2 :: p) (Dir m (put_entry c ch' es)))
      with (match get_entry c (put_entry c ch' es) with
            | Some x => lookup (c2 :: p) x | None => None end).
    change (lookup (c :: c2 :: p) (Dir m es))
      with (match get_entry c es with
            | Some x => lookup (c2 :: p) x | None => None end).
    rewrite get_put_eq, G. now apply IH.
Qed.

(** ... and every other location holds what it held. *)
Lemma stat_modify_ne p f : forall n n' q,
  shallow f -> modify p f n = Some n' -> q <> p -> stat q n' = stat q n.
Proof.
  induction p as [|c p IH]; intros n n' q Sh H Hq; simpl in H; [discriminate|].
  destruct n as [m d|m es]; [discriminate|].
  destruct p as [|c2 p].
  - destruct (f (get_entry c es)) as [ch'|] eqn:E; [|discriminate].
    injection H as <-.
    destruct q as [|d q]; [reflexivity|]. rewrite !stat_cons.
    destruct (String.eqb_spec d c) as [->|N].
    + rewrite get_put_eq. destruct q as [|e q]; [congruence|].
      apply Sh in E.
      destruct (get_entry c es) as [ch|]; simpl in E.
      * now apply stat_below_children.
      * destruct ch'; simpl in E; subst; reflexivity.
    + now rewrite get_put_ne by congruence.
  - destruct (get_entry c es) as [ch|] eqn:G; [|discriminate].
    destruct (modify (c2 :: p) f ch) as [ch'|] eqn:E; [|discriminate].
    injection H as <-.
    destruct q as [|d q]; [reflexivity|]. rewrite !stat_cons.
    destruct (String.eqb_spec d c) as [->|N].
    + rewrite get_put_eq, G. apply (IH ch ch' q Sh E). congruence.
    + now rewrite get_put_ne by congruence.
Qed.

(** [remove_all] at [p]: nothing is left at [p] and below, and every
    other location holds what it held. *)
Lemma stat_remove_all p : forall n q,
  p <> [] ->
  stat q (remove_all p n) = if is_prefix p q then None else stat q n.
Proof.
  induction p as [|c p IH]; intros n q Hp; [congruence|].
  destruct n as [m d|m es].
  - simpl remove_all. destruct q as [|e q]; simpl is_prefix; [reflexivity|].
    rewrite stat_cons_file. now destruct (String.eqb c e && is_prefix p q).
  - destruct p as [|c2 p].
    + simpl remove_all. destruct q as [|d q]; [reflexivity|].
      rewrite !stat_cons. simpl is_prefix.
      destruct (String.eqb_spec d c) as [->|N].
      * now rewrite String.eqb_refl, get_del_eq.
      * rewrite get_del_ne by congruence.
        destruct (String.eqb_spec c d); [congruence | reflexivity].
    + change (remove_all (c :: c2 :: p) (Dir m es))
        with (match get_entry c es with
              | Some ch => Dir m (put_entry c (remove_all (c2 :: p) ch) es)
              | None => Dir m es end).
      destruct q as [|d q]; [now destruct (get_entry c es)|].
      change (is_prefix (c :: c2 :: p) (d :: q))
        with (String.eqb c d && is_prefix (c2 :: p) q).
      destruct (String.eqb_spec c d) as [<-|N]; simpl andb.
      * destruct (get_entry c es) as [ch|] eqn:G.
        -- rewrite !stat_cons, get_put_eq, G. apply IH. discriminate.
        -- rewrite stat_cons, G.
           match goal with |- _ = if ?b then _ else _ => now destruct b end.
      * destruct (get_entry c es) as [ch|] eqn:G; [|reflexivity].
        rewrite !stat_cons. now rewrite get_put_ne by congruence.
Qed.

Lemma stat_file_lookup q n m d :
  stat q n = Some (SFile m d) <-> lookup q n = Some (File m d).
Proof.
  unfold stat. destruct (lookup q n) as [[pm dd|pm es]|]; simpl; split;
    intros H; try discriminate; congruence.
Qed.

Lemma stat_none_lookup q n : stat q n = None <-> lookup q n = None.
Proof. unfold stat. destruct (lookup q n); simpl; split; congruence. Qed.

End FileSystemFacts.

(* ===================================================================== *)
(** * Paths the kernel follows *)
(* ===================================================================== *)

Section KernelFacts.

Lemma special_cases e :
  is_special e = false ->
  (String.eqb e EmptyString || String.eqb e ".") = false /\ String.eqb e ".." = false.
Proof.
  unfold is_special.
  destruct (String.eqb e EmptyString), (String.eqb e "."), (String.eqb e "..");
    simpl; intros H; split; congruence.
Qed.

Lemma special_step e :
  is_special e = true ->
  (String.eqb e EmptyString || String.eqb e ".") = true
  \/ ((String.eqb e EmptyString || String.eqb e ".") = false /\ String.eqb e ".." = true).
Proof.
  unfold is_special.
  destruct (String.eqb e EmptyString), (String.eqb e "."), (String.eqb e "..");
    simpl; intros H; auto; discriminate.
Qed.

Lemma is_name_not_special e : is_name e = true -> is_special e = false.
Proof.
  intros H. apply is_name_inv in H as (E1 & E2 & E3 & _).
  unfold is_special. now rewrite E1, E2, E3.
Qed.

Lemma is_kept_special e : is_kept e = true -> is_special e = String.eqb e "..".
Proof.
  unfold is_kept, is_special.
  destruct (String.eqb e EmptyString), (String.eqb e "."); simpl; intros H;
    congruence.
Qed.

(** The two parts of tidy elements. *)
Lemma tidy_parts l :
  tidy l = true <->
  exists a b, l = a ++ b /\ forallb is_special a = true
              /\ forallb (fun x => negb (is_special x)) b = true.
Proof.
  split.
  - induction l as [|e l IH]; simpl; intros H.
    + exists [], []. auto.
    + destruct (is_special e) eqn:E.
      * destruct (IH H) as (a & b & -> & Ha & Hb).
        exists (e :: a), b. simpl. rewrite E, Ha. auto.
      * exists [], (e :: l). simpl. rewrite E. auto.
  - intros (a & b & -> & Ha & Hb).
    induction a as [|e a IH]; simpl in *.
    + destruct b as [|e b]; simpl in *; [reflexivity|].
      apply andb_true_iff in Hb as [E Hb]. apply negb_true_iff in E. now rewrite E.
    + apply andb_true_iff in Ha as [E Ha]. rewrite E. now apply IH.
Qed.

Lemma tidy_names l : forallb (fun x => negb (is_special x)) l = true -> tidy l = true.
Proof. intros H. apply tidy_parts. exists [], l. auto. Qed.

Lemma tidy_snoc_name l e : tidy l = true -> is_special e = false -> tidy (l ++ [e]) = true.
Proof.
  intros H E. apply tidy_parts in H as (a & b & -> & Ha & Hb).
  apply tidy_parts. exists a, (b ++ [e]). rewrite app_assoc. repeat split; auto.
  rewrite forallb_app, Hb. simpl. now rewrite E.
Qed.

Lemma tidy_removelast l : tidy l = true -> tidy (removelast l) = true.
Proof.
  intros H. apply tidy_parts in H as (a & b & -> & Ha & Hb). apply tidy_parts.
  destruct b as [|x b].
  - rewrite app_nil_r. exists (removelast a), []. rewrite app_nil_r.
    repeat split; auto.
    clear Hb. induction a as [|y a IH]; [reflexivity|]. simpl in *.
    apply andb_true_iff in Ha as [E Ha]. destruct a; [reflexivity|].
    simpl in *. rewrite E. now apply IH.
  - exists a, (removelast (x :: b)). rewrite removelast_app by discriminate.
    repeat split; auto.
    clear Ha. revert x Hb. induction b as [|y b IH]; intros x Hb; [reflexivity|].
    simpl in Hb. apply andb_true_iff in Hb as [E Hb].
    change (removelast (x :: y :: b)) with (x :: removelast (y :: b)).
    simpl forallb. rewrite E. now apply IH.
Qed.

Lemma tidy_snoc_special l x e :
  tidy (l ++ [x]) = true -> is_special x = true -> is_special e = true ->
  tidy (l ++ [x] ++ [e]) = true.
Proof.
  intros H X E. apply tidy_parts in H as (a & b & Hl & Ha & Hb).
  apply tidy_parts. exists (l ++ [x] ++ [e]), []. rewrite app_nil_r.
  repeat split; auto.
  destruct b as [|y b].
  - rewrite app_nil_r in Hl. rewrite app_assoc, Hl, forallb_app, Ha. simpl. now rewrite E.
  - exfalso.
    assert (In x (y :: b)) as I.
    { destruct (exists_last (l:=y :: b)) as (b' & z & Eb); [discriminate|].
      rewrite Eb in *. rewrite app_assoc in Hl. apply app_inj_tail in Hl as [_ ->].
      apply in_or_app. right. now left. }
    rewrite forallb_forall in Hb. specialize (Hb _ I). now rewrite X in Hb.
Qed.

(** The elements [Clean] keeps are tidy. *)
Lemma clean_elems_tidy abs out elems :
  Forall (fun e => lacks Separator e = true) elems ->
  Forall (fun e => is_kept e = true) out -> tidy out = true ->
  tidy (clean_elems abs out elems) = true.
Proof.
  intros He; revert out; induction He as [|e elems Le He IH]; intros out Ko Ho; simpl.
  - assumption.
  - destruct (String.eqb e EmptyString || String.eqb e ".") eqn:E1; [now apply IH|].
    destruct (String.eqb e "..") eqn:E2.
    + destruct (rev out) as [|l r] eqn:Er.
      * apply IH; destruct abs; repeat constructor.
      * apply rev_eq_cons in Er. subst out.
        destruct (String.eqb l "..") eqn:El.
        -- apply IH; [apply Forall_snoc; [assumption | reflexivity]|].
           rewrite <- app_assoc. apply tidy_snoc_special; try assumption.
           ++ unfold is_special. rewrite El. now rewrite !orb_true_r.
           ++ reflexivity.
        -- apply IH; [now apply Forall_removelast | now apply tidy_removelast].
    + apply IH.
      * apply Forall_snoc; [assumption | now apply is_kept_intro].
      * apply tidy_snoc_name; [assumption|].
        unfold is_special. apply orb_false_iff in E1 as [-> ->]. now rewrite E2.
Qed.

Lemma tidy_render abs cs :
  Forall (fun e => is_kept e = true) cs -> tidy cs = true ->
  tidy (strings_Split (render abs cs) Separator) = true.
Proof.
  intros K H. pose proof (kept_lacks _ K) as L.
  destruct abs; unfold render.
  - change ("/" +++ ?x) with (String Separator x). rewrite Split_slash.
    destruct cs as [|c cs]; [reflexivity|].
    now rewrite Split_Join by (assumption || discriminate).
  - destruct cs as [|c cs]; [reflexivity|].
    now rewrite Split_Join by (assumption || discriminate).
Qed.

Lemma tidy_Clean path : tidy (strings_Split (filepath_Clean path) Separator) = true.
Proof.
  destruct path as [|c s]; [reflexivity|].
  unfold filepath_Clean. apply tidy_render; [apply Clean_kept|].
  apply clean_elems_tidy; [apply Split_elements | constructor | reflexivity].
Qed.

Lemma tidy_Join es : tidy (strings_Split (filepath_Join es) Separator) = true.
Proof.
  induction es as [|e es IH]; [reflexivity|].
  rewrite Join_cons. destruct (String.eqb e EmptyString); [assumption | apply tidy_Clean].
Qed.

Lemma tidy_Dir path : tidy (strings_Split (filepath_Dir path) Separator) = true.
Proof. unfold filepath_Dir. destruct (removelast _); apply tidy_Clean. Qed.

(** Names are followed in every tree... *)
Lemma passable_names root names : forall sure from,
  forallb (fun x => negb (is_special x)) names = true ->
  passable root sure from names = true.
Proof.
  induction names as [|e names IH]; intros sure from H; [reflexivity|].
  simpl in H. apply andb_true_iff in H as [E H]. apply negb_true_iff in E.
  apply special_cases in E as [E1 E2]. simpl. rewrite E1, E2. now apply IH.
Qed.

(** ... and so are tidy elements, from a directory. *)
Lemma passable_tidy root elems : forall from,
  tidy elems = true -> passable root true from elems = true.
Proof.
  induction elems as [|e elems IH]; intros from H; [reflexivity|].
  simpl in H. destruct (is_special e) eqn:E.
  - simpl. destruct (special_step _ E) as [E1|[E1 E2]]; rewrite E1.
    + now apply IH.
    + rewrite E2. now apply IH.
  - apply special_cases in E as [E1 E2]. simpl. rewrite E1, E2.
    now apply passable_names.
Qed.

Lemma locate_resolve w path p : locate w path = Some p -> resolve (w_cwd w) path = Some p.
Proof. unfold locate. now destruct (passable _ _ _ _). Qed.

Lemma locate_tidy w path :
  tidy (strings_Split path Separator) = true -> locate w path = resolve (w_cwd w) path.
Proof. intros H. unfold locate. now rewrite passable_tidy. Qed.

Lemma locate_rooted w path T :
  rooted path = true -> resolve [] path = Some T ->
  locate w path = Some T \/ locate w path = None.
Proof.
  intros R H. destruct (locate w path) as [p|] eqn:L; [left | now right].
  apply locate_resolve in L. unfold resolve in *.
  destruct path; [discriminate|]. rewrite R in *. congruence.
Qed.

Lemma locate_record c w path : locate (record_call c w) path = locate w path.
Proof. reflexivity. Qed.

(** A path that can be followed can still be followed when directories
    were added. *)
Lemma passable_mono root root' elems : forall sure from,
  (forall p, is_dir_at p root = true -> is_dir_at p root' = true) ->
  passable root sure from elems = true -> passable root' sure from elems = true.
Proof.
  induction elems as [|e elems IH]; intros sure from K H; [reflexivity|].
  simpl in *. destruct (String.eqb e EmptyString || String.eqb e ".").
  - apply andb_true_iff in H as [H1 H2]. rewrite (IH _ _ K H2), andb_true_r.
    destruct sure; [reflexivity|]. simpl in *. now apply K.
  - destruct (String.eqb e "..").
    + apply andb_true_iff in H as [H1 H2]. rewrite (IH _ _ K H2), andb_true_r.
      destruct sure; [reflexivity|]. simpl in *. now apply K.
    + now apply IH.
Qed.

Lemma is_dir_at_stat p n : is_dir_at p n = true <-> exists m, stat p n = Some (SDir m).
Proof.
  unfold is_dir_at, stat. destruct (lookup p n) as [[m d|m es]|]; simpl; split;
    try discriminate; eauto; intros [m' H]; discriminate.
Qed.

Lemma keeps_is_dir n n' :
  keeps n n' -> forall p, is_dir_at p n = true -> is_dir_at p n' = true.
Proof.
  intros K p H. apply is_dir_at_stat in H as [m H].
  destruct (K _ _ H) as (s' & H' & D). destruct s'; [discriminate|].
  apply is_dir_at_stat. eauto.
Qed.

Lemma locate_keeps w w' path p :
  w_cwd w' = w_cwd w -> keeps (w_root w) (w_root w') ->
  locate w path = Some p -> locate w' path = Some p.
Proof.
  unfold locate. intros C K H. rewrite C.
  destruct (passable (w_root w) _ _ _) eqn:P; [|discriminate].
  now rewrite (passable_mono _ _ _ _ _ (keeps_is_dir _ _ K) P).
Qed.

(** Entries put at the same name: the last one stays. *)
Lemma put_put name x y es : put_entry name x (put_entry name y es) = put_entry name x es.
Proof.
  assert (String.compare name name = Eq) as R
      by (destruct (String.compare name name) eqn:E'; auto;
          pose proof (String.compare_antisym name name) as A; rewrite E' in A;
          simpl in A; congruence).
  induction es as [|[k v] es IH]; simpl.
  - now rewrite R.
  - destruct (String.compare name k) eqn:C; simpl.
    + now rewrite R.
    + now rewrite R.
    + now rewrite C, IH.
Qed.

(** Directories made on the way to [p] are found on the way to what is
    below [p]. *)
Lemma mkdir_all_app p perm : forall q n n',
  mkdir_all p perm n = Some n' -> mkdir_all (p ++ q) perm n' = mkdir_all (p ++ q) perm n.
Proof.
  induction p as [|c p IH]; intros q n n' H; simpl in H.
  - destruct (is_dir n); [|discriminate]. now injection H as <-.
  - destruct n as [m d|m es]; [discriminate|].
    destruct (mkdir_all p perm _) as [ch'|] eqn:E; [|discriminate].
    injection H as <-. simpl. rewrite get_put_eq, (IH q _ _ E).
    destruct (mkdir_all (p ++ q) perm _); [|reflexivity].
    now rewrite put_put.
Qed.

Lemma mkdir_all_app_none p perm : forall q n,
  mkdir_all p perm n = None -> mkdir_all (p ++ q) perm n = None.
Proof.
  induction p as [|c p IH]; intros q n H; simpl in H.
  - destruct n as [m d|m es]; simpl in H; [|discriminate].
    now destruct q.
  - destruct n as [m d|m es]; [reflexivity|]. simpl.
    destruct (mkdir_all p perm _) as [ch'|] eqn:E; [discriminate|].
    now rewrite (IH q _ E).
Qed.

Lemma mkdir_all_empty p perm : forall m, mkdir_all p perm (Dir m []) <> None.
Proof.
  induction p as [|c p IH]; intros m; simpl; [discriminate|].
  specialize (IH perm). now destruct (mkdir_all p perm (Dir perm [])).
Qed.

(** Below a directory that was just made nothing is in the way... *)
Lemma mkdir_all_fresh p perm : forall q n n',
  lookup p n = None -> mkdir_all p perm n = Some n' -> mkdir_all (p ++ q) perm n <> None.
Proof.
  induction p as [|c p IH]; intros q n n' L H; simpl in *; [discriminate|].
  destruct n as [m d|m es]; [discriminate|].
  destruct (get_entry c es) as [ch|] eqn:G.
  - destruct (mkdir_all p perm ch) as [ch'|] eqn:E; [|discriminate].
    specialize (IH q _ _ L E). now destruct (mkdir_all (p ++ q) perm ch).
  - pose proof (mkdir_all_empty (p ++ q) perm perm) as N.
    now destruct (mkdir_all (p ++ q) perm (Dir perm [])).
Qed.

(** ... and below a file nothing can be made. *)
Lemma mkdir_all_file p perm : forall q n m d,
  lookup p n = Some (File m d) -> mkdir_all (p ++ q) perm n = None.
Proof.
  induction p as [|c p IH]; intros q n m d L; simpl in *.
  - injection L as ->. now destruct q.
  - destruct n as [m' d'|m' es]; [discriminate|].
    destruct (get_entry c es) as [ch|]; [|discriminate].
    now rewrite (IH q _ _ _ L).
Qed.

(** Along names, and along tidy elements, [os.MkdirAll] makes what
    [mkdir_all] makes at the location named, or nothing. *)
Lemma mkdir_path_names perm names : forall from passed n,
  forallb (fun x => negb (is_special x)) names = true ->
  match mkdir_all (from ++ names) perm n with
  | Some n' => mkdir_path perm from passed names n = (None, n')
  | None => exists b, mkdir_path perm from passed names n = (Some b, n)
  end.
Proof.
  induction names as [|e names IH]; intros from passed n H.
  - rewrite app_nil_r. simpl. destruct (mkdir_all from perm n); eauto.
  - simpl in H. apply andb_true_iff in H as [E H]. apply negb_true_iff in E.
    apply special_cases in E as [E1 E2]. simpl mkdir_path. rewrite E1, E2.
    replace (from ++ e :: names) with ((from ++ [e]) ++ names)
      by now rewrite <- app_assoc.
    destruct (lookup (from ++ [e]) n) as [[m d|m es]|] eqn:L.
    + rewrite (mkdir_all_file _ _ names _ _ _ L). eauto.
    + now apply IH.
    + destruct (mkdir_all (from ++ [e]) perm n) as [n1|] eqn:M.
      * pose proof (mkdir_all_fresh _ _ names _ _ L M) as F.
        specialize (IH (from ++ [e]) (passed ++ [e]) n1 H).
        rewrite (mkdir_all_app _ _ names _ _ M) in IH.
        destruct (mkdir_all ((from ++ [e]) ++ names) perm n); [assumption | congruence].
      * rewrite (mkdir_all_app_none _ _ names _ M). eauto.
Qed.

Lemma follow_plain from names :
  forallb (fun x => negb (is_special x)) names = true -> follow from names = from ++ names.
Proof.
  revert from; induction names as [|e names IH]; intros from H; simpl.
  - now rewrite app_nil_r.
  - simpl in H. apply andb_true_iff in H as [E H]. apply negb_true_iff in E.
    apply special_cases in E as [E1 E2]. rewrite E1, E2.
    rewrite IH, <- app_assoc by assumption. reflexivity.
Qed.

Lemma mkdir_path_tidy perm elems : forall from passed n,
  tidy elems = true ->
  match mkdir_all (follow from elems) perm n with
  | Some n' => mkdir_path perm from passed elems n = (None, n')
  | None => exists b, mkdir_path perm from passed elems n = (Some b, n)
  end.
Proof.
  induction elems as [|e elems IH]; intros from passed n H.
  - simpl. destruct (mkdir_all from perm n); eauto.
  - simpl in H. destruct (is_special e) eqn:E.
    + simpl. destruct (special_step _ E) as [E1|[E1 E2]]; rewrite E1.
      * now apply IH.
      * rewrite E2. now apply IH.
    + assert (forallb (fun x => negb (is_special x)) (e :: elems) = true) as N
          by (simpl; now rewrite E, H).
      rewrite (follow_plain _ _ N). now apply mkdir_path_names.
Qed.

(** What [os.MkdirAll] makes of a tree in any case: a tree that a
    sequence of [mkdir_all] makes. *)
Lemma mkdir_path_steps (R : node -> node -> Prop) perm elems :
  (forall n, R n n) ->
  (forall a b c, R a b -> R b c -> R a c) ->
  (forall p n n', mkdir_all p perm n = Some n' -> R n n') ->
  forall from passed n, R n (snd (mkdir_path perm from passed elems n)).
Proof.
  intros Rr Rt Rs. induction elems as [|e elems IH]; intros from passed n; simpl.
  - destruct (mkdir_all from perm n) eqn:M; simpl; eauto.
  - destruct (String.eqb e EmptyString || String.eqb e "."); [apply IH|].
    destruct (String.eqb e ".."); [apply IH|].
    destruct (lookup (from ++ [e]) n) as [[m d|m es]|]; simpl; auto.
    destruct (mkdir_all (from ++ [e]) perm n) eqn:M; simpl; eauto.
Qed.

(** When [os.MkdirAll] succeeds a directory is at the location the
    path names. *)
Lemma mkdir_path_dir perm elems : forall from passed n n',
  mkdir_path perm from passed elems n = (None, n') ->
  exists m, stat (follow from elems) n' = Some (SDir m).
Proof.
  induction elems as [|e elems IH]; intros from passed n n' H; simpl in *.
  - destruct (mkdir_all from perm n) as [x|] eqn:M; [|discriminate].
    injection H as <-. exact (mkdir_all_is_dir _ _ _ _ M).
  - destruct (String.eqb e EmptyString || String.eqb e "."); [now apply IH in H|].
    destruct (String.eqb e ".."); [now apply IH in H|].
    destruct (lookup (from ++ [e]) n) as [[m d|m es]|]; [discriminate | now apply IH in H |].
    destruct (mkdir_all (from ++ [e]) perm n) as [n1|]; [now apply IH in H | discriminate].
Qed.

Lemma mkdir_all_keeps p perm n n' : mkdir_all p perm n = Some n' -> keeps n n'.
Proof.
  intros H q s Hs. rewrite (stat_mkdir_all _ _ _ _ q H), Hs. eauto.
Qed.

Lemma keeps_refl n : keeps n n.
Proof. intros q s H. eauto. Qed.

Lemma keeps_trans a b c : keeps a b -> keeps b c -> keeps a c.
Proof.
  intros H1 H2 q s H. destruct (H1 _ _ H) as (s1 & X1 & D1).
  destruct (H2 _ _ X1) as (s2 & X2 & D2). exists s2. split; [assumption | congruence].
Qed.

Lemma mkdir_path_keeps perm elems from passed n :
  keeps n (snd (mkdir_path perm from passed elems n)).
Proof.
  apply mkdir_path_steps; [apply keeps_refl | apply keeps_trans |].
  intros p x y H. exact (mkdir_all_keeps _ _ _ _ H).
Qed.

Lemma is_sdir_stat_of n : is_sdir (stat_of n) = is_dir n.
Proof. now destruct n. Qed.

Lemma modify_keeps p f n n' :
  shallow f -> keeps_kind f -> modify p f n = Some n' -> keeps n n'.
Proof.
  intros Sh Kk Hm q s Hs.
  destruct (list_eq_dec string_dec q p) as [->|Ne].
  - apply lookup_modify_eq in Hm as [Hm Nm]. unfold stat in *.
    destruct (lookup p n) as [n0|]; [|discriminate].
    injection Hs as <-. rewrite Hm.
    destruct (f (Some n0)) as [x|] eqn:E; [|congruence].
    exists (stat_of x). split; [reflexivity|].
    rewrite !is_sdir_stat_of. now apply Kk.
  - rewrite (stat_modify_ne _ _ _ _ q Sh Hm Ne). eauto.
Qed.

Lemma is_dir_at_front p x : forall n, is_dir_at (p ++ [x]) n = true -> is_dir_at p n = true.
Proof.
  unfold is_dir_at. induction p as [|c p IH]; intros n H; simpl in *.
  - destruct n; [discriminate | reflexivity].
  - destruct n as [m d|m es]; [discriminate|].
    destruct (get_entry c es); [now apply IH | discriminate].
Qed.

Lemma is_dir_at_removelast p n : is_dir_at p n = true -> is_dir_at (removelast p) n = true.
Proof.
  destruct p as [|x p _] using rev_ind; [trivial|].
  rewrite removelast_last. apply is_dir_at_front.
Qed.

End KernelFacts.

(* ===================================================================== *)
(** * The calls to the operating system *)
(* ===================================================================== *)

Section OsFacts.

Lemma bind_call {A} c (m : M A) w : (call c ;;; m) w = m (record_call c w).
Proof. reflexivity. Qed.

Lemma change_spec op path f w e w' :
  change op path f w = (e, w') ->
  w_cwd w' = w_cwd w /\ w_umask w' = w_umask w /\ w_calls w' = w_calls w /\
  match e with
  | Some er => er = ErrFS op path /\ w_root w' = w_root w
  | None => exists p, resolve (w_cwd w) path = Some p /\ f p (w_root w) = Some (w_root w')
  end.
Proof.
  unfold change. intros H.
  destruct (locate w path) as [p|] eqn:R.
  - apply locate_resolve in R.
    destruct (f p (w_root w)) as [r|] eqn:F; injection H as <- <-; simpl; eauto 10.
  - injection H as <- <-. auto.
Qed.

(** A change that succeeds is a change at a location the kernel
    finds. *)
Lemma change_locate op path f w w' :
  change op path f w = (None, w') ->
  exists p, locate w path = Some p /\ f p (w_root w) = Some (w_root w').
Proof.
  unfold change. intros H.
  destruct (locate w path) as [p|] eqn:R; [|discriminate].
  destruct (f p (w_root w)) as [r|] eqn:F; [|discriminate].
  injection H as <-. eauto.
Qed.

(** [os.MkdirAll] in general: the process goes on, and the tree is one
    that a sequence of [mkdir_all] makes of the tree before. *)
Lemma os_MkdirAll_steps (R : node -> node -> Prop) path perm w e w' :
  (forall n, R n n) ->
  (forall a b c, R a b -> R b c -> R a c) ->
  (forall p n n', mkdir_all p (created_perm (w_umask w) perm) n = Some n' -> R n n') ->
  os_MkdirAll path perm w = (e, w') ->
  same_process (CallMkdirAll path perm) w w' /\ R (w_root w) (w_root w').
Proof.
  intros Rr Rt Rs. unfold os_MkdirAll. rewrite bind_call. intros H.
  destruct path as [|c s].
  - injection H as <- <-. split; [now split | apply Rr].
  - simpl w_umask in H. simpl w_root in H. simpl w_cwd in H.
    pose proof (mkdir_path_steps R (created_perm (w_umask w) perm)
                  (strings_Split (String c s) Separator) Rr Rt Rs
                  (if rooted (String c s) then [] else w_cwd w) [] (w_root w)) as S.
    destruct (mkdir_path _ _ _ _ _) as [b r]. injection H as <- <-.
    split; [now split | exact S].
Qed.

(** Whatever the path, [os.MkdirAll] leaves what exists as it is. *)
Lemma os_MkdirAll_extends path perm w e w' :
  os_MkdirAll path perm w = (e, w') ->
  same_process (CallMkdirAll path perm) w w' /\
  forall q s, stat q (w_root w) = Some s -> stat q (w_root w') = Some s.
Proof.
  apply (os_MkdirAll_steps (fun n n' => forall q s, stat q n = Some s -> stat q n' = Some s)).
  - auto.
  - auto.
  - intros p n n' H q s Hs. now rewrite (stat_mkdir_all _ _ _ _ q H), Hs.
Qed.

Lemma os_MkdirAll_keeps path perm w e w' :
  os_MkdirAll path perm w = (e, w') -> keeps (w_root w) (w_root w').
Proof.
  intros H.
  apply (os_MkdirAll_steps keeps _ _ _ _ _ keeps_refl keeps_trans) in H as [_ K];
    [exact K|].
  intros p n n' M. exact (mkdir_all_keeps _ _ _ _ M).
Qed.

(** After [os.MkdirAll] succeeded a directory is where the path leads. *)
Lemma os_MkdirAll_dir path perm w w' :
  os_MkdirAll path perm w = (None, w') ->
  exists p m, resolve (w_cwd w) path = Some p /\ stat p (w_root w') = Some (SDir m).
Proof.
  unfold os_MkdirAll. rewrite bind_call. intros H.
  destruct path as [|c s]; [discriminate|].
  destruct (mkdir_path _ _ _ _ _) as [[b|] r] eqn:M; [discriminate|].
  injection H as <-. apply mkdir_path_dir in M as [m M].
  eexists _, m. split; [reflexivity | exact M].
Qed.

Lemma os_MkdirAll_errors path perm w er w' :
  os_MkdirAll path perm w = (Some er, w') -> exists p, er = ErrFS "mkdir" p.
Proof.
  unfold os_MkdirAll. rewrite bind_call. intros H.
  destruct path as [|c s]; [injection H as <- _; eauto|].
  destruct (mkdir_path _ _ _ _ _) as [[b|] r]; [|discriminate].
  injection H as <- _. eauto.
Qed.

(** [os.MkdirAll] for a tidy path, such as [filepath.Join] and
    [filepath.Dir] make. *)
Lemma os_MkdirAll_spec path perm w e w' :
  tidy (strings_Split path Separator) = true ->
  os_MkdirAll path perm w = (e, w') ->
  same_process (CallMkdirAll path perm) w w' /\
  match e with
  | Some er => w_root w' = w_root w
  | None => exists p, resolve (w_cwd w) path = Some p /\
                      mkdir_all p (created_perm (w_umask w) perm) (w_root w) = Some (w_root w')
  end.
Proof.
  intros T. unfold os_MkdirAll. rewrite bind_call. intros H.
  destruct path as [|c s].
  - injection H as <- <-. split; [now split | reflexivity].
  - simpl w_umask in H. simpl w_root in H. simpl w_cwd in H.
    pose proof (mkdir_path_tidy (created_perm (w_umask w) perm) _
                  (if rooted (String c s) then [] else w_cwd w) [] (w_root w) T) as S.
    destruct (mkdir_all _ _ _) as [n'|] eqn:M.
    + rewrite S in H. injection H as <- <-. split; [now split|].
      simpl. eexists. split; [reflexivity | exact M].
    + destruct S as [b S]. rewrite S in H. injection H as <- <-.
      split; [now split | reflexivity].
Qed.

Lemma os_Create_spec path w e w' :
  os_Create path w = (e, w') ->
  same_process (CallCreate path) w w' /\
  match e with
  | Some er => w_root w' = w_root w
  | None => exists p, resolve (w_cwd w) path = Some p /\
                      modify p (create_entry (w_umask w)) (w_root w) = Some (w_root w')
  end.
Proof.
  unfold os_Create. rewrite bind_call. intros H.
  apply change_spec in H as (C & U & L & H). simpl in *.
  split; [now split|]. destruct e; [tauto | assumption].
Qed.

Lemma write_to_spec path data w e w' :
  write_to path data w = (e, w') ->
  w_cwd w' = w_cwd w /\ w_umask w' = w_umask w /\ w_calls w' = w_calls w /\
  match e with
  | Some er => w_root w' = w_root w
  | None => exists p, resolve (w_cwd w) path = Some p /\
                      modify p (append_entry data) (w_root w) = Some (w_root w')
  end.
Proof.
  unfold write_to. intros H.
  apply change_spec in H as (C & U & L & H).
  repeat split; try assumption. destruct e; [tauto | assumption].
Qed.

Lemma os_Chmod_spec path mode w e w' :
  os_Chmod path mode w = (e, w') ->
  same_process (CallChmod path mode) w w' /\
  match e with
  | Some er => w_root w' = w_root w
  | None => exists p, resolve (w_cwd w) path = Some p /\
                      modify p (chmod_entry mode) (w_root w) = Some (w_root w')
  end.
Proof.
  unfold os_Chmod. rewrite bind_call. intros H.
  apply change_spec in H as (C & U & L & H). simpl in *.
  split; [now split|]. destruct e; [tauto | assumption].
Qed.

Lemma os_WriteFile_spec path data perm w e w' :
  os_WriteFile path data perm w = (e, w') ->
  same_process (CallWriteFile path data perm) w w' /\
  match e with
  | Some er => w_root w' = w_root w
  | None => exists p, resolve (w_cwd w) path = Some p /\
                      modify p (write_entry (w_umask w) data perm) (w_root w)
                      = Some (w_root w')
  end.
Proof.
  unfold os_WriteFile. rewrite bind_call. intros H.
  apply change_spec in H as (C & U & L & H). simpl in *.
  split; [now split|]. destruct e; [tauto | assumption].
Qed.

Lemma os_RemoveAll_spec path w e w' :
  os_RemoveAll path w = (e, w') ->
  same_process (CallRemoveAll path) w w' /\ e = None /\
  w_root w' = match locate w path with
              | Some p => remove_all p (w_root w)
              | None => w_root w
              end.
Proof.
  unfold os_RemoveAll. rewrite bind_call, locate_record. intros H.
  destruct (locate w path); injection H as <- <-; simpl;
    repeat split; reflexivity.
Qed.

Lemma os_Open_spec path w e w' :
  os_Open path w = (e, w') ->
  same_process (CallOpen path) w w' /\ w_root w' = w_root w /\
  (e = None -> node_at w path <> None).
Proof.
  unfold os_Open. rewrite bind_call.
  assert (node_at (record_call (CallOpen path) w) path = node_at w path) as -> by reflexivity.
  intros H. destruct (node_at w path); injection H as <- <-; simpl;
    repeat split; congruence.
Qed.

Lemma io_ReadAll_spec path w r w' :
  io_ReadAll path w = (r, w') ->
  same_process (CallReadAll path) w w' /\ w_root w' = w_root w /\
  (forall d, r = Ok d -> exists m, node_at w path = Some (File m d)).
Proof.
  unfold io_ReadAll. rewrite bind_call.
  assert (node_at (record_call (CallReadAll path) w) path = node_at w path) as -> by reflexivity.
  intros H. destruct (node_at w path) as [[m d|m es]|]; injection H as <- <-; simpl;
    repeat split; try congruence.
  intros d' E. injection E as <-. eauto.
Qed.

Lemma os_Stat_eq path w :
  os_Stat path w =
  (match node_at w path with
   | Some n => Ok (info_of path n)
   | None => Err (ErrFS "stat" path)
   end, record_call (CallStat path) w).
Proof.
  unfold os_Stat. rewrite bind_call.
  assert (node_at (record_call (CallStat path) w) path = node_at w path) as -> by reflexivity.
  now destruct (node_at w path).
Qed.

Lemma shallow_create u : shallow (create_entry u).
Proof. intros [[m d|m es]|] x; simpl; intros H; inversion H; reflexivity. Qed.

Lemma shallow_append data : shallow (append_entry data).
Proof. intros [[m d|m es]|] x; simpl; intros H; inversion H; reflexivity. Qed.

Lemma shallow_chmod mode : shallow (chmod_entry mode).
Proof. intros [[m d|m es]|] x; simpl; intros H; inversion H; reflexivity. Qed.

Lemma shallow_write u data perm : shallow (write_entry u data perm).
Proof. intros [[m d|m es]|] x; simpl; intros H; inversion H; reflexivity. Qed.

Lemma keeps_kind_create u : keeps_kind (create_entry u).
Proof. intros [m d|m es] x H; simpl in H; [injection H as <-; reflexivity | discriminate]. Qed.

Lemma keeps_kind_write u data perm : keeps_kind (write_entry u data perm).
Proof. intros [m d|m es] x H; simpl in H; [injection H as <-; reflexivity | discriminate]. Qed.

Lemma os_Open_locate path w w' :
  os_Open path w = (None, w') -> exists p, locate w path = Some p.
Proof.
  intros H. apply os_Open_spec in H as (_ & _ & H). specialize (H eq_refl).
  unfold node_at in H. destruct (locate w path); [eauto | congruence].
Qed.

Lemma node_at_stat w path p :
  locate w path = Some p ->
  option_map stat_of (node_at w path) = stat p (w_root w).
Proof. unfold node_at, stat. now intros ->. Qed.

(** The node a path names is at the location the path names. *)
Lemma node_at_lookup w path n :
  node_at w path = Some n ->
  exists p, locate w path = Some p /\ resolve (w_cwd w) path = Some p
            /\ lookup p (w_root w) = Some n.
Proof.
  unfold node_at. destruct (locate w path) as [p|] eqn:L; [|discriminate].
  intros H. exists p. split; [reflexivity|]. split; [now apply locate_resolve | assumption].
Qed.

Lemma node_at_tidy w path :
  tidy (strings_Split path Separator) = true ->
  node_at w path = match resolve (w_cwd w) path with
                   | Some p => lookup p (w_root w)
                   | None => None
                   end.
Proof. intros T. unfold node_at. now rewrite locate_tidy. Qed.

End OsFacts.

(* ===================================================================== *)
(** * The directory of a path, and locations that can be compared *)
(* ===================================================================== *)

Section DirFacts.

Lemma Join_Split s : strings_Join (strings_Split s Separator) "/" = s.
Proof.
  induction s as [|c s IH]; [reflexivity|].
  simpl strings_Split. destruct (Ascii.eqb_spec c Separator) as [->|N].
  - destruct (strings_Split s Separator) as [|h t] eqn:E; [now apply Split_not_nil in E|].
    rewrite Join_cons2, IH. reflexivity.
  - destruct (strings_Split s Separator) as [|h t] eqn:E; [now apply Split_not_nil in E|].
    destruct t as [|h2 t].
    + simpl in *. now rewrite IH.
    + rewrite Join_cons2 in *. simpl. now rewrite <- IH.
Qed.

Lemma Split_rooted p :
  rooted p = true ->
  exists rest, strings_Split p Separator = EmptyString :: rest /\ rest <> [].
Proof.
  destruct p as [|c s]; [discriminate|]. simpl. intros H. rewrite H.
  exists (strings_Split s Separator). split; [reflexivity | apply Split_not_nil].
Qed.

Lemma follow_snoc_empty from l : follow from (l ++ [EmptyString]) = follow from l.
Proof. now rewrite follow_app. Qed.

(** The location of [filepath.Dir(p)]: all elements of [p] but the last,
    followed from where [p] starts. *)
Lemma resolve_Dir cwd p :
  resolve cwd (filepath_Dir p)
  = Some (follow (if rooted p then [] else cwd)
                 (removelast (strings_Split p Separator))).
Proof.
  unfold filepath_Dir.
  pose proof (Split_not_nil p Separator) as Hne.
  pose proof (Split_elements p Separator) as Hel.
  pose proof (Join_Split p) as Hj.
  destruct (removelast (strings_Split p Separator)) as [|f fs] eqn:Ef.
  - destruct (rooted p) eqn:R; [|reflexivity].
    apply Split_rooted in R as (rest & E & Hr). rewrite E in Ef.
    destruct rest; [congruence | discriminate].
  - rewrite <- Ef in *.
    set (front := removelast (strings_Split p Separator)) in *.
    assert (front <> []) as Hfront by (rewrite Ef; discriminate).
    assert (Forall (fun e => lacks Separator e = true) front) as Lf
        by now apply Forall_removelast.
    rewrite (app_removelast_last EmptyString Hne) in Hj. fold front in Hj.
    rewrite Join_snoc in Hj by assumption.
    set (x := strings_Join front "/" +++ "/") in *.
    assert (x <> EmptyString) as Hx
        by (unfold x; destruct (strings_Join front "/"); discriminate).
    assert (rooted x = rooted p) as Rx.
    { rewrite <- Hj. unfold x. rewrite <- append_assoc.
      symmetry. apply rooted_append. exact Hx. }
    replace (match front with [] => filepath_Clean EmptyString | _ :: _ => filepath_Clean x end)
      with (filepath_Clean x) by (destruct front; [congruence | reflexivity]).
    rewrite resolve_Clean by assumption.
    unfold resolve. destruct x as [|c0 s0] eqn:Ex; [congruence|].
    rewrite <- Ex in *. rewrite Rx. f_equal.
    unfold x. change (strings_Join front "/" +++ "/")
      with (strings_Join front "/" +++ String Separator EmptyString).
    rewrite Split_append, Split_Join by assumption.
    apply follow_snoc_empty.
Qed.

(** Two locations above the same location are one above the other. *)
Lemma is_prefix_comparable p q l :
  is_prefix p l = true -> is_prefix q l = true ->
  is_prefix p q = true \/ is_prefix q p = true.
Proof.
  revert p q; induction l as [|x l IH]; intros [|a p] [|b q] Hp Hq; simpl in *;
    try discriminate; auto.
  apply andb_true_iff in Hp as [Ea Hp]. apply andb_true_iff in Hq as [Eb Hq].
  apply String.eqb_eq in Ea, Eb. subst a b. rewrite String.eqb_refl. simpl.
  now apply IH.
Qed.

Lemma is_prefix_removelast p l :
  is_prefix p (removelast l) = true -> is_prefix p l = true.
Proof.
  intros H. destruct l as [|x l]; [assumption|].
  rewrite (app_removelast_last x (l:=x :: l)) by discriminate.
  apply is_prefix_inv in H as [r ->]. rewrite <- app_assoc. apply is_prefix_app.
Qed.

Lemma is_prefix_snoc p l x : is_prefix p l = true -> is_prefix p (l ++ [x]) = true.
Proof.
  intros H. apply is_prefix_inv in H as [r ->]. rewrite <- app_assoc. apply is_prefix_app.
Qed.

(** A location above the directory of a path, and a location above
    the path, are one above the other. *)
Lemma near_dir root q d last :
  is_prefix root (follow d [last]) = true -> is_prefix q d = true ->
  is_prefix root q = true \/ is_prefix q root = true.
Proof.
  simpl. intros Hr Hq.
  destruct (String.eqb last EmptyString || String.eqb last ".").
  - now apply (is_prefix_comparable root q d).
  - destruct (String.eqb last "..").
    + apply (is_prefix_comparable root q d); [now apply is_prefix_removelast | assumption].
    + apply (is_prefix_comparable root q (d ++ [last])); [assumption|].
      now apply is_prefix_snoc.
Qed.

Lemma is_prefix_false_ne root q loc :
  is_prefix root loc = true -> is_prefix root q = false -> q <> loc.
Proof. intros H1 H2 ->. congruence. Qed.

(** Creating directories towards a location at or below an existing
    directory [root], or next to it, changes nothing outside [root]. *)
Lemma mkdir_all_outside root d perm n n' :
  mkdir_all d perm n = Some n' ->
  (exists s, stat root n = Some s) ->
  (forall q, is_prefix q d = true -> is_prefix root q = true \/ is_prefix q root = true) ->
  forall q, is_prefix root q = false -> stat q n' = stat q n.
Proof.
  intros H [s Hs] Near q Hq. rewrite (stat_mkdir_all _ _ _ _ q H).
  destruct (stat q n) eqn:E; [reflexivity|].
  destruct (is_prefix q d) eqn:P; [|reflexivity].
  destruct (Near q P) as [C|C]; [congruence|].
  apply is_prefix_inv in C as [r ->].
  apply stat_prefix_exists in Hs as [s' Hs']. congruence.
Qed.

End DirFacts.

(* ===================================================================== *)
(** * [strings.ReplaceAll] *)
(* ===================================================================== *)

Section ReplaceFacts.

Variables old new : string.

Lemma replace_scan_skip p s :
  replace_scan old new (String.length p) (p +++ s) = replace_scan old new 0 s.
Proof. induction p as [|c p IH]; simpl; [reflexivity | assumption]. Qed.

Lemma replace_scan_nil skip : replace_scan old new skip EmptyString = EmptyString.
Proof. reflexivity. Qed.

(** At an occurrence of [old] the output receives [new]. *)
Lemma ReplaceAll_match s :
  old <> EmptyString ->
  strings_ReplaceAll (old +++ s) old new = new +++ strings_ReplaceAll s old new.
Proof.
  intros Ho. unfold strings_ReplaceAll.
  pose proof (has_prefix_append old s) as P.
  pose proof (replace_scan_skip) as Sk.
  destruct old as [|c o]; [congruence|].
  simpl append in *. cbn [replace_scan]. rewrite P. f_equal.
  replace (String.length (String c o) - 1)%nat with (String.length o) by (simpl; lia).
  apply Sk.
Qed.

(** Where [old] does not start the byte is passed on. *)
Lemma ReplaceAll_step c s :
  has_prefix old (String c s) = false ->
  strings_ReplaceAll (String c s) old new = String c (strings_ReplaceAll s old new).
Proof.
  intros H. unfold strings_ReplaceAll. destruct old as [|c' o] eqn:E; [discriminate|].
  rewrite <- E in *. cbn [replace_scan]. now rewrite H.
Qed.

(** A text without [old] is left as it is. *)
Lemma ReplaceAll_absent s :
  strings_Contains s old = false -> strings_ReplaceAll s old new = s.
Proof.
  induction s as [|c s IH]; intros H.
  - unfold strings_ReplaceAll. now destruct old.
  - simpl in H. apply orb_false_iff in H as [Hp Hs].
    rewrite ReplaceAll_step by assumption. now rewrite IH.
Qed.

Lemma has_prefix_within a b :
  has_prefix old (a +++ b) = true -> (String.length old <= String.length a)%nat ->
  has_prefix old a = true.
Proof.
  revert a; induction old as [|c o IH]; intros a H L; [reflexivity|].
  destruct a as [|x a]; simpl in *; [lia|].
  apply andb_true_iff in H as [-> H]. simpl. apply IH; [assumption | lia].
Qed.

Lemma has_prefix_before c a b :
  lacks c old = true -> has_prefix old (a +++ String c b) = true ->
  (String.length old <= String.length a)%nat.
Proof.
  revert a; induction old as [|x o IH]; intros a Lk H; simpl in *; [lia|].
  apply andb_true_iff in Lk as [Nx Lo].
  destruct a as [|y a]; simpl in *.
  - apply andb_true_iff in H as [E _]. rewrite E in Nx. discriminate.
  - apply andb_true_iff in H as [_ H]. specialize (IH a Lo H). lia.
Qed.

(** A byte that does not occur in [old] separates the text into parts
    that are replaced on their own. *)
Lemma replace_scan_separated c a b : forall skip,
  lacks c old = true -> old <> EmptyString -> (skip <= String.length a)%nat ->
  replace_scan old new skip (a +++ String c b)
  = replace_scan old new skip a +++ String c (replace_scan old new 0 b).
Proof.
  intros skip Lk Ho. revert skip. induction a as [|x a IH]; intros skip Hs.
  - assert (skip = 0)%nat as -> by (simpl in Hs; lia).
    simpl append. cbn [replace_scan].
    destruct (has_prefix old (String c b)) eqn:P; [|reflexivity].
    pose proof (has_prefix_before c EmptyString b Lk P) as L. simpl in L.
    destruct old; [congruence | simpl in L; lia].
  - simpl append. destruct skip as [|k]; cbn [replace_scan].
    + change (String x (a +++ String c b)) with (String x a +++ String c b).
      destruct (has_prefix old (String x a +++ String c b)) eqn:P.
      * pose proof (has_prefix_before c _ _ Lk P) as L.
        rewrite (has_prefix_within _ _ P L).
        rewrite IH by (simpl in L; lia). now rewrite append_assoc.
      * destruct (has_prefix old (String x a)) eqn:P'.
        -- rewrite (has_prefix_extend _ _ (String c b) P') in P. discriminate.
        -- rewrite IH by lia. reflexivity.
    + apply IH. simpl in Hs. lia.
Qed.

Lemma ReplaceAll_separated c a b :
  lacks c old = true ->
  strings_ReplaceAll (a +++ String c b) old new
  = strings_ReplaceAll a old new +++ String c (strings_ReplaceAll b old new).
Proof.
  intros Lk. unfold strings_ReplaceAll. destruct old as [|x o] eqn:E; [reflexivity|].
  rewrite <- E in *. apply replace_scan_separated; [assumption | congruence | lia].
Qed.

(** Line by line: a pattern without the line feed is replaced in every
    line on its own. *)
Lemma ReplaceAll_lines (sep : ascii) (lines : list string) :
  lacks sep old = true ->
  strings_ReplaceAll (strings_Join lines (String sep EmptyString)) old new
  = strings_Join (map (fun l => strings_ReplaceAll l old new) lines) (String sep EmptyString).
Proof.
  intros Lk. induction lines as [|l lines IH].
  - unfold strings_ReplaceAll. simpl. now destruct old.
  - destruct lines as [|l2 lines]; [reflexivity|].
    change (map ?f (l :: l2 :: lines)) with (f l :: map f (l2 :: lines)).
    change (map ?f (l2 :: lines)) with (f l2 :: map f lines) at 1.
    rewrite !Join_cons2. change (map ?f (l2 :: lines)) with (f l2 :: map f lines) in IH.
    change (String sep EmptyString +++ ?x) with (String sep x).
    rewrite ReplaceAll_separated by assumption. now rewrite IH.
Qed.

End ReplaceFacts.

(* ===================================================================== *)
(** * The create operation and a destination that exists *)
(* ===================================================================== *)



(** The destination exists when [os.Stat] finds it.  The path
    [missing/../demo] leads through a directory that does not exist: the
    kernel does not follow it, [os.Stat] fails though [demo] exists, and
    the operation goes on without the overwrite flag; [os.MkdirAll]
    makes [missing] and the copy goes into [demo]. *)
Example destination_not_found :
  let run := handleNewProject "/tmp/galaplate-1" (Response 200 (Some demo_archive)) no_tool
               ["missing/../demo"] demo_world in
  node_at demo_world "missing/../demo" = None
  /\ fst run = None
  /\ stat ["home"; "u"; "missing"] (w_root (snd run)) = Some (SDir perm_0755)
  /\ stat ["home"; "u"; "demo"; "run.sh"] (w_root (snd run))
     = Some (SFile perm_0644 "#!/bin/sh")
  /\ stat ["home"; "u"; "demo"; "notes.txt"] (w_root (snd run))
     = Some (SFile perm_0644 "keep me").
Proof. vm_compute. repeat split; reflexivity. Qed.

(* ===================================================================== *)
(** * Extraction *)
(* ===================================================================== *)

Section ExtractFacts.

Lemma Forall_tl {A} (P : A -> Prop) l : Forall P l -> Forall P (tl l).
Proof. destruct 1; [constructor | assumption]. Qed.

(** Where an entry is written: the segments of its stored path after
    the first, followed from the scratch root. *)
Lemma entry_location cwd tempDir name root :
  tempDir <> EmptyString -> resolve cwd tempDir = Some root ->
  resolve cwd (filepath_Join [tempDir; filepath_Join (tl (strings_Split name Separator))])
  = Some (follow root (tl (strings_Split name Separator))).
Proof.
  intros Ht Hr. rewrite resolve_Join2, Hr by assumption. simpl. f_equal.
  apply follow_Split_Join, Forall_tl, Split_elements.
Qed.

(** The directory of a path is one step above the path. *)
Lemma resolve_Dir_step cwd p loc :
  resolve cwd p = Some loc ->
  exists d last, resolve cwd (filepath_Dir p) = Some d /\ loc = follow d [last].
Proof.
  intros H. rewrite resolve_Dir.
  unfold resolve in H. destruct p as [|c s] eqn:Ep; [discriminate|]. rewrite <- Ep in *.
  injection H as <-.
  pose proof (Split_not_nil p Separator) as Hne.
  eexists _, (last (strings_Split p Separator) EmptyString). split; [reflexivity|].
  rewrite (app_removelast_last EmptyString Hne) at 1.
  apply follow_app.
Qed.

Lemma io_Copy_entry_spec dst e w err w' :
  io_Copy_entry dst e w = (err, w') ->
  same_process (CallCopyEntry dst (payload e)) w w' /\
  (w_root w' = w_root w \/
   exists p, resolve (w_cwd w) dst = Some p /\
             modify p (append_entry (payload e)) (w_root w) = Some (w_root w')) /\
  (err = None ->
   readable e = true /\
   exists p, resolve (w_cwd w) dst = Some p /\
             modify p (append_entry (payload e)) (w_root w) = Some (w_root w')).
Proof.
  unfold io_Copy_entry. rewrite bind_call. unfold bind.
  destruct (write_to dst (payload e) _) as [e1 w1] eqn:E1.
  apply write_to_spec in E1 as (C & U & L & H). simpl in *.
  assert (same_process (CallCopyEntry dst (payload e)) w w1) as SP by now split.
  destruct e1 as [er|].
  - intros X. injection X as <- <-. split; [assumption|].
    split; [now left | discriminate].
  - intros X.
    assert (err = (if readable e then None else Some ErrTar) /\ w' = w1) as [-> ->]
        by (destruct (readable e); injection X as <- <-; split; reflexivity).
    split; [assumption|]. split; [now right|].
    destruct (readable e); [now split | discriminate].
Qed.

(** What [extract_entry] changes, for an entry written at [loc] at or
    below an existing scratch root: nothing outside the scratch root. *)
Lemma extract_entry_outside tempDir e w root r w' :
  tempDir <> EmptyString -> resolve (w_cwd w) tempDir = Some root ->
  (exists s, stat root (w_root w) = Some s) ->
  is_prefix root (follow root (tl (strings_Split (Name (header e)) Separator))) = true ->
  extract_entry tempDir e w = (r, w') ->
  w_cwd w' = w_cwd w /\
  forall q, is_prefix root q = false -> stat q (w_root w') = stat q (w_root w).
Proof.
  intros Ht Hr Hroot Hunder. unfold extract_entry.
  set (parts := strings_Split (Name (header e)) Separator) in *.
  set (path := filepath_Join [tempDir; filepath_Join (tl parts)]).
  set (loc := follow root (tl parts)) in *.
  assert (resolve (w_cwd w) path = Some loc) as Hloc by now apply entry_location.
  destruct (Datatypes.length parts <=? 1)%nat.
  { intros X; injection X as <- <-. auto. }
  destruct (Ascii.eqb (Typeflag (header e)) tar_TypeDir).
  { intros X. apply os_MkdirAll_spec in X as ((C & U & L) & X); [|first [apply tidy_Join | apply tidy_Dir]].
    split; [assumption|]. intros q Hq.
    destruct r as [er|]; [now rewrite X|].
    destruct X as (p & Hp & X). rewrite Hloc in Hp. injection Hp as <-.
    apply (mkdir_all_outside root loc _ _ _ X Hroot); [|assumption].
    intros q' Hq'. now apply (is_prefix_comparable root q' loc). }
  destruct (Ascii.eqb (Typeflag (header e)) tar_TypeReg);
    [|intros X; injection X as <- <-; auto].
  unfold bind.
  destruct (os_MkdirAll (filepath_Dir path) perm_0755 w) as [e1 w1] eqn:E1.
  apply os_MkdirAll_spec in E1 as ((C1 & U1 & L1) & X1); [|first [apply tidy_Join | apply tidy_Dir]].
  assert (forall q, is_prefix root q = false -> stat q (w_root w1) = stat q (w_root w)) as F1.
  { intros q Hq. destruct e1 as [er|]; [now rewrite X1|].
    destruct X1 as (p & Hp & X1).
    destruct (resolve_Dir_step _ _ _ Hloc) as (d & last & Hd & El).
    rewrite Hd in Hp. injection Hp as <-.
    apply (mkdir_all_outside root d _ _ _ X1 Hroot); [|assumption].
    intros q' Hq'. apply (near_dir root q' d last); [now rewrite <- El | assumption]. }
  destruct e1 as [er|]; [intros X; injection X as <- <-; auto|].
  destruct (os_Create path w1) as [e2 w2] eqn:E2.
  apply os_Create_spec in E2 as ((C2 & U2 & L2) & X2).
  assert (forall q, is_prefix root q = false -> stat q (w_root w2) = stat q (w_root w1)) as F2.
  { intros q Hq. destruct e2 as [er|]; [now rewrite X2|].
    destruct X2 as (p & Hp & X2). rewrite C1, Hloc in Hp. injection Hp as <-.
    apply (stat_modify_ne _ _ _ _ q (shallow_create _) X2).
    now apply (is_prefix_false_ne root). }
  destruct e2 as [er|];
    [intros X; injection X as <- <-; split; [congruence|];
     intros q Hq; rewrite F2, F1; auto|].
  destruct (io_Copy_entry path e w2) as [e3 w3] eqn:E3.
  apply io_Copy_entry_spec in E3 as ((C3 & U3 & L3) & X3 & _).
  assert (forall q, is_prefix root q = false -> stat q (w_root w3) = stat q (w_root w2)) as F3.
  { intros q Hq. destruct X3 as [X3|(p & Hp & X3)]; [now rewrite X3|].
    rewrite C2, C1, Hloc in Hp. injection Hp as <-.
    apply (stat_modify_ne _ _ _ _ q (shallow_append _) X3).
    now apply (is_prefix_false_ne root). }
  destruct e3 as [er|];
    [intros X; injection X as <- <-; split; [congruence|];
     intros q Hq; rewrite F3, F2, F1; auto|].
  intros X. apply os_Chmod_spec in X as ((C4 & U4 & L4) & X4).
  split; [congruence|]. intros q Hq.
  rewrite <- F1, <- F2, <- F3 by assumption.
  destruct r as [er|]; [now rewrite X4|].
  destruct X4 as (p & Hp & X4). rewrite C3, C2, C1, Hloc in Hp. injection Hp as <-.
  apply (stat_modify_ne _ _ _ _ q (shallow_chmod _) X4).
  now apply (is_prefix_false_ne root).
Qed.

(** The errors [extract_entry] returns come from the file system or
    from the archive reader. *)
Lemma extract_entry_errors tempDir e w r w' :
  extract_entry tempDir e w = (r, w') ->
  r = None \/ r = Some ErrTar \/ exists op path, r = Some (ErrFS op path).
Proof.
  unfold extract_entry.
  destruct (Datatypes.length _ <=? 1)%nat; [intros X; injection X as <- <-; auto|].
  destruct (Ascii.eqb (Typeflag (header e)) tar_TypeDir).
  { intros X. destruct r as [er|]; [|auto].
    apply os_MkdirAll_errors in X as [p ->]. eauto. }
  destruct (Ascii.eqb (Typeflag (header e)) tar_TypeReg);
    [|intros X; injection X as <- <-; auto].
  unfold bind.
  destruct (os_MkdirAll _ perm_0755 w) as [e1 w1] eqn:E1.
  destruct e1 as [er|];
    [intros X; injection X as <- <-; apply os_MkdirAll_errors in E1 as [p ->]; eauto|].
  destruct (os_Create _ w1) as [e2 w2] eqn:E2.
  unfold os_Create in E2. rewrite bind_call in E2.
  apply change_spec in E2 as (_ & _ & _ & X2).
  destruct e2 as [er|]; [intros X; injection X as <- <-; destruct X2 as [-> _]; eauto|].
  destruct (io_Copy_entry _ e w2) as [e3 w3] eqn:E3.
  unfold io_Copy_entry in E3. rewrite bind_call in E3. unfold bind in E3.
  destruct (write_to _ _ _) as [e3' w3'] eqn:E3'.
  apply change_spec in E3' as (_ & _ & _ & X3).
  destruct e3 as [er|].
  { intros X; injection X as <- <-.
    destruct e3' as [er'|]; [injection E3 as <- _; destruct X3 as [-> _]; eauto|].
    destruct (readable e); injection E3 as E3 _; [discriminate|].
    subst er. auto. }
  unfold os_Chmod. rewrite bind_call. intros X.
  apply change_spec in X as (_ & _ & _ & X).
  destruct r as [er|]; [|auto]. destruct X as [-> _]. eauto.
Qed.

(** What a successful [extract_entry] leaves at the location of the
    entry. *)
Lemma extract_entry_materializes tempDir e w root w' :
  tempDir <> EmptyString -> resolve (w_cwd w) tempDir = Some root ->
  (2 <= Datatypes.length (strings_Split (Name (header e)) Separator))%nat ->
  extract_entry tempDir e w = (None, w') ->
  (Typeflag (header e) = tar_TypeDir ->
   exists m, stat (follow root (tl (strings_Split (Name (header e)) Separator)))
                  (w_root w') = Some (SDir m))
  /\ (Typeflag (header e) = tar_TypeReg ->
      stat (follow root (tl (strings_Split (Name (header e)) Separator))) (w_root w')
      = Some (SFile (perm_bits (os_FileMode (Mode (header e)))) (payload e)))
  /\ (Typeflag (header e) <> tar_TypeDir -> Typeflag (header e) <> tar_TypeReg -> w' = w).
Proof.
  intros Ht Hr Hlen. unfold extract_entry.
  set (parts := strings_Split (Name (header e)) Separator) in *.
  set (path := filepath_Join [tempDir; filepath_Join (tl parts)]).
  set (loc := follow root (tl parts)).
  assert (resolve (w_cwd w) path = Some loc) as Hloc by now apply entry_location.
  destruct (Nat.leb_spec (Datatypes.length parts) 1); [lia|].
  destruct (Ascii.eqb_spec (Typeflag (header e)) tar_TypeDir) as [Ed|Nd].
  { intros X. apply os_MkdirAll_spec in X as (_ & p & Hp & X); [|first [apply tidy_Join | apply tidy_Dir]].
    rewrite Hloc in Hp. injection Hp as <-.
    repeat split; try congruence.
    - intros _. now apply mkdir_all_is_dir in X.
    - rewrite Ed. discriminate. }
  destruct (Ascii.eqb_spec (Typeflag (header e)) tar_TypeReg) as [Er|Nr];
    [|intros X; injection X as <-; repeat split; congruence].
  unfold bind.
  destruct (os_MkdirAll (filepath_Dir path) perm_0755 w) as [e1 w1] eqn:E1.
  apply os_MkdirAll_spec in E1 as ((C1 & U1 & L1) & X1); [|first [apply tidy_Join | apply tidy_Dir]].
  destruct e1 as [er|]; [discriminate|].
  destruct (os_Create path w1) as [e2 w2] eqn:E2.
  apply os_Create_spec in E2 as ((C2 & U2 & L2) & X2).
  destruct e2 as [er|]; [discriminate|].
  destruct X2 as (p2 & Hp2 & X2). rewrite C1, Hloc in Hp2. injection Hp2 as <-.
  destruct (io_Copy_entry path e w2) as [e3 w3] eqn:E3.
  apply io_Copy_entry_spec in E3 as ((C3 & U3 & L3) & _ & X3).
  destruct e3 as [er|]; [discriminate|].
  destruct (X3 eq_refl) as (_ & p3 & Hp3 & X3'). rewrite C2, C1, Hloc in Hp3.
  injection Hp3 as <-.
  intros X. apply os_Chmod_spec in X as ((C4 & U4 & L4) & p4 & Hp4 & X4).
  rewrite C3, C2, C1, Hloc in Hp4. injection Hp4 as <-.
  repeat split; try congruence. intros _.
  apply lookup_modify_eq in X2 as [X2 N2], X3' as [X3' N3], X4 as [X4 N4].
  apply stat_file_lookup. rewrite X4, X3', X2.
  destruct (lookup loc (w_root w1)) as [[m d|m es]|]; simpl in *;
    try reflexivity; congruence.
Qed.

End ExtractFacts.

(* ===================================================================== *)
(** * C1: entries that lead out of the scratch directory *)
(* ===================================================================== *)

(** C1, as stated, fails: an entry whose stored path climbs out of the
    scratch root through [..] segments is not rejected.  For the regular
    file [galaplate-main/../../tmp/evil] extraction goes on without an
    error, and afterwards the file [/tmp/evil], which is outside the
    scratch root [/tmp/galaplate-1] and did not exist before, holds the
    payload of the entry. *)
Lemma C1_counterexample :
  let e := reg_entry "galaplate-main/../../tmp/evil" perm_0644 "boo" in
  let path := filepath_Join ["/tmp/galaplate-1";
                             filepath_Join (tl (strings_Split (Name (header e)) Separator))] in
  path = "/tmp/evil"
  /\ resolve (w_cwd scratch_world) path = Some ["tmp"; "evil"]
  /\ is_prefix scratch_root ["tmp"; "evil"] = false
  /\ node_at scratch_world "/tmp/evil" = None
  /\ fst (extract_entry "/tmp/galaplate-1" e scratch_world) = None
  /\ node_at (snd (extract_entry "/tmp/galaplate-1" e scratch_world)) "/tmp/evil"
     = Some (File perm_0644 "boo").
Proof. vm_compute. repeat split; reflexivity. Qed.

(** C1, amended.  Extraction has no path-safety check and no error for
    it: the only errors of an entry come from the file system or from the
    archive reader.  An entry is written at the location reached from the
    scratch root by following the segments of its stored path after the
    first.  When none of these segments is [..], that location is the
    scratch root or below it, and handling the entry changes nothing
    outside the scratch root: every location that is not at or below the
    root holds after the entry what it held before. *)
Theorem C1_without_dotdot_nothing_outside
    (tempDir : string) (e : TarEntry) (w : World) (root : list string) :
  tempDir <> EmptyString ->
  resolve (w_cwd w) tempDir = Some root ->
  (exists m, stat root (w_root w) = Some (SDir m)) ->
  Forall (fun s => s <> "..") (tl (strings_Split (Name (header e)) Separator)) ->
  let segments := tl (strings_Split (Name (header e)) Separator) in
  let r := fst (extract_entry tempDir e w) in
  let w' := snd (extract_entry tempDir e w) in
  resolve (w_cwd w) (filepath_Join [tempDir; filepath_Join segments])
  = Some (follow root segments)
  /\ is_prefix root (follow root segments) = true
  /\ (forall q, is_prefix root q = false -> stat q (w_root w') = stat q (w_root w))
  /\ (r = None \/ r = Some ErrTar \/ exists op path, r = Some (ErrFS op path)).
Proof.
  intros Ht Hr [m Hroot] Hdd segments r w'.
  assert (is_prefix root (follow root segments) = true) as Hunder.
  { destruct (follow_below root segments Hdd) as [rest ->]. apply is_prefix_app. }
  pose proof (surjective_pairing (extract_entry tempDir e w)) as E. fold r w' in E.
  split; [now apply entry_location|]. split; [assumption|]. split.
  - eapply extract_entry_outside; eauto.
  - eapply extract_entry_errors; eauto.
Qed.

Lemma C1_without_dotdot_nothing_outside_witness :
  let e := reg_entry "galaplate-main/pkg/./a.go" perm_0644 "package pkg" in
  let w' := snd (extract_entry "/tmp/galaplate-1" e scratch_world) in
  node_at w' "/tmp/galaplate-1/pkg/a.go" = Some (File perm_0644 "package pkg")
  /\ stat ["home"; "u"; "demo"; "notes.txt"] (w_root w')
     = Some (SFile perm_0644 "keep me").
Proof.
  intros e w'. split; [reflexivity|].
  destruct (C1_without_dotdot_nothing_outside "/tmp/galaplate-1" e scratch_world scratch_root)
    as (_ & _ & Out & _).
  - discriminate.
  - reflexivity.
  - exists perm_0700. reflexivity.
  - simpl. repeat constructor; discriminate.
  - fold w'. rewrite Out; reflexivity.
Defined.

(* ===================================================================== *)
(** * C5: the first segment of every entry is stripped *)
(* ===================================================================== *)

(** C5, as stated, fails in two ways.  An entry with two segments that
    is neither a directory nor a regular file (here a symbolic link) is
    not materialized: the world is left as it is.  And the segments after
    the first are not all kept: the regular file
    [galaplate-main/a/../b] is written at [b] in the scratch root, and
    nothing exists at [a]. *)
Lemma C5_counterexample :
  (Datatypes.length (strings_Split "galaplate-main/link" Separator) = 2%nat
   /\ extract_entry "/tmp/galaplate-1" (symlink_entry "galaplate-main/link") scratch_world
      = (None, scratch_world))
  /\ (let w' := snd (extract_entry "/tmp/galaplate-1"
                       (reg_entry "galaplate-main/a/../b" perm_0644 "x") scratch_world) in
      tl (strings_Split "galaplate-main/a/../b" Separator) = ["a"; ".."; "b"]
      /\ node_at w' "/tmp/galaplate-1/b" = Some (File perm_0644 "x")
      /\ node_at w' "/tmp/galaplate-1/a" = None).
Proof. vm_compute. repeat split; reflexivity. Qed.

(** C5, amended.  An entry whose stored path has fewer than two segments
    is discarded: the world is left as it is.  Any other entry is written
    at the path [filepath.Join(tempDir, parts[1:]...)], which names the
    location reached from the scratch root by following all segments
    after the first (an empty segment and [.] stay in place, [..] goes
    up); when these segments are all proper names this location is the
    scratch root extended by exactly these segments, so that the first
    segment and no other is stripped.  When the entry is handled without
    error, a directory entry leaves a directory at that location, a
    regular file leaves a file with the payload and the stored permission
    bits, and an entry of any other kind leaves the world as it is. *)
Theorem C5_first_segment_stripped
    (tempDir : string) (e : TarEntry) (w : World) (root : list string) :
  tempDir <> EmptyString ->
  resolve (w_cwd w) tempDir = Some root ->
  let parts := strings_Split (Name (header e)) Separator in
  let loc := follow root (tl parts) in
  ((Datatypes.length parts < 2)%nat -> extract_entry tempDir e w = (None, w))
  /\ ((2 <= Datatypes.length parts)%nat ->
      resolve (w_cwd w) (filepath_Join [tempDir; filepath_Join (tl parts)]) = Some loc
      /\ (Forall (fun s => is_name s = true) (tl parts) -> loc = root ++ tl parts)
      /\ forall w', extract_entry tempDir e w = (None, w') ->
           (Typeflag (header e) = tar_TypeDir ->
            exists m, stat loc (w_root w') = Some (SDir m))
           /\ (Typeflag (header e) = tar_TypeReg ->
               stat loc (w_root w')
               = Some (SFile (perm_bits (os_FileMode (Mode (header e)))) (payload e)))
           /\ (Typeflag (header e) <> tar_TypeDir ->
               Typeflag (header e) <> tar_TypeReg -> w' = w)).
Proof.
  intros Ht Hr parts loc. split.
  - intros Hlen. unfold extract_entry. fold parts.
    destruct (Nat.leb_spec (Datatypes.length parts) 1); [reflexivity | lia].
  - intros Hlen. split; [now apply entry_location|]. split.
    + apply follow_names.
    + intros w' X. exact (extract_entry_materializes tempDir e w root w' Ht Hr Hlen X).
Qed.

Lemma C5_first_segment_stripped_witness :
  let e := reg_entry "galaplate-main/pkg/db/conn.go" 493 "package db" in
  let w' := snd (extract_entry "/tmp/galaplate-1" e scratch_world) in
  follow scratch_root ["pkg"; "db"; "conn.go"] = ["tmp"; "galaplate-1"; "pkg"; "db"; "conn.go"]
  /\ stat ["tmp"; "galaplate-1"; "pkg"; "db"; "conn.go"] (w_root w')
     = Some (SFile perm_0755 "package db").
Proof.
  intros e w'.
  destruct (C5_first_segment_stripped "/tmp/galaplate-1" e scratch_world scratch_root)
    as (_ & Mat).
  - discriminate.
  - reflexivity.
  - destruct Mat as (_ & Names & Mat); [simpl; lia|].
    split; [apply Names; repeat constructor|].
    destruct (Mat w') as (_ & Reg & _); [reflexivity|].
    apply Reg. reflexivity.
Defined.

(* ===================================================================== *)
(** * [copyFile] *)
(* ===================================================================== *)

Section CopyFileFacts.

Lemma io_Copy_spec dst src w e w' :
  io_Copy dst src w = (e, w') ->
  same_process (CallCopy dst src) w w' /\
  (e = None ->
   exists m d p, node_at w src = Some (File m d) /\ resolve (w_cwd w) dst = Some p /\
                 modify p (append_entry d) (w_root w) = Some (w_root w')).
Proof.
  unfold io_Copy. rewrite bind_call.
  assert (node_at (record_call (CallCopy dst src) w) src = node_at w src) as -> by reflexivity.
  destruct (node_at w src) as [[m d|m es]|].
  - intros X. apply write_to_spec in X as (C & U & L & X). simpl in *.
    split; [now split|]. intros ->. destruct X as (p & Hp & X). eauto 10.
  - intros X. injection X as <- <-. split; [now split | discriminate].
  - intros X. injection X as <- <-. split; [now split | discriminate].
Qed.

Lemma rule_of_template src :
  strings_HasSuffix src ".template" = true -> rule_of src = TemplateSuffix.
Proof. intros H. unfold rule_of. simpl. now rewrite H. Qed.

Lemma rule_of_manifest src :
  strings_HasSuffix src ".template" = false ->
  String.eqb (filepath_Base src) "go.mod" = true -> rule_of src = Manifest.
Proof. intros H1 H2. unfold rule_of. simpl. now rewrite H1, H2. Qed.

Lemma rule_of_source src :
  strings_HasSuffix src ".template" = false ->
  String.eqb (filepath_Base src) "go.mod" = false ->
  strings_HasSuffix src ".go" = true -> rule_of src = SourceReference.
Proof. intros H1 H2 H3. unfold rule_of. simpl. now rewrite H1, H2, H3. Qed.

Lemma rule_of_passthrough src :
  strings_HasSuffix src ".template" = false ->
  String.eqb (filepath_Base src) "go.mod" = false ->
  strings_HasSuffix src ".go" = false -> rule_of src = Passthrough.
Proof. intros H1 H2 H3. unfold rule_of. simpl. now rewrite H1, H2, H3. Qed.

(** [copyFile] first opens the source, creates the directory of the
    destination and creates the destination; then it reads the source
    and writes, in the way of the rule of the source. *)
Lemma copyFile_unfold src dest opts :
  copyFile src dest opts =
  (err <- os_Open src ;;
   match err with Some e => ret (Some e) | None =>
   err <- os_MkdirAll (filepath_Dir dest) perm_0755 ;;
   match err with Some e => ret (Some e) | None =>
   err <- os_Create dest ;;
   match err with Some e => ret (Some e) | None =>
   match rule_of src with
   | Passthrough => io_Copy dest src
   | r =>
       content <- io_ReadAll src ;;
       match content with
       | Err e => ret (Some e)
       | Ok content =>
           os_WriteFile (rule_target r dest) (rule_output r opts content) perm_0644
       end
   end end end end).
Proof.
  unfold copyFile.
  destruct (strings_HasSuffix src ".template") eqn:T.
  { rewrite (rule_of_template _ T). reflexivity. }
  destruct (String.eqb (filepath_Base src) "go.mod") eqn:G.
  { rewrite (rule_of_manifest _ T G). reflexivity. }
  destruct (strings_HasSuffix src ".go") eqn:S.
  { rewrite (rule_of_source _ T G S). reflexivity. }
  rewrite (rule_of_passthrough _ T G S). reflexivity.
Qed.

Lemma prelude_fs d pd u n n1 n2 :
  mkdir_all d (created_perm u perm_0755) n = Some n1 ->
  modify pd (create_entry u) n1 = Some n2 ->
  lookup pd n2 = Some (File (perm_after_open u perm_0666 (stat pd n)) EmptyString)
  /\ (forall q s, q <> pd -> stat q n = Some s -> stat q n2 = Some s)
  /\ (forall q m' d', q <> pd -> stat q n2 = Some (SFile m' d') ->
                      stat q n = Some (SFile m' d')).
Proof.
  intros Hm Hc.
  pose proof (fun q => stat_mkdir_all _ _ _ _ q Hm) as Cl.
  pose proof (fun q => stat_modify_ne _ _ _ _ q (shallow_create u) Hc) as Fr.
  apply lookup_modify_eq in Hc as [Hc Nc].
  split; [|split].
  - rewrite Hc. specialize (Cl pd). unfold stat in Cl at 1.
    destruct (lookup pd n1) as [[m0 d0|m0 es]|]; simpl in *.
    + destruct (stat pd n) as [s|]; [injection Cl as <-; reflexivity|].
      destruct (is_prefix pd d); discriminate.
    + congruence.
    + destruct (stat pd n) as [s|]; [discriminate | reflexivity].
  - intros q s Hq Hs. rewrite Fr, Cl, Hs by assumption. reflexivity.
  - intros q m' d' Hq Hs. rewrite Fr, Cl in Hs by assumption.
    destruct (stat q n) as [s|]; [assumption|].
    destruct (is_prefix q d); discriminate.
Qed.

Lemma prelude_keeps d pd u n n1 n2 :
  mkdir_all d (created_perm u perm_0755) n = Some n1 ->
  modify pd (create_entry u) n1 = Some n2 -> keeps n n2.
Proof.
  intros Hm Hc. apply (keeps_trans _ n1).
  - exact (mkdir_all_keeps _ _ _ _ Hm).
  - exact (modify_keeps _ _ _ _ (shallow_create u) (keeps_kind_create u) Hc).
Qed.

Lemma write_fs pt u data perm n2 n3 :
  modify pt (write_entry u data perm) n2 = Some n3 ->
  lookup pt n3 = Some (File (perm_after_open u perm (stat pt n2)) data).
Proof.
  intros H. apply lookup_modify_eq in H as [H N]. rewrite H. unfold stat.
  destruct (lookup pt n2) as [[m0 d0|m0 es]|]; simpl in *; congruence.
Qed.

Lemma result_perm_after u pt pd n n2 :
  lookup pd n2 = Some (File (perm_after_open u perm_0666 (stat pd n)) EmptyString) ->
  (forall q s, q <> pd -> stat q n = Some s -> stat q n2 = Some s) ->
  (forall q m' d', q <> pd -> stat q n2 = Some (SFile m' d') ->
                   stat q n = Some (SFile m' d')) ->
  (exists m0 d0, stat pt n2 = Some (SFile m0 d0)) \/ stat pt n2 = None ->
  perm_after_open u perm_0644 (stat pt n2) = result_perm u pt pd n.
Proof.
  intros Hpd Keep Old Hpt. unfold result_perm.
  destruct (list_eq_dec string_dec pt pd) as [->|Ne].
  - unfold stat at 1. rewrite Hpd. reflexivity.
  - destruct Hpt as [(m0 & d0 & E)|E]; rewrite E.
    + now rewrite (Old _ _ _ Ne E).
    + destruct (stat pt n) as [s|] eqn:E'; [|reflexivity].
      rewrite (Keep _ _ Ne E') in E. discriminate.
Qed.

Lemma same_process_trans3 c1 c2 c3 w w1 w2 w3 :
  same_process c1 w w1 -> same_process c2 w1 w2 -> same_process c3 w2 w3 ->
  w_cwd w3 = w_cwd w /\ w_umask w3 = w_umask w /\ w_calls w3 = w_calls w ++ [c1; c2; c3].
Proof.
  intros (A1 & B1 & C1) (A2 & B2 & C2) (A3 & B3 & C3).
  repeat split; try congruence.
  rewrite C3, C2, C1, <- !app_assoc. reflexivity.
Qed.

(** What a successful [copyFile] leaves at the path its rule writes
    to. *)
Lemma copyFile_result src dest opts w w' ps pd ms d :
  resolve (w_cwd w) src = Some ps -> resolve (w_cwd w) dest = Some pd -> ps <> pd ->
  stat ps (w_root w) = Some (SFile ms d) ->
  copyFile src dest opts w = (None, w') ->
  exists pt,
    resolve (w_cwd w) (rule_target (rule_of src) dest) = Some pt
    /\ stat pt (w_root w')
       = Some (SFile (result_perm (w_umask w) pt pd (w_root w))
                     (rule_output (rule_of src) opts d))
    /\ w_calls w' = w_calls w
                    ++ [CallOpen src; CallMkdirAll (filepath_Dir dest) perm_0755;
                        CallCreate dest]
                    ++ rule_calls (rule_of src) src dest opts d.
Proof.
  intros Hps Hpd Hne Hsrc. rewrite copyFile_unfold. unfold bind.
  destruct (os_Open src w) as [e0 w0] eqn:E0.
  destruct e0 as [er|]; [discriminate|].
  destruct (os_Open_locate _ _ _ E0) as [ps' Ls].
  assert (ps' = ps) as -> by (apply locate_resolve in Ls; congruence).
  apply os_Open_spec in E0 as (P0 & R0 & _).
  destruct (os_MkdirAll (filepath_Dir dest) perm_0755 w0) as [e1 w1] eqn:E1.
  apply os_MkdirAll_spec in E1 as (P1 & X1); [|first [apply tidy_Join | apply tidy_Dir]].
  destruct e1 as [er|]; [discriminate|]. destruct X1 as (pdir & _ & X1).
  destruct (os_Create dest w1) as [e2 w2] eqn:E2.
  apply os_Create_spec in E2 as (P2 & X2).
  destruct e2 as [er|]; [discriminate|]. destruct X2 as (pd' & Hpd' & X2).
  destruct (same_process_trans3 _ _ _ _ _ _ _ P0 P1 P2) as (C2 & U2 & L2).
  destruct P0 as (C0 & U0 & _), P1 as (C1 & U1 & _).
  rewrite C1, C0, Hpd in Hpd'. injection Hpd' as <-.
  rewrite U0, R0 in X1. rewrite U1, U0 in X2.
  destruct (prelude_fs _ _ _ _ _ _ X1 X2) as (Fpd & Keep & Old).
  pose proof (prelude_keeps _ _ _ _ _ _ X1 X2) as K.
  assert (node_at w2 src = Some (File ms d)) as Hread.
  { unfold node_at. rewrite (locate_keeps w w2 src ps C2 K Ls). apply stat_file_lookup.
    apply Keep; assumption. }
  assert (forall r, r <> Passthrough ->
            (content <- io_ReadAll src ;;
             match content with
             | Err e => ret (Some e)
             | Ok content =>
                 os_WriteFile (rule_target r dest) (rule_output r opts content) perm_0644
             end) w2 = (None, w') ->
            exists pt,
              resolve (w_cwd w) (rule_target r dest) = Some pt
              /\ stat pt (w_root w')
                 = Some (SFile (result_perm (w_umask w) pt pd (w_root w))
                               (rule_output r opts d))
              /\ w_calls w' = w_calls w
                    ++ [CallOpen src; CallMkdirAll (filepath_Dir dest) perm_0755;
                        CallCreate dest]
                    ++ [CallReadAll src;
                        CallWriteFile (rule_target r dest) (rule_output r opts d)
                                      perm_0644]) as Written.
  { intros r _. unfold bind.
    destruct (io_ReadAll src w2) as [c3 w3] eqn:E3.
    apply io_ReadAll_spec in E3 as ((C3 & U3 & L3) & R3 & X3).
    destruct c3 as [content|er]; [|discriminate].
    destruct (X3 _ eq_refl) as (m3 & Hm3). rewrite Hread in Hm3. injection Hm3 as _ <-.
    intros X. apply os_WriteFile_spec in X as ((C4 & U4 & L4) & pt & Hpt & X4).
    exists pt. rewrite C3, C2 in Hpt. split; [assumption|].
    rewrite R3, U3, U2 in X4. split.
    - apply stat_file_lookup. rewrite (write_fs _ _ _ _ _ _ X4). do 2 f_equal.
      apply result_perm_after; try assumption.
      apply lookup_modify_eq in X4 as [_ N4]. unfold stat.
      destruct (lookup pt (w_root w2)) as [[m0 d0|m0 es]|]; simpl in *;
        [left; eauto | congruence | now right].
    - rewrite L4, L3, L2, <- !app_assoc. reflexivity. }
  destruct (rule_of src) eqn:Er; try (apply Written; discriminate).
  intros X. apply io_Copy_spec in X as ((C3 & U3 & L3) & X3).
  destruct (X3 eq_refl) as (m3 & d3 & pt & Hm3 & Hpt & X4).
  rewrite Hread in Hm3. injection Hm3 as _ <-.
  rewrite C2, Hpd in Hpt. injection Hpt as <-.
  exists pd. split; [assumption|]. split.
  - apply stat_file_lookup. apply lookup_modify_eq in X4 as [X4 _].
    rewrite X4, Fpd. simpl. unfold result_perm.
    destruct (list_eq_dec string_dec pd pd); [reflexivity | congruence].
  - rewrite L3, L2, <- !app_assoc. reflexivity.
Qed.

End CopyFileFacts.

(* ===================================================================== *)
(** * The contents the rules write *)
(* ===================================================================== *)

Section TemplateFacts.

Lemma token_text_brace K : exists o, token_text K = String brace o.
Proof. destruct K; eexists; reflexivity. Qed.

Lemma ReplaceAll_plain K v t s :
  lacks brace t = true ->
  strings_ReplaceAll (t +++ s) (token_text K) v
  = t +++ strings_ReplaceAll s (token_text K) v.
Proof.
  destruct (token_text_brace K) as [o ->].
  induction t as [|c t IH]; intros L; [reflexivity|].
  simpl in L. apply andb_true_iff in L as [Nc Lt].
  simpl append. rewrite ReplaceAll_step.
  - now rewrite IH.
  - cbn [has_prefix]. rewrite Ascii.eqb_sym. apply negb_true_iff in Nc. now rewrite Nc.
Qed.

Lemma ReplaceAll_other_mark K k v s :
  token_eqb k K = false ->
  strings_ReplaceAll (token_text k +++ s) (token_text K) v
  = token_text k +++ strings_ReplaceAll s (token_text K) v.
Proof. destruct K, k; intros E; try discriminate; reflexivity. Qed.

Lemma ReplaceAll_same_mark K v s :
  strings_ReplaceAll (token_text K +++ s) (token_text K) v
  = v +++ strings_ReplaceAll s (token_text K) v.
Proof. apply ReplaceAll_match. destruct K; discriminate. Qed.

(** One pass replaces one marker in a text of plain text and markers,
    and nothing else. *)
Lemma ReplaceAll_pieces K v ps :
  Forall (fun p => piece_ok p = true) ps ->
  strings_ReplaceAll (pieces_text ps) (token_text K) v
  = pieces_text (map (fill_one K v) ps).
Proof.
  induction 1 as [|p ps Hp _ IH].
  - simpl. unfold strings_ReplaceAll. now destruct (token_text K).
  - destruct p as [t|k]; simpl pieces_text; simpl map.
    + rewrite ReplaceAll_plain by assumption. simpl. now rewrite IH.
    + unfold fill_one. destruct (token_eqb k K) eqn:E.
      * assert (k = K) as -> by (destruct k, K; (reflexivity || discriminate)).
        rewrite ReplaceAll_same_mark. simpl. now rewrite IH.
      * rewrite ReplaceAll_other_mark by assumption. simpl. now rewrite IH.
Qed.

Lemma fill_one_ok K v ps :
  lacks brace v = true ->
  Forall (fun p => piece_ok p = true) ps ->
  Forall (fun p => piece_ok p = true) (map (fill_one K v) ps).
Proof.
  intros Hv H. induction H as [|p ps Hp _ IH]; simpl; constructor; [|assumption].
  destruct p as [t|k]; simpl; [assumption|]. now destruct (token_eqb k K).
Qed.

Lemma fill_all opts p :
  fill_one CoreVersion "v0.0.0"
    (fill_one DbType (opt_DbType opts)
       (fill_one ModuleName (opt_Module opts)
          (fill_one ProjectName (opt_Name opts) p)))
  = fill opts p.
Proof. destruct p as [t|[]]; reflexivity. Qed.

Lemma render_template_unfold opts content :
  render_template opts content
  = strings_ReplaceAll
      (strings_ReplaceAll
         (strings_ReplaceAll
            (strings_ReplaceAll content "{{PROJECT_NAME}}" (opt_Name opts))
            "{{MODULE_NAME}}" (opt_Module opts))
         "{{DB_TYPE}}" (opt_DbType opts))
      "{{GALAPLATE_CORE_VERSION}}" "v0.0.0".
Proof. reflexivity. Qed.

(** The four passes fill in every marker of a text of plain text and
    markers, when the values have no opening brace. *)
Lemma render_template_pieces opts ps :
  lacks brace (opt_Name opts) = true ->
  lacks brace (opt_Module opts) = true ->
  lacks brace (opt_DbType opts) = true ->
  Forall (fun p => piece_ok p = true) ps ->
  render_template opts (pieces_text ps) = pieces_text (map (fill opts) ps).
Proof.
  intros Hn Hm Hd Hps. rewrite render_template_unfold.
  change "{{PROJECT_NAME}}" with (token_text ProjectName).
  change "{{MODULE_NAME}}" with (token_text ModuleName).
  change "{{DB_TYPE}}" with (token_text DbType).
  change "{{GALAPLATE_CORE_VERSION}}" with (token_text CoreVersion).
  rewrite ReplaceAll_pieces by assumption.
  rewrite ReplaceAll_pieces by (apply fill_one_ok; assumption).
  rewrite ReplaceAll_pieces by (do 2 (apply fill_one_ok; try assumption)).
  rewrite ReplaceAll_pieces by (do 3 (apply fill_one_ok; try assumption)).
  rewrite !map_map. f_equal. apply map_ext. intros p. apply fill_all.
Qed.

Lemma filled_lacks_brace opts ps :
  lacks brace (opt_Name opts) = true ->
  lacks brace (opt_Module opts) = true ->
  lacks brace (opt_DbType opts) = true ->
  Forall (fun p => piece_ok p = true) ps ->
  lacks brace (pieces_text (map (fill opts) ps)) = true.
Proof.
  intros Hn Hm Hd Hps. induction Hps as [|p ps Hp _ IH]; [reflexivity|].
  simpl. rewrite lacks_append, IH, andb_true_r.
  destruct p as [t|[]]; simpl; assumption.
Qed.

Lemma Contains_lacks c o s : lacks c s = true -> strings_Contains s (String c o) = false.
Proof.
  induction s as [|x s IH]; intros L; [reflexivity|].
  simpl in L. apply andb_true_iff in L as [Nx Ls]. apply negb_true_iff in Nx.
  simpl. rewrite Ascii.eqb_sym, Nx. simpl. now apply IH.
Qed.

End TemplateFacts.

(* ===================================================================== *)
(** * C2: files with the template suffix *)
(* ===================================================================== *)

(** C2, as stated, fails: the markers are replaced one after the other,
    each pass over the output of the pass before, so a value that is
    itself a marker token is not treated as the claim says.  With the
    database kind set to the token of the project name (the flag
    [--db={{PROJECT_NAME}}]), the template [DB={{DB_TYPE}}], which
    contains only a recognized marker, is written to the destination as
    [DB={{PROJECT_NAME}}]: a marker token is there verbatim.  And with
    the project name set to the token of the module name, the marker of
    the project name is not replaced by its value but by the module
    name. *)
Lemma C2_counterexample :
  (let opts := mkOptions "demo" "api" "{{PROJECT_NAME}}" "demo" false false in
   let w := mkWorld (Dir perm_0755
                       [("demo", Dir perm_0755 []);
                        ("tmp", Dir perm_0777
                           [("t", Dir perm_0700
                                [("db.template", File perm_0644 "DB={{DB_TYPE}}")])])])
                    [] 18 [] in
   let w' := snd (copyFile "/tmp/t/db.template" "/demo/db.template" opts w) in
   fst (copyFile "/tmp/t/db.template" "/demo/db.template" opts w) = None
   /\ node_at w' "/demo/db" = Some (File perm_0644 "DB={{PROJECT_NAME}}")
   /\ strings_Contains "DB={{PROJECT_NAME}}" (token_text ProjectName) = true)
  /\ (let opts := mkOptions "{{MODULE_NAME}}" "api" "postgres" "example.com/m" false false in
      render_template opts "name: {{PROJECT_NAME}}" = "name: example.com/m"
      /\ token_value opts ProjectName = "{{MODULE_NAME}}").
Proof. vm_compute. repeat split; reflexivity. Qed.

(** C2, amended.  For a source file whose name ends with [.template],
    a [copyFile] that succeeds leaves, at the destination path with the
    suffix stripped, a file that holds the text of the source after four
    replacement passes, verbatim and case-sensitive: the marker of the
    project name, then of the module name, then of the database kind,
    then of the core version, each over the result of the pass before.
    In particular, when the text of the source is made of plain text
    without an opening brace and of recognized markers, and no value has
    an opening brace, every marker is replaced by its value and the
    destination file contains none of the marker tokens. *)
Theorem C2_template_rendered_at_stripped_path
    (src dest : string) (opts : ProjectOptions) (w w' : World)
    (ps pd : list string) (ms : Z) (d : string) :
  strings_HasSuffix src ".template" = true ->
  resolve (w_cwd w) src = Some ps ->
  resolve (w_cwd w) dest = Some pd ->
  ps <> pd ->
  stat ps (w_root w) = Some (SFile ms d) ->
  copyFile src dest opts w = (None, w') ->
  let text :=
    strings_ReplaceAll
      (strings_ReplaceAll
         (strings_ReplaceAll
            (strings_ReplaceAll d "{{PROJECT_NAME}}" (opt_Name opts))
            "{{MODULE_NAME}}" (opt_Module opts))
         "{{DB_TYPE}}" (opt_DbType opts))
      "{{GALAPLATE_CORE_VERSION}}" "v0.0.0" in
  (exists pt m,
      resolve (w_cwd w) (strings_TrimSuffix dest ".template") = Some pt
      /\ stat pt (w_root w') = Some (SFile m text))
  /\ (forall pieces,
        d = pieces_text pieces ->
        Forall (fun p => piece_ok p = true) pieces ->
        lacks brace (opt_Name opts) = true ->
        lacks brace (opt_Module opts) = true ->
        lacks brace (opt_DbType opts) = true ->
        text = pieces_text (map (fill opts) pieces)
        /\ forall k, strings_Contains text (token_text k) = false).
Proof.
  intros Hs Hps Hpd Hne Hsrc Hrun text.
  assert (text = render_template opts d) as Et by reflexivity.
  split.
  - destruct (copyFile_result _ _ _ _ _ _ _ _ _ Hps Hpd Hne Hsrc Hrun) as (pt & Hpt & St & _).
    rewrite (rule_of_template _ Hs) in *. simpl in Hpt, St. rewrite <- Et in St. eauto.
  - intros pieces -> Hok Hn Hm Hd.
    rewrite Et, render_template_pieces by assumption. split; [reflexivity|].
    intros k. destruct (token_text_brace k) as [o ->].
    apply Contains_lacks. now apply filled_lacks_brace.
Qed.

Lemma C2_template_rendered_at_stripped_path_witness :
  let w' := snd (copyFile "/tmp/galaplate-1/.env.template" "demo/.env.template"
                   demo_opts template_world) in
  exists pt m,
    resolve (w_cwd template_world) (strings_TrimSuffix "demo/.env.template" ".template")
    = Some pt
    /\ stat pt (w_root w') = Some (SFile m "APP=demo DB=postgres").
Proof.
  intros w'.
  destruct (C2_template_rendered_at_stripped_path
              "/tmp/galaplate-1/.env.template" "demo/.env.template" demo_opts
              template_world w'
              ["tmp"; "galaplate-1"; ".env.template"] ["home"; "u"; "demo"; ".env.template"]
              perm_0644 "APP={{PROJECT_NAME}} DB={{DB_TYPE}}") as (F & _).
  - reflexivity.
  - reflexivity.
  - reflexivity.
  - discriminate.
  - reflexivity.
  - reflexivity.
  - exact F.
Defined.

(** The file that [copyFile] leaves behind for a template: the
    destination is created under its full name before the suffix is
    looked at, and that empty file is not removed when the output is
    written to the stripped name. *)
Lemma copyFile_leaves_unstripped_file :
  let w' := snd (copyFile "/tmp/galaplate-1/.env.template" "demo/.env.template"
                   demo_opts template_world) in
  node_at template_world "demo/.env.template" = None
  /\ node_at w' "demo/.env.template" = Some (File 436 EmptyString)
  /\ node_at w' "demo/.env" = Some (File perm_0644 "APP=demo DB=postgres").
Proof. vm_compute. repeat split; reflexivity. Qed.

(* ===================================================================== *)
(** * C7: one rule for every file *)
(* ===================================================================== *)

(** C7.  For every file exactly one of the four rules fires, the first in
    the order template-suffix, manifest, source-reference, passthrough
    whose pattern matches the name; [copyFile], after it has opened the
    source and created the destination, reads and writes in the way of
    that rule and of no other.  A name that ends with the template suffix
    is handled by the template-suffix rule whatever else it matches: the
    file [main.go.template] is rendered as a template, and its module
    references are not rewritten. *)
Theorem C7_one_rule_by_priority :
  (forall src, rule_fires (rule_of src) src)
  /\ (forall src r, rule_fires r src -> r = rule_of src)
  /\ (forall src dest opts,
        copyFile src dest opts =
        (err <- os_Open src ;;
         match err with Some e => ret (Some e) | None =>
         err <- os_MkdirAll (filepath_Dir dest) perm_0755 ;;
         match err with Some e => ret (Some e) | None =>
         err <- os_Create dest ;;
         match err with Some e => ret (Some e) | None =>
         match rule_of src with
         | Passthrough => io_Copy dest src
         | r =>
             content <- io_ReadAll src ;;
             match content with
             | Err e => ret (Some e)
             | Ok content =>
                 os_WriteFile (rule_target r dest) (rule_output r opts content) perm_0644
             end
         end end end end))
  /\ (forall src, strings_HasSuffix src ".template" = true -> rule_of src = TemplateSuffix)
  /\ (let w' := snd (copyFile "/tmp/galaplate-1/main.go.template" "demo/main.go.template"
                       demo_opts template_world) in
      rule_of "/tmp/galaplate-1/main.go.template" = TemplateSuffix
      /\ node_at w' "demo/main.go"
         = Some (File perm_0644 "package main // example.com/demo github.com/galaplate/galaplate")).
Proof.
  split; [|split; [|split; [|split]]].
  - intros src. unfold rule_fires, rule_of, rule_priority.
    cbn [find rule_matches].
    destruct (strings_HasSuffix src ".template") eqn:T.
    { split; [assumption|]. intros r' H. simpl in H. lia. }
    destruct (String.eqb (filepath_Base src) "go.mod") eqn:G.
    { split; [assumption|].
      intros [] H; cbn [rule_rank rule_matches] in *; (assumption || lia). }
    destruct (strings_HasSuffix src ".go") eqn:S.
    { split; [assumption|].
      intros [] H; cbn [rule_rank rule_matches] in *; (assumption || lia). }
    split; [reflexivity|].
    intros [] H; cbn [rule_rank rule_matches] in *; (assumption || lia).
  - intros src r [Hm Hhigher]. unfold rule_of, rule_priority.
    pose proof (Hhigher TemplateSuffix) as H1.
    pose proof (Hhigher Manifest) as H2.
    pose proof (Hhigher SourceReference) as H3.
    cbn [find rule_matches rule_rank] in *.
    destruct r; cbn [rule_rank rule_matches] in *.
    + now rewrite Hm.
    + rewrite H1 by lia. now rewrite Hm.
    + rewrite H1, H2 by lia. now rewrite Hm.
    + now rewrite H1, H2, H3 by lia.
  - apply copyFile_unfold.
  - apply rule_of_template.
  - vm_compute. split; reflexivity.
Qed.

Lemma C7_one_rule_by_priority_witness :
  rule_of "/tmp/galaplate-1/tpl/handler.go.template" = TemplateSuffix
  /\ rule_fires Manifest "/tmp/galaplate-1/go.mod".
Proof.
  destruct C7_one_rule_by_priority as (Fires & _ & _ & Template & _).
  split.
  - apply Template. reflexivity.
  - exact (Fires "/tmp/galaplate-1/go.mod").
Defined.

(* ===================================================================== *)
(** * C9: the permission bits of the copies *)
(* ===================================================================== *)

(** C9, as stated, fails in its clause on the fixed mode: the files of
    the manifest and of the source-reference rule are not written with
    mode 0644.  [copyFile] creates the destination with [os.Create]
    before the rule writes, so that the [os.WriteFile] of the rule finds
    the file there and its mode 0644 is not applied.  With the umask
    002, the manifest and a Go source file copied into a directory where
    they did not exist have the permission bits 0664, those of
    [os.Create]. *)
Lemma C9_counterexample :
  let manifest := copyFile "/tmp/galaplate-1/go.mod" "demo/go.mod" demo_opts template_world in
  let source := copyFile "/tmp/galaplate-1/pkg/a.go" "demo/pkg/a.go" demo_opts template_world in
  w_umask template_world = 2%Z
  /\ rule_of "/tmp/galaplate-1/go.mod" = Manifest
  /\ rule_of "/tmp/galaplate-1/pkg/a.go" = SourceReference
  /\ fst manifest = None
  /\ fst source = None
  /\ option_map node_perm (node_at template_world "demo/go.mod") = None
  /\ option_map node_perm (node_at (snd manifest) "demo/go.mod") = Some 436%Z
  /\ option_map node_perm (node_at (snd source) "demo/pkg/a.go") = Some 436%Z
  /\ 436%Z <> perm_0644.
Proof. vm_compute. repeat split; try reflexivity. discriminate. Qed.

(** C9, amended.  Extraction gives a regular file in the scratch tree
    the permission bits stored in the archive.  [copyFile] does not pass
    them on.  When it succeeds for a source file with any permission
    bits [ms], the calls it has made are: the opening of the source, the
    creation of the directory of the destination with mode 0755, the
    creation of the destination with [os.Create] (the default creation
    mode 0666), and then, for the template-suffix, manifest and
    source-reference rules, the reading of the source and an
    [os.WriteFile] of the output with the mode 0644, and for the
    passthrough rule an [io.Copy] into the file created; no call sets
    permission bits afterwards.  The file written has the permission bits
    the file at that path had before the copy or, when there was none,
    a creation mode less the umask.  For the manifest, source-reference
    and passthrough rules the file written is the destination that
    [os.Create] made, and the creation mode is 0666; the mode 0644 of
    [os.WriteFile] only applies to the stripped path of a template. *)
Theorem C9_source_permissions_not_propagated :
  (forall tempDir e w root w',
      tempDir <> EmptyString ->
      resolve (w_cwd w) tempDir = Some root ->
      (2 <= Datatypes.length (strings_Split (Name (header e)) Separator))%nat ->
      Typeflag (header e) = tar_TypeReg ->
      extract_entry tempDir e w = (None, w') ->
      stat (follow root (tl (strings_Split (Name (header e)) Separator))) (w_root w')
      = Some (SFile (perm_bits (os_FileMode (Mode (header e)))) (payload e)))
  /\ (forall src dest opts w w' ps pd ms d,
        resolve (w_cwd w) src = Some ps ->
        resolve (w_cwd w) dest = Some pd ->
        ps <> pd ->
        stat ps (w_root w) = Some (SFile ms d) ->
        copyFile src dest opts w = (None, w') ->
        exists pt,
          resolve (w_cwd w) (rule_target (rule_of src) dest) = Some pt
          /\ stat pt (w_root w')
             = Some (SFile (result_perm (w_umask w) pt pd (w_root w))
                           (rule_output (rule_of src) opts d))
          /\ (rule_of src <> TemplateSuffix ->
              pt = pd
              /\ result_perm (w_umask w) pt pd (w_root w)
                 = perm_after_open (w_umask w) perm_0666 (stat pd (w_root w)))
          /\ (stat pd (w_root w) = None -> stat pt (w_root w) = None ->
              result_perm (w_umask w) pt pd (w_root w)
              = created_perm (w_umask w)
                  (if list_eq_dec string_dec pt pd then perm_0666 else perm_0644))
          /\ w_calls w' = w_calls w
                          ++ [CallOpen src; CallMkdirAll (filepath_Dir dest) perm_0755;
                              CallCreate dest]
                          ++ match rule_of src with
                             | Passthrough => [CallCopy dest src]
                             | r => [CallReadAll src;
                                     CallWriteFile (rule_target r dest)
                                                   (rule_output r opts d) perm_0644]
                             end).
Proof.
  split.
  - intros tempDir e w root w' Ht Hr Hlen Hreg Hrun.
    destruct (extract_entry_materializes _ _ _ _ _ Ht Hr Hlen Hrun) as (_ & Reg & _).
    now apply Reg.
  - intros src dest opts w w' ps pd ms d Hps Hpd Hne Hsrc Hrun.
    destruct (copyFile_result _ _ _ _ _ _ _ _ _ Hps Hpd Hne Hsrc Hrun) as (pt & Hpt & St & Hc).
    exists pt. split; [assumption|]. split; [assumption|]. split; [|split].
    + intros Hrule.
      assert (pt = pd) as ->.
      { destruct (rule_of src); cbn [rule_target] in Hpt; congruence. }
      split; [reflexivity|]. unfold result_perm.
      destruct (list_eq_dec string_dec pd pd); [reflexivity | congruence].
    + intros F1 F2. unfold result_perm. rewrite F1, F2.
      now destruct (list_eq_dec string_dec pt pd).
    + rewrite Hc. now destruct (rule_of src).
Qed.

Lemma C9_source_permissions_not_propagated_witness :
  let w' := snd (copyFile "/tmp/galaplate-1/run.sh" "demo/run.sh" demo_opts template_world) in
  stat ["tmp"; "galaplate-1"; "run.sh"] (w_root template_world)
  = Some (SFile perm_0755 "#!/bin/sh")
  /\ stat ["home"; "u"; "demo"; "run.sh"] (w_root w') = Some (SFile 436 "#!/bin/sh").
Proof.
  intros w'. split; [reflexivity|].
  destruct C9_source_permissions_not_propagated as (_ & Copy).
  destruct (Copy "/tmp/galaplate-1/run.sh" "demo/run.sh" demo_opts template_world w'
              ["tmp"; "galaplate-1"; "run.sh"] ["home"; "u"; "demo"; "run.sh"]
              perm_0755 "#!/bin/sh") as (pt & Hpt & St & _).
  - reflexivity.
  - reflexivity.
  - discriminate.
  - reflexivity.
  - reflexivity.
  - injection Hpt as <-. exact St.
Defined.

(* ===================================================================== *)
(** * C3: the manifest *)
(* ===================================================================== *)

(** C3, as stated, fails: the rewriting is a replacement of a text, not
    of a line.  The manifest of the scratch directory below has a fifth
    line that is a comment, not the declaration of the module; it
    contains the text of the declaration, and in the manifest that
    [copyFile] writes to the destination it is changed. *)
Lemma C3_counterexample :
  let content :=
    strings_Join ["module github.com/galaplate/galaplate"; EmptyString;
                  "go 1.22"; EmptyString;
                  "// fork of module github.com/galaplate/galaplate"; EmptyString] nl in
  let w := mkWorld (Dir perm_0755
                      [("demo", Dir perm_0755 []);
                       ("tmp", Dir perm_0777
                          [("t", Dir perm_0700 [("go.mod", File perm_0644 content)])])])
                   [] 18 [] in
  let run := copyFile "/tmp/t/go.mod" "/demo/go.mod" demo_opts w in
  fst run = None
  /\ nth 4 (strings_Split content line_feed) EmptyString
     = "// fork of module github.com/galaplate/galaplate"
  /\ declares_old_module (nth 4 (strings_Split content line_feed) EmptyString) = false
  /\ exists out,
       node_at (snd run) "/demo/go.mod" = Some (File perm_0644 out)
       /\ nth 4 (strings_Split out line_feed) EmptyString = "// fork of module example.com/demo".
Proof.
  split; [vm_compute; reflexivity|]. split; [vm_compute; reflexivity|].
  split; [vm_compute; reflexivity|].
  eexists. split; vm_compute; reflexivity.
Qed.

(** C3, amended.  For the manifest (a file with the base name [go.mod]
    and without the template suffix) a [copyFile] that succeeds leaves
    at the destination a file that holds the content of the source with
    every occurrence of the text [module github.com/galaplate/galaplate],
    wherever in a line it stands, replaced by [module] followed by the
    new module identifier.  The lines are rewritten one by one: the
    content written is made of the lines of the source, each with its
    occurrences replaced; every line that does not contain that text is
    byte-identical in the output; and a line that begins with the
    declaration of the default module root begins with the declaration
    of the new module in the output. *)
Theorem C3_manifest_text_replaced
    (src dest : string) (opts : ProjectOptions) (w w' : World)
    (ps pd : list string) (ms : Z) (d : string) :
  strings_HasSuffix src ".template" = false ->
  String.eqb (filepath_Base src) "go.mod" = true ->
  resolve (w_cwd w) src = Some ps ->
  resolve (w_cwd w) dest = Some pd ->
  ps <> pd ->
  stat ps (w_root w) = Some (SFile ms d) ->
  copyFile src dest opts w = (None, w') ->
  let rewritten (text : string) :=
    strings_ReplaceAll text "module github.com/galaplate/galaplate"
                       ("module " +++ opt_Module opts) in
  (exists m, stat pd (w_root w') = Some (SFile m (rewritten d)))
  /\ (forall lines,
        d = strings_Join lines nl ->
        rewritten d = strings_Join (map rewritten lines) nl
        /\ (forall line,
              In line lines ->
              strings_Contains line "module github.com/galaplate/galaplate" = false ->
              rewritten line = line)
        /\ (forall line rest,
              In line lines ->
              line = "module github.com/galaplate/galaplate" +++ rest ->
              rewritten line = ("module " +++ opt_Module opts) +++ rewritten rest)).
Proof.
  intros Ht Hg Hps Hpd Hne Hsrc Hrun rewritten. split.
  - destruct (copyFile_result _ _ _ _ _ _ _ _ _ Hps Hpd Hne Hsrc Hrun) as (pt & Hpt & St & _).
    rewrite (rule_of_manifest _ Ht Hg) in *. cbn [rule_target rule_output] in Hpt, St.
    rewrite Hpd in Hpt. injection Hpt as <-.
    unfold rewrite_manifest, module_line in St. eauto.
  - intros lines ->. split; [|split].
    + unfold rewritten, nl. apply ReplaceAll_lines. reflexivity.
    + intros line _ H. now apply ReplaceAll_absent.
    + intros line rest _ ->. unfold rewritten. apply ReplaceAll_match. discriminate.
Qed.

Lemma C3_manifest_text_replaced_witness :
  let w' := snd (copyFile "/tmp/galaplate-1/go.mod" "demo/go.mod" demo_opts template_world) in
  exists m,
    stat ["home"; "u"; "demo"; "go.mod"] (w_root w')
    = Some (SFile m (strings_ReplaceAll go_mod_text "module github.com/galaplate/galaplate"
                                        ("module " +++ opt_Module demo_opts))).
Proof.
  intros w'.
  destruct (C3_manifest_text_replaced
              "/tmp/galaplate-1/go.mod" "demo/go.mod" demo_opts template_world w'
              ["tmp"; "galaplate-1"; "go.mod"] ["home"; "u"; "demo"; "go.mod"]
              perm_0644 go_mod_text) as (F & _).
  - reflexivity.
  - reflexivity.
  - reflexivity.
  - reflexivity.
  - discriminate.
  - reflexivity.
  - reflexivity.
  - exact F.
Defined.

(* ===================================================================== *)
(** * C6: the module references of source files *)
(* ===================================================================== *)

(** C6 holds for the example of the specification, and fails for other
    module identifiers the program accepts.  When the new module
    identifier begins with the old module root, as in
    [github.com/galaplate/galaplate-api], the import just rewritten
    contains the old root again and the second replacement rewrites it a
    second time.  When the new module identifier contains a dollar sign,
    the sign and the name after it are read as a reference to a group of
    the pattern, and are lost. *)
Theorem C6_rewritten_twice_below_the_old_root :
  replaceModuleReferences
    ("import " +++ quoted "github.com/galaplate/galaplate/sub/pkg") "github.com/new/new"
  = "import " +++ quoted "github.com/new/new/sub/pkg"
  /\ replaceModuleReferences
       ("import " +++ quoted "github.com/galaplate/galaplate/sub/pkg")
       "github.com/galaplate/galaplate-api"
     = "import " +++ quoted "github.com/galaplate/galaplate-api-api/sub/pkg"
  /\ replaceModuleReferences
       ("import " +++ quoted "github.com/galaplate/galaplate/sub/pkg") "example.com/a$b"
     = "import " +++ quoted "example.com/a/sub/pkg".
Proof. vm_compute. repeat split; reflexivity. Qed.

(* ===================================================================== *)
(** * The walk over the scratch tree *)
(* ===================================================================== *)

Section WalkFacts.

Lemma walk_dir fn path m es w :
  walk fn path (Dir m es) w =
  (err1 <- fn path (Some (info_of path (Dir m es))) None ;;
   match err1 with
   | Some e => ret (Some e)
   | None => walk_names fn path es
   end) w.
Proof.
  cbn [walk]. unfold bind at 1 3.
  destruct (fn path (Some (info_of path (Dir m es))) None w) as [e1 w1].
  destruct e1 as [e|]; [reflexivity|].
  revert w1. induction es as [|[name ch] es IH]; intros w1; [reflexivity|].
  cbn [walk_names]. unfold bind.
  destruct (walk fn (filepath_Join [path; name]) ch w1) as [e w2].
  destruct e as [e|]; [|apply IH].
  destruct (negb (is_dir ch) || negb (is_SkipDir e)); [reflexivity | apply IH].
Qed.

Lemma exclude_check_in dirs parts info :
  In (nth 0 parts EmptyString) dirs ->
  exclude_check dirs parts info
  = Some (if fi_IsDir info then Some SkipDir else None).
Proof.
  induction dirs as [|d dirs IH]; intros H; [destruct H|].
  simpl. destruct (String.eqb_spec (nth 0 parts EmptyString) d) as [E|N].
  - now destruct (fi_IsDir info).
  - destruct H as [H|H]; [congruence | now apply IH].
Qed.

(** The function of the copier, for an entry below an excluded
    directory name: nothing is done, and a directory is not entered. *)
Lemma copy_visit_excluded srcRoot destDir opts path info relPath w :
  filepath_Rel srcRoot path = Ok relPath ->
  In (nth 0 (strings_Split relPath Separator) EmptyString) excludeDirs ->
  copy_visit srcRoot destDir opts path (Some info) None w
  = ((if fi_IsDir info then Some SkipDir else None), w).
Proof.
  intros Hrel Hin. unfold copy_visit. rewrite Hrel.
  destruct (String.eqb_spec relPath ".") as [->|N].
  - exfalso. simpl in Hin.
    repeat (destruct Hin as [Hin|Hin]; [discriminate|]). exact Hin.
  - rewrite (exclude_check_in _ _ _ Hin). now destruct (fi_IsDir info).
Qed.

End WalkFacts.

(* ===================================================================== *)
(** * C8: excluded directories *)
(* ===================================================================== *)

(** C8.  Let an entry of the scratch tree have a path whose first
    segment, relative to the scratch root, is the name of an excluded
    directory.  Whatever tree [n] is found there, of any depth and with
    any contents, the visit of the copier leaves the world as it is: no
    call is made and nothing is created in the destination.  For a
    directory the visit answers [SkipDir] without going into the
    directory, for a file it answers without copying; in both cases the
    walk goes on with the entry that follows. *)
Theorem C8_excluded_subtree_skipped
    (srcRoot destDir : string) (opts : ProjectOptions)
    (path relPath : string) (n : node) (w : World) :
  filepath_Rel srcRoot path = Ok relPath ->
  In (nth 0 (strings_Split relPath Separator) EmptyString) excludeDirs ->
  walk (copy_visit srcRoot destDir opts) path n w
  = ((if is_dir n then Some SkipDir else None), w)
  /\ (forall parent name rest,
        path = filepath_Join [parent; name] ->
        walk_names (copy_visit srcRoot destDir opts) parent ((name, n) :: rest) w
        = walk_names (copy_visit srcRoot destDir opts) parent rest w).
Proof.
  intros Hrel Hin.
  assert (walk (copy_visit srcRoot destDir opts) path n w
          = ((if is_dir n then Some SkipDir else None), w)) as Hw.
  { destruct n as [m d|m es].
    - cbn [walk]. now rewrite (copy_visit_excluded _ _ _ _ _ _ _ Hrel Hin).
    - rewrite walk_dir. unfold bind.
      now rewrite (copy_visit_excluded _ _ _ _ _ _ _ Hrel Hin). }
  split; [exact Hw|].
  intros parent name rest ->. cbn [walk_names]. unfold bind. rewrite Hw.
  now destruct n.
Qed.

Lemma C8_excluded_subtree_skipped_witness :
  let cmd := Dir perm_0755 [("x.go", File perm_0644 "package main");
                             ("deep", Dir perm_0755 [("y.go", File perm_0644 "package deep")])] in
  walk (copy_visit "/tmp/galaplate-1" "demo" demo_opts) "/tmp/galaplate-1/cmd" cmd
       template_world
  = (Some SkipDir, template_world).
Proof.
  intros cmd.
  apply (C8_excluded_subtree_skipped "/tmp/galaplate-1" "demo" demo_opts
           "/tmp/galaplate-1/cmd" "cmd" cmd template_world).
  - reflexivity.
  - simpl. tauto.
Defined.

(* ===================================================================== *)
(** * The copy merges into the destination *)
(* ===================================================================== *)

Section MergedFacts.

Lemma preserves_ret {A} (R : World -> World -> Prop) (a : A) :
  (forall w, R w w) -> preserves R (ret a).
Proof. intros Hr w a' w' H. injection H as _ <-. apply Hr. Qed.

Lemma preserves_bind {A B} (R : World -> World -> Prop) (m : M A) (k : A -> M B) :
  (forall w1 w2 w3, R w1 w2 -> R w2 w3 -> R w1 w3) ->
  preserves R m -> (forall a, preserves R (k a)) -> preserves R (bind m k).
Proof.
  intros Ht Hm Hk w b w' H. unfold bind in H.
  destruct (m w) as [a w1] eqn:E. exact (Ht _ _ _ (Hm _ _ _ E) (Hk _ _ _ _ H)).
Qed.

Lemma merged_refl w : merged w w.
Proof.
  repeat split. exists []. split; [now rewrite app_nil_r|].
  intros q. destruct (stat q (w_root w)) as [[m d|m]|]; eauto.
Qed.

Lemma untouched_app cwd cs1 cs2 q :
  untouched cwd (cs1 ++ cs2) q -> untouched cwd cs1 q /\ untouched cwd cs2 q.
Proof.
  intros H. split; intros c Hc; apply H, in_or_app; auto.
Qed.

Lemma merged_trans w1 w2 w3 : merged w1 w2 -> merged w2 w3 -> merged w1 w3.
Proof.
  intros (C1 & U1 & cs1 & L1 & H1) (C2 & U2 & cs2 & L2 & H2).
  split; [congruence|]. split; [congruence|].
  exists (cs1 ++ cs2). split; [now rewrite L2, L1, app_assoc|].
  intros q. specialize (H1 q).
  destruct (stat q (w_root w1)) as [[m d|m]|]; [| |exact I].
  - destruct H1 as [[d1 E1] F1]. split.
    + specialize (H2 q). rewrite E1 in H2. exact (proj1 H2).
    + intros Hu. apply untouched_app in Hu as [Hu1 Hu2].
      specialize (H2 q). rewrite (F1 Hu1) in H2. apply (proj2 H2).
      now rewrite C1.
  - specialize (H2 q). now rewrite H1 in H2.
Qed.

(** A call that leaves the file system as it is. *)
Lemma merged_same_root c w w' :
  same_process c w w' -> w_root w' = w_root w -> merged w w'.
Proof.
  intros (C & U & L) R. repeat split; try assumption.
  exists [c]. split; [assumption|]. intros q. rewrite R.
  destruct (stat q (w_root w)) as [[m d|m]|]; eauto.
Qed.

(** A call that writes one file, at the location it names. *)
Lemma merged_modify c f p w w' :
  same_process c w w' -> call_target (w_cwd w) c = Some p ->
  shallow f -> writes_files f ->
  modify p f (w_root w) = Some (w_root w') -> merged w w'.
Proof.
  intros (C & U & L) Ht Sh [Wd Wf] Hm. repeat split; try assumption.
  exists [c]. split; [assumption|]. intros q.
  destruct (list_eq_dec string_dec q p) as [->|Ne].
  - apply lookup_modify_eq in Hm as [Hm Nm]. unfold stat. rewrite Hm.
    destruct (lookup p (w_root w)) as [[m d|m es]|]; simpl; [| |exact I].
    + destruct (f (Some (File m d))) as [x|] eqn:E; [|congruence].
      destruct (Wf _ _ _ E) as [d' ->]. simpl. split; [eauto|].
      intros Hu. exfalso. apply (Hu c); [now left | assumption].
    + rewrite Wd in Nm. congruence.
  - rewrite (stat_modify_ne _ _ _ _ q Sh Hm Ne).
    destruct (stat q (w_root w)) as [[m d|m]|]; eauto.
Qed.

Lemma writes_files_create u : writes_files (create_entry u).
Proof. split; [reflexivity|]. intros m d x H. injection H as <-. eauto. Qed.

Lemma writes_files_write u data perm : writes_files (write_entry u data perm).
Proof. split; [reflexivity|]. intros m d x H. injection H as <-. eauto. Qed.

Lemma writes_files_append data : writes_files (append_entry data).
Proof. split; [reflexivity|]. intros m d x H. injection H as <-. eauto. Qed.

Lemma merged_Open path : preserves merged (os_Open path).
Proof.
  intros w e w' H. apply os_Open_spec in H as (P & R & _).
  now apply (merged_same_root (CallOpen path)).
Qed.

Lemma merged_ReadAll path : preserves merged (io_ReadAll path).
Proof.
  intros w e w' H. apply io_ReadAll_spec in H as (P & R & _).
  now apply (merged_same_root (CallReadAll path)).
Qed.

Lemma merged_MkdirAll path perm : preserves merged (os_MkdirAll path perm).
Proof.
  intros w e w' H. apply os_MkdirAll_extends in H as ((C & U & L) & X).
  repeat split; try assumption. exists [CallMkdirAll path perm]. split; [assumption|].
  intros q. destruct (stat q (w_root w)) as [[m d|m]|] eqn:E; [|now apply X|trivial].
  rewrite (X _ _ E). eauto.
Qed.

Lemma merged_Create path : preserves merged (os_Create path).
Proof.
  intros w e w' H. apply os_Create_spec in H as (P & X).
  destruct e as [er|]; [now apply (merged_same_root (CallCreate path))|].
  destruct X as (p & Hp & X).
  apply (merged_modify (CallCreate path) (create_entry (w_umask w)) p);
    auto using shallow_create, writes_files_create.
Qed.

Lemma merged_WriteFile path data perm : preserves merged (os_WriteFile path data perm).
Proof.
  intros w e w' H. apply os_WriteFile_spec in H as (P & X).
  destruct e as [er|]; [now apply (merged_same_root (CallWriteFile path data perm))|].
  destruct X as (p & Hp & X).
  apply (merged_modify (CallWriteFile path data perm)
                       (write_entry (w_umask w) data perm) p);
    auto using shallow_write, writes_files_write.
Qed.

Lemma merged_Copy dst src : preserves merged (io_Copy dst src).
Proof.
  intros w e w' H. unfold io_Copy in H. rewrite bind_call in H.
  assert (node_at (record_call (CallCopy dst src) w) src = node_at w src) as E by reflexivity.
  rewrite E in H. clear E.
  assert (forall w1, same_process (CallCopy dst src) w (record_call (CallCopy dst src) w1)
                     -> w1 = w -> True) as _ by auto.
  destruct (node_at w src) as [[m d|m es]|].
  - apply write_to_spec in H as (C & U & L & X). simpl in *.
    assert (same_process (CallCopy dst src) w w') as P by now split.
    destruct e as [er|]; [now apply (merged_same_root (CallCopy dst src))|].
    destruct X as (p & Hp & X).
    apply (merged_modify (CallCopy dst src) (append_entry d) p);
      auto using shallow_append, writes_files_append.
  - injection H as <- <-.
    apply (merged_same_root (CallCopy dst src)); [now split | reflexivity].
  - injection H as <- <-.
    apply (merged_same_root (CallCopy dst src)); [now split | reflexivity].
Qed.

Ltac merged_step :=
  first
    [ apply preserves_ret; apply merged_refl
    | apply merged_Open | apply merged_ReadAll | apply merged_MkdirAll
    | apply merged_Create | apply merged_WriteFile | apply merged_Copy
    | apply preserves_bind; [exact merged_trans | | intros ?]
    | match goal with
      | |- preserves _ (match ?x with _ => _ end) => destruct x
      end ].

Lemma merged_copyFile src dest opts : preserves merged (copyFile src dest opts).
Proof. unfold copyFile. repeat merged_step. Qed.

Lemma merged_copy_visit srcRoot destDir opts path info err :
  preserves merged (copy_visit srcRoot destDir opts path info err).
Proof.
  unfold copy_visit. repeat merged_step.
Qed.

(** A walk relates the worlds as the function it calls does. *)
Lemma preserves_walk (R : World -> World -> Prop) fn :
  (forall w, R w w) ->
  (forall w1 w2 w3, R w1 w2 -> R w2 w3 -> R w1 w3) ->
  (forall path info err, preserves R (fn path info err)) ->
  forall n path, preserves R (walk fn path n).
Proof.
  intros Hr Ht Hfn. induction n as [m d|m es IH] using node_rect'; intros path.
  - cbn [walk]. apply Hfn.
  - intros w e w' H. rewrite walk_dir in H. revert w e w' H.
    apply preserves_bind; [exact Ht | apply Hfn |]. intros [e|].
    + now apply preserves_ret.
    + induction IH as [|[name ch] es Hch _ IHes]; cbn [walk_names].
      * now apply preserves_ret.
      * apply preserves_bind; [exact Ht | apply Hch |]. intros [e|]; [|exact IHes].
        destruct (negb (is_dir ch) || negb (is_SkipDir e)); [|exact IHes].
        now apply preserves_ret.
Qed.

Lemma preserves_Walk (R : World -> World -> Prop) root fn :
  (forall w, R w w) ->
  (forall w1 w2 w3, R w1 w2 -> R w2 w3 -> R w1 w3) ->
  (forall c w, R w (record_call c w)) ->
  (forall path info err, preserves R (fn path info err)) ->
  preserves R (filepath_Walk root fn).
Proof.
  intros Hr Ht Hc Hfn w e w' H. unfold filepath_Walk in H. rewrite bind_call in H.
  apply (Ht _ (record_call (CallWalk root) w)); [apply Hc|].
  destruct (node_at (record_call (CallWalk root) w) root) as [n|].
  - destruct (walk fn root n _) as [err w1] eqn:E.
    apply (preserves_walk R fn Hr Ht Hfn) in E.
    destruct err as [[]|]; injection H as _ <-; exact E.
  - destruct (fn root None _ _) as [err w1] eqn:E. apply Hfn in E.
    destruct err as [[]|]; injection H as _ <-; exact E.
Qed.

Lemma merged_record c w : merged w (record_call c w).
Proof. now apply (merged_same_root c). Qed.

Lemma merged_copyProjectFiles srcRoot destDir opts :
  preserves merged (copyProjectFiles srcRoot destDir opts).
Proof.
  unfold copyProjectFiles.
  apply preserves_Walk.
  - exact merged_refl.
  - exact merged_trans.
  - exact merged_record.
  - intros path info err. apply merged_copy_visit.
Qed.

End MergedFacts.

(* ===================================================================== *)
(** * Nothing that existed is removed *)
(* ===================================================================== *)

Section SurvivesFacts.

Lemma lives_refl T w : lives T w w.
Proof. intros q s _ H. eauto. Qed.

Lemma lives_trans T w1 w2 w3 : lives T w1 w2 -> lives T w2 w3 -> lives T w1 w3.
Proof.
  intros H1 H2 q s Hq Hs.
  destruct (H1 q s Hq Hs) as (s1 & E1 & K1).
  destruct (H2 q s1 Hq E1) as (s2 & E2 & K2).
  exists s2. split; [assumption | congruence].
Qed.

Lemma lives_same_root T w w' : w_root w' = w_root w -> lives T w w'.
Proof. intros R q s _ H. unfold lives. rewrite R. eauto. Qed.

Lemma merged_lives T w w' : merged w w' -> lives T w w'.
Proof.
  intros (_ & _ & cs & _ & H) q s _ Hs. specialize (H q). rewrite Hs in H.
  destruct s as [m d|m].
  - destruct H as [[d' E] _]. eauto.
  - eauto.
Qed.

Lemma modify_lives T p f w w' :
  shallow f -> keeps_kind f ->
  modify p f (w_root w) = Some (w_root w') -> lives T w w'.
Proof.
  intros Sh Kk Hm q s _ Hs. exact (modify_keeps _ _ _ _ Sh Kk Hm q s Hs).
Qed.

Lemma keeps_kind_chmod mode : keeps_kind (chmod_entry mode).
Proof. intros [m d|m es] x H; injection H as <-; reflexivity. Qed.

Lemma keeps_kind_append data : keeps_kind (append_entry data).
Proof. intros [m d|m es] x H; [injection H as <-; reflexivity | discriminate]. Qed.

Lemma resolve_rooted cwd cwd' p : rooted p = true -> resolve cwd p = resolve cwd' p.
Proof. unfold resolve. destruct p; [reflexivity|]. now intros ->. Qed.

Variable temp_name : string.
Variable response : HttpResult.
Variable run_tool : string -> list string -> list string -> node -> bool * node.
Variable T : list string.

Hypothesis temp_rooted : rooted temp_name = true.
Hypothesis temp_location : resolve [] temp_name = Some T.
Hypothesis tools_keep :
  forall name args cwd r, survives T r (snd (run_tool name args cwd r)).

Lemma lives_MkdirAll path perm : preserves (lives T) (os_MkdirAll path perm).
Proof. intros w e w' H. apply merged_lives. exact (merged_MkdirAll _ _ _ _ _ H). Qed.

Lemma lives_Create path : preserves (lives T) (os_Create path).
Proof. intros w e w' H. apply merged_lives. exact (merged_Create _ _ _ _ H). Qed.

Lemma lives_Chmod path mode : preserves (lives T) (os_Chmod path mode).
Proof.
  intros w e w' H. apply os_Chmod_spec in H as (_ & X).
  destruct e as [er|]; [now apply lives_same_root|].
  destruct X as (p & _ & X).
  apply (modify_lives T p (chmod_entry mode));
    auto using shallow_chmod, keeps_kind_chmod.
Qed.

Lemma lives_Copy_entry dst e : preserves (lives T) (io_Copy_entry dst e).
Proof.
  intros w err w' H. apply io_Copy_entry_spec in H as (_ & [X|(p & _ & X)] & _).
  - now apply lives_same_root.
  - apply (modify_lives T p (append_entry (payload e)));
      auto using shallow_append, keeps_kind_append.
Qed.

Lemma lives_RemoveAll_temp : preserves (lives T) (os_RemoveAll temp_name).
Proof.
  intros w e w' H. apply os_RemoveAll_spec in H as (_ & _ & R).
  destruct (locate_rooted w _ _ temp_rooted temp_location) as [L|L]; rewrite L in R;
    [|now apply lives_same_root].
  intros q s Hq Hs. rewrite R.
  destruct T as [|t T'] eqn:ET; [discriminate|]. rewrite <- ET in *.
  rewrite stat_remove_all by (rewrite ET; discriminate).
  rewrite Hq. eauto.
Qed.

Lemma lives_Stat path : preserves (lives T) (os_Stat path).
Proof. intros w r w' H. rewrite os_Stat_eq in H. injection H as _ <-. now apply lives_same_root. Qed.

Lemma lives_Getwd : preserves (lives T) os_Getwd.
Proof. intros w r w' H. injection H as _ <-. now apply lives_same_root. Qed.

Lemma lives_Chdir path : preserves (lives T) (os_Chdir path).
Proof.
  intros w r w' H. unfold os_Chdir in H. rewrite bind_call in H.
  destruct (locate _ path) as [p|]; [|injection H as _ <-; now apply lives_same_root].
  destruct (lookup p _) as [[m d|m es]|]; injection H as _ <-; now apply lives_same_root.
Qed.

Lemma lives_http_Get url : preserves (lives T) (http_Get response url).
Proof. intros w r w' H. injection H as _ <-. now apply lives_same_root. Qed.

Lemma lives_exec_Run name args : preserves (lives T) (exec_Run run_tool name args).
Proof.
  intros w ok w' H. unfold exec_Run in H. rewrite bind_call in H.
  pose proof (tools_keep name args (w_cwd w) (w_root w)) as K.
  change (w_cwd (record_call (CallRun name args) w)) with (w_cwd w) in H.
  change (w_root (record_call (CallRun name args) w)) with (w_root w) in H.
  destruct (run_tool name args (w_cwd w) (w_root w)) as [ok' r].
  injection H as _ <-. exact K.
Qed.

Lemma lives_copyProjectFiles srcRoot destDir opts :
  preserves (lives T) (copyProjectFiles srcRoot destDir opts).
Proof.
  intros w e w' H. apply merged_lives. exact (merged_copyProjectFiles _ _ _ _ _ _ H).
Qed.

Ltac lives_step :=
  first
    [ apply preserves_ret; apply lives_refl
    | apply lives_MkdirAll | apply lives_Create | apply lives_Chmod
    | apply lives_Copy_entry | apply lives_RemoveAll_temp | apply lives_Stat
    | apply lives_Getwd | apply lives_Chdir | apply lives_http_Get
    | apply lives_exec_Run | apply lives_copyProjectFiles
    | apply preserves_bind; [exact (lives_trans T) | | intros ?]
    | match goal with
      | |- preserves _ (match ?x with _ => _ end) => destruct x
      end ].

Lemma lives_extract_entry e : preserves (lives T) (extract_entry temp_name e).
Proof. unfold extract_entry. repeat lives_step. Qed.

Lemma lives_extract_loop es intact :
  preserves (lives T) (extract_loop temp_name es intact).
Proof.
  induction es as [|e es IH]; cbn [extract_loop].
  - repeat lives_step.
  - apply preserves_bind; [exact (lives_trans T) | apply lives_extract_entry |].
    intros [er|]; [repeat lives_step | exact IH].
Qed.

Lemma lives_setupProject opts : preserves (lives T) (setupProject run_tool opts).
Proof. unfold setupProject. repeat lives_step. Qed.

Lemma bind_inv {A B} (m : M A) (k : A -> M B) w b w' :
  bind m k w = (b, w') -> exists a w1, m w = (a, w1) /\ k a w1 = (b, w').
Proof. unfold bind. destruct (m w) as [a w1]. eauto. Qed.

(** The scratch directory is new: nothing that existed is at or below
    its location. *)
Lemma MkdirTemp_fresh dir pattern w r w' :
  os_MkdirTemp temp_name dir pattern w = (r, w') ->
  keeps (w_root w) (w_root w') /\
  (forall tempDir, r = Ok tempDir ->
     tempDir = temp_name /\
     forall q s, stat q (w_root w) = Some s -> is_prefix T q = false).
Proof.
  unfold os_MkdirTemp. rewrite bind_call.
  destruct (change _ _ _ _) as [err w1] eqn:E.
  apply change_spec in E as (C & _ & _ & X). simpl in *.
  destruct err as [er|]; intros H; injection H as <- <-.
  - split; [|discriminate]. destruct X as [_ ->]. intros q s Hs. eauto.
  - destruct X as (p & Hp & X).
    rewrite (resolve_rooted _ [] _ temp_rooted), temp_location in Hp. injection Hp as <-.
    split.
    + refine (modify_keeps T _ _ _ _ _ X).
      * intros [[m d|m es]|] x Hx; inversion Hx; reflexivity.
      * intros n x Hx. discriminate.
    + intros tempDir Ht. injection Ht as <-. split; [reflexivity|].
      intros q s Hs. destruct (is_prefix T q) eqn:P; [|reflexivity].
      apply is_prefix_inv in P as [r ->].
      apply stat_prefix_exists in Hs as [s' Hs'].
      apply lookup_modify_eq in X as [_ N]. unfold stat in Hs'.
      destruct (lookup T (w_root w)); [congruence | discriminate].
Qed.

Lemma extract_loop_result tempDir es intact w r w' t :
  extract_loop tempDir es intact w = (r, w') -> r = Ok t -> t = tempDir.
Proof.
  revert w. induction es as [|e es IH]; intros w; cbn [extract_loop].
  - destruct intact; intros H E; [injection H as <- _; congruence|].
    apply bind_inv in H as (? & ? & _ & H). injection H as <- _. discriminate.
  - intros H E. apply bind_inv in H as (err & w1 & _ & H).
    destruct err as [er|]; [|now apply (IH w1)].
    apply bind_inv in H as (? & ? & _ & H). injection H as <- _. discriminate.
Qed.

(** The download yields the scratch directory, which is new, and what
    existed before it exists after it. *)
Lemma download_keeps owner repo branch w r w' :
  downloadGitHubRepo temp_name response owner repo branch w = (r, w') ->
  (forall t, r = Ok t -> t = temp_name) /\
  forall q s, stat q (w_root w) = Some s ->
    (r <> Ok temp_name \/ is_prefix T q = false) /\
    exists s', stat q (w_root w') = Some s' /\ is_sdir s' = is_sdir s.
Proof.
  unfold downloadGitHubRepo. intros H.
  apply bind_inv in H as (r0 & w1 & H0 & H1).
  apply MkdirTemp_fresh in H0 as (L0 & F0).
  destruct r0 as [tempDir|er].
  - destruct (F0 _ eq_refl) as (-> & Fresh).
    assert (lives T w1 w' /\ forall t, r = Ok t -> t = temp_name) as [L1 Ht].
    { apply bind_inv in H1 as (resp & w2 & Hg & H1).
      apply (lives_http_Get _ _ _ _) in Hg.
      assert (lives T w2 w' /\ forall t, r = Ok t -> t = temp_name) as [L2 Ht].
      { destruct resp as [|code body].
        - split; [revert H1; generalize w2 r w'; repeat lives_step|].
          apply bind_inv in H1 as (? & ? & _ & H1). injection H1 as <- _. discriminate.
        - destruct (negb _).
          + split; [revert H1; generalize w2 r w'; repeat lives_step|].
            apply bind_inv in H1 as (? & ? & _ & H1). injection H1 as <- _. discriminate.
          + destruct body as [tr|].
            * split; [exact (lives_extract_loop _ _ _ _ _ H1)|].
              intros t. now apply (extract_loop_result _ _ _ _ _ _ _ H1).
            * split; [revert H1; generalize w2 r w'; repeat lives_step|].
              apply bind_inv in H1 as (? & ? & _ & H1). injection H1 as <- _.
              discriminate. }
      split; [exact (lives_trans T _ _ _ Hg L2) | exact Ht]. }
    split; [exact Ht|]. intros q s Hs. pose proof (Fresh q s Hs) as Hq.
    split; [now right|].
    destruct (L0 q s Hs) as (s1 & E1 & K1).
    destruct (L1 q s1 Hq E1) as (s2 & E2 & K2).
    exists s2. split; [assumption | congruence].
  - injection H1 as <- <-. split; [discriminate|]. intros q s Hs.
    split; [left; discriminate|].
    destruct (L0 q s Hs) as (s1 & E1 & K1). eauto.
Qed.

(** What existed before [createProjectFromGitHub] exists after it. *)
Lemma createProjectFromGitHub_keeps opts w e w' :
  createProjectFromGitHub temp_name response run_tool opts w = (e, w') ->
  forall q s, stat q (w_root w) = Some s ->
              exists s', stat q (w_root w') = Some s' /\ is_sdir s' = is_sdir s.
Proof.
  unfold createProjectFromGitHub. intros H.
  apply bind_inv in H as (r & w2 & H1 & H2).
  apply download_keeps in H1 as (Ht & K1).
  destruct r as [tempDir|er].
  - rewrite (Ht _ eq_refl) in *.
    assert (lives T w2 w') as L2.
    { revert H2. generalize w2 e w'. repeat lives_step. }
    intros q s Hs. destruct (K1 q s Hs) as ([N|Hq] & s1 & E1 & K); [congruence|].
    destruct (L2 q s1 Hq E1) as (s2 & E2 & K2).
    exists s2. split; [assumption | congruence].
  - injection H2 as _ <-. intros q s Hs. now destruct (K1 q s Hs) as (_ & X).
Qed.

End SurvivesFacts.

(* ===================================================================== *)
(** * What is not written is as it was *)
(* ===================================================================== *)

Section QuietFacts.

Variable temp_name : string.
Variable response : HttpResult.
Variable run_tool : string -> list string -> list string -> node -> bool * node.
Variable T : list string.

Hypothesis temp_rooted : rooted temp_name = true.
Hypothesis temp_location : resolve [] temp_name = Some T.

Lemma quiet_refl w : quiet T w w.
Proof.
  repeat split. exists []. split; [now rewrite app_nil_r|]. auto.
Qed.

Lemma quiet_trans w1 w2 w3 : quiet T w1 w2 -> quiet T w2 w3 -> quiet T w1 w3.
Proof.
  intros (C1 & U1 & cs1 & L1 & H1) (C2 & U2 & cs2 & L2 & H2).
  split; [congruence|]. split; [congruence|].
  exists (cs1 ++ cs2). split; [now rewrite L2, L1, app_assoc|].
  intros q s Hq Hs Hu. apply untouched_app in Hu as [Hu1 Hu2].
  apply H2; [assumption | now apply H1 | now rewrite C1].
Qed.

Lemma merged_quiet w w' : merged w w' -> quiet T w w'.
Proof.
  intros (C & U & cs & L & H). repeat split; try assumption.
  exists cs. split; [assumption|]. intros q s _ Hs Hu.
  specialize (H q). rewrite Hs in H. destruct s as [m d|m]; [now apply H | assumption].
Qed.

Lemma quiet_same_root c w w' :
  same_process c w w' -> w_root w' = w_root w -> quiet T w w'.
Proof.
  intros (C & U & L) R. repeat split; try assumption.
  exists [c]. split; [assumption|]. intros q s _ Hs _. now rewrite R.
Qed.

(** A call that changes one entry, at the location it names. *)
Lemma quiet_modify c f p w w' :
  same_process c w w' -> call_target (w_cwd w) c = Some p ->
  shallow f -> modify p f (w_root w) = Some (w_root w') -> quiet T w w'.
Proof.
  intros (C & U & L) Ht Sh Hm. repeat split; try assumption.
  exists [c]. split; [assumption|]. intros q s _ Hs Hu.
  rewrite (stat_modify_ne _ _ _ _ q Sh Hm); [assumption|].
  intros ->. apply (Hu c); [now left | assumption].
Qed.

Lemma quiet_MkdirAll path perm : preserves (quiet T) (os_MkdirAll path perm).
Proof. intros w e w' H. apply merged_quiet. exact (merged_MkdirAll _ _ _ _ _ H). Qed.

Lemma quiet_Create path : preserves (quiet T) (os_Create path).
Proof. intros w e w' H. apply merged_quiet. exact (merged_Create _ _ _ _ H). Qed.

Lemma quiet_Chmod path mode : preserves (quiet T) (os_Chmod path mode).
Proof.
  intros w e w' H. apply os_Chmod_spec in H as (P & X).
  destruct e as [er|]; [now apply (quiet_same_root (CallChmod path mode))|].
  destruct X as (p & Hp & X).
  apply (quiet_modify (CallChmod path mode) (chmod_entry mode) p);
    auto using shallow_chmod.
Qed.

Lemma quiet_Copy_entry dst e : preserves (quiet T) (io_Copy_entry dst e).
Proof.
  intros w err w' H. apply io_Copy_entry_spec in H as (P & [X|(p & Hp & X)] & _).
  - now apply (quiet_same_root (CallCopyEntry dst (payload e))).
  - apply (quiet_modify (CallCopyEntry dst (payload e)) (append_entry (payload e)) p);
      auto using shallow_append.
Qed.

Lemma quiet_RemoveAll_temp : preserves (quiet T) (os_RemoveAll temp_name).
Proof.
  intros w e w' H. apply os_RemoveAll_spec in H as ((C & U & L) & _ & R).
  repeat split; try assumption.
  exists [CallRemoveAll temp_name]. split; [assumption|]. intros q s Hq Hs _.
  rewrite R.
  destruct (locate_rooted w _ _ temp_rooted temp_location) as [Lt|Lt]; rewrite Lt;
    [|assumption].
  destruct T as [|t T'] eqn:ET; [discriminate|]. rewrite <- ET in *.
  rewrite stat_remove_all by (rewrite ET; discriminate).
  now rewrite Hq.
Qed.

Lemma quiet_http_Get url : preserves (quiet T) (http_Get response url).
Proof.
  intros w r w' H. injection H as _ <-.
  apply (quiet_same_root (CallHttpGet url)); [now repeat split | reflexivity].
Qed.

Lemma quiet_copyProjectFiles srcRoot destDir opts :
  preserves (quiet T) (copyProjectFiles srcRoot destDir opts).
Proof.
  intros w e w' H. apply merged_quiet. exact (merged_copyProjectFiles _ _ _ _ _ _ H).
Qed.

Ltac quiet_step :=
  first
    [ apply preserves_ret; apply quiet_refl
    | apply quiet_MkdirAll | apply quiet_Create | apply quiet_Chmod
    | apply quiet_Copy_entry | apply quiet_RemoveAll_temp | apply quiet_http_Get
    | apply quiet_copyProjectFiles
    | apply preserves_bind; [exact quiet_trans | | intros ?]
    | match goal with
      | |- preserves _ (match ?x with _ => _ end) => destruct x
      end ].

Lemma quiet_extract_entry e : preserves (quiet T) (extract_entry temp_name e).
Proof. unfold extract_entry. repeat quiet_step. Qed.

Lemma quiet_extract_loop es intact :
  preserves (quiet T) (extract_loop temp_name es intact).
Proof.
  induction es as [|e es IH]; cbn [extract_loop].
  - repeat quiet_step.
  - apply preserves_bind; [exact quiet_trans | apply quiet_extract_entry |].
    intros [er|]; [repeat quiet_step | exact IH].
Qed.

Lemma preserves_bind_post {A B} (R : World -> World -> Prop) (Q : A -> Prop)
    (m : M A) (k : A -> M B) :
  (forall w1 w2 w3, R w1 w2 -> R w2 w3 -> R w1 w3) ->
  preserves R m -> (forall w a w', m w = (a, w') -> Q a) ->
  (forall a, Q a -> preserves R (k a)) -> preserves R (bind m k).
Proof.
  intros Ht Hm Hq Hk w b w' H. unfold bind in H.
  destruct (m w) as [a w1] eqn:E.
  exact (Ht _ _ _ (Hm _ _ _ E) (Hk _ (Hq _ _ _ E) _ _ _ H)).
Qed.

(** The creation of the scratch directory changes nothing that
    existed, and nothing at all when it fails. *)
Lemma quiet_MkdirTemp dir pattern w r w' :
  os_MkdirTemp temp_name dir pattern w = (r, w') ->
  quiet T w w' /\ (forall e, r = Err e -> w_root w' = w_root w).
Proof.
  unfold os_MkdirTemp. rewrite bind_call.
  destruct (change _ _ _ _) as [err w1] eqn:E.
  apply change_spec in E as (C & U & L & X). simpl in *.
  assert (same_process (CallMkdirTemp dir pattern) w w1) as P by now split.
  destruct err as [er|]; intros H; injection H as <- <-.
  - destruct X as [_ R]. split; [|now intros]. now apply (quiet_same_root _ _ _ P).
  - split; [|discriminate]. destruct X as (p & Hp & X).
    rewrite (resolve_rooted _ [] _ temp_rooted), temp_location in Hp. injection Hp as <-.
    destruct P as (C' & U' & L'). repeat split; try assumption.
    exists [CallMkdirTemp dir pattern]. split; [assumption|]. intros q s Hq Hs _.
    rewrite <- Hs. refine (stat_modify_ne _ _ _ _ q _ X _).
    + intros [n|] x Hx; inversion Hx; reflexivity.
    + intros ->. now rewrite is_prefix_refl in Hq.
Qed.

(** The download: what existed and is not the target of a call of the
    extraction is as it was; the scratch directory it answers with is
    new. *)
Lemma download_frame owner repo branch w r w' :
  downloadGitHubRepo temp_name response owner repo branch w = (r, w') ->
  w_cwd w' = w_cwd w /\ w_umask w' = w_umask w /\
  (forall t, r = Ok t -> t = temp_name) /\
  exists cs, w_calls w' = w_calls w ++ cs /\
    forall q s, stat q (w_root w) = Some s ->
      (forall t, r = Ok t -> is_prefix T q = false) /\
      (untouched (w_cwd w) cs q -> stat q (w_root w') = Some s).
Proof.
  intros H. unfold downloadGitHubRepo in H.
  apply bind_inv in H as (r0 & w0 & H0 & H1).
  pose proof (MkdirTemp_fresh _ _ temp_rooted temp_location _ _ _ _ _ H0) as [_ F0].
  apply quiet_MkdirTemp in H0 as [Q0 R0].
  destruct r0 as [tempDir|er].
  - destruct (F0 _ eq_refl) as (-> & Fresh).
    assert (quiet T w0 w') as Q1.
    { revert H1. generalize w0 r w'. repeat quiet_step. apply quiet_extract_loop. }
    assert (forall t, r = Ok t -> t = temp_name) as Ht.
    { apply bind_inv in H1 as (resp & w2 & _ & H1).
      destruct resp as [|code body].
      - apply bind_inv in H1 as (? & ? & _ & H1). injection H1 as <- _. discriminate.
      - destruct (negb _).
        + apply bind_inv in H1 as (? & ? & _ & H1). injection H1 as <- _. discriminate.
        + destruct body as [tr|].
          * intros t. now apply (extract_loop_result _ _ _ _ _ _ _ H1).
          * apply bind_inv in H1 as (? & ? & _ & H1). injection H1 as <- _.
            discriminate. }
    destruct (quiet_trans _ _ _ Q0 Q1) as (C & U & cs & L & F).
    split; [assumption|]. split; [assumption|]. split; [assumption|].
    exists cs. split; [assumption|].
    intros q s Hs. split; [intros; now apply (Fresh q s)|].
    intros Hu. apply F; [now apply (Fresh q s) | assumption | assumption].
  - injection H1 as <- <-. destruct Q0 as (C & U & cs & L & _).
    split; [assumption|]. split; [assumption|]. split; [discriminate|].
    exists cs. split; [assumption|].
    intros q s Hs. split; [discriminate|]. intros _. now rewrite (R0 _ eq_refl).
Qed.

Lemma calm_refl w : calm (left_alone run_tool T) w w.
Proof. split; [exists []; now rewrite app_nil_r | auto]. Qed.

Lemma calm_trans w1 w2 w3 : calm (left_alone run_tool T) w1 w2 -> calm (left_alone run_tool T) w2 w3 -> calm (left_alone run_tool T) w1 w3.
Proof.
  intros ([cs1 L1] & H1) ([cs2 L2] & H2). split.
  - exists (cs1 ++ cs2). now rewrite L2, L1, app_assoc.
  - intros q Hq. now rewrite H2, H1.
Qed.

Lemma calm_record c w w' : w' = record_call c w -> calm (left_alone run_tool T) w w'.
Proof. intros ->. split; [now exists [c] | auto]. Qed.

Lemma calm_Getwd : preserves (calm (left_alone run_tool T)) os_Getwd.
Proof. intros w r w' H. injection H as _ <-. now apply (calm_record CallGetwd). Qed.

Lemma calm_Chdir path : preserves (calm (left_alone run_tool T)) (os_Chdir path).
Proof.
  intros w r w' H. unfold os_Chdir in H. rewrite bind_call in H.
  assert (calm (left_alone run_tool T) w (record_call (CallChdir path) w)) as K by now apply (calm_record (CallChdir path)).
  destruct (locate _ path) as [p|]; [|injection H as _ <-; exact K].
  destruct (lookup p _) as [[m d|m es]|]; injection H as _ <-; exact K.
Qed.

Lemma calm_exec_Run name args : preserves (calm (left_alone run_tool T)) (exec_Run run_tool name args).
Proof.
  intros w ok w' H. unfold exec_Run in H. rewrite bind_call in H.
  change (w_cwd (record_call (CallRun name args) w)) with (w_cwd w) in H.
  change (w_root (record_call (CallRun name args) w)) with (w_root w) in H.
  destruct (run_tool name args (w_cwd w) (w_root w)) as [ok' r] eqn:E.
  injection H as _ <-. split; [now exists [CallRun name args]|].
  intros q [_ Hq]. simpl. specialize (Hq name args (w_cwd w) (w_root w)).
  now rewrite E in Hq.
Qed.

Lemma calm_RemoveAll_temp : preserves (calm (left_alone run_tool T)) (os_RemoveAll temp_name).
Proof.
  intros w e w' H. apply os_RemoveAll_spec in H as ((C & U & L) & _ & R).
  split; [now exists [CallRemoveAll temp_name]|]. intros q [Hq _].
  rewrite R.
  destruct (locate_rooted w _ _ temp_rooted temp_location) as [Lt|Lt]; rewrite Lt;
    [|reflexivity].
  destruct T as [|t T'] eqn:ET; [discriminate|]. rewrite <- ET in *.
  rewrite stat_remove_all by (rewrite ET; discriminate).
  now rewrite Hq.
Qed.

Ltac calm_step :=
  first
    [ apply preserves_ret; apply calm_refl
    | apply calm_Getwd | apply calm_Chdir | apply calm_exec_Run
    | apply calm_RemoveAll_temp
    | apply preserves_bind; [exact calm_trans | | intros ?]
    | match goal with
      | |- preserves _ (match ?x with _ => _ end) => destruct x
      end ].

Lemma calm_setupProject opts : preserves (calm (left_alone run_tool T)) (setupProject run_tool opts).
Proof. unfold setupProject. repeat calm_step. Qed.

(** The whole of [createProjectFromGitHub]: what existed, is left
    alone by the external tools and is not the target of a call that
    writes a file, is as it was. *)
Lemma create_frame opts w e w' :
  createProjectFromGitHub temp_name response run_tool opts w = (e, w') ->
  exists cs, w_calls w' = w_calls w ++ cs /\
    forall q s, stat q (w_root w) = Some s ->
      (forall name args cwd r, stat q (snd (run_tool name args cwd r)) = stat q r) ->
      untouched (w_cwd w) cs q -> stat q (w_root w') = Some s.
Proof.
  unfold createProjectFromGitHub. intros H.
  apply bind_inv in H as (r & w1 & H1 & H2).
  apply download_frame in H1 as (C1 & U1 & Ht & cs1 & L1 & F1).
  destruct r as [tempDir|er].
  - rewrite (Ht _ eq_refl) in *.
    apply bind_inv in H2 as (res & w3 & Hin & Hrm).
    apply bind_inv in Hrm as (x & w4 & Hrm & Hret). injection Hret as _ <-.
    pose proof (calm_RemoveAll_temp _ _ _ Hrm) as Krm.
    assert (exists w2, quiet T w1 w2 /\ calm (left_alone run_tool T) w2 w3) as (w2 & Q & K).
    { apply bind_inv in Hin as (e1 & wa & Ha & Hin).
      pose proof (quiet_MkdirAll _ _ _ _ _ Ha) as Qa.
      destruct e1 as [er|].
      - injection Hin as _ <-. exists wa. split; [assumption | apply calm_refl].
      - apply bind_inv in Hin as (e2 & wb & Hb & Hin).
        pose proof (quiet_copyProjectFiles _ _ _ _ _ _ Hb) as Qb.
        pose proof (quiet_trans _ _ _ Qa Qb) as Qab.
        destruct e2 as [er|].
        + injection Hin as _ <-. exists wb. split; [assumption | apply calm_refl].
        + apply bind_inv in Hin as (e3 & wc & Hc & Hin).
          pose proof (calm_setupProject _ _ _ _ Hc) as Kc.
          exists wb. split; [assumption|].
          destruct e3; injection Hin as _ <-; assumption. }
    destruct Q as (C2 & U2 & cs2 & L2 & F2).
    destruct (calm_trans _ _ _ K Krm) as ([cs3 L3] & F3).
    exists (cs1 ++ cs2 ++ cs3). split.
    { rewrite L3, L2, L1, <- !app_assoc. reflexivity. }
    intros q s Hs Htool Hu.
    apply untouched_app in Hu as [Hu1 Hu]. apply untouched_app in Hu as [Hu2 _].
    destruct (F1 q s Hs) as [Hout F1'].
    rewrite F3 by (split; [now apply (Hout temp_name) | assumption]).
    apply F2; [now apply (Hout temp_name) | now apply F1' | now rewrite C1].
  - injection H2 as _ <-. exists cs1. split; [assumption|].
    intros q s Hs _ Hu. now apply (F1 q s Hs).
Qed.

Lemma handle_frame args w e w' :
  handleNewProject temp_name response run_tool args w = (e, w') ->
  exists cs, w_calls w' = w_calls w ++ cs /\
    forall q s, stat q (w_root w) = Some s ->
      (forall name targs cwd r, stat q (snd (run_tool name targs cwd r)) = stat q r) ->
      untouched (w_cwd w) cs q -> stat q (w_root w') = Some s.
Proof.
  unfold handleNewProject. destruct (Datatypes.length args =? 0)%nat.
  { intros H. injection H as _ <-. exists []. split; [now rewrite app_nil_r | auto]. }
  intros H. apply bind_inv in H as (st & w1 & Hst & H).
  rewrite os_Stat_eq in Hst. injection Hst as <- <-.
  set (c := CallStat (opt_Name (parseProjectArgs args))) in *.
  assert (forall opts,
             createProjectFromGitHub temp_name response run_tool opts (record_call c w)
             = (e, w') ->
             exists cs, w_calls w' = w_calls w ++ cs /\
               forall q s, stat q (w_root w) = Some s ->
                 (forall name targs cwd r,
                     stat q (snd (run_tool name targs cwd r)) = stat q r) ->
                 untouched (w_cwd w) cs q -> stat q (w_root w') = Some s) as K.
  { intros opts Hc. apply create_frame in Hc as (cs & L & F).
    exists (c :: cs). split; [simpl in L; now rewrite L, <- app_assoc|].
    intros q s Hs Htool Hu. apply F; [assumption | assumption|].
    intros c' Hc'. apply Hu. now right. }
  destruct (node_at w (opt_Name (parseProjectArgs args))) as [n|]; [|now apply K in H].
  destruct (negb (opt_Force (parseProjectArgs args))); [|now apply K in H].
  injection H as _ <-. exists [c]. split; [reflexivity | auto].
Qed.

End QuietFacts.

(* ===================================================================== *)
(** * The calls of a run *)
(* ===================================================================== *)

Section TraceFacts.

Variable P : Call -> bool.

Lemma calls_are_refl w : calls_are P w w.
Proof. exists []. split; [now rewrite app_nil_r | reflexivity]. Qed.

Lemma calls_are_trans w1 w2 w3 : calls_are P w1 w2 -> calls_are P w2 w3 -> calls_are P w1 w3.
Proof.
  intros (cs1 & L1 & F1) (cs2 & L2 & F2). exists (cs1 ++ cs2).
  split; [now rewrite L2, L1, app_assoc|]. rewrite forallb_app. now rewrite F1, F2.
Qed.

Lemma calls_are_one c w w' : same_process c w w' -> P c = true -> calls_are P w w'.
Proof. intros (_ & _ & L) H. exists [c]. split; [assumption|]. simpl. now rewrite H. Qed.

Lemma calls_are_record c w : P c = true -> calls_are P w (record_call c w).
Proof. intros H. apply (calls_are_one c); [now repeat split | assumption]. Qed.

Lemma trace_MkdirAll path perm :
  P (CallMkdirAll path perm) = true -> preserves (calls_are P) (os_MkdirAll path perm).
Proof.
  intros H w e w' X. apply os_MkdirAll_extends in X as [S _]. exact (calls_are_one _ _ _ S H).
Qed.

Lemma trace_Create path :
  P (CallCreate path) = true -> preserves (calls_are P) (os_Create path).
Proof. intros H w e w' X. apply os_Create_spec in X as [S _]. exact (calls_are_one _ _ _ S H). Qed.

Lemma trace_Chmod path mode :
  P (CallChmod path mode) = true -> preserves (calls_are P) (os_Chmod path mode).
Proof. intros H w e w' X. apply os_Chmod_spec in X as [S _]. exact (calls_are_one _ _ _ S H). Qed.

Lemma trace_WriteFile path data perm :
  P (CallWriteFile path data perm) = true ->
  preserves (calls_are P) (os_WriteFile path data perm).
Proof.
  intros H w e w' X. apply os_WriteFile_spec in X as [S _]. exact (calls_are_one _ _ _ S H).
Qed.

Lemma trace_RemoveAll path :
  P (CallRemoveAll path) = true -> preserves (calls_are P) (os_RemoveAll path).
Proof.
  intros H w e w' X. apply os_RemoveAll_spec in X as [S _]. exact (calls_are_one _ _ _ S H).
Qed.

Lemma trace_Open path : P (CallOpen path) = true -> preserves (calls_are P) (os_Open path).
Proof. intros H w e w' X. apply os_Open_spec in X as [S _]. exact (calls_are_one _ _ _ S H). Qed.

Lemma trace_ReadAll path :
  P (CallReadAll path) = true -> preserves (calls_are P) (io_ReadAll path).
Proof. intros H w e w' X. apply io_ReadAll_spec in X as [S _]. exact (calls_are_one _ _ _ S H). Qed.

Lemma trace_Copy dst src :
  P (CallCopy dst src) = true -> preserves (calls_are P) (io_Copy dst src).
Proof. intros H w e w' X. apply io_Copy_spec in X as [S _]. exact (calls_are_one _ _ _ S H). Qed.

Lemma trace_Copy_entry dst e :
  P (CallCopyEntry dst (payload e)) = true -> preserves (calls_are P) (io_Copy_entry dst e).
Proof.
  intros H w err w' X. apply io_Copy_entry_spec in X as [S _]. exact (calls_are_one _ _ _ S H).
Qed.

Lemma trace_Stat path : P (CallStat path) = true -> preserves (calls_are P) (os_Stat path).
Proof.
  intros H w r w' X. rewrite os_Stat_eq in X. injection X as _ <-. now apply calls_are_record.
Qed.

Lemma trace_Getwd : P CallGetwd = true -> preserves (calls_are P) os_Getwd.
Proof. intros H w r w' X. injection X as _ <-. now apply calls_are_record. Qed.

Lemma trace_Chdir path : P (CallChdir path) = true -> preserves (calls_are P) (os_Chdir path).
Proof.
  intros H w r w' X. unfold os_Chdir in X. rewrite bind_call in X.
  exists [CallChdir path]. split; [|simpl; now rewrite H].
  destruct (locate _ path) as [p|]; [|injection X as _ <-; reflexivity].
  destruct (lookup p _) as [[m d|m es]|]; injection X as _ <-; reflexivity.
Qed.

Lemma trace_http_Get response url :
  P (CallHttpGet url) = true -> preserves (calls_are P) (http_Get response url).
Proof. intros H w r w' X. injection X as _ <-. now apply calls_are_record. Qed.

Lemma trace_exec_Run run_tool name args :
  P (CallRun name args) = true -> preserves (calls_are P) (exec_Run run_tool name args).
Proof.
  intros H w ok w' X. unfold exec_Run in X. rewrite bind_call in X.
  destruct (run_tool name args _ _) as [ok' r]. injection X as _ <-.
  apply (calls_are_one (CallRun name args)); [now repeat split | assumption].
Qed.

Lemma trace_MkdirTemp temp_name dir pattern :
  P (CallMkdirTemp dir pattern) = true ->
  preserves (calls_are P) (os_MkdirTemp temp_name dir pattern).
Proof.
  intros H w r w' X. unfold os_MkdirTemp in X. rewrite bind_call in X.
  destruct (change _ _ _ _) as [err w1] eqn:E.
  apply change_spec in E as (C & U & L & _). simpl in *.
  apply (calls_are_one (CallMkdirTemp dir pattern)); [|assumption].
  destruct err; injection X as _ <-; now repeat split.
Qed.

(** [filepath.Walk] with a function whose calls satisfy [P]. *)
Lemma trace_Walk root fn :
  P (CallWalk root) = true ->
  (forall path info err, preserves (calls_are P) (fn path info err)) ->
  preserves (calls_are P) (filepath_Walk root fn).
Proof.
  intros Hc Hfn w e w' H. unfold filepath_Walk in H. rewrite bind_call in H.
  apply (calls_are_trans _ (record_call (CallWalk root) w)); [now apply calls_are_record|].
  destruct (node_at (record_call (CallWalk root) w) root) as [n|].
  - destruct (walk fn root n _) as [err w1] eqn:E.
    apply (preserves_walk (calls_are P) fn calls_are_refl calls_are_trans Hfn) in E.
    destruct err as [[]|]; injection H as _ <-; exact E.
  - destruct (fn root None _ _) as [err w1] eqn:E. apply Hfn in E.
    destruct err as [[]|]; injection H as _ <-; exact E.
Qed.

End TraceFacts.

(** The download answers with the name of the scratch directory. *)
Lemma MkdirTemp_result temp_name dir pattern w t w' :
  os_MkdirTemp temp_name dir pattern w = (Ok t, w') -> t = temp_name.
Proof.
  unfold os_MkdirTemp. rewrite bind_call.
  destruct (change _ _ _ _) as [[er|] w1]; intros H; [discriminate H|].
  now injection H as <- _.
Qed.

Lemma download_result temp_name response owner repo branch w t w' :
  downloadGitHubRepo temp_name response owner repo branch w = (Ok t, w') -> t = temp_name.
Proof.
  unfold downloadGitHubRepo. intros H.
  apply bind_inv in H as ([tempDir|er] & w0 & H0 & H1); [|discriminate H1].
  apply MkdirTemp_result in H0 as ->.
  apply bind_inv in H1 as (resp & w2 & _ & H1).
  destruct resp as [|code body].
  - apply bind_inv in H1 as (? & ? & _ & H1). discriminate H1.
  - destruct (negb _).
    + apply bind_inv in H1 as (? & ? & _ & H1). discriminate H1.
    + destruct body as [tr|].
      * now apply (extract_loop_result _ _ _ _ _ _ _ H1).
      * apply bind_inv in H1 as (? & ? & _ & H1). discriminate H1.
Qed.

(* ===================================================================== *)
(** * Where the run writes *)
(* ===================================================================== *)

Section WrittenPaths.

(** The paths at which files may be written. *)
Variable A : list string.

Lemma within_path c p : written_path c = Some p -> In p A -> writes_within A c = true.
Proof.
  unfold writes_within. intros -> H. apply existsb_exists.
  exists p. split; [assumption | apply String.eqb_refl].
Qed.

Lemma within_inv c p :
  writes_within A c = true -> written_path c = Some p -> In p A.
Proof.
  unfold writes_within. intros H E. rewrite E in H.
  apply existsb_exists in H as (x & Hx & Ex). apply String.eqb_eq in Ex. now subst x.
Qed.

Lemma call_target_written cwd c :
  call_target cwd c = match written_path c with
                      | Some p => resolve cwd p
                      | None => None
                      end.
Proof. now destruct c. Qed.

(** [copyFile] writes at the destination, or at the destination
    without the template suffix. *)
Lemma copyFile_within src dest opts :
  In dest A -> In (strings_TrimSuffix dest ".template") A ->
  preserves (calls_are (writes_within A)) (copyFile src dest opts).
Proof.
  intros Hd Ht. unfold copyFile.
  repeat first
    [ apply preserves_ret; apply calls_are_refl
    | apply trace_MkdirAll; reflexivity
    | apply trace_Create; apply (within_path _ dest); [reflexivity | assumption]
    | apply trace_Open; reflexivity
    | apply trace_ReadAll; reflexivity
    | apply trace_Copy; apply (within_path _ dest); [reflexivity | assumption]
    | apply trace_WriteFile; eapply within_path; [reflexivity | assumption]
    | apply preserves_bind; [apply calls_are_trans | | intros ?]
    | match goal with
      | |- preserves _ (match ?x with _ => _ end) => destruct x
      end ].
Qed.

Lemma exclude_check_none dirs parts info :
  exclude_check dirs parts info = None ->
  slices_Contains dirs (nth 0 parts EmptyString) = false.
Proof.
  induction dirs as [|d dirs IH]; intros H; [reflexivity|].
  simpl in *. destruct (String.eqb (nth 0 parts EmptyString) d).
  - now destruct (fi_IsDir info).
  - now apply IH.
Qed.

(** The function of the copier writes for a file only, at the paths
    that mirror it. *)
Lemma copy_visit_within srcRoot destDir opts path n :
  (is_dir n = false -> incl (mirror_of srcRoot destDir path) A) ->
  preserves (calls_are (writes_within A))
            (copy_visit srcRoot destDir opts path (Some (info_of path n)) None).
Proof.
  intros H. unfold copy_visit. unfold mirror_of in H.
  destruct (filepath_Rel srcRoot path) as [relPath|e]; [|apply preserves_ret, calls_are_refl].
  destruct (String.eqb relPath "."); [apply preserves_ret, calls_are_refl|].
  destruct (exclude_check _ _ _) eqn:X; [apply preserves_ret, calls_are_refl|].
  apply exclude_check_none in X. rewrite X in H.
  cbn [info_of fi_Name fi_IsDir].
  destruct (slices_Contains excludeFiles (filepath_Base path));
    [apply preserves_ret, calls_are_refl|].
  destruct (is_dir n).
  - apply trace_MkdirAll. reflexivity.
  - specialize (H eq_refl). apply copyFile_within; apply H; simpl; auto.
Qed.

Lemma walked_files_dir path m es : walked_files path (Dir m es) = walked_names path es.
Proof.
  cbn [walked_files]. induction es as [|[name ch] es IH]; [reflexivity|].
  cbn [walked_names]. now rewrite IH.
Qed.

(** The walk of the copier writes at the paths that mirror the files
    of the tree it walks. *)
Lemma walk_within srcRoot destDir opts : forall n path,
  incl (flat_map (mirror_of srcRoot destDir) (walked_files path n)) A ->
  preserves (calls_are (writes_within A)) (walk (copy_visit srcRoot destDir opts) path n).
Proof.
  induction n as [m d|m es IH] using node_rect'; intros path Hin.
  - cbn [walk]. apply copy_visit_within. intros _.
    cbn [walked_files flat_map] in Hin. now rewrite app_nil_r in Hin.
  - intros w e w' H. rewrite walk_dir in H. revert w e w' H.
    apply preserves_bind; [apply calls_are_trans | |].
    { apply copy_visit_within. intros D. discriminate D. }
    intros [e|]; [apply preserves_ret, calls_are_refl|].
    rewrite walked_files_dir in Hin.
    induction IH as [|[name ch] es Hch _ IHes]; cbn [walk_names].
    + apply preserves_ret, calls_are_refl.
    + cbn [walked_names] in Hin. rewrite flat_map_app in Hin.
      apply incl_app_inv in Hin as [H1 H2].
      apply preserves_bind; [apply calls_are_trans | now apply Hch |].
      intros [e|]; [|exact (IHes H2)].
      destruct (negb (is_dir ch) || negb (is_SkipDir e)); [|exact (IHes H2)].
      apply preserves_ret, calls_are_refl.
Qed.

Lemma copyProjectFiles_within srcRoot destDir opts w e w' :
  (forall tree, node_at w srcRoot = Some tree -> incl (mirror_paths srcRoot destDir tree) A) ->
  copyProjectFiles srcRoot destDir opts w = (e, w') ->
  calls_are (writes_within A) w w'.
Proof.
  intros Hin H. unfold copyProjectFiles, filepath_Walk in H. rewrite bind_call in H.
  apply (calls_are_trans _ _ (record_call (CallWalk srcRoot) w));
    [now apply calls_are_record|].
  change (node_at (record_call (CallWalk srcRoot) w) srcRoot) with (node_at w srcRoot) in H.
  destruct (node_at w srcRoot) as [n|].
  - destruct (walk _ srcRoot n _) as [err w1] eqn:E.
    apply (walk_within _ _ _ _ _ (Hin n eq_refl)) in E.
    destruct err as [[]|]; injection H as _ <-; exact E.
  - cbn [copy_visit] in H. unfold ret in H. injection H as _ <-. apply calls_are_refl.
Qed.

(** The extraction of an entry writes at the path of the entry. *)
Lemma extract_entry_within tempDir e :
  In (entry_path tempDir e) A ->
  preserves (calls_are (writes_within A)) (extract_entry tempDir e).
Proof.
  intros H. unfold extract_entry. fold (entry_path tempDir e).
  repeat first
    [ apply preserves_ret; apply calls_are_refl
    | apply trace_MkdirAll; reflexivity
    | apply trace_Create; eapply within_path; [reflexivity | assumption]
    | apply trace_Copy_entry; eapply within_path; [reflexivity | assumption]
    | apply trace_Chmod; eapply within_path; [reflexivity | assumption]
    | apply preserves_bind; [apply calls_are_trans | | intros ?]
    | match goal with
      | |- preserves _ (match ?x with _ => _ end) => destruct x
      end ].
Qed.

Lemma extract_loop_within tempDir es intact :
  incl (map (entry_path tempDir) es) A ->
  preserves (calls_are (writes_within A)) (extract_loop tempDir es intact).
Proof.
  induction es as [|e es IH]; intros Hin; cbn [extract_loop].
  - destruct intact; [apply preserves_ret, calls_are_refl|].
    apply preserves_bind; [apply calls_are_trans | apply trace_RemoveAll; reflexivity |].
    intros _. apply preserves_ret, calls_are_refl.
  - cbn [map] in Hin. apply incl_cons_inv in Hin as [He Hes].
    apply preserves_bind; [apply calls_are_trans | now apply extract_entry_within |].
    intros [er|]; [|now apply IH].
    apply preserves_bind; [apply calls_are_trans | apply trace_RemoveAll; reflexivity |].
    intros _. apply preserves_ret, calls_are_refl.
Qed.

(** The download writes at the paths of the entries of the archive. *)
Lemma download_within temp_name response owner repo branch :
  incl (map (entry_path temp_name) (archive response)) A ->
  preserves (calls_are (writes_within A))
            (downloadGitHubRepo temp_name response owner repo branch).
Proof.
  intros Hin w r w' H. unfold downloadGitHubRepo in H.
  apply bind_inv in H as (r0 & w0 & H0 & H).
  pose proof (trace_MkdirTemp (writes_within A) temp_name _ _ eq_refl _ _ _ H0) as C0.
  apply (calls_are_trans _ _ _ _ C0).
  destruct r0 as [tempDir|er]; [|injection H as _ <-; apply calls_are_refl].
  apply MkdirTemp_result in H0 as ->.
  apply bind_inv in H as (resp & w1 & Hg & H).
  pose proof (trace_http_Get (writes_within A) response _ eq_refl _ _ _ Hg) as Cg.
  apply (calls_are_trans _ _ _ _ Cg). injection Hg as <- _.
  assert (forall er, preserves (calls_are (writes_within A))
                       (os_RemoveAll temp_name ;;; ret (Err er : result string))) as Rm.
  { intros er.
    apply preserves_bind; [apply calls_are_trans | apply trace_RemoveAll; reflexivity |].
    intros _. apply preserves_ret, calls_are_refl. }
  destruct response as [|code body]; [exact (Rm _ _ _ _ H)|].
  destruct (negb (code =? http_StatusOK)%Z); [exact (Rm _ _ _ _ H)|].
  destruct body as [tr|]; [|exact (Rm _ _ _ _ H)].
  exact (extract_loop_within _ _ _ Hin _ _ _ H).
Qed.

(** The setup of the project writes no file itself. *)
Lemma setupProject_within run_tool opts :
  preserves (calls_are (writes_within A)) (setupProject run_tool opts).
Proof.
  unfold setupProject.
  repeat first
    [ apply preserves_ret; apply calls_are_refl
    | apply trace_Getwd; reflexivity
    | apply trace_Chdir; reflexivity
    | apply trace_exec_Run; reflexivity
    | apply preserves_bind; [apply calls_are_trans | | intros ?]
    | match goal with
      | |- preserves _ (match ?x with _ => _ end) => destruct x
      end ].
Qed.

(** The create operation writes at the paths of the entries of the
    archive, and at the paths that mirror the files of the scratch tree
    found when the copy starts. *)
Lemma createProject_within temp_name response run_tool opts w e w' :
  incl (map (entry_path temp_name) (archive response)) A ->
  (forall tree,
      node_at (snd (os_MkdirAll (opt_Name opts) perm_0755
                      (snd (downloadGitHubRepo temp_name response
                              "galaplate" "galaplate" "main" w))))
              temp_name = Some tree ->
      incl (mirror_paths temp_name (opt_Name opts) tree) A) ->
  createProjectFromGitHub temp_name response run_tool opts w = (e, w') ->
  calls_are (writes_within A) w w'.
Proof.
  intros He Hm H. unfold createProjectFromGitHub in H.
  apply bind_inv in H as (r & w1 & H1 & H).
  pose proof (download_within _ _ _ _ _ He _ _ _ H1) as C1.
  rewrite H1 in Hm. cbn [snd] in Hm.
  apply (calls_are_trans _ _ _ _ C1).
  destruct r as [tempDir|er]; [|injection H as _ <-; apply calls_are_refl].
  apply download_result in H1 as ->.
  apply bind_inv in H as (res & w3 & Hin & Hrm).
  apply bind_inv in Hrm as (x & w4 & Hrm & Hret). injection Hret as _ <-.
  apply (trace_RemoveAll (writes_within A) _ eq_refl) in Hrm.
  refine (calls_are_trans _ _ _ _ _ Hrm).
  apply bind_inv in Hin as (e1 & w2 & Ha & Hin).
  pose proof (trace_MkdirAll (writes_within A) _ _ eq_refl _ _ _ Ha) as Ca.
  rewrite Ha in Hm. cbn [snd] in Hm.
  apply (calls_are_trans _ _ _ _ Ca).
  destruct e1 as [er|]; [injection Hin as _ <-; apply calls_are_refl|].
  apply bind_inv in Hin as (e2 & wb & Hb & Hin).
  pose proof (copyProjectFiles_within _ _ _ _ _ _ Hm Hb) as Cb.
  apply (calls_are_trans _ _ _ _ Cb).
  destruct e2 as [er|]; [injection Hin as _ <-; apply calls_are_refl|].
  apply bind_inv in Hin as (e3 & wc & Hc & Hin).
  pose proof (setupProject_within run_tool opts _ _ _ Hc) as Cc.
  destruct e3; injection Hin as _ <-; exact Cc.
Qed.

Lemma handle_within temp_name response run_tool args w e w' :
  incl (map (entry_path temp_name) (archive response)) A ->
  (forall tree,
      node_at (snd (os_MkdirAll (opt_Name (parseProjectArgs args)) perm_0755
                      (snd (downloadGitHubRepo temp_name response
                              "galaplate" "galaplate" "main"
                              (snd (os_Stat (opt_Name (parseProjectArgs args)) w))))))
              temp_name = Some tree ->
      incl (mirror_paths temp_name (opt_Name (parseProjectArgs args)) tree) A) ->
  handleNewProject temp_name response run_tool args w = (e, w') ->
  calls_are (writes_within A) w w'.
Proof.
  intros He Hm H. unfold handleNewProject in H.
  destruct (Datatypes.length args =? 0)%nat; [injection H as _ <-; apply calls_are_refl|].
  apply bind_inv in H as (st & w1 & Hst & H).
  rewrite os_Stat_eq in Hst, Hm. cbn [snd] in Hm. injection Hst as _ <-.
  apply (calls_are_trans _ _ (record_call (CallStat (opt_Name (parseProjectArgs args))) w));
    [now apply calls_are_record|].
  destruct st as [fi|er]; [|exact (createProject_within _ _ _ _ _ _ _ He Hm H)].
  destruct (negb _); [injection H as _ <-; apply calls_are_refl|].
  exact (createProject_within _ _ _ _ _ _ _ He Hm H).
Qed.

(** What no call writes is untouched. *)
Lemma within_untouched cwd cs q :
  forallb (writes_within A) cs = true ->
  (forall p, In p A -> resolve cwd p <> Some q) ->
  untouched cwd cs q.
Proof.
  intros F H c Hc. rewrite forallb_forall in F. specialize (F _ Hc).
  rewrite call_target_written.
  destruct (written_path c) as [p|] eqn:E; [|discriminate].
  apply H. exact (within_inv _ _ F E).
Qed.

End WrittenPaths.

(* ===================================================================== *)
(** * C10: overwriting merges *)
(* ===================================================================== *)

(** C10, as stated, fails: the extraction is part of the operation, and
    it writes wherever the stored paths lead.  The destination [demo]
    exists with the file [notes.txt] of the user, the overwrite flag is
    set, and the archive has an entry whose path leads through [..] to
    that file.  The run succeeds; the copy, which starts with the walk of
    the scratch directory, produces [demo/go.mod] and nothing else; and
    [notes.txt], which the copy did not produce, has lost its content to
    the extraction. *)
Lemma C10_counterexample :
  let run := handleNewProject "/tmp/galaplate-1" (Response 200 (Some hostile_archive)) no_tool
               ["demo"; "--force"] demo_world in
  node_at demo_world "demo/notes.txt" = Some (File perm_0644 "keep me")
  /\ fst run = None
  /\ w_calls (snd run)
     = [CallStat "demo"; CallMkdirTemp EmptyString "galaplate-";
        CallHttpGet "https://github.com/galaplate/galaplate/archive/refs/heads/main.tar.gz";
        CallMkdirAll "/tmp/galaplate-1" perm_0755;
        CallMkdirAll "/tmp/galaplate-1" perm_0755;
        CallCreate "/tmp/galaplate-1/go.mod";
        CallCopyEntry "/tmp/galaplate-1/go.mod" go_mod_text;
        CallChmod "/tmp/galaplate-1/go.mod" perm_0644;
        CallMkdirAll "/home/u/demo" perm_0755;
        CallCreate "/home/u/demo/notes.txt";
        CallCopyEntry "/home/u/demo/notes.txt" "overwritten";
        CallChmod "/home/u/demo/notes.txt" perm_0644;
        CallMkdirAll "demo" perm_0755;
        CallWalk "/tmp/galaplate-1";
        CallOpen "/tmp/galaplate-1/go.mod";
        CallMkdirAll "demo" perm_0755;
        CallCreate "demo/go.mod";
        CallReadAll "/tmp/galaplate-1/go.mod";
        CallWriteFile "demo/go.mod" (strings_Join ["module demo"; EmptyString; "go 1.22"; EmptyString] nl)
                      perm_0644;
        CallGetwd; CallChdir "demo";
        CallRun "git" ["init"]; CallRun "git" ["add"; "."];
        CallRun "git" ["commit"; "-m"; "Initial commit from Galaplate"];
        CallRun "go" ["mod"; "tidy"];
        CallChdir "/home/u"; CallRemoveAll "/tmp/galaplate-1"]
  /\ node_at (snd run) "demo/notes.txt" = Some (File perm_0644 "overwritten").
Proof. vm_compute. repeat split; reflexivity. Qed.

(** C10, amended.  The create operation removes nothing that existed,
    and writes files at two kinds of paths only: the extraction at the
    paths the entries of the archive name, the copy at the paths that
    mirror the files of the scratch tree in the destination.  Let the
    scratch directory be named by an absolute path.  Whatever the
    arguments, the download and the archive are (so also when the
    destination exists and the overwrite flag is set):
    - every file that existed before [handleNewProject] is a file after
      it and every directory is a directory, provided the external tools
      remove nothing outside the scratch directory: the only removal the
      program performs is that of the scratch directory, which is new;
    - every file and directory that existed before is after the
      operation what it was before, with its content and its permission
      bits, provided that the external tools leave it alone, that no
      entry of the archive is extracted to it, and that it does not
      mirror a file of the scratch tree: it is neither at the
      destination joined with the path of such a file relative to the
      scratch directory, nor at that path without the template suffix
      (the scratch tree is the tree found at the scratch directory when
      the copy starts, after the download and the creation of the
      project directory; a file that the copier leaves out, below an
      excluded directory or with the name of an excluded file, has no
      mirror);
    - the extraction writes an entry none of whose segments after the
      first is [..] at or below the scratch directory;
    - the part of the operation that fills the destination, the creation
      of the project directory followed by [copyProjectFiles], merges
      into what is there, also when it fails half-way: every directory
      and every file keeps its permission bits, and whatever does not
      mirror a file of the scratch tree is what it was. *)
Theorem C10_overwrite_merges_what_is_not_written
    (temp_name : string) (response : HttpResult)
    (run_tool : string -> list string -> list string -> node -> bool * node)
    (T : list string) (args : list string) (w : World) :
  rooted temp_name = true ->
  resolve [] temp_name = Some T ->
  let name := opt_Name (parseProjectArgs args) in
  let w' := snd (handleNewProject temp_name response run_tool args w) in
  let scratch :=
    node_at (snd (os_MkdirAll name perm_0755
                    (snd (downloadGitHubRepo temp_name response "galaplate" "galaplate" "main"
                            (snd (os_Stat name w))))))
            temp_name in
  ((forall name targs cwd r, survives T r (snd (run_tool name targs cwd r))) ->
   keeps (w_root w) (w_root w'))
  /\ (forall q s,
        stat q (w_root w) = Some s ->
        (forall name targs cwd r, stat q (snd (run_tool name targs cwd r)) = stat q r) ->
        (forall e, In e (archive response) ->
                   resolve (w_cwd w) (entry_path temp_name e) <> Some q) ->
        (forall tree p, scratch = Some tree -> In p (mirror_paths temp_name name tree) ->
                        resolve (w_cwd w) p <> Some q) ->
        stat q (w_root w') = Some s)
  /\ (forall e,
        Forall (fun s => s <> "..") (tl (strings_Split (Name (header e)) Separator)) ->
        exists loc,
          resolve (w_cwd w) (entry_path temp_name e) = Some loc
          /\ is_prefix T loc = true)
  /\ (forall tempDir opts w0 e1 w1 e2 w2,
        os_MkdirAll (opt_Name opts) perm_0755 w0 = (e1, w1) ->
        copyProjectFiles tempDir (opt_Name opts) opts w1 = (e2, w2) ->
        merged w0 w2
        /\ forall q s,
             stat q (w_root w0) = Some s ->
             (forall tree p, node_at w1 tempDir = Some tree ->
                             In p (mirror_paths tempDir (opt_Name opts) tree) ->
                             resolve (w_cwd w0) p <> Some q) ->
             stat q (w_root w2) = Some s).
Proof.
  intros Hr Ht name w' scratch.
  destruct (handleNewProject temp_name response run_tool args w) as [e w1] eqn:H.
  subst w'. simpl snd. split; [|split; [|split]].
  - intros Htools. unfold handleNewProject in H.
    destruct (Datatypes.length args =? 0)%nat.
    { injection H as _ <-. intros q s Hs. eauto. }
    apply bind_inv in H as (st & w0 & Hst & H).
    rewrite os_Stat_eq in Hst.
    assert (w_root w0 = w_root w) as R1 by (injection Hst as _ <-; reflexivity).
    rewrite <- R1.
    assert (forall opts, createProjectFromGitHub temp_name response run_tool opts w0 = (e, w1)
                         -> keeps (w_root w0) (w_root w1)) as K.
    { intros opts Hc q s Hs.
      exact (createProjectFromGitHub_keeps _ _ _ T Hr Ht Htools _ _ _ _ Hc q s Hs). }
    destruct st as [fi|er]; [|now apply K in H].
    destruct (negb (opt_Force (parseProjectArgs args))); [|now apply K in H].
    injection H as _ <-. intros q s Hs. eauto.
  - intros q s Hs Htool Hext Hmir.
    destruct (handle_frame _ _ _ T Hr Ht _ _ _ _ H) as (cs & L & Frame).
    apply (Frame q s Hs Htool).
    set (A := map (entry_path temp_name) (archive response)
              ++ match scratch with
                 | Some tree => mirror_paths temp_name name tree
                 | None => []
                 end).
    assert (calls_are (writes_within A) w w1) as (cs' & L' & F).
    { apply (handle_within A temp_name response run_tool args w e w1).
      - intros p Hp. apply in_or_app. now left.
      - intros tree E p Hp. apply in_or_app. right.
        fold name in E. fold scratch in E. now rewrite E.
      - exact H. }
    rewrite L in L'. apply app_inv_head in L'. subst cs'.
    apply (within_untouched A _ _ _ F). intros p Hp.
    apply in_app_or in Hp as [Hp|Hp].
    + apply in_map_iff in Hp as (en & <- & Hen). now apply Hext.
    + destruct scratch as [tree|] eqn:E; [|destruct Hp].
      now apply (Hmir tree).
  - intros en Hdd.
    assert (temp_name <> EmptyString) as Hne by (intros ->; discriminate).
    assert (resolve (w_cwd w) temp_name = Some T) as Hres
        by now rewrite (resolve_rooted _ [] _ Hr).
    exists (follow T (tl (strings_Split (Name (header en)) Separator))).
    split; [exact (entry_location _ _ _ _ Hne Hres)|].
    destruct (follow_below T _ Hdd) as [rest ->]. apply is_prefix_app.
  - intros tempDir opts w0 e1 w2 e2 w3 H1 H2.
    pose proof (merged_trans _ _ _ (merged_MkdirAll _ _ _ _ _ H1)
                             (merged_copyProjectFiles _ _ _ _ _ _ H2)) as M.
    split; [exact M|].
    intros q s Hs Hmir.
    destruct M as (C & U & cs & L & Frame).
    specialize (Frame q). rewrite Hs in Frame.
    destruct s as [m d|m]; [|exact Frame].
    apply Frame.
    set (A := match node_at w2 tempDir with
              | Some tree => mirror_paths tempDir (opt_Name opts) tree
              | None => []
              end).
    assert (calls_are (writes_within A) w0 w3) as (cs' & L' & F).
    { apply (calls_are_trans _ _ w2).
      - exact (trace_MkdirAll (writes_within A) _ _ eq_refl _ _ _ H1).
      - refine (copyProjectFiles_within A _ _ _ _ _ _ _ H2).
        intros tree E. unfold A. rewrite E. apply incl_refl. }
    rewrite L in L'. apply app_inv_head in L'. subst cs'.
    apply (within_untouched A _ _ _ F). intros p Hp. unfold A in Hp.
    destruct (node_at w2 tempDir) as [tree|]; [|destruct Hp].
    now apply (Hmir tree).
Qed.

Lemma C10_overwrite_merges_what_is_not_written_witness :
  let run := handleNewProject "/tmp/galaplate-1" (Response 200 (Some demo_archive)) no_tool
               ["demo"; "--force"; "--module=example.com/demo"] demo_world in
  fst run = None
  /\ node_at (snd run) "demo/go.mod"
     = Some (File perm_0644 (strings_Join ["module example.com/demo"; EmptyString; "go 1.22"; EmptyString] nl))
  /\ stat ["home"; "u"; "demo"; "notes.txt"] (w_root (snd run))
     = Some (SFile perm_0644 "keep me").
Proof.
  intros run. split; [reflexivity|]. split; [reflexivity|].
  destruct (C10_overwrite_merges_what_is_not_written
              "/tmp/galaplate-1" (Response 200 (Some demo_archive)) no_tool
              ["tmp"; "galaplate-1"]
              ["demo"; "--force"; "--module=example.com/demo"] demo_world)
    as (_ & Frame & _).
  - reflexivity.
  - reflexivity.
  - apply Frame.
    + reflexivity.
    + reflexivity.
    + intros e He. cbn [archive demo_archive entries] in He.
      repeat (destruct He as [<-|He]; [vm_compute; discriminate|]).
      destruct He.
    + intros tree p E Hp. vm_compute in E. injection E as <-.
      vm_compute in Hp.
      repeat (destruct Hp as [<-|Hp]; [vm_compute; discriminate|]).
      destruct Hp.
Defined.

(* ===================================================================== *)
(** * The arguments of the command *)
(* ===================================================================== *)

Section ArgumentFacts.

(** The three prefixes exclude one another: they differ in their third
    byte. *)
Lemma prefixes_apart arg :
  (strings_HasPrefix arg "--template=" = true ->
   strings_HasPrefix arg "--db=" = false /\ strings_HasPrefix arg "--module=" = false)
  /\ (strings_HasPrefix arg "--db=" = true -> strings_HasPrefix arg "--module=" = false).
Proof.
  unfold strings_HasPrefix.
  destruct arg as [|c1 [|c2 [|c3 arg]]]; cbn [has_prefix];
    try (rewrite ?andb_false_r; split; [intros H|intros H]; discriminate H).
  destruct (Ascii.eqb "-" c1), (Ascii.eqb "-" c2); cbn [andb];
    try (split; [intros H|intros H]; discriminate H).
  destruct (Ascii.eqb_spec "t"%char c3) as [<-|Nt]; cbn [andb].
  - split; [intros _; split; reflexivity | intros H; discriminate H].
  - split; [intros H; discriminate H|].
    destruct (Ascii.eqb_spec "d"%char c3) as [<-|Nd]; cbn [andb];
      [intros _; reflexivity | intros H; discriminate H].
Qed.

Lemma parse_flags_app opts l1 l2 :
  parse_flags opts (l1 ++ l2) = parse_flags (parse_flags opts l1) l2.
Proof. revert opts. induction l1 as [|a l1 IH]; intros opts; [reflexivity|]. simpl. apply IH. Qed.

Lemma parse_flags_Name opts flags : opt_Name (parse_flags opts flags) = opt_Name opts.
Proof.
  revert opts. induction flags as [|a flags IH]; intros opts; [reflexivity|].
  cbn [parse_flags]. rewrite IH.
  destruct (strings_HasPrefix a "--template="); [reflexivity|].
  destruct (strings_HasPrefix a "--db="); [reflexivity|].
  destruct (strings_HasPrefix a "--module="); [reflexivity|].
  destruct (String.eqb a "--no-git"); [reflexivity|].
  now destruct (String.eqb a "--force").
Qed.

Lemma parse_flags_Force opts flags :
  opt_Force (parse_flags opts flags) = opt_Force opts || existsb (String.eqb "--force") flags.
Proof.
  revert opts. induction flags as [|a flags IH]; intros opts.
  - simpl. now rewrite orb_false_r.
  - cbn [parse_flags existsb]. rewrite IH. rewrite (String.eqb_sym "--force" a).
    destruct (strings_HasPrefix a "--template=") eqn:T.
    { destruct (String.eqb_spec a "--force") as [->|]; [discriminate T | reflexivity]. }
    destruct (strings_HasPrefix a "--db=") eqn:D.
    { destruct (String.eqb_spec a "--force") as [->|]; [discriminate D | reflexivity]. }
    destruct (strings_HasPrefix a "--module=") eqn:Mo.
    { destruct (String.eqb_spec a "--force") as [->|]; [discriminate Mo | reflexivity]. }
    destruct (String.eqb_spec a "--no-git") as [->|]; [reflexivity|].
    destruct (String.eqb a "--force"); simpl; [now rewrite orb_true_r | reflexivity].
Qed.

Lemma parse_flags_NoGit opts flags :
  opt_NoGit (parse_flags opts flags) = opt_NoGit opts || existsb (String.eqb "--no-git") flags.
Proof.
  revert opts. induction flags as [|a flags IH]; intros opts.
  - simpl. now rewrite orb_false_r.
  - cbn [parse_flags existsb]. rewrite IH. rewrite (String.eqb_sym "--no-git" a).
    destruct (strings_HasPrefix a "--template=") eqn:T.
    { destruct (String.eqb_spec a "--no-git") as [->|]; [discriminate T | reflexivity]. }
    destruct (strings_HasPrefix a "--db=") eqn:D.
    { destruct (String.eqb_spec a "--no-git") as [->|]; [discriminate D | reflexivity]. }
    destruct (strings_HasPrefix a "--module=") eqn:Mo.
    { destruct (String.eqb_spec a "--no-git") as [->|]; [discriminate Mo | reflexivity]. }
    destruct (String.eqb a "--no-git"); simpl; [now rewrite orb_true_r|].
    now destruct (String.eqb a "--force").
Qed.

Lemma existsb_eqb_In x l : existsb (String.eqb x) l = true <-> In x l.
Proof.
  rewrite existsb_exists. split.
  - intros (y & Hy & E). apply String.eqb_eq in E. now subst.
  - intros H. exists x. split; [assumption | apply String.eqb_refl].
Qed.

Lemma parse_flags_values opts flags :
  opt_Template (parse_flags opts flags) = last_value "--template=" (opt_Template opts) flags
  /\ opt_DbType (parse_flags opts flags) = last_value "--db=" (opt_DbType opts) flags
  /\ opt_Module (parse_flags opts flags) = last_value "--module=" (opt_Module opts) flags.
Proof.
  revert opts. induction flags as [|a flags IH]; intros opts; [repeat split|].
  cbn [parse_flags last_value].
  destruct (prefixes_apart a) as [Ht Hd].
  destruct (strings_HasPrefix a "--template=") eqn:T.
  { destruct (Ht eq_refl) as [-> ->].
    match goal with |- context [parse_flags ?o flags] => exact (IH o) end. }
  destruct (strings_HasPrefix a "--db=") eqn:D.
  { rewrite (Hd eq_refl).
    match goal with |- context [parse_flags ?o flags] => exact (IH o) end. }
  destruct (strings_HasPrefix a "--module=") eqn:Mo.
  { match goal with |- context [parse_flags ?o flags] => exact (IH o) end. }
  destruct (String.eqb a "--no-git");
    [match goal with |- context [parse_flags ?o flags] => exact (IH o) end|].
  destruct (String.eqb a "--force");
    match goal with |- context [parse_flags ?o flags] => exact (IH o) end.
Qed.

Lemma last_value_none pre def args :
  (forall a, In a args -> strings_HasPrefix a pre = false) ->
  last_value pre def args = def.
Proof.
  revert def. induction args as [|a args IH]; intros def H; [reflexivity|].
  cbn [last_value]. rewrite (H a) by now left.
  apply IH. intros b Hb. apply H. now right.
Qed.

Lemma last_value_last pre def before v after :
  (forall a, In a after -> strings_HasPrefix a pre = false) ->
  last_value pre def (before ++ (pre +++ v) :: after) = v.
Proof.
  intros H. revert def. induction before as [|a before IH]; intros def.
  - cbn [app last_value]. unfold strings_HasPrefix, strings_TrimPrefix, strings_HasPrefix.
    rewrite has_prefix_append, string_drop_append. now apply last_value_none.
  - cbn [app last_value]. apply IH.
Qed.

End ArgumentFacts.

(** X1.  The first argument is the name of the project whatever it looks
    like, and no later argument changes it.  The overwrite flag is set
    exactly when one of the later arguments is [--force], and git is
    skipped exactly when one of them is [--no-git]: a flag in any other
    spelling sets nothing. *)
Theorem X1_name_and_switches (name : string) (flags : list string) :
  let opts := parseProjectArgs (name :: flags) in
  opt_Name opts = name
  /\ (opt_Force opts = true <-> In "--force" flags)
  /\ (opt_NoGit opts = true <-> In "--no-git" flags).
Proof.
  unfold parseProjectArgs. cbn [hd tl]. split; [apply parse_flags_Name|]. split.
  - rewrite parse_flags_Force. cbn [opt_Force orb]. apply existsb_eqb_In.
  - rewrite parse_flags_NoGit. cbn [opt_NoGit orb]. apply existsb_eqb_In.
Qed.

(** X2.  An option with a value is given by the last argument with the
    prefix of that option, whatever stands before it, and whatever
    stands after it as long as that does not have the prefix; the value
    is all that follows the prefix, also when that is empty.  Without
    such an argument the template is [api], the database kind is
    [postgres] and the module is the name of the project. *)
Theorem X2_last_value_wins (name : string) :
  (forall before v after,
      (forall a, In a after -> strings_HasPrefix a "--template=" = false) ->
      opt_Template (parseProjectArgs (name :: before ++ ("--template=" +++ v) :: after)) = v)
  /\ (forall before v after,
        (forall a, In a after -> strings_HasPrefix a "--db=" = false) ->
        opt_DbType (parseProjectArgs (name :: before ++ ("--db=" +++ v) :: after)) = v)
  /\ (forall before v after,
        (forall a, In a after -> strings_HasPrefix a "--module=" = false) ->
        opt_Module (parseProjectArgs (name :: before ++ ("--module=" +++ v) :: after)) = v)
  /\ (forall flags,
        (forall a, In a flags -> strings_HasPrefix a "--template=" = false) ->
        opt_Template (parseProjectArgs (name :: flags)) = "api")
  /\ (forall flags,
        (forall a, In a flags -> strings_HasPrefix a "--db=" = false) ->
        opt_DbType (parseProjectArgs (name :: flags)) = "postgres")
  /\ (forall flags,
        (forall a, In a flags -> strings_HasPrefix a "--module=" = false) ->
        opt_Module (parseProjectArgs (name :: flags)) = name).
Proof.
  unfold parseProjectArgs. cbn [hd tl].
  repeat split; intros;
    match goal with
    | |- context [parse_flags ?o ?l] => destruct (parse_flags_values o l) as (T & D & Mo)
    end.
  - rewrite T. now apply last_value_last.
  - rewrite D. now apply last_value_last.
  - rewrite Mo. now apply last_value_last.
  - rewrite T. now apply last_value_none.
  - rewrite D. now apply last_value_none.
  - rewrite Mo. now apply last_value_none.
Qed.

Lemma X2_last_value_wins_witness :
  opt_DbType (parseProjectArgs ["shop"; "--db=mysql"; "--force"; "--db=sqlite"; "--no-git"])
  = "sqlite"
  /\ opt_Module (parseProjectArgs ["shop"; "--db=mysql"]) = "shop"
  /\ opt_Module (parseProjectArgs ["shop"; "--module="]) = EmptyString.
Proof.
  destruct (X2_last_value_wins "shop") as (_ & Db & Mo & _ & _ & NoMo).
  split; [|split].
  - apply (Db ["--db=mysql"; "--force"] "sqlite" ["--no-git"]).
    intros a [<-|[]]. reflexivity.
  - apply (NoMo ["--db=mysql"]). intros a [<-|[]]. reflexivity.
  - apply (Mo [] EmptyString []). intros a [].
Defined.

(** X3.  An argument after the name that is none of the five flags is
    passed over without an error: the options are those of the command
    line without it. *)
Theorem X3_unknown_arguments_ignored (name arg : string) (before after : list string) :
  is_flag arg = false ->
  parseProjectArgs (name :: before ++ arg :: after)
  = parseProjectArgs (name :: before ++ after).
Proof.
  intros H. unfold is_flag in H.
  apply orb_false_iff in H as [H F]. apply orb_false_iff in H as [H G].
  apply orb_false_iff in H as [H Mo]. apply orb_false_iff in H as [T D].
  unfold parseProjectArgs. cbn [hd tl]. rewrite !parse_flags_app.
  cbn [parse_flags]. now rewrite T, D, Mo, G, F.
Qed.

Lemma X3_unknown_arguments_ignored_witness :
  parseProjectArgs ["shop"; "--db=mysql"; "--force=true"; "--no-git"]
  = parseProjectArgs ["shop"; "--db=mysql"; "--no-git"]
  /\ opt_Force (parseProjectArgs ["shop"; "--db=mysql"; "--force=true"; "--no-git"]) = false.
Proof.
  split; [|reflexivity].
  apply (X3_unknown_arguments_ignored "shop" "--force=true" ["--db=mysql"] ["--no-git"]).
  reflexivity.
Defined.

(* ===================================================================== *)
(** * The module references of a source file *)
(* ===================================================================== *)

Section ReferenceFacts.

Lemma Contains_unfold s sub :
  strings_Contains s sub
  = has_prefix sub s || match s with
                        | EmptyString => false
                        | String _ s' => strings_Contains s' sub
                        end.
Proof. now destruct s. Qed.

Lemma Contains_append_r a b sub :
  strings_Contains (a +++ b) sub = false -> strings_Contains b sub = false.
Proof.
  induction a as [|c a IH]; [trivial|]. simpl. intros H.
  apply orb_false_iff in H as [_ H]. now apply IH.
Qed.

(** Where the old module does not occur, the pattern does not match. *)
Lemma import_re_scan_absent repl s :
  strings_Contains s old_module = false -> import_re_scan repl 0 s = s.
Proof.
  induction s as [|c s IH]; intros H; [reflexivity|].
  rewrite Contains_unfold in H. apply orb_false_iff in H as [_ H].
  cbn [import_re_scan]. unfold import_re_match.
  change (has_prefix (String dq old_module) (String c s))
    with (Ascii.eqb dq c && has_prefix old_module s).
  rewrite Contains_unfold in H. apply orb_false_iff in H as [P H']. rewrite P, andb_false_r.
  f_equal. apply IH. rewrite Contains_unfold, P. assumption.
Qed.

Lemma import_re_scan_skip repl x post :
  import_re_scan repl (String.length x) (x +++ post) = import_re_scan repl 0 post.
Proof.
  induction x as [|c x IH]; [reflexivity|]. simpl. exact IH.
Qed.

Lemma import_re_scan_unquoted repl pre s :
  lacks dq pre = true -> import_re_scan repl 0 (pre +++ s) = pre +++ import_re_scan repl 0 s.
Proof.
  induction pre as [|c pre IH]; intros L; [reflexivity|].
  simpl in L. apply andb_true_iff in L as [N L]. apply negb_true_iff in N.
  change (String c pre +++ s) with (String c (pre +++ s)).
  cbn [import_re_scan]. unfold import_re_match.
  change (has_prefix (String dq old_module) (String c (pre +++ s)))
    with (Ascii.eqb dq c && has_prefix old_module (pre +++ s)).
  rewrite Ascii.eqb_sym, N. cbn [andb]. now rewrite IH.
Qed.

Lemma span_unquoted_append g r :
  lacks dq g = true -> span_unquoted (g +++ String dq r) = (g, String dq r).
Proof.
  induction g as [|c g IH]; intros L.
  - reflexivity.
  - simpl in L. apply andb_true_iff in L as [N L]. apply negb_true_iff in N.
    change (String c g +++ String dq r) with (String c (g +++ String dq r)).
    cbn [span_unquoted]. rewrite N, (IH L). reflexivity.
Qed.

Lemma import_re_match_quoted g post :
  lacks dq g = true -> import_re_match (quoted (old_module +++ g) +++ post) = Some g.
Proof.
  intros L. unfold import_re_match, quoted.
  change (String dq ((old_module +++ g) +++ String dq EmptyString) +++ post)
    with (String dq (((old_module +++ g) +++ String dq EmptyString) +++ post)).
  rewrite !append_assoc.
  change (String dq (old_module +++ g +++ String dq EmptyString +++ post))
    with (String dq old_module +++ g +++ String dq post).
  rewrite has_prefix_append, string_drop_append, (span_unquoted_append _ _ L).
  reflexivity.
Qed.

(** The template of the replacement, for a module without a dollar
    sign: the module, then group 1, between the quotes. *)
Lemma expand_module newModule g0 g1 :
  lacks "$" newModule = true ->
  regexp_expand (String dq (newModule +++ "$1" +++ String dq EmptyString)) g0 g1
  = quoted (newModule +++ g1).
Proof.
  intros L. unfold regexp_expand, quoted. cbn [expand_scan].
  change (Ascii.eqb dq "$") with false. cbv iota. f_equal.
  induction newModule as [|c m IH].
  - simpl. reflexivity.
  - simpl in L. apply andb_true_iff in L as [N L]. apply negb_true_iff in N.
    change ((String c m +++ "$1" +++ String dq EmptyString))
      with (String c (m +++ "$1" +++ String dq EmptyString)).
    cbn [expand_scan]. rewrite N. simpl. f_equal. exact (IH L).
Qed.

Lemma import_re_scan_match repl c s g :
  import_re_match (String c s) = Some g ->
  import_re_scan repl 0 (String c s)
  = regexp_expand repl (quoted (old_module +++ g)) g
    +++ import_re_scan repl (String.length (quoted (old_module +++ g)) - 1) s.
Proof. intros H. cbn [import_re_scan]. now rewrite H. Qed.

Lemma quoted_length x : (String.length (quoted x) - 1 = String.length (x +++ String dq EmptyString))%nat.
Proof. unfold quoted. cbn [String.length]. apply Nat.sub_0_r. Qed.

(** The scan at an import of a package of the template. *)
Lemma import_re_scan_quoted repl g post :
  lacks dq g = true ->
  import_re_scan repl 0 (quoted (old_module +++ g) +++ post)
  = regexp_expand repl (quoted (old_module +++ g)) g +++ import_re_scan repl 0 post.
Proof.
  intros L. pose proof (import_re_match_quoted g post L) as Hm.
  assert (quoted (old_module +++ g) +++ post
          = String dq (((old_module +++ g) +++ String dq EmptyString) +++ post)) as E
      by reflexivity.
  rewrite E in Hm |- *.
  rewrite (import_re_scan_match repl _ _ _ Hm), quoted_length.
  now rewrite import_re_scan_skip.
Qed.

End ReferenceFacts.

(** X4.  A source file in which the module path of the template does
    not occur is copied as it is, whatever the new module. *)
Theorem X4_no_reference_no_change (content newModule : string) :
  strings_Contains content old_module = false ->
  replaceModuleReferences content newModule = content.
Proof.
  intros H. unfold replaceModuleReferences, import_re_ReplaceAllString.
  rewrite import_re_scan_absent by assumption.
  now apply ReplaceAll_absent.
Qed.

Lemma X4_no_reference_no_change_witness :
  replaceModuleReferences "package main // see github.com/galaplate/core" "example.com/a$1"
  = "package main // see github.com/galaplate/core".
Proof. apply X4_no_reference_no_change. reflexivity. Defined.

(** X5.  An import of a package of the template, between text without
    quotes before it and any text after it, becomes the import of the
    same package below the new module, and the text around it stays,
    provided the new module has no dollar sign and the module path of
    the template does not occur in the text so rewritten. *)
Theorem X5_import_rewritten (pre suffix post newModule : string) :
  lacks dq pre = true ->
  lacks dq suffix = true ->
  lacks "$" newModule = true ->
  strings_Contains (pre +++ quoted (newModule +++ suffix) +++ post) old_module = false ->
  replaceModuleReferences (pre +++ quoted (old_module +++ suffix) +++ post) newModule
  = pre +++ quoted (newModule +++ suffix) +++ post.
Proof.
  intros Lpre Lsuf Lnew Habs.
  assert (strings_Contains post old_module = false) as Hpost.
  { apply Contains_append_r in Habs. now apply Contains_append_r in Habs. }
  unfold replaceModuleReferences, import_re_ReplaceAllString.
  rewrite import_re_scan_unquoted by assumption.
  rewrite import_re_scan_quoted, (expand_module _ _ _ Lnew) by assumption.
  rewrite import_re_scan_absent by assumption.
  now apply ReplaceAll_absent.
Qed.

Lemma X5_import_rewritten_witness :
  replaceModuleReferences
    ("import " +++ quoted "github.com/galaplate/galaplate/sub/pkg" +++ nl) "github.com/new/new"
  = "import " +++ quoted "github.com/new/new/sub/pkg" +++ nl.
Proof.
  apply (X5_import_rewritten "import " "/sub/pkg" nl "github.com/new/new"); reflexivity.
Defined.

(* ===================================================================== *)
(** * More on [copyFile] *)
(* ===================================================================== *)

Section CopyFileMore.

(** The state in which a successful [copyFile] starts to read and
    write: the source was opened, the directory of the destination
    exists, and the destination is an empty file. *)
Lemma copyFile_prelude src dest opts w w' pd :
  resolve (w_cwd w) dest = Some pd ->
  copyFile src dest opts w = (None, w') ->
  exists w2,
    w_cwd w2 = w_cwd w /\ w_umask w2 = w_umask w
    /\ w_calls w2 = w_calls w ++ [CallOpen src; CallMkdirAll (filepath_Dir dest) perm_0755;
                                  CallCreate dest]
    /\ lookup pd (w_root w2)
       = Some (File (perm_after_open (w_umask w) perm_0666 (stat pd (w_root w))) EmptyString)
    /\ (forall q s, q <> pd -> stat q (w_root w) = Some s -> stat q (w_root w2) = Some s)
    /\ (forall ps, resolve (w_cwd w) src = Some ps -> locate w2 src = Some ps)
    /\ match rule_of src with
       | Passthrough => io_Copy dest src w2 = (None, w')
       | r =>
           (content <- io_ReadAll src ;;
            match content with
            | Err e => ret (Some e)
            | Ok content =>
                os_WriteFile (rule_target r dest) (rule_output r opts content) perm_0644
            end) w2 = (None, w')
       end.
Proof.
  intros Hpd. rewrite copyFile_unfold. unfold bind at 1 2 3.
  destruct (os_Open src w) as [e0 w0] eqn:E0.
  destruct e0 as [er|]; [discriminate|].
  destruct (os_Open_locate _ _ _ E0) as [ps' Ls].
  apply os_Open_spec in E0 as (P0 & R0 & _).
  destruct (os_MkdirAll (filepath_Dir dest) perm_0755 w0) as [e1 w1] eqn:E1.
  apply os_MkdirAll_spec in E1 as (P1 & X1); [|first [apply tidy_Join | apply tidy_Dir]].
  destruct e1 as [er|]; [discriminate|]. destruct X1 as (pdir & _ & X1).
  destruct (os_Create dest w1) as [e2 w2] eqn:E2.
  apply os_Create_spec in E2 as (P2 & X2).
  destruct e2 as [er|]; [discriminate|]. destruct X2 as (pd' & Hpd' & X2).
  destruct (same_process_trans3 _ _ _ _ _ _ _ P0 P1 P2) as (C2 & U2 & L2).
  destruct P0 as (C0 & U0 & _), P1 as (C1 & U1 & _).
  rewrite C1, C0, Hpd in Hpd'. injection Hpd' as <-.
  rewrite U0, R0 in X1. rewrite U1, U0 in X2.
  destruct (prelude_fs _ _ _ _ _ _ X1 X2) as (Fpd & Keep & _).
  pose proof (prelude_keeps _ _ _ _ _ _ X1 X2) as K.
  intros H. exists w2. repeat (split; [assumption|]).
  split.
  { intros ps Hps. apply (locate_keeps w w2 src ps C2 K).
    rewrite Ls. apply locate_resolve in Ls. congruence. }
  destruct (rule_of src); exact H.
Qed.

Lemma ReplaceAll_empty old new : strings_ReplaceAll EmptyString old new = EmptyString.
Proof. now destruct old. Qed.

(** Every rule makes the empty content of the empty content. *)
Lemma rule_output_empty r opts : rule_output r opts EmptyString = EmptyString.
Proof. destruct r; reflexivity. Qed.

(** The reading and writing of the three rules that rewrite, from the
    state [w2]. *)
Lemma rewrite_steps r src dest opts w2 w' :
  (content <- io_ReadAll src ;;
   match content with
   | Err e => ret (Some e)
   | Ok content =>
       os_WriteFile (rule_target r dest) (rule_output r opts content) perm_0644
   end) w2 = (None, w') ->
  exists m d pt,
    node_at w2 src = Some (File m d)
    /\ resolve (w_cwd w2) (rule_target r dest) = Some pt
    /\ modify pt (write_entry (w_umask w2) (rule_output r opts d) perm_0644) (w_root w2)
       = Some (w_root w')
    /\ w_cwd w' = w_cwd w2
    /\ w_calls w' = w_calls w2 ++ [CallReadAll src;
                                   CallWriteFile (rule_target r dest) (rule_output r opts d)
                                                 perm_0644].
Proof.
  unfold bind.
  destruct (io_ReadAll src w2) as [c3 w3] eqn:E3.
  apply io_ReadAll_spec in E3 as ((C3 & U3 & L3) & R3 & X3).
  destruct c3 as [content|er]; [|discriminate].
  destruct (X3 _ eq_refl) as (m3 & Hm3).
  intros X. apply os_WriteFile_spec in X as ((C4 & U4 & L4) & pt & Hpt & X4).
  exists m3, content, pt. rewrite C3 in Hpt. rewrite R3, U3 in X4.
  repeat (split; [assumption|]). split; [congruence|].
  rewrite L4, L3, <- app_assoc. reflexivity.
Qed.

End CopyFileMore.

(** X6.  The copy of a template leaves a second file behind.  The
    destination is created under its full name before the suffix is
    looked at; the output then goes to the name without the suffix, and
    the file created first stays where it is, empty.  (It has the
    permission bits it had if it existed, else 0666 less the umask.) *)
Theorem X6_template_leaves_empty_file
    (src dest : string) (opts : ProjectOptions) (w w' : World) (pd pt : list string) :
  strings_HasSuffix src ".template" = true ->
  resolve (w_cwd w) dest = Some pd ->
  resolve (w_cwd w) (strings_TrimSuffix dest ".template") = Some pt ->
  pt <> pd ->
  copyFile src dest opts w = (None, w') ->
  stat pd (w_root w')
  = Some (SFile (perm_after_open (w_umask w) perm_0666 (stat pd (w_root w))) EmptyString).
Proof.
  intros Hs Hpd Hpt Hne Hrun.
  destruct (copyFile_prelude _ _ _ _ _ _ Hpd Hrun) as (w2 & C2 & U2 & L2 & Fpd & _ & _ & Rest).
  rewrite (rule_of_template _ Hs) in Rest.
  apply rewrite_steps in Rest as (m & d & pt' & _ & Hpt' & X & _).
  cbn [rule_target] in Hpt'. rewrite C2, Hpt in Hpt'. injection Hpt' as <-.
  rewrite (stat_modify_ne _ _ _ _ pd (shallow_write _ _ _) X) by congruence.
  unfold stat at 1. now rewrite Fpd.
Qed.

Lemma X6_template_leaves_empty_file_witness :
  let w' := snd (copyFile "/tmp/galaplate-1/.env.template" "demo/.env.template"
                   demo_opts template_world) in
  stat ["home"; "u"; "demo"; ".env.template"] (w_root w') = Some (SFile 436 EmptyString).
Proof.
  intros w'.
  apply (X6_template_leaves_empty_file
           "/tmp/galaplate-1/.env.template" "demo/.env.template" demo_opts template_world w'
           ["home"; "u"; "demo"; ".env.template"] ["home"; "u"; "demo"; ".env"]).
  - reflexivity.
  - reflexivity.
  - reflexivity.
  - discriminate.
  - reflexivity.
Defined.

(** X7.  A file that is not a template, not the manifest and not a Go
    source is copied byte for byte: after a successful copy the
    destination holds the content of the source, whatever it held
    before, and the source is as it was. *)
Theorem X7_other_files_copied_verbatim
    (src dest : string) (opts : ProjectOptions) (w w' : World)
    (ps pd : list string) (ms : Z) (d : string) :
  strings_HasSuffix src ".template" = false ->
  String.eqb (filepath_Base src) "go.mod" = false ->
  strings_HasSuffix src ".go" = false ->
  resolve (w_cwd w) src = Some ps ->
  resolve (w_cwd w) dest = Some pd ->
  ps <> pd ->
  stat ps (w_root w) = Some (SFile ms d) ->
  copyFile src dest opts w = (None, w') ->
  stat pd (w_root w')
  = Some (SFile (perm_after_open (w_umask w) perm_0666 (stat pd (w_root w))) d)
  /\ stat ps (w_root w') = Some (SFile ms d).
Proof.
  intros T G S Hps Hpd Hne Hsrc Hrun.
  destruct (copyFile_prelude _ _ _ _ _ _ Hpd Hrun) as (w2 & C2 & U2 & L2 & Fpd & Keep & Ls & Rest).
  rewrite (rule_of_passthrough _ T G S) in Rest.
  apply io_Copy_spec in Rest as (_ & X). destruct (X eq_refl) as (m & d' & p & Hm & Hp & X').
  assert (node_at w2 src = Some (File ms d)) as Hread.
  { unfold node_at. rewrite (Ls _ Hps). apply stat_file_lookup. now apply Keep. }
  rewrite Hread in Hm. injection Hm as _ <-.
  rewrite C2, Hpd in Hp. injection Hp as <-.
  split.
  - apply stat_file_lookup. apply lookup_modify_eq in X' as [X' _]. now rewrite X', Fpd.
  - rewrite (stat_modify_ne _ _ _ _ ps (shallow_append _) X') by assumption.
    now apply Keep.
Qed.

Lemma X7_other_files_copied_verbatim_witness :
  let w' := snd (copyFile "/tmp/galaplate-1/run.sh" "demo/notes.txt" demo_opts template_world) in
  stat ["home"; "u"; "demo"; "notes.txt"] (w_root w') = Some (SFile perm_0644 "#!/bin/sh")
  /\ stat ["tmp"; "galaplate-1"; "run.sh"] (w_root w') = Some (SFile perm_0755 "#!/bin/sh").
Proof.
  intros w'.
  apply (X7_other_files_copied_verbatim
           "/tmp/galaplate-1/run.sh" "demo/notes.txt" demo_opts template_world w'
           ["tmp"; "galaplate-1"; "run.sh"] ["home"; "u"; "demo"; "notes.txt"]
           perm_0755 "#!/bin/sh"); try reflexivity.
  discriminate.
Defined.

(** X8.  [copyFile] must not be given a source and a destination that
    name the same file: the destination is created, that is emptied,
    before the source is read, so that a copy that succeeds leaves the
    file empty, under every rule. *)
Theorem X8_copy_onto_itself_empties
    (src dest : string) (opts : ProjectOptions) (w w' : World) (p : list string) :
  resolve (w_cwd w) src = Some p ->
  resolve (w_cwd w) dest = Some p ->
  copyFile src dest opts w = (None, w') ->
  exists m, stat p (w_root w') = Some (SFile m EmptyString).
Proof.
  intros Hps Hpd Hrun.
  destruct (copyFile_prelude _ _ _ _ _ _ Hpd Hrun) as (w2 & C2 & U2 & L2 & Fpd & _ & Ls & Rest).
  assert (node_at w2 src
          = Some (File (perm_after_open (w_umask w) perm_0666 (stat p (w_root w))) EmptyString))
    as Hread by (unfold node_at; now rewrite (Ls _ Hps)).
  assert (forall r,
            (content <- io_ReadAll src ;;
             match content with
             | Err e => ret (Some e)
             | Ok content =>
                 os_WriteFile (rule_target r dest) (rule_output r opts content) perm_0644
             end) w2 = (None, w') ->
            exists m, stat p (w_root w') = Some (SFile m EmptyString)) as Written.
  { intros r H. apply rewrite_steps in H as (m & d & pt & Hm & Hpt & X & _).
    rewrite Hread in Hm. injection Hm as _ <-. rewrite rule_output_empty in X.
    destruct (list_eq_dec string_dec p pt) as [<-|Ne].
    - apply write_fs in X. eexists. apply stat_file_lookup. exact X.
    - rewrite (stat_modify_ne _ _ _ _ p (shallow_write _ _ _) X) by assumption.
      eexists. apply stat_file_lookup. exact Fpd. }
  destruct (rule_of src); try exact (Written _ Rest).
  apply io_Copy_spec in Rest as (_ & X). destruct (X eq_refl) as (m & d' & p' & Hm & Hp & X').
  rewrite Hread in Hm. injection Hm as _ <-.
  rewrite C2, Hpd in Hp. injection Hp as <-.
  apply lookup_modify_eq in X' as [X' _]. rewrite Fpd in X'.
  eexists. apply stat_file_lookup. exact X'.
Qed.

Lemma X8_copy_onto_itself_empties_witness :
  let w' := snd (copyFile "/tmp/galaplate-1/run.sh" "/tmp/galaplate-1/./run.sh"
                   demo_opts template_world) in
  node_at template_world "/tmp/galaplate-1/run.sh" = Some (File perm_0755 "#!/bin/sh")
  /\ exists m, stat ["tmp"; "galaplate-1"; "run.sh"] (w_root w') = Some (SFile m EmptyString).
Proof.
  intros w'. split; [reflexivity|].
  apply (X8_copy_onto_itself_empties
           "/tmp/galaplate-1/run.sh" "/tmp/galaplate-1/./run.sh" demo_opts template_world w');
    reflexivity.
Defined.

(* ===================================================================== *)
(** * More on the visit of the copier *)
(* ===================================================================== *)

Section VisitFacts.

Lemma exclude_check_notin dirs parts info :
  ~ In (nth 0 parts EmptyString) dirs -> exclude_check dirs parts info = None.
Proof.
  induction dirs as [|d dirs IH]; intros H; [reflexivity|].
  cbn [exclude_check]. destruct (String.eqb_spec (nth 0 parts EmptyString) d) as [E|N].
  - exfalso. apply H. now left.
  - apply IH. intros Hin. apply H. now right.
Qed.

(** The visit of an entry that the directory list does not exclude. *)
Lemma copy_visit_included srcRoot destDir opts path info relPath :
  filepath_Rel srcRoot path = Ok relPath ->
  relPath <> "." ->
  ~ In (nth 0 (strings_Split relPath Separator) EmptyString) excludeDirs ->
  copy_visit srcRoot destDir opts path (Some info) None
  = if slices_Contains excludeFiles (fi_Name info) then ret None
    else if fi_IsDir info then os_MkdirAll (filepath_Join [destDir; relPath]) (fi_Mode info)
    else copyFile path (filepath_Join [destDir; relPath]) opts.
Proof.
  intros Hrel Hdot Hout. unfold copy_visit. rewrite Hrel.
  destruct (String.eqb_spec relPath ".") as [E|_]; [contradiction|].
  now rewrite (exclude_check_notin _ _ _ Hout).
Qed.

End VisitFacts.

(** X9.  Only the first segment of the path below the scratch
    directory is compared with the list of excluded directories.  An
    entry whose first segment is not in the list is copied, whatever the
    names of the segments that follow: a directory is created in the
    destination with [os.MkdirAll], a file goes through [copyFile],
    unless its own name is in the list of excluded files. *)
Theorem X9_only_first_segment_excludes
    (srcRoot destDir : string) (opts : ProjectOptions)
    (path relPath : string) (info : FileInfo) :
  filepath_Rel srcRoot path = Ok relPath ->
  relPath <> "." ->
  ~ In (nth 0 (strings_Split relPath Separator) EmptyString) excludeDirs ->
  slices_Contains excludeFiles (fi_Name info) = false ->
  copy_visit srcRoot destDir opts path (Some info) None
  = if fi_IsDir info then os_MkdirAll (filepath_Join [destDir; relPath]) (fi_Mode info)
    else copyFile path (filepath_Join [destDir; relPath]) opts.
Proof.
  intros Hrel Hdot Hout Hname.
  rewrite (copy_visit_included _ _ _ _ _ _ Hrel Hdot Hout). now rewrite Hname.
Qed.

Lemma X9_only_first_segment_excludes_witness :
  let tmp := Dir perm_0755 [("cache.txt", File perm_0644 "warm")] in
  let w := mkWorld (Dir perm_0755
                      [("demo", Dir perm_0755 []);
                       ("tmp", Dir perm_0777
                          [("galaplate-1", Dir perm_0700 [("pkg", Dir perm_0755 [("tmp", tmp)])])])])
                   [] 18 [] in
  let w' := snd (walk (copy_visit "/tmp/galaplate-1" "/demo" demo_opts)
                      "/tmp/galaplate-1/pkg/tmp" tmp w) in
  In "tmp" excludeDirs
  /\ copy_visit "/tmp/galaplate-1" "/demo" demo_opts "/tmp/galaplate-1/pkg/tmp"
                (Some (info_of "/tmp/galaplate-1/pkg/tmp" tmp)) None
     = os_MkdirAll "/demo/pkg/tmp" perm_0755
  /\ node_at w' "/demo/pkg/tmp/cache.txt" = Some (File perm_0644 "warm").
Proof.
  intros tmp w w'. split; [simpl; tauto|]. split; [|reflexivity].
  apply (X9_only_first_segment_excludes "/tmp/galaplate-1" "/demo" demo_opts
           "/tmp/galaplate-1/pkg/tmp" "pkg/tmp" (info_of "/tmp/galaplate-1/pkg/tmp" tmp)).
  - reflexivity.
  - discriminate.
  - simpl. intros H. repeat (destruct H as [H|H]; [discriminate H|]). exact H.
  - reflexivity.
Defined.

(** X10.  Directories, unlike files, take the permission bits of the
    source.  When the visit of a directory that is not excluded
    succeeds, the directory exists in the destination: with the
    permission bits it had if it existed, and otherwise with the
    permission bits of the directory in the scratch tree, less the
    umask. *)
Theorem X10_directories_take_source_mode
    (srcRoot destDir : string) (opts : ProjectOptions)
    (path relPath : string) (info : FileInfo) (w w' : World) (pd : list string) :
  filepath_Rel srcRoot path = Ok relPath ->
  relPath <> "." ->
  ~ In (nth 0 (strings_Split relPath Separator) EmptyString) excludeDirs ->
  slices_Contains excludeFiles (fi_Name info) = false ->
  fi_IsDir info = true ->
  resolve (w_cwd w) (filepath_Join [destDir; relPath]) = Some pd ->
  copy_visit srcRoot destDir opts path (Some info) None w = (None, w') ->
  stat pd (w_root w')
  = Some (SDir match stat pd (w_root w) with
               | Some (SDir m) => m
               | _ => created_perm (w_umask w) (fi_Mode info)
               end).
Proof.
  intros Hrel Hdot Hout Hname Hdir Hpd.
  rewrite (copy_visit_included _ _ _ _ _ _ Hrel Hdot Hout), Hname, Hdir.
  intros H. apply os_MkdirAll_spec in H as (_ & p & Hp & X); [|first [apply tidy_Join | apply tidy_Dir]].
  rewrite Hpd in Hp. injection Hp as <-.
  pose proof (mkdir_all_is_dir _ _ _ _ X) as [m Hm].
  rewrite (stat_mkdir_all _ _ _ _ pd X) in Hm |- *.
  destruct (stat pd (w_root w)) as [[m0 d0|m0]|]; [discriminate | reflexivity|].
  now rewrite is_prefix_refl.
Qed.

Lemma X10_directories_take_source_mode_witness :
  let pkg := Dir perm_0700 [] in
  let w' := snd (copy_visit "/tmp/galaplate-1" "demo" demo_opts "/tmp/galaplate-1/pkg"
                            (Some (info_of "/tmp/galaplate-1/pkg" pkg)) None template_world) in
  stat ["home"; "u"; "demo"; "pkg"] (w_root w') = Some (SDir perm_0700).
Proof.
  intros pkg w'.
  apply (X10_directories_take_source_mode "/tmp/galaplate-1" "demo" demo_opts
           "/tmp/galaplate-1/pkg" "pkg" (info_of "/tmp/galaplate-1/pkg" pkg)
           template_world w' ["home"; "u"; "demo"; "pkg"]); try reflexivity.
  - discriminate.
  - simpl. intros H. repeat (destruct H as [H|H]; [discriminate H|]). exact H.
Defined.

(** X11.  The list of excluded files is compared with the name of
    every entry, directories too, but for a directory it only leaves
    out the creation of the directory: the walk goes into it, and the
    files in it are copied (which creates the directory after all, with
    mode 0755 and not with the mode of the source). *)
Theorem X11_directory_named_like_excluded_file
    (srcRoot destDir : string) (opts : ProjectOptions)
    (path relPath : string) (m : Z) (es : list (string * node)) (w : World) :
  filepath_Rel srcRoot path = Ok relPath ->
  relPath <> "." ->
  ~ In (nth 0 (strings_Split relPath Separator) EmptyString) excludeDirs ->
  In (filepath_Base path) excludeFiles ->
  copy_visit srcRoot destDir opts path (Some (info_of path (Dir m es))) None w = (None, w)
  /\ walk (copy_visit srcRoot destDir opts) path (Dir m es) w
     = walk_names (copy_visit srcRoot destDir opts) path es w.
Proof.
  intros Hrel Hdot Hout Hname.
  assert (copy_visit srcRoot destDir opts path (Some (info_of path (Dir m es))) None w
          = (None, w)) as Hv.
  { rewrite (copy_visit_included _ _ _ _ _ _ Hrel Hdot Hout).
    cbn [info_of fi_Name]. unfold slices_Contains.
    replace (existsb (String.eqb (filepath_Base path)) excludeFiles) with true; [reflexivity|].
    symmetry. now apply existsb_eqb_In. }
  split; [exact Hv|]. rewrite walk_dir. unfold bind. now rewrite Hv.
Qed.

Lemma X11_directory_named_like_excluded_file_witness :
  let server := Dir perm_0700 [("run.sh", File perm_0755 "#!/bin/sh")] in
  let w := mkWorld (Dir perm_0755
                      [("demo", Dir perm_0755 []);
                       ("tmp", Dir perm_0777
                          [("galaplate-1", Dir perm_0700 [("server", server)])])])
                   [] 18 [] in
  let w' := snd (walk (copy_visit "/tmp/galaplate-1" "/demo" demo_opts)
                      "/tmp/galaplate-1/server" server w) in
  walk (copy_visit "/tmp/galaplate-1" "/demo" demo_opts) "/tmp/galaplate-1/server" server w
  = walk_names (copy_visit "/tmp/galaplate-1" "/demo" demo_opts) "/tmp/galaplate-1/server"
               [("run.sh", File perm_0755 "#!/bin/sh")] w
  /\ stat ["demo"; "server"] (w_root w') = Some (SDir perm_0755)
  /\ stat ["demo"; "server"; "run.sh"] (w_root w') = Some (SFile perm_0644 "#!/bin/sh").
Proof.
  intros server w w'. split; [|split; reflexivity].
  apply (X11_directory_named_like_excluded_file "/tmp/galaplate-1" "/demo" demo_opts
           "/tmp/galaplate-1/server" "server" perm_0700
           [("run.sh", File perm_0755 "#!/bin/sh")] w).
  - reflexivity.
  - discriminate.
  - simpl. intros H. repeat (destruct H as [H|H]; [discriminate H|]). exact H.
  - simpl. tauto.
Defined.

(* ===================================================================== *)
(** * More on the download *)
(* ===================================================================== *)

Section DownloadFacts.

Variable temp_name : string.
Variable response : HttpResult.
Variable T : list string.

Hypothesis temp_rooted : rooted temp_name = true.
Hypothesis temp_location : resolve [] temp_name = Some T.

Lemma is_prefix_longer q x : is_prefix (q ++ [x]) q = false.
Proof. induction q as [|a q IH]; simpl; [reflexivity|]. now rewrite String.eqb_refl. Qed.

(** What [os.MkdirTemp] does: it fails without a change, or it creates
    the scratch directory, which did not exist. *)
Lemma MkdirTemp_spec dir pattern w r w' :
  os_MkdirTemp temp_name dir pattern w = (r, w') ->
  same_process (CallMkdirTemp dir pattern) w w' /\
  match r with
  | Err e => e = ErrFS "mkdirtemp" temp_name /\ w_root w' = w_root w
  | Ok t =>
      t = temp_name /\ T <> [] /\ stat T (w_root w) = None
      /\ stat T (w_root w') = Some (SDir (created_perm (w_umask w) perm_0700))
      /\ forall q, q <> T -> stat q (w_root w') = stat q (w_root w)
  end.
Proof.
  unfold os_MkdirTemp. rewrite bind_call.
  destruct (change _ _ _ _) as [err w1] eqn:E.
  apply change_spec in E as (C & U & L & X). simpl in *.
  assert (same_process (CallMkdirTemp dir pattern) w w1) as P by now split.
  destruct err as [er|]; intros H; injection H as <- <-; (split; [exact P|]).
  - exact X.
  - destruct X as (p & Hp & X).
    rewrite (resolve_rooted _ [] _ temp_rooted), temp_location in Hp. injection Hp as <-.
    split; [reflexivity|]. split; [intros ->; discriminate X|].
    pose proof (lookup_modify_eq _ _ _ _ X) as [Hl Hn].
    destruct (lookup T (w_root w)) as [n0|] eqn:E0; [congruence|].
    split; [now apply stat_none_lookup|]. split.
    + unfold stat. now rewrite Hl.
    + intros q Hq. refine (stat_modify_ne _ _ _ _ q _ X Hq).
      intros [n|] x Hx; inversion Hx; reflexivity.
Qed.

(** The scratch directory [os.MkdirTemp] made is where the kernel finds
    its name. *)
Lemma MkdirTemp_locate dir pattern w t w' :
  os_MkdirTemp temp_name dir pattern w = (Ok t, w') -> locate w' temp_name = Some T.
Proof.
  unfold os_MkdirTemp. rewrite bind_call.
  destruct (change _ _ _ _) as [err w1] eqn:E.
  destruct err as [er|]; [discriminate|]. intros H. injection H as _ <-.
  pose proof E as E'. apply change_spec in E' as (C & _).
  apply change_locate in E as (p & L & X).
  destruct (locate_rooted (record_call (CallMkdirTemp dir pattern) w) _ _
                          temp_rooted temp_location) as [L'|L']; [|congruence].
  rewrite L' in L. injection L as <-.
  apply (locate_keeps _ w1 _ _ C) in L'; [assumption|].
  refine (modify_keeps _ _ _ _ _ _ X).
  - intros [n|] x Hx; inversion Hx; reflexivity.
  - intros n x Hx. discriminate Hx.
Qed.

(** After the removal of the scratch directory every location is what
    it was before the directory was created. *)
Lemma scratch_removed w w0 w1 w' e :
  T <> [] -> stat T (w_root w) = None ->
  (forall q, q <> T -> stat q (w_root w0) = stat q (w_root w)) ->
  (forall q, is_prefix T q = false -> stat q (w_root w1) = stat q (w_root w0)) ->
  locate w1 temp_name = Some T ->
  os_RemoveAll temp_name w1 = (e, w') ->
  forall q, stat q (w_root w') = stat q (w_root w).
Proof.
  intros Hne Hfresh H0 H1 Lt H q. apply os_RemoveAll_spec in H as (_ & _ & R).
  rewrite Lt in R.
  rewrite R, stat_remove_all by assumption.
  destruct (is_prefix T q) eqn:P.
  - apply is_prefix_inv in P as [r ->]. symmetry.
    destruct (stat (T ++ r) (w_root w)) as [s|] eqn:E; [|reflexivity].
    apply stat_prefix_exists in E as [s' E]. congruence.
  - rewrite H1 by assumption. apply H0. intros ->. now rewrite is_prefix_refl in P.
Qed.

Lemma RemoveAll_temp_gone w e w' :
  T <> [] -> locate w temp_name = Some T ->
  os_RemoveAll temp_name w = (e, w') -> stat T (w_root w') = None.
Proof.
  intros Hne Lt H. apply os_RemoveAll_spec in H as (_ & _ & R).
  rewrite Lt in R.
  now rewrite R, stat_remove_all, is_prefix_refl.
Qed.

(** The extraction of an entry removes nothing and stays where it is,
    so that the kernel finds afterwards what it found before. *)
Lemma extract_entry_keeps e w r w' :
  extract_entry temp_name e w = (r, w') ->
  w_cwd w' = w_cwd w /\ keeps (w_root w) (w_root w').
Proof.
  intros H. split.
  - exact (proj1 (quiet_extract_entry temp_name T e _ _ _ H)).
  - intros q s Hs.
    exact (lives_extract_entry temp_name (q ++ ["."]) e _ _ _ H q s
                               (is_prefix_longer q ".") Hs).
Qed.

(** The loop over the entries answers with the scratch directory and
    has removed nothing, or it has removed the scratch directory. *)
Lemma extract_loop_outcome es intact w r w' :
  T <> [] ->
  locate w temp_name = Some T ->
  extract_loop temp_name es intact w = (r, w') ->
  match r with
  | Ok t => t = temp_name /\ intact = true /\ keeps (w_root w) (w_root w')
  | Err _ => stat T (w_root w') = None
  end.
Proof.
  intros Hne. revert w. induction es as [|e es IH]; intros w Lt; cbn [extract_loop].
  - destruct intact.
    + intros H. injection H as <- <-. repeat split. intros q s Hs. eauto.
    + intros H. apply bind_inv in H as (x & w1 & H1 & H). injection H as <- <-.
      exact (RemoveAll_temp_gone _ _ _ Hne Lt H1).
  - intros H. apply bind_inv in H as (err & w1 & He & H).
    destruct (extract_entry_keeps _ _ _ _ He) as [C1 K1].
    pose proof (locate_keeps _ _ _ _ C1 K1 Lt) as Lt1.
    destruct err as [er|].
    + apply bind_inv in H as (x & w2 & H1 & H). injection H as <- <-.
      exact (RemoveAll_temp_gone _ _ _ Hne Lt1 H1).
    + specialize (IH _ Lt1 H). destruct r as [t|er]; [|exact IH].
      destruct IH as (-> & -> & K). repeat split.
      exact (keeps_trans _ _ _ K1 K).
Qed.

End DownloadFacts.

(** X12.  A download that the server refuses leaves no trace.  When
    there is no response, the status is not 200 or the body is not a
    gzip stream, [downloadGitHubRepo] answers with the error of that
    case (the status is looked at before the body), and every location
    of the file system is what it was: the scratch directory was
    created and removed again.  The same holds when the scratch
    directory cannot be created. *)
Theorem X12_refused_download_leaves_no_trace
    (temp_name : string) (response : HttpResult) (T : list string)
    (owner repo branch : string) (w : World) :
  rooted temp_name = true ->
  resolve [] temp_name = Some T ->
  (forall tr, response <> Response http_StatusOK (Some tr)) ->
  let r := fst (downloadGitHubRepo temp_name response owner repo branch w) in
  let w' := snd (downloadGitHubRepo temp_name response owner repo branch w) in
  (r = Err (ErrFS "mkdirtemp" temp_name)
   \/ r = Err match response with
              | NoResponse => ErrTransport
              | Response code body =>
                  if (code =? http_StatusOK)%Z then ErrGzip else ErrDownloadStatus code
              end)
  /\ (forall q, stat q (w_root w') = stat q (w_root w))
  /\ w_cwd w' = w_cwd w.
Proof.
  intros Hr Ht Hresp r w'.
  destruct (downloadGitHubRepo temp_name response owner repo branch w) as [r0 w0] eqn:H.
  subst r w'. cbn [fst snd]. unfold downloadGitHubRepo in H.
  apply bind_inv in H as (r1 & w1 & H1 & H).
  assert (forall t0, r1 = Ok t0 -> locate w1 temp_name = Some T) as Lt
      by (intros t0 ->; exact (MkdirTemp_locate _ _ Hr Ht _ _ _ _ _ H1)).
  apply (MkdirTemp_spec _ _ Hr Ht) in H1 as ((C1 & U1 & L1) & X1).
  destruct r1 as [tempDir|er].
  - specialize (Lt _ eq_refl). destruct X1 as (-> & Hne & Hfresh & _ & F1).
    apply bind_inv in H as (resp & w2 & Hg & H). injection Hg as <- <-.
    assert (forall e x w3, os_RemoveAll temp_name (record_call x w1) = (e, w3) ->
              (forall q, stat q (w_root w3) = stat q (w_root w)) /\ w_cwd w3 = w_cwd w) as Rm.
    { intros e x w3 Hrm. split.
      - refine (scratch_removed _ _ w w1 (record_call x w1) w3 e Hne Hfresh F1 _ Lt Hrm).
        reflexivity.
      - apply os_RemoveAll_spec in Hrm as ((C & _) & _). now rewrite C. }
    destruct response as [|code body].
    + apply bind_inv in H as (x & w3 & Hrm & H). injection H as <- <-.
      split; [now right|]. exact (Rm _ _ _ Hrm).
    + destruct (code =? http_StatusOK)%Z eqn:Ec; cbn [negb] in H.
      * destruct body as [tr|].
        { exfalso. apply Z.eqb_eq in Ec. subst code. now apply (Hresp tr). }
        apply bind_inv in H as (x & w3 & Hrm & H). injection H as <- <-.
        split; [now right|]. exact (Rm _ _ _ Hrm).
      * apply bind_inv in H as (x & w3 & Hrm & H). injection H as <- <-.
        split; [now right|]. exact (Rm _ _ _ Hrm).
  - injection H as <- <-. destruct X1 as [-> R1].
    split; [now left|]. split; [intros q; now rewrite R1 | assumption].
Qed.

Lemma X12_refused_download_leaves_no_trace_witness :
  let run := downloadGitHubRepo "/tmp/galaplate-1" (Response 404 None)
                                "galaplate" "galaplate" "main" demo_world in
  fst run = Err (ErrDownloadStatus 404)
  /\ stat ["tmp"; "galaplate-1"] (w_root (snd run)) = None
  /\ stat ["home"; "u"; "demo"; "notes.txt"] (w_root (snd run))
     = Some (SFile perm_0644 "keep me").
Proof.
  intros run. split; [vm_compute; reflexivity|].
  destruct (X12_refused_download_leaves_no_trace
              "/tmp/galaplate-1" (Response 404 None) ["tmp"; "galaplate-1"]
              "galaplate" "galaplate" "main" demo_world) as (_ & Same & _).
  - reflexivity.
  - reflexivity.
  - discriminate.
  - fold run in Same. now rewrite !Same.
Defined.

(** A download that fails has removed the scratch directory. *)
Lemma failed_download_gone
    (temp_name : string) (response : HttpResult) (T : list string)
    (owner repo branch : string) (w w' : World) (e : error) :
  rooted temp_name = true ->
  resolve [] temp_name = Some T ->
  stat T (w_root w) = None ->
  downloadGitHubRepo temp_name response owner repo branch w = (Err e, w') ->
  stat T (w_root w') = None.
Proof.
  intros Hr Ht Hfresh H. unfold downloadGitHubRepo in H.
  apply bind_inv in H as (r1 & w1 & H1 & H).
  assert (forall t0, r1 = Ok t0 -> locate w1 temp_name = Some T) as Lt
      by (intros t0 ->; exact (MkdirTemp_locate _ _ Hr Ht _ _ _ _ _ H1)).
  apply (MkdirTemp_spec _ _ Hr Ht) in H1 as (_ & X1).
  destruct r1 as [tempDir|er].
  - specialize (Lt _ eq_refl). destruct X1 as (-> & Hne & _).
    apply bind_inv in H as (resp & w2 & Hg & H). injection Hg as <- <-.
    destruct response as [|code body].
    + apply bind_inv in H as (x & w3 & Hrm & H). injection H as _ <-.
      exact (RemoveAll_temp_gone _ _ (record_call _ w1) _ _ Hne Lt Hrm).
    + destruct (negb _).
      * apply bind_inv in H as (x & w3 & Hrm & H). injection H as _ <-.
        exact (RemoveAll_temp_gone _ _ (record_call _ w1) _ _ Hne Lt Hrm).
      * destruct body as [tr|].
        { exact (extract_loop_outcome _ _ _ _ (record_call _ w1) _ _ Hne Lt H). }
        apply bind_inv in H as (x & w3 & Hrm & H). injection H as _ <-.
        exact (RemoveAll_temp_gone _ _ (record_call _ w1) _ _ Hne Lt Hrm).
  - injection H as _ <-. destruct X1 as [_ R1]. now rewrite R1.
Qed.

(** What a download that succeeds has done. *)
Lemma successful_download_facts
    (temp_name : string) (response : HttpResult) (T : list string)
    (owner repo branch : string) (w w' : World) (t : string) :
  rooted temp_name = true ->
  resolve [] temp_name = Some T ->
  downloadGitHubRepo temp_name response owner repo branch w = (Ok t, w') ->
  t = temp_name
  /\ (exists tr, response = Response http_StatusOK (Some tr) /\ intact tr = true)
  /\ stat T (w_root w) = None
  /\ (exists m, stat T (w_root w') = Some (SDir m))
  /\ keeps (w_root w) (w_root w').
Proof.
  intros Hr Ht H. unfold downloadGitHubRepo in H.
  apply bind_inv in H as (r1 & w1 & H1 & H).
  assert (forall t0, r1 = Ok t0 -> locate w1 temp_name = Some T) as Lt
      by (intros t0 ->; exact (MkdirTemp_locate _ _ Hr Ht _ _ _ _ _ H1)).
  apply (MkdirTemp_spec _ _ Hr Ht) in H1 as (_ & X1).
  destruct r1 as [tempDir|er]; [|discriminate H].
  specialize (Lt _ eq_refl). destruct X1 as (-> & Hne & Hfresh & Hdir & F1).
  apply bind_inv in H as (resp & w2 & Hg & H). injection Hg as <- <-.
  destruct response as [|code body].
  { apply bind_inv in H as (x & w3 & _ & H). discriminate H. }
  destruct (code =? http_StatusOK)%Z eqn:Ec; cbn [negb] in H;
    [|apply bind_inv in H as (x & w3 & _ & H); discriminate H].
  apply Z.eqb_eq in Ec. subst code.
  destruct body as [tr|]; [|apply bind_inv in H as (x & w3 & _ & H); discriminate H].
  apply (extract_loop_outcome _ _ _ _ (record_call _ w1) _ _ Hne Lt) in H as (-> & Hin & K).
  change (w_root (record_call (CallHttpGet
            ("https://github.com/" +++ owner +++ "/" +++ repo +++ "/archive/refs/heads/"
             +++ branch +++ ".tar.gz")) w1)) with (w_root w1) in K.
  split; [reflexivity|]. split; [eauto|]. split; [assumption|]. split.
  - destruct (K _ _ Hdir) as (s' & E & Ks). destruct s' as [m d|m]; [discriminate Ks|]. eauto.
  - intros q s Hs.
    assert (q <> T) as Hq by (intros ->; congruence).
    rewrite <- (F1 q Hq) in Hs. exact (K q s Hs).
Qed.

(** X13.  A download that fails leaves no scratch directory behind:
    when no file or directory has the name of the scratch directory
    before the download, none has it after a download that ends with an
    error, whatever the archive held and wherever the error came
    from. *)
Theorem X13_failed_download_removes_scratch
    (temp_name : string) (response : HttpResult) (T : list string)
    (owner repo branch : string) (w w' : World) (e : error) :
  rooted temp_name = true ->
  resolve [] temp_name = Some T ->
  stat T (w_root w) = None ->
  downloadGitHubRepo temp_name response owner repo branch w = (Err e, w') ->
  stat T (w_root w') = None.
Proof. apply failed_download_gone. Qed.

Lemma X13_failed_download_removes_scratch_witness :
  let cut := mkStream [dir_entry "galaplate-main/" perm_0755;
                       reg_entry "galaplate-main/go.mod" perm_0644 go_mod_text] false in
  let run := downloadGitHubRepo "/tmp/galaplate-1" (Response 200 (Some cut))
                                "galaplate" "galaplate" "main" demo_world in
  fst run = Err ErrTar /\ stat ["tmp"; "galaplate-1"] (w_root (snd run)) = None.
Proof.
  intros cut run. split; [vm_compute; reflexivity|].
  apply (X13_failed_download_removes_scratch
           "/tmp/galaplate-1" (Response 200 (Some cut)) ["tmp"; "galaplate-1"]
           "galaplate" "galaplate" "main" demo_world (snd run) ErrTar).
  - reflexivity.
  - reflexivity.
  - reflexivity.
  - vm_compute. reflexivity.
Defined.

(** X14.  A download succeeds only when the server answered with
    status 200 and a gzip stream and the archive was read to its end
    without an error.  It then answers with the name of the scratch
    directory, which did not exist before and is a directory now, and
    it has removed nothing: what was a file is a file, what was a
    directory is a directory. *)
Theorem X14_successful_download
    (temp_name : string) (response : HttpResult) (T : list string)
    (owner repo branch : string) (w w' : World) (t : string) :
  rooted temp_name = true ->
  resolve [] temp_name = Some T ->
  downloadGitHubRepo temp_name response owner repo branch w = (Ok t, w') ->
  t = temp_name
  /\ (exists tr, response = Response http_StatusOK (Some tr) /\ intact tr = true)
  /\ stat T (w_root w) = None
  /\ (exists m, stat T (w_root w') = Some (SDir m))
  /\ keeps (w_root w) (w_root w').
Proof. apply successful_download_facts. Qed.

Lemma X14_successful_download_witness :
  let run := downloadGitHubRepo "/tmp/galaplate-1" (Response 200 (Some demo_archive))
                                "galaplate" "galaplate" "main" demo_world in
  fst run = Ok "/tmp/galaplate-1"
  /\ exists m, stat ["tmp"; "galaplate-1"] (w_root (snd run)) = Some (SDir m).
Proof.
  intros run. split; [vm_compute; reflexivity|].
  destruct (X14_successful_download
              "/tmp/galaplate-1" (Response 200 (Some demo_archive)) ["tmp"; "galaplate-1"]
              "galaplate" "galaplate" "main" demo_world (snd run) "/tmp/galaplate-1")
    as (_ & _ & _ & D & _).
  - reflexivity.
  - reflexivity.
  - vm_compute. reflexivity.
  - exact D.
Defined.

(* ===================================================================== *)
(** * The calls of the program *)
(* ===================================================================== *)

Section TraceOfTheProgram.

Variable P : Call -> bool.

(** The calls P must allow: all but the runs of the tools and the
    removals. *)
Hypothesis P_plain :
  forall c, match c with CallRun _ _ | CallRemoveAll _ => True | _ => P c = true end.

Lemma P_MkdirAll path perm : P (CallMkdirAll path perm) = true.
Proof. exact (P_plain (CallMkdirAll path perm)). Qed.

Lemma trace_copyFile src dest opts : preserves (calls_are P) (copyFile src dest opts).
Proof.
  pose proof (P_plain (CallOpen src)). pose proof (P_plain (CallCreate dest)).
  pose proof (P_plain (CallReadAll src)). pose proof (P_plain (CallCopy dest src)).
  pose proof (P_MkdirAll (filepath_Dir dest) perm_0755).
  unfold copyFile.
  repeat first
    [ apply preserves_ret; apply calls_are_refl
    | apply trace_MkdirAll; assumption | apply trace_Create; assumption
    | apply trace_Open; assumption | apply trace_ReadAll; assumption
    | apply trace_Copy; assumption
    | apply trace_WriteFile; apply (P_plain (CallWriteFile _ _ _))
    | apply preserves_bind; [apply calls_are_trans | | intros ?]
    | match goal with
      | |- preserves _ (match ?x with _ => _ end) => destruct x
      end ].
Qed.

Lemma trace_copyProjectFiles srcRoot destDir opts :
  preserves (calls_are P) (copyProjectFiles srcRoot destDir opts).
Proof.
  unfold copyProjectFiles. apply trace_Walk; [exact (P_plain (CallWalk srcRoot))|].
  intros path info err. unfold copy_visit.
  repeat first
    [ apply preserves_ret; apply calls_are_refl
    | apply trace_MkdirAll; apply P_MkdirAll
    | apply trace_copyFile
    | match goal with
      | |- preserves _ (match ?x with _ => _ end) => destruct x
      end ].
Qed.

Lemma trace_extract_entry tempDir e : preserves (calls_are P) (extract_entry tempDir e).
Proof.
  unfold extract_entry.
  repeat first
    [ apply preserves_ret; apply calls_are_refl
    | apply trace_MkdirAll; apply P_MkdirAll
    | apply trace_Create; apply (P_plain (CallCreate _))
    | apply trace_Chmod; apply (P_plain (CallChmod _ _))
    | apply trace_Copy_entry; apply (P_plain (CallCopyEntry _ _))
    | apply preserves_bind; [apply calls_are_trans | | intros ?]
    | match goal with
      | |- preserves _ (match ?x with _ => _ end) => destruct x
      end ].
Qed.

Variable temp_name : string.
Variable response : HttpResult.
Variable run_tool : string -> list string -> list string -> node -> bool * node.

Hypothesis P_temp : P (CallRemoveAll temp_name) = true.
Hypothesis P_go : P (CallRun "go" ["mod"; "tidy"]) = true.

Lemma trace_extract_loop es intact :
  preserves (calls_are P) (extract_loop temp_name es intact).
Proof.
  induction es as [|e es IH]; cbn [extract_loop].
  - destruct intact; [apply preserves_ret; apply calls_are_refl|].
    apply preserves_bind; [apply calls_are_trans | now apply trace_RemoveAll|].
    intros ?. apply preserves_ret; apply calls_are_refl.
  - apply preserves_bind; [apply calls_are_trans | apply trace_extract_entry|].
    intros [er|]; [|exact IH].
    apply preserves_bind; [apply calls_are_trans | now apply trace_RemoveAll|].
    intros ?. apply preserves_ret; apply calls_are_refl.
Qed.

Lemma trace_download owner repo branch :
  preserves (calls_are P) (downloadGitHubRepo temp_name response owner repo branch).
Proof.
  unfold downloadGitHubRepo.
  apply (preserves_bind_post _ (fun r => forall t, r = Ok t -> t = temp_name)).
  - apply calls_are_trans.
  - apply trace_MkdirTemp. exact (P_plain (CallMkdirTemp _ _)).
  - intros w r w' H t ->. exact (MkdirTemp_result _ _ _ _ _ _ H).
  - intros [tempDir|er] Ht; [|apply preserves_ret; apply calls_are_refl].
    rewrite (Ht _ eq_refl).
    apply preserves_bind; [apply calls_are_trans | |].
    { apply trace_http_Get. exact (P_plain (CallHttpGet _)). }
    intros [|code body];
      repeat first
        [ apply preserves_ret; apply calls_are_refl
        | apply trace_RemoveAll; exact P_temp
        | apply trace_extract_loop
        | apply preserves_bind; [apply calls_are_trans | | intros ?]
        | match goal with
          | |- preserves _ (match ?x with _ => _ end) => destruct x
          end ].
Qed.

Lemma trace_setupProject opts :
  opt_NoGit opts = true \/ (forall a, P (CallRun "git" a) = true) ->
  preserves (calls_are P) (setupProject run_tool opts).
Proof.
  intros Hgit. unfold setupProject.
  apply preserves_bind; [apply calls_are_trans | apply trace_Getwd; exact (P_plain CallGetwd)|].
  intros [originalDir|er]; [|apply preserves_ret; apply calls_are_refl].
  apply preserves_bind;
    [apply calls_are_trans | apply trace_Chdir; exact (P_plain (CallChdir _))|].
  intros [er|].
  { apply preserves_bind;
      [apply calls_are_trans | apply trace_Chdir; exact (P_plain (CallChdir _))|].
    intros ?. apply preserves_ret; apply calls_are_refl. }
  apply preserves_bind; [apply calls_are_trans | |].
  { destruct Hgit as [->|Hgit]; [apply preserves_ret; apply calls_are_refl|].
    destruct (negb (opt_NoGit opts)); [|apply preserves_ret; apply calls_are_refl].
    repeat first
      [ apply preserves_ret; apply calls_are_refl
      | apply trace_exec_Run; apply Hgit
      | apply preserves_bind; [apply calls_are_trans | | intros ?]
      | match goal with
        | |- preserves _ (match ?x with _ => _ end) => destruct x
        end ]. }
  intros ?.
  repeat first
    [ apply preserves_ret; apply calls_are_refl
    | apply trace_exec_Run; exact P_go
    | apply trace_Chdir; exact (P_plain (CallChdir _))
    | apply preserves_bind; [apply calls_are_trans | | intros ?] ].
Qed.

Lemma trace_create opts :
  opt_NoGit opts = true \/ (forall a, P (CallRun "git" a) = true) ->
  preserves (calls_are P) (createProjectFromGitHub temp_name response run_tool opts).
Proof.
  intros Hgit. unfold createProjectFromGitHub.
  apply (preserves_bind_post _ (fun r => forall t, r = Ok t -> t = temp_name)).
  - apply calls_are_trans.
  - apply trace_download.
  - intros w r w' H t ->. exact (download_result _ _ _ _ _ _ _ _ H).
  - intros [tempDir|er] Ht; [|apply preserves_ret; apply calls_are_refl].
    rewrite (Ht _ eq_refl).
    repeat first
      [ apply preserves_ret; apply calls_are_refl
      | apply trace_MkdirAll; apply P_MkdirAll
      | apply trace_copyProjectFiles
      | apply trace_setupProject; exact Hgit
      | apply trace_RemoveAll; exact P_temp
      | apply preserves_bind; [apply calls_are_trans | | intros ?]
      | match goal with
        | |- preserves _ (match ?x with _ => _ end) => destruct x
        end ].
Qed.

Lemma trace_handle args :
  opt_NoGit (parseProjectArgs args) = true \/ (forall a, P (CallRun "git" a) = true) ->
  preserves (calls_are P) (handleNewProject temp_name response run_tool args).
Proof.
  intros Hgit. unfold handleNewProject.
  destruct (Datatypes.length args =? 0)%nat; [apply preserves_ret; apply calls_are_refl|].
  apply preserves_bind; [apply calls_are_trans | apply trace_Stat; exact (P_plain (CallStat _))|].
  intros [fi|er]; [|now apply trace_create].
  destruct (negb _); [apply preserves_ret; apply calls_are_refl | now apply trace_create].
Qed.

End TraceOfTheProgram.

(** X15.  With [--no-git] among the arguments the whole operation runs
    no [git] command, whatever happens on the way. *)
Theorem X15_no_git_means_no_git
    (temp_name : string) (response : HttpResult)
    (run_tool : string -> list string -> list string -> node -> bool * node)
    (name : string) (flags : list string) (w : World) :
  In "--no-git" flags ->
  exists cs,
    w_calls (snd (handleNewProject temp_name response run_tool (name :: flags) w))
    = w_calls w ++ cs
    /\ forall a, ~ In (CallRun "git" a) cs.
Proof.
  intros Hflag.
  destruct (handleNewProject temp_name response run_tool (name :: flags) w) as [e w'] eqn:H.
  assert (opt_NoGit (parseProjectArgs (name :: flags)) = true) as Hng.
  { unfold parseProjectArgs. cbn [hd tl]. rewrite parse_flags_NoGit.
    cbn [opt_NoGit orb]. now apply existsb_eqb_In. }
  destruct (trace_handle (fun c => negb (is_git_run c))
              (fun c => match c with CallRun _ _ | CallRemoveAll _ => I | _ => eq_refl end)
              temp_name response run_tool eq_refl eq_refl (name :: flags) (or_introl Hng)
              _ _ _ H) as (cs & L & F).
  exists cs. split; [exact L|]. intros a Hin.
  rewrite forallb_forall in F. specialize (F _ Hin). discriminate F.
Qed.

Lemma X15_no_git_means_no_git_witness :
  exists cs,
    w_calls (snd (handleNewProject "/tmp/galaplate-1" (Response 200 (Some demo_archive)) no_tool
                    ["demo"; "--force"; "--no-git"] demo_world))
    = w_calls demo_world ++ cs
    /\ forall a, ~ In (CallRun "git" a) cs.
Proof.
  apply (X15_no_git_means_no_git "/tmp/galaplate-1" (Response 200 (Some demo_archive)) no_tool
           "demo" ["--force"; "--no-git"] demo_world).
  simpl. tauto.
Defined.

(** X16.  The only thing the operation ever asks to remove is the
    scratch directory: every [os.RemoveAll] of a run, whatever the
    arguments, the archive and the tools, names the directory that
    [os.MkdirTemp] answered with. *)
Theorem X16_only_the_scratch_directory_is_removed
    (temp_name : string) (response : HttpResult)
    (run_tool : string -> list string -> list string -> node -> bool * node)
    (args : list string) (w : World) :
  exists cs,
    w_calls (snd (handleNewProject temp_name response run_tool args w)) = w_calls w ++ cs
    /\ forall p, In (CallRemoveAll p) cs -> p = temp_name.
Proof.
  destruct (handleNewProject temp_name response run_tool args w) as [e w'] eqn:H.
  destruct (trace_handle (fun c => negb (removes_other_than temp_name c))
              (fun c => match c with CallRun _ _ | CallRemoveAll _ => I | _ => eq_refl end)
              temp_name response run_tool) with (args := args) (w := w) (a := e) (w' := w')
    as (cs & L & F).
  - cbn [removes_other_than]. now rewrite String.eqb_refl.
  - reflexivity.
  - right. reflexivity.
  - exact H.
  - exists cs. split; [exact L|]. intros p Hin.
    rewrite forallb_forall in F. specialize (F _ Hin). cbn [removes_other_than] in F.
    apply negb_true_iff, negb_false_iff in F. now apply String.eqb_eq in F.
Qed.

(* ===================================================================== *)
(** * The setup of the project *)
(* ===================================================================== *)

Section SetupFacts.

Variable run_tool : string -> list string -> list string -> node -> bool * node.

Lemma os_Chdir_eq path w :
  os_Chdir path w
  = match locate w path with
    | Some p =>
        match lookup p (w_root w) with
        | Some (Dir _ _) => (None, set_cwd (record_call (CallChdir path) w) p)
        | _ => (Some (ErrFS "chdir" path), record_call (CallChdir path) w)
        end
    | None => (Some (ErrFS "chdir" path), record_call (CallChdir path) w)
    end.
Proof. reflexivity. Qed.

Lemma os_Chdir_root path w e w' : os_Chdir path w = (e, w') -> w_root w' = w_root w.
Proof.
  rewrite os_Chdir_eq. destruct (locate _ path) as [p|]; [|intros H; now injection H as _ <-].
  destruct (lookup p _) as [[m d|m es]|]; intros H; now injection H as _ <-.
Qed.

Lemma os_Chdir_calls path w e w' :
  os_Chdir path w = (e, w') -> w_calls w' = w_calls w ++ [CallChdir path].
Proof.
  rewrite os_Chdir_eq. destruct (locate _ path) as [p|]; [|intros H; now injection H as _ <-].
  destruct (lookup p _) as [[m d|m es]|]; intros H; now injection H as _ <-.
Qed.

(** The absolute path [os.Getwd] answers with names the working
    directory. *)
Lemma resolve_render cwd cwd0 :
  Forall (fun s => is_name s = true) cwd0 -> resolve cwd (render true cwd0) = Some cwd0.
Proof.
  intros H.
  assert (Forall (fun e => is_kept e = true) cwd0) as K
      by (eapply Forall_impl; [|exact H]; intros a; apply is_name_kept).
  pose proof (rooted_render true _ K) as R. pose proof (render_not_empty true _ K) as N.
  unfold resolve. destruct (render true cwd0) as [|c s] eqn:E; [congruence|].
  rewrite R, <- E, (follow_Split_render true [] cwd0 K). f_equal. exact (follow_names [] _ H).
Qed.

Lemma locate_render w cwd0 :
  Forall (fun s => is_name s = true) cwd0 -> locate w (render true cwd0) = Some cwd0.
Proof.
  intros H. rewrite locate_tidy; [now apply resolve_render|].
  apply tidy_render.
  - eapply Forall_impl; [|exact H]. intros a. apply is_name_kept.
  - apply tidy_names. apply forallb_forall. intros x Hx.
    rewrite Forall_forall in H. now rewrite (is_name_not_special _ (H _ Hx)).
Qed.

(** Every run of [setupProject] ends with the [os.Chdir] to the
    directory it started in. *)
Lemma setup_ends_with_chdir opts w e w' :
  setupProject run_tool opts w = (e, w') ->
  exists w1 x, os_Chdir (render true (w_cwd w)) w1 = (x, w').
Proof.
  unfold setupProject. intros H.
  apply bind_inv in H as (r & w0 & H0 & H). injection H0 as <- <-.
  apply bind_inv in H as ([er|] & w1 & _ & H).
  - apply bind_inv in H as (x & w2 & Hc & H). injection H as _ <-. eauto.
  - apply bind_inv in H as (x1 & w2 & _ & H).
    apply bind_inv in H as (x2 & w3 & _ & H).
    apply bind_inv in H as (x3 & w4 & Hc & H). injection H as _ <-. eauto.
Qed.

End SetupFacts.

(** X17.  [setupProject] fails only when it cannot enter the project
    directory, and then it has run no tool and changed nothing.  Once it
    is in the project directory it succeeds whatever the tools answer: a
    failure of [git] or of [go mod tidy] is not an error of the
    operation.  (In the model [os.Getwd] always answers; in the program
    its failure is the one other error of [setupProject].) *)
Theorem X17_setup_fails_only_at_chdir
    (run_tool : string -> list string -> list string -> node -> bool * node)
    (opts : ProjectOptions) (w : World) :
  let r := fst (setupProject run_tool opts w) in
  let w' := snd (setupProject run_tool opts w) in
  match node_at w (opt_Name opts) with
  | Some (Dir _ _) => r = None
  | _ =>
      r = Some (ErrFS "chdir" (opt_Name opts))
      /\ w_root w' = w_root w
      /\ w_calls w' = w_calls w ++ [CallGetwd; CallChdir (opt_Name opts);
                                    CallChdir (render true (w_cwd w))]
  end.
Proof.
  intros r w'. subst r w'.
  destruct (setupProject run_tool opts w) as [e w'] eqn:H. cbn [fst snd].
  unfold setupProject in H.
  apply bind_inv in H as (r & w0 & H0 & H). injection H0 as <- <-.
  apply bind_inv in H as (err & w1 & H1 & H).
  rewrite os_Chdir_eq, locate_record in H1.
  change (w_root (record_call CallGetwd w)) with (w_root w) in H1.
  unfold node_at.
  assert (err = Some (ErrFS "chdir" (opt_Name opts)) ->
          w1 = record_call (CallChdir (opt_Name opts)) (record_call CallGetwd w) ->
          e = Some (ErrFS "chdir" (opt_Name opts))
          /\ w_root w' = w_root w
          /\ w_calls w' = w_calls w ++ [CallGetwd; CallChdir (opt_Name opts);
                                        CallChdir (render true (w_cwd w))]) as Fail.
  { intros -> ->. apply bind_inv in H as (x & w2 & Hc & H). injection H as <- <-.
    split; [reflexivity|]. split.
    - now rewrite (os_Chdir_root _ _ _ _ Hc).
    - rewrite (os_Chdir_calls _ _ _ _ Hc). cbn [w_calls record_call].
      rewrite <- !app_assoc. reflexivity. }
  destruct (locate w (opt_Name opts)) as [p|];
    [|injection H1 as <- <-; now apply Fail].
  destruct (lookup p (w_root w)) as [[m d|m es]|]; injection H1 as <- <-;
    try (now apply Fail).
  apply bind_inv in H as (x1 & w2 & _ & H).
  apply bind_inv in H as (x2 & w3 & _ & H).
  apply bind_inv in H as (x3 & w4 & _ & H). now injection H as <- _.
Qed.

(** X18.  [setupProject] leaves the process in the directory in which
    it started, as long as that directory is still there at the end: the
    last thing every run does is the [os.Chdir] back to the path that
    [os.Getwd] answered with at the start. *)
Theorem X18_setup_returns_to_the_directory
    (run_tool : string -> list string -> list string -> node -> bool * node)
    (opts : ProjectOptions) (w : World) :
  Forall (fun s => is_name s = true) (w_cwd w) ->
  let w' := snd (setupProject run_tool opts w) in
  (exists m es, lookup (w_cwd w) (w_root w') = Some (Dir m es)) ->
  w_cwd w' = w_cwd w.
Proof.
  intros Hcwd w'. subst w'.
  destruct (setupProject run_tool opts w) as [e w'] eqn:H. cbn [snd].
  intros (m & es & Hdir).
  apply setup_ends_with_chdir in H as (w1 & x & Hc).
  pose proof (os_Chdir_root _ _ _ _ Hc) as R. rewrite R in Hdir.
  rewrite os_Chdir_eq, (locate_render _ _ Hcwd), Hdir in Hc.
  now injection Hc as _ <-.
Qed.

Lemma X18_setup_returns_to_the_directory_witness :
  w_cwd (snd (setupProject no_tool demo_opts demo_world)) = ["home"; "u"].
Proof.
  apply (X18_setup_returns_to_the_directory no_tool demo_opts demo_world).
  - repeat constructor.
  - vm_compute. eauto.
Defined.

(* ===================================================================== *)
(** * The create operation as a whole *)
(* ===================================================================== *)

Section OperationFacts.

Variable temp_name : string.
Variable response : HttpResult.
Variable run_tool : string -> list string -> list string -> node -> bool * node.

(** The run of [createProjectFromGitHub] after a download that
    succeeded: the three stages, then the removal of the scratch
    directory. *)
Lemma create_after_download opts w e w' :
  createProjectFromGitHub temp_name response run_tool opts w = (e, w') ->
  (exists e0, e = Some (ErrFailedTo "download template" e0)
              /\ downloadGitHubRepo temp_name response "galaplate" "galaplate" "main" w
                 = (Err e0, w'))
  \/ exists w1 e1 w2 res w3 x,
       downloadGitHubRepo temp_name response "galaplate" "galaplate" "main" w
       = (Ok temp_name, w1)
       /\ os_MkdirAll (opt_Name opts) perm_0755 w1 = (e1, w2)
       /\ (forall er, e1 = Some er -> res = Some (ErrFailedTo "create project directory" er))
       /\ (res = None \/ exists what e0, res = Some (ErrFailedTo what e0) /\ In what stages)
       /\ os_RemoveAll temp_name w3 = (x, w') /\ e = res.
Proof.
  unfold createProjectFromGitHub. intros H.
  apply bind_inv in H as (r & w1 & H1 & H).
  destruct r as [tempDir|er]; [|injection H as <- <-; left; eauto].
  pose proof (download_result _ _ _ _ _ _ _ _ H1) as Et. subst tempDir.
  right.
  apply bind_inv in H as (res & w3 & Hin & H).
  apply bind_inv in H as (x & w4 & Hrm & H). injection H as <- <-.
  apply bind_inv in Hin as (e1 & w2 & Hmk & Hin).
  exists w1, e1, w2, res, w3, x.
  split; [assumption|]. split; [assumption|].
  destruct e1 as [er|].
  { injection Hin as <- _. split; [intros ? [= <-]; reflexivity|].
    split; [right; eexists _, _; split; [reflexivity | simpl; tauto] | now split]. }
  split; [discriminate|]. split; [|now split].
  apply bind_inv in Hin as ([er|] & w5 & _ & Hin).
  { injection Hin as <- _. right. eexists _, _. split; [reflexivity | simpl; tauto]. }
  apply bind_inv in Hin as ([er|] & w6 & _ & Hin); injection Hin as <- _.
  - right. eexists _, _. split; [reflexivity | simpl; tauto].
  - now left.
Qed.

End OperationFacts.

(** X19.  The scratch directory never outlives the operation: when no
    file or directory has its name before [handleNewProject], none has
    it afterwards, whether the operation succeeded or failed, and at
    whatever stage, and whatever the tools did.  (The scratch directory
    is given by a clean path: through a path with [..] after a name the
    kernel does not find it any more once a tool has removed the
    directory of that name.) *)
Theorem X19_scratch_never_outlives_the_run
    (temp_name : string) (response : HttpResult)
    (run_tool : string -> list string -> list string -> node -> bool * node)
    (T : list string) (args : list string) (w : World) :
  rooted temp_name = true ->
  filepath_Clean temp_name = temp_name ->
  resolve [] temp_name = Some T ->
  stat T (w_root w) = None ->
  stat T (w_root (snd (handleNewProject temp_name response run_tool args w))) = None.
Proof.
  intros Hr Hclean Ht Hfresh.
  assert (T <> []) as Hne by (intros ->; discriminate Hfresh).
  assert (forall w0, locate w0 temp_name = Some T) as Lt.
  { intros w0. rewrite locate_tidy by (rewrite <- Hclean; apply tidy_Clean).
    now rewrite (resolve_rooted _ [] _ Hr). }
  destruct (handleNewProject temp_name response run_tool args w) as [e w'] eqn:H. cbn [snd].
  unfold handleNewProject in H.
  destruct (Datatypes.length args =? 0)%nat; [now injection H as _ <-|].
  apply bind_inv in H as (st & w0 & Hst & H).
  rewrite os_Stat_eq in Hst. injection Hst as _ <-.
  assert (forall opts,
             createProjectFromGitHub temp_name response run_tool opts
               (record_call (CallStat (opt_Name (parseProjectArgs args))) w) = (e, w') ->
             stat T (w_root w') = None) as K.
  { intros opts Hc.
    apply create_after_download in Hc
      as [(e0 & _ & Hd)|(w1 & e1 & w2 & res & w3 & x & _ & _ & _ & _ & Hrm & _)].
    - exact (failed_download_gone _ _ _ _ _ _ (record_call _ w) _ _ Hr Ht Hfresh Hd).
    - exact (RemoveAll_temp_gone _ _ _ _ _ Hne (Lt _) Hrm). }
  destruct st as [fi|er]; [|now apply K in H].
  destruct (negb _); [now injection H as _ <- | now apply K in H].
Qed.

Lemma X19_scratch_never_outlives_the_run_witness :
  stat ["tmp"; "galaplate-1"]
       (w_root (snd (handleNewProject "/tmp/galaplate-1" (Response 200 (Some hostile_archive))
                       no_tool ["demo"; "--force"] demo_world))) = None.
Proof.
  apply (X19_scratch_never_outlives_the_run
           "/tmp/galaplate-1" (Response 200 (Some hostile_archive)) no_tool
           ["tmp"; "galaplate-1"] ["demo"; "--force"] demo_world); reflexivity.
Defined.

(** X20.  What the error of the create operation tells.  There is no
    error only if a name was given.  "project name is required" is
    answered exactly for an empty argument list; "directory ... already
    exists" only when something (a directory or a file) has the name of
    the project and [--force] was not given; every other error is that
    of one of the four stages (download template, create project
    directory, copy project files, setup project), and comes only when
    the name was free or [--force] was given. *)
Theorem X20_what_an_error_tells
    (temp_name : string) (response : HttpResult)
    (run_tool : string -> list string -> list string -> node -> bool * node)
    (args : list string) (w : World) :
  let opts := parseProjectArgs args in
  match fst (handleNewProject temp_name response run_tool args w) with
  | None => args <> []
  | Some ErrProjectNameRequired => args = []
  | Some (ErrDirectoryExists n) =>
      args <> [] /\ n = opt_Name opts /\ node_at w n <> None /\ opt_Force opts = false
  | Some (ErrFailedTo what _) =>
      args <> [] /\ In what stages
      /\ (node_at w (opt_Name opts) = None \/ opt_Force opts = true)
  | Some _ => False
  end.
Proof.
  intros opts.
  destruct (handleNewProject temp_name response run_tool args w) as [e w'] eqn:H. cbn [fst].
  unfold handleNewProject in H. fold opts in H.
  destruct args as [|a args]; [now injection H as <- _|].
  change (Datatypes.length (a :: args) =? 0)%nat with false in H. cbv iota in H.
  apply bind_inv in H as (st & w0 & Hst & H).
  rewrite os_Stat_eq in Hst. injection Hst as <- <-.
  assert (createProjectFromGitHub temp_name response run_tool opts
            (record_call (CallStat (opt_Name opts)) w) = (e, w') ->
          node_at w (opt_Name opts) = None \/ opt_Force opts = true ->
          match e with
          | None => a :: args <> []
          | Some (ErrFailedTo what _) =>
              a :: args <> [] /\ In what stages
              /\ (node_at w (opt_Name opts) = None \/ opt_Force opts = true)
          | Some _ => False
          end) as K.
  { intros Hc Hwhy.
    apply create_after_download in Hc
      as [(e0 & -> & _)|(w1 & e1 & w2 & res & w3 & x & _ & _ & _ & Hres & _ & ->)].
    - split; [discriminate|]. split; [simpl; tauto | assumption].
    - destruct Hres as [->|(what & e0 & -> & Hin)]; [discriminate|].
      split; [discriminate|]. now split. }
  destruct (node_at w (opt_Name opts)) as [n|] eqn:En.
  - destruct (opt_Force opts) eqn:Ef; cbn [negb] in H.
    + specialize (K H (or_intror eq_refl)).
      destruct e as [[]|]; try contradiction; exact K.
    + injection H as <- _. repeat split; congruence.
  - specialize (K H (or_introl eq_refl)).
    destruct e as [[]|]; try contradiction; exact K.
Qed.

(** X21.  Where a regular file has the name of the project the
    operation never succeeds.  Without [--force] the answer is
    "directory ... already exists", after the one call of [os.Stat] and
    nothing else.  With [--force] the download is made, and unless it
    fails the project directory cannot be created: [os.MkdirAll] fails,
    since the extraction leaves a file a file. *)
Theorem X21_no_project_over_a_file
    (temp_name : string) (response : HttpResult)
    (run_tool : string -> list string -> list string -> node -> bool * node)
    (T : list string) (name : string) (flags : list string) (w : World) (m : Z) (d : string) :
  rooted temp_name = true ->
  resolve [] temp_name = Some T ->
  node_at w name = Some (File m d) ->
  let run := handleNewProject temp_name response run_tool (name :: flags) w in
  (~ In "--force" flags ->
   run = (Some (ErrDirectoryExists name), record_call (CallStat name) w))
  /\ (In "--force" flags ->
      (exists e0, fst run = Some (ErrFailedTo "download template" e0))
      \/ (exists p, fst run = Some (ErrFailedTo "create project directory"
                                                (ErrFS "mkdir" p)))).
Proof.
  intros Hr Ht Hfile run. subst run.
  destruct (handleNewProject temp_name response run_tool (name :: flags) w) as [e w'] eqn:H.
  cbn [fst]. unfold handleNewProject in H.
  change (Datatypes.length (name :: flags) =? 0)%nat with false in H. cbv iota in H.
  assert (opt_Name (parseProjectArgs (name :: flags)) = name) as En
      by (unfold parseProjectArgs; cbn [hd tl]; apply parse_flags_Name).
  assert (opt_Force (parseProjectArgs (name :: flags)) = true <-> In "--force" flags) as Ef
      by (unfold parseProjectArgs; cbn [hd tl]; rewrite parse_flags_Force;
          cbn [opt_Force orb]; apply existsb_eqb_In).
  rewrite En in H.
  apply bind_inv in H as (st & w0 & Hst & H).
  rewrite os_Stat_eq, Hfile in Hst. injection Hst as <- <-.
  destruct (opt_Force (parseProjectArgs (name :: flags))) eqn:F; cbn [negb] in H.
  - split; [intros N; exfalso; apply N, Ef; reflexivity | intros _].
    apply create_after_download in H
      as [(e0 & -> & _)|(w1 & e1 & w2 & res & w3 & x & Hd & Hmk & Hres & _ & _ & ->)];
      [left; eauto|]. right.
    rewrite En in Hmk.
    destruct e1 as [er|].
    { rewrite (Hres _ eq_refl). apply os_MkdirAll_errors in Hmk as [p ->]. eauto. }
    exfalso.
    pose proof (download_frame _ _ _ Hr Ht _ _ _ _ _ _ Hd) as (C1 & _).
    pose proof (successful_download_facts _ _ _ _ _ _ _ _ _ Hr Ht Hd) as (_ & _ & _ & _ & K).
    change (w_cwd (record_call (CallStat name) w)) with (w_cwd w) in C1.
    change (w_root (record_call (CallStat name) w)) with (w_root w) in K.
    apply node_at_lookup in Hfile as (p & _ & Rp & Lp).
    assert (stat p (w_root w) = Some (SFile m d)) as Hs by (unfold stat; now rewrite Lp).
    pose proof (os_MkdirAll_keeps _ _ _ _ _ Hmk) as K2.
    apply os_MkdirAll_dir in Hmk as (p' & m' & Rp' & Hdir).
    rewrite C1, Rp in Rp'. injection Rp' as <-.
    destruct (K _ _ Hs) as (s1 & E1 & K1). destruct (K2 _ _ E1) as (s2 & E2 & K3).
    rewrite Hdir in E2. injection E2 as <-. simpl in *. congruence.
  - split; [intros _ | intros I; apply Ef in I; discriminate I].
    symmetry. exact H.
Qed.

Lemma X21_no_project_over_a_file_witness :
  fst (handleNewProject "/tmp/galaplate-1" (Response 200 (Some demo_archive)) no_tool
         ["demo/notes.txt"; "--force"] demo_world)
  = Some (ErrFailedTo "create project directory" (ErrFS "mkdir" "demo/notes.txt"))
  /\ handleNewProject "/tmp/galaplate-1" (Response 200 (Some demo_archive)) no_tool
                      ["demo/notes.txt"] demo_world
     = (Some (ErrDirectoryExists "demo/notes.txt"),
        record_call (CallStat "demo/notes.txt") demo_world).
Proof.
  split.
  - destruct (X21_no_project_over_a_file
                "/tmp/galaplate-1" (Response 200 (Some demo_archive)) no_tool
                ["tmp"; "galaplate-1"] "demo/notes.txt" ["--force"] demo_world
                perm_0644 "keep me" eq_refl eq_refl eq_refl) as [_ H].
    destruct (H (or_introl eq_refl)) as [[e0 H1]|[p H1]].
    + exfalso. revert H1. vm_compute. discriminate.
    + vm_compute. reflexivity.
  - apply (X21_no_project_over_a_file
             "/tmp/galaplate-1" (Response 200 (Some demo_archive)) no_tool
             ["tmp"; "galaplate-1"] "demo/notes.txt" [] demo_world
             perm_0644 "keep me" eq_refl eq_refl eq_refl).
    simpl. tauto.
Defined.

(* ===================================================================== *)
(** * Templates without markers *)
(* ===================================================================== *)

Section PlainTemplates.

Lemma has_prefix_shorter p r s : has_prefix (p +++ r) s = true -> has_prefix p s = true.
Proof.
  intros H. apply has_prefix_inv in H as [x ->]. rewrite append_assoc.
  apply has_prefix_append.
Qed.

Lemma Contains_longer s p r :
  strings_Contains s p = false -> strings_Contains s (p +++ r) = false.
Proof.
  induction s as [|c s IH]; intros H.
  - rewrite Contains_unfold in H |- *. apply orb_false_iff in H as [H _].
    rewrite orb_false_r. destruct (has_prefix (p +++ r) EmptyString) eqn:E; [|reflexivity].
    apply has_prefix_shorter in E. congruence.
  - rewrite Contains_unfold in H |- *. apply orb_false_iff in H as [H1 H2].
    rewrite (IH H2), orb_false_r.
    destruct (has_prefix (p +++ r) (String c s)) eqn:E; [|reflexivity].
    apply has_prefix_shorter in E. congruence.
Qed.

(** A text without two opening braces in a row has no marker, and the
    four replacements leave it as it is. *)
Lemma render_template_plain opts content :
  strings_Contains content "{{" = false -> render_template opts content = content.
Proof.
  intros H. unfold render_template, token_map. cbn [fold_left fst snd].
  rewrite (ReplaceAll_absent "{{PROJECT_NAME}}" _ content)
    by exact (Contains_longer content "{{" "PROJECT_NAME}}" H).
  rewrite (ReplaceAll_absent "{{MODULE_NAME}}" _ content)
    by exact (Contains_longer content "{{" "MODULE_NAME}}" H).
  rewrite (ReplaceAll_absent "{{DB_TYPE}}" _ content)
    by exact (Contains_longer content "{{" "DB_TYPE}}" H).
  exact (ReplaceAll_absent "{{GALAPLATE_CORE_VERSION}}" _ content
           (Contains_longer content "{{" "GALAPLATE_CORE_VERSION}}" H)).
Qed.

End PlainTemplates.

(** X22.  A template in which two opening braces never stand together
    has no marker: a copy that succeeds writes its text as it is to the
    destination without the suffix.  Only the name changes. *)
Theorem X22_template_without_markers
    (src dest : string) (opts : ProjectOptions) (w w' : World)
    (ps pd : list string) (ms : Z) (d : string) :
  strings_HasSuffix src ".template" = true ->
  strings_Contains d "{{" = false ->
  resolve (w_cwd w) src = Some ps ->
  resolve (w_cwd w) dest = Some pd ->
  ps <> pd ->
  stat ps (w_root w) = Some (SFile ms d) ->
  copyFile src dest opts w = (None, w') ->
  exists pt m,
    resolve (w_cwd w) (strings_TrimSuffix dest ".template") = Some pt
    /\ stat pt (w_root w') = Some (SFile m d).
Proof.
  intros Hs Hplain Hps Hpd Hne Hsrc Hrun.
  destruct (copyFile_result _ _ _ _ _ _ _ _ _ Hps Hpd Hne Hsrc Hrun) as (pt & Hpt & St & _).
  rewrite (rule_of_template _ Hs) in *. cbn [rule_target rule_output] in Hpt, St.
  rewrite (render_template_plain _ _ Hplain) in St. eauto.
Qed.

Lemma X22_template_without_markers_witness :
  let w := mkWorld (Dir perm_0755
                      [("demo", Dir perm_0755 []);
                       ("tmp", Dir perm_0777
                          [("t", Dir perm_0700
                               [("Makefile.template", File perm_0644 "all: {build}")])])])
                   [] 18 [] in
  let w' := snd (copyFile "/tmp/t/Makefile.template" "/demo/Makefile.template" demo_opts w) in
  exists pt m,
    resolve [] (strings_TrimSuffix "/demo/Makefile.template" ".template") = Some pt
    /\ stat pt (w_root w') = Some (SFile m "all: {build}").
Proof.
  intros w w'.
  apply (X22_template_without_markers
           "/tmp/t/Makefile.template" "/demo/Makefile.template" demo_opts w w'
           ["tmp"; "t"; "Makefile.template"] ["demo"; "Makefile.template"]
           perm_0644 "all: {build}"); try reflexivity.
  discriminate.
Defined.

(* ===================================================================== *)
(** * The tools that the setup runs *)
(* ===================================================================== *)

Section ToolFacts.

Variable run_tool : string -> list string -> list string -> node -> bool * node.

Lemma exec_Run_spec name args w ok w' :
  exec_Run run_tool name args w = (ok, w') ->
  ok = fst (run_tool name args (w_cwd w) (w_root w))
  /\ w_cwd w' = w_cwd w
  /\ w_calls w' = w_calls w ++ [CallRun name args].
Proof.
  unfold exec_Run. rewrite bind_call.
  change (w_cwd (record_call (CallRun name args) w)) with (w_cwd w).
  change (w_root (record_call (CallRun name args) w)) with (w_root w).
  destruct (run_tool name args (w_cwd w) (w_root w)) as [ok' r].
  intros H. injection H as <- <-. repeat split.
Qed.

End ToolFacts.

(** X23.  The commands [setupProject] runs, once it is in the project
    directory: [git init] unless [--no-git] was given; [git add .] and
    [git commit] after it only if [git init] succeeded, and whether they
    succeed is not looked at; then [go mod tidy] in every case, also
    after a failure of git; and at the end the way back to the
    directory of the start. *)
Theorem X23_tools_of_the_setup
    (run_tool : string -> list string -> list string -> node -> bool * node)
    (opts : ProjectOptions) (w : World) (p : list string) (m : Z) (es : list (string * node)) :
  locate w (opt_Name opts) = Some p ->
  lookup p (w_root w) = Some (Dir m es) ->
  let init_ok := fst (run_tool "git" ["init"] p (w_root w)) in
  w_calls (snd (setupProject run_tool opts w))
  = w_calls w
    ++ [CallGetwd; CallChdir (opt_Name opts)]
    ++ (if opt_NoGit opts then []
        else if init_ok
             then [CallRun "git" ["init"]; CallRun "git" ["add"; "."];
                   CallRun "git" ["commit"; "-m"; "Initial commit from Galaplate"]]
             else [CallRun "git" ["init"]])
    ++ [CallRun "go" ["mod"; "tidy"]; CallChdir (render true (w_cwd w))].
Proof.
  intros Hp Hdir init_ok.
  destruct (setupProject run_tool opts w) as [e w'] eqn:H. cbn [snd].
  unfold setupProject in H.
  apply bind_inv in H as (r & w0 & H0 & H). injection H0 as <- <-.
  apply bind_inv in H as (err & w1 & H1 & H).
  rewrite os_Chdir_eq, locate_record in H1.
  change (w_root (record_call CallGetwd w)) with (w_root w) in H1.
  rewrite Hp, Hdir in H1. injection H1 as <- <-.
  apply bind_inv in H as (x1 & w2 & Hgit & H).
  apply bind_inv in H as (x2 & w3 & Hgo & H).
  apply bind_inv in H as (x3 & w4 & Hback & H). injection H as _ <-.
  apply exec_Run_spec in Hgo as (_ & _ & Lgo).
  rewrite (os_Chdir_calls _ _ _ _ Hback), Lgo.
  assert (w_calls w2
          = w_calls w ++ [CallGetwd; CallChdir (opt_Name opts)]
            ++ (if opt_NoGit opts then []
                else if init_ok
                     then [CallRun "git" ["init"]; CallRun "git" ["add"; "."];
                           CallRun "git" ["commit"; "-m"; "Initial commit from Galaplate"]]
                     else [CallRun "git" ["init"]])) as ->.
  { destruct (opt_NoGit opts); cbn [negb] in Hgit.
    - injection Hgit as _ <-. cbn [w_calls set_cwd record_call].
      rewrite <- !app_assoc. reflexivity.
    - apply bind_inv in Hgit as (ok & wi & Hinit & Hgit).
      apply exec_Run_spec in Hinit as (Eok & Ci & Li).
      cbn [w_cwd w_root set_cwd record_call] in Eok. fold init_ok in Eok. subst ok.
      cbn [w_calls set_cwd record_call] in Li.
      destruct init_ok.
      + apply bind_inv in Hgit as (xa & wa & Ha & Hgit).
        apply bind_inv in Hgit as (xc & wc & Hc & Hgit). injection Hgit as _ <-.
        apply exec_Run_spec in Ha as (_ & _ & La). apply exec_Run_spec in Hc as (_ & _ & Lc).
        rewrite Lc, La, Li, <- !app_assoc. reflexivity.
      + injection Hgit as _ <-. rewrite Li, <- !app_assoc. reflexivity. }
  rewrite <- !app_assoc. reflexivity.
Qed.

Lemma X23_tools_of_the_setup_witness :
  let no_git (name : string) (args cwd : list string) (r : node) :=
    (negb (String.eqb name "git"), r) in
  w_calls (snd (setupProject no_git demo_opts demo_world))
  = [CallGetwd; CallChdir "demo"; CallRun "git" ["init"]; CallRun "go" ["mod"; "tidy"];
     CallChdir "/home/u"].
Proof.
  intros no_git.
  exact (X23_tools_of_the_setup no_git demo_opts demo_world ["home"; "u"; "demo"] perm_0755
           [("notes.txt", File perm_0644 "keep me")] eq_refl eq_refl).
Defined.

(* ===================================================================== *)
(** * The entries of the scratch directory itself *)
(* ===================================================================== *)

Section TopLevel.

Lemma Join_not_special E :
  E <> [] -> Forall (fun e => is_kept e = true) E ->
  strings_Join E "/" <> EmptyString /\ strings_Join E "/" <> ".".
Proof.
  intros Hne K.
  pose proof (Split_Join E Hne (kept_lacks _ K)) as S.
  split; intros Eq; rewrite Eq in S; simpl in S; subst E;
    inversion K as [|? ? Hk _]; discriminate Hk.
Qed.

Lemma clean_elems_name abs out name :
  is_name name = true -> clean_elems abs out [name] = out ++ [name].
Proof.
  intros H. apply is_name_inv in H as (E1 & E2 & E3 & _). simpl. now rewrite E1, E2, E3.
Qed.

Lemma Clean_unfold path :
  path <> EmptyString ->
  filepath_Clean path
  = render (rooted path) (clean_elems (rooted path) [] (strings_Split path Separator)).
Proof. destruct path; [congruence | reflexivity]. Qed.

Lemma Clean_name name : is_name name = true -> filepath_Clean name = name.
Proof.
  intros H. pose proof (is_name_inv _ H) as (E1 & _ & _ & L).
  apply String.eqb_neq in E1.
  rewrite (Clean_unfold _ E1), (lacks_not_rooted _ E1 L), (Split_lacks _ _ L),
    (clean_elems_name _ _ _ H).
  reflexivity.
Qed.

Lemma Clean_root_name name : is_name name = true -> filepath_Clean ("/" +++ name) = "/" +++ name.
Proof.
  intros H. pose proof (is_name_inv _ H) as (_ & _ & _ & L).
  change ("/" +++ name) with (String Separator name).
  unfold filepath_Clean. change (rooted (String Separator name)) with true.
  rewrite Split_slash, (Split_lacks _ _ L).
  change (clean_elems true [] [EmptyString; name]) with (clean_elems true [] [name]).
  rewrite (clean_elems_name _ _ _ H). reflexivity.
Qed.

Lemma render_snoc abs E name :
  render abs (E ++ [name])
  = match E with
    | [] => if abs then "/" +++ name else name
    | _ :: _ => render abs E +++ "/" +++ name
    end.
Proof.
  destruct E as [|e E']; [now destruct abs|].
  destruct abs.
  - unfold render. rewrite Join_snoc by discriminate. now rewrite append_assoc.
  - change (render false ((e :: E') ++ [name]))
      with (strings_Join ((e :: E') ++ [name]) "/").
    change (render false (e :: E')) with (strings_Join (e :: E') "/").
    apply Join_snoc. discriminate.
Qed.

Lemma render_not_special abs E :
  E <> [] -> Forall (fun e => is_kept e = true) E ->
  render abs E <> "/" /\ render abs E <> ".".
Proof.
  intros HE K. destruct (Join_not_special E HE K) as [J1 J2].
  destruct E as [|e E']; [congruence|]. destruct abs.
  - unfold render. split; [|discriminate]. intros Eq. injection Eq as Eq. contradiction.
  - change (render false (e :: E')) with (strings_Join (e :: E') "/").
    split; [|exact J2]. intros Eq.
    pose proof (rooted_render false (e :: E') K) as R.
    change (render false (e :: E')) with (strings_Join (e :: E') "/") in R.
    rewrite Eq in R. discriminate R.
Qed.

(** The cleaned path of an entry [name] of the directory with the
    clean path [base]. *)
Lemma Clean_child base name :
  base <> EmptyString -> filepath_Clean base = base -> is_name name = true ->
  filepath_Clean (base +++ "/" +++ name)
  = if String.eqb base "/" then "/" +++ name
    else if String.eqb base "." then name
    else base +++ "/" +++ name.
Proof.
  intros Hne Hclean Hname.
  pose proof (is_name_inv _ Hname) as (N1 & _ & _ & L).
  pose proof (Clean_kept base) as K.
  pose proof (Clean_unfold _ Hne) as Hb. rewrite Hclean in Hb.
  rewrite Clean_unfold by (destruct base; [congruence | discriminate]).
  rewrite (rooted_append _ _ Hne).
  change (base +++ "/" +++ name) with (base +++ String Separator name).
  rewrite Split_append, (Split_lacks _ _ L), clean_elems_app, (clean_elems_name _ _ _ Hname).
  rewrite render_snoc.
  destruct (clean_elems (rooted base) [] (strings_Split base Separator)) as [|e E'] eqn:EE.
  - rewrite Hb. now destruct (rooted base).
  - rewrite <- Hb.
    destruct (render_not_special (rooted base) (e :: E')) as [R1 R2];
      [discriminate | assumption|].
    rewrite <- Hb in R1, R2.
    apply String.eqb_neq in R1 as ->. apply String.eqb_neq in R2 as ->. reflexivity.
Qed.

Lemma has_prefix_lacks p c r s :
  has_prefix (p +++ String c r) s = true -> lacks c s = false.
Proof.
  intros H. apply has_prefix_inv in H as [x ->].
  rewrite append_assoc, lacks_append. simpl. rewrite Ascii.eqb_refl. simpl.
  apply andb_false_r.
Qed.

(** [filepath.Rel] gives an entry of the directory its name. *)
Lemma Rel_child base name :
  base <> EmptyString -> filepath_Clean base = base -> is_name name = true ->
  filepath_Rel base (filepath_Join [base; name]) = Ok name.
Proof.
  intros Hne Hclean Hname.
  pose proof (is_name_inv _ Hname) as (N1 & N2 & N3 & L).
  apply String.eqb_neq in N1 as N1'.
  assert (rooted name = false) as Rn by now apply lacks_not_rooted.
  rewrite Join_cons. apply String.eqb_neq in Hne as Hne'. rewrite Hne'.
  change (strings_Join [base; name] "/") with (base +++ "/" +++ name).
  unfold filepath_Rel. rewrite Hclean.
  rewrite (Clean_child _ _ Hne Hclean Hname).
  destruct (String.eqb_spec base "/") as [->|Nroot].
  - rewrite (Clean_root_name _ Hname).
    destruct (String.eqb_spec ("/" +++ name) "/") as [Eq|_].
    { injection Eq as Eq. contradiction. }
    reflexivity.
  - destruct (String.eqb_spec base ".") as [->|Ndot].
    + rewrite (Clean_name _ Hname), N2. cbn [String.eqb]. rewrite Rn, N3. cbn [orb].
      unfold strings_HasPrefix.
      destruct (has_prefix "../" name) eqn:Hp; [|reflexivity].
      apply (has_prefix_lacks ".." "/"%char EmptyString) in Hp.
      unfold Separator in L. congruence.
    + rewrite (Clean_child _ _ Hne Hclean Hname).
      apply String.eqb_neq in Nroot as ->. apply String.eqb_neq in Ndot as ->.
      destruct (String.eqb_spec (base +++ "/" +++ name) base) as [Eq|_].
      { exfalso. apply (f_equal String.length) in Eq.
        rewrite !length_append in Eq. simpl in Eq. lia. }
      unfold strings_HasPrefix.
      rewrite <- (append_assoc base "/" name), has_prefix_append.
      replace (String.length base + 1)%nat with (String.length (base +++ "/"))
        by (rewrite length_append; reflexivity).
      now rewrite string_drop_append.
Qed.

Lemma excluded_names : Forall (fun e => is_name e = true) excludeDirs.
Proof. repeat constructor. Qed.

(** The walk passes over an entry of the scratch directory that has
    the name of an excluded directory. *)
Lemma walk_names_skip srcRoot destDir opts name n rest w :
  srcRoot <> EmptyString -> filepath_Clean srcRoot = srcRoot ->
  In name excludeDirs ->
  walk_names (copy_visit srcRoot destDir opts) srcRoot ((name, n) :: rest) w
  = walk_names (copy_visit srcRoot destDir opts) srcRoot rest w.
Proof.
  intros Hne Hclean Hin.
  assert (is_name name = true) as Hname
      by (pose proof excluded_names as F; rewrite Forall_forall in F; now apply F).
  pose proof (Rel_child _ _ Hne Hclean Hname) as Hrel.
  assert (In (nth 0 (strings_Split name Separator) EmptyString) excludeDirs) as Hfirst.
  { apply is_name_inv in Hname as (_ & _ & _ & L). now rewrite (Split_lacks _ _ L). }
  cbn [walk_names]. unfold bind.
  destruct n as [m d|m es].
  - cbn [walk]. rewrite (copy_visit_excluded _ _ _ _ _ _ _ Hrel Hfirst). reflexivity.
  - rewrite walk_dir. unfold bind.
    rewrite (copy_visit_excluded _ _ _ _ _ _ _ Hrel Hfirst). reflexivity.
Qed.

Lemma walk_names_cut srcRoot destDir opts es :
  srcRoot <> EmptyString -> filepath_Clean srcRoot = srcRoot ->
  forall w,
    walk_names (copy_visit srcRoot destDir opts) srcRoot es w
    = walk_names (copy_visit srcRoot destDir opts) srcRoot
                 (filter (fun e => negb (excluded_entry e)) es) w.
Proof.
  intros Hne Hclean. induction es as [|[name n] es IH]; intros w; [reflexivity|].
  cbn [filter]. destruct (excluded_entry (name, n)) eqn:Ex; cbn [negb].
  - rewrite walk_names_skip; [apply IH | assumption | assumption|].
    now apply existsb_eqb_In.
  - cbn [walk_names]. unfold bind.
    destruct (walk _ _ n w) as [[e|] w1]; [|apply IH].
    destruct (negb (is_dir n) || negb (is_SkipDir e)); [reflexivity | apply IH].
Qed.

Lemma walk_cut srcRoot destDir opts m es w :
  srcRoot <> EmptyString -> filepath_Clean srcRoot = srcRoot ->
  walk (copy_visit srcRoot destDir opts) srcRoot (Dir m es) w
  = walk (copy_visit srcRoot destDir opts) srcRoot
         (Dir m (filter (fun e => negb (excluded_entry e)) es)) w.
Proof.
  intros Hne Hclean. rewrite !walk_dir. unfold bind. cbn [info_of is_dir node_perm].
  destruct (copy_visit srcRoot destDir opts srcRoot _ None w) as [[e|] w1]; [reflexivity|].
  now apply walk_names_cut.
Qed.

End TopLevel.

(** X24.  The entries of the scratch directory that have the name of
    an excluded directory play no part in the copy: the walk of a
    scratch directory is, call for call and in its result, the walk of
    the same directory without these entries, however large they are,
    and so is [copyProjectFiles].  (The scratch directory is given by a
    clean path, as [os.MkdirTemp] answers with.) *)
Theorem X24_excluded_entries_play_no_part
    (srcRoot destDir : string) (opts : ProjectOptions) (m : Z) (es : list (string * node))
    (w : World) :
  srcRoot <> EmptyString ->
  filepath_Clean srcRoot = srcRoot ->
  let kept := filter (fun e => negb (excluded_entry e)) es in
  walk (copy_visit srcRoot destDir opts) srcRoot (Dir m es) w
  = walk (copy_visit srcRoot destDir opts) srcRoot (Dir m kept) w
  /\ (node_at w srcRoot = Some (Dir m es) ->
      copyProjectFiles srcRoot destDir opts w
      = let r := walk (copy_visit srcRoot destDir opts) srcRoot (Dir m kept)
                      (record_call (CallWalk srcRoot) w) in
        (match fst r with Some SkipDir => None | e => e end, snd r)).
Proof.
  intros Hne Hclean kept. split; [now apply walk_cut|].
  intros Hn. unfold copyProjectFiles, filepath_Walk. rewrite bind_call.
  change (node_at (record_call (CallWalk srcRoot) w) srcRoot) with (node_at w srcRoot).
  rewrite Hn, (walk_cut _ _ _ _ _ _ Hne Hclean). fold kept.
  destruct (walk _ srcRoot (Dir m kept) _) as [[[]|] w1]; reflexivity.
Qed.

Lemma X24_excluded_entries_play_no_part_witness :
  copyProjectFiles "/tmp/galaplate-1" "demo" demo_opts template_world
  = let r := walk (copy_visit "/tmp/galaplate-1" "demo" demo_opts) "/tmp/galaplate-1"
               (Dir perm_0700
                  [(".env.template", File perm_0644 "APP={{PROJECT_NAME}} DB={{DB_TYPE}}");
                   ("go.mod", File perm_0644 go_mod_text);
                   ("main.go.template",
                    File perm_0644
                         "package main // {{MODULE_NAME}} github.com/galaplate/galaplate");
                   ("pkg", Dir perm_0755
                      [("a.go", File perm_0644
                                  ("import " +++ quoted "github.com/galaplate/galaplate/pkg/db"))]);
                   ("run.sh", File perm_0755 "#!/bin/sh")])
               (record_call (CallWalk "/tmp/galaplate-1") template_world) in
    (match fst r with Some SkipDir => None | e => e end, snd r).
Proof.
  destruct (X24_excluded_entries_play_no_part "/tmp/galaplate-1" "demo" demo_opts perm_0700
              [(".env.template", File perm_0644 "APP={{PROJECT_NAME}} DB={{DB_TYPE}}");
               ("cmd", Dir perm_0755 [("x.go", File perm_0644 "package main")]);
               ("go.mod", File perm_0644 go_mod_text);
               ("main.go.template",
                File perm_0644
                     "package main // {{MODULE_NAME}} github.com/galaplate/galaplate");
               ("pkg", Dir perm_0755
                  [("a.go", File perm_0644
                              ("import " +++ quoted "github.com/galaplate/galaplate/pkg/db"))]);
               ("run.sh", File perm_0755 "#!/bin/sh")]
              template_world) as [_ Copy].
  - discriminate.
  - reflexivity.
  - apply Copy. reflexivity.
Defined.

(* ===================================================================== *)
(** * The command line *)
(* ===================================================================== *)

(** X25.  Only the command [new] does anything: every other command
    line, correct or not, makes no call and leaves the world as it is.
    The exit status is 1 exactly when the command is unknown or the
    create operation answered with an error (as it does for [new]
    without a project name), and 0 otherwise, also when no command is
    given. *)
Theorem X25_exit_status
    (temp_name : string) (response : HttpResult)
    (run_tool : string -> list string -> list string -> node -> bool * node)
    (os_Args : list string) (w : World) :
  let cmd := nth 1 os_Args EmptyString in
  let status := fst (main temp_name response run_tool os_Args w) in
  let w' := snd (main temp_name response run_tool os_Args w) in
  let known := "new" :: "version" :: "templates" :: help_commands in
  (cmd <> "new" -> w' = w)
  /\ (cmd = "new" ->
      w' = snd (handleNewProject temp_name response run_tool (skipn 2 os_Args) w))
  /\ (status = 1%Z
      <-> (2 <= Datatypes.length os_Args)%nat
          /\ (~ In cmd known
              \/ (cmd = "new"
                  /\ fst (handleNewProject temp_name response run_tool (skipn 2 os_Args) w)
                     <> None)))
  /\ (status = 0%Z \/ status = 1%Z).
Proof.
  intros cmd status w' known. subst status w'. unfold main. fold cmd.
  destruct (Nat.ltb_spec (Datatypes.length os_Args) 2) as [Hlen|Hlen].
  { cbn [ret fst snd]. split; [reflexivity|]. split.
    - intros E. exfalso. subst cmd.
      destruct os_Args as [|a [|b l]]; [discriminate E | discriminate E | simpl in Hlen; lia].
    - split; [|now left]. split; [discriminate | intros [H _]; lia]. }
  destruct (String.eqb_spec cmd "new") as [Enew|Nnew].
  { unfold bind.
    destruct (handleNewProject temp_name response run_tool (skipn 2 os_Args) w) as [e w1].
    cbn [fst snd]. split; [congruence|]. split; [now destruct e|].
    destruct e as [er|]; cbn [ret fst]; (split; [|auto]).
    - split; [intros _; split; [assumption | right; split; [assumption | discriminate]]
             | reflexivity].
    - split; [discriminate|]. intros [_ [Hk|[_ Hn]]]; [|congruence].
      exfalso. apply Hk. left. now symmetry. }
  split; [|split; [congruence|]].
  { destruct (String.eqb cmd "version"); [reflexivity|].
    destruct (String.eqb cmd "templates"); [reflexivity|].
    now destruct (slices_Contains help_commands cmd). }
  assert (forall b, (In cmd known <-> b = true) ->
            (fst ((if b then ret 0%Z else ret 1%Z) w) = 1%Z
             <-> (2 <= Datatypes.length os_Args)%nat
                 /\ (~ In cmd known
                     \/ cmd = "new"
                        /\ fst (handleNewProject temp_name response run_tool
                                  (skipn 2 os_Args) w) <> None))
            /\ (fst ((if b then ret 0%Z else ret 1%Z) w) = 0%Z
                \/ fst ((if b then ret 0%Z else ret 1%Z) w) = 1%Z)) as K.
  { intros [|] Hb; cbn [ret fst]; (split; [|auto]).
    - split; [discriminate|]. intros [_ [Hk|[E _]]]; [|congruence].
      exfalso. apply Hk. now apply Hb.
    - split; [|reflexivity]. intros _. split; [assumption|]. left. intros Hk.
      apply Hb in Hk. discriminate Hk. }
  destruct (String.eqb_spec cmd "version") as [Ev|Nv].
  { apply (K true). split; [reflexivity|]. intros _. right. left. now symmetry. }
  destruct (String.eqb_spec cmd "templates") as [Et|Ntm].
  { apply (K true). split; [reflexivity|]. intros _. right. right. left. now symmetry. }
  apply (K (slices_Contains help_commands cmd)). unfold slices_Contains.
  rewrite existsb_eqb_In. unfold known. cbn [In].
  split; [intros [E|[E|[E|H]]]; [congruence | congruence | congruence | exact H]
         | intros H; right; right; right; exact H].
Qed.

(* ===================================================================== *)
(** * The option that is not used *)
(* ===================================================================== *)

(** X26.  The template option has no effect on the operation: two
    command lines whose options differ in nothing but the template
    give the same answer, make the same calls and leave the same world.
    The archive is always that of the one repository, and nothing in
    the copy looks at the template. *)
Theorem X26_template_option_unused
    (temp_name : string) (response : HttpResult)
    (run_tool : string -> list string -> list string -> node -> bool * node)
    (args1 args2 : list string) (w : World) :
  args1 <> [] -> args2 <> [] ->
  opt_Name (parseProjectArgs args1) = opt_Name (parseProjectArgs args2) ->
  opt_DbType (parseProjectArgs args1) = opt_DbType (parseProjectArgs args2) ->
  opt_Module (parseProjectArgs args1) = opt_Module (parseProjectArgs args2) ->
  opt_NoGit (parseProjectArgs args1) = opt_NoGit (parseProjectArgs args2) ->
  opt_Force (parseProjectArgs args1) = opt_Force (parseProjectArgs args2) ->
  handleNewProject temp_name response run_tool args1 w
  = handleNewProject temp_name response run_tool args2 w.
Proof.
  intros H1 H2 En Ed Em Eg Ef. unfold handleNewProject.
  destruct args1 as [|a1 l1]; [congruence|]. destruct args2 as [|a2 l2]; [congruence|].
  change (Datatypes.length (a1 :: l1) =? 0)%nat with false.
  change (Datatypes.length (a2 :: l2) =? 0)%nat with false. cbv iota.
  destruct (parseProjectArgs (a1 :: l1)) as [n1 t1 d1 m1 g1 f1].
  destruct (parseProjectArgs (a2 :: l2)) as [n2 t2 d2 m2 g2 f2].
  cbn [opt_Name opt_DbType opt_Module opt_NoGit opt_Force] in *. subst.
  reflexivity.
Qed.

Lemma X26_template_option_unused_witness :
  handleNewProject "/tmp/galaplate-1" (Response 200 (Some demo_archive)) no_tool
                   ["shop"; "--template=micro"; "--db=mysql"] demo_world
  = handleNewProject "/tmp/galaplate-1" (Response 200 (Some demo_archive)) no_tool
                     ["shop"; "--db=mysql"] demo_world.
Proof.
  apply X26_template_option_unused; try reflexivity; discriminate.
Defined.
